(** * Ant colony simulator: a shallow embedding of the simulation core

    The development follows the Python sources module by module:
    [config], [utils/vector], [core/nest], [core/pheromone],
    [ml/neural_network], [ml/agent], [core/food], [core/environment],
    [core/ant], [core/colony] and [ml/evolution], and ends with the steps
    of the environment, the headless run and the headless [main].

    Conventions of the embedding.
    - Python [int] is [Z]; list lengths and loop counters are [nat].
    - Python and numpy floats are idealised as exact rationals ([Q]); the
      irrational numpy primitives (square root, sine, cosine, exponential,
      pi) are fields of the class [NumPy] and stay abstract.
    - The global numpy random generator is the class [Random]: an abstract
      generator state threaded through every function that draws from it.
    - A raised Python exception is [None]; functions that can raise and draw
      random numbers live in the monad [M].
    - Python objects that are shared by reference (food sources) live in an
      explicit heap and are named by their address.  Networks are records of
      their arrays; where a property asks which objects a method creates or
      writes, the networks and their arrays live in a store
      ([NetworkStore]).
    - The one unbounded loop, the search for a food position in
      [Environment.generate_food], takes a bound on its attempts.

    Left out, since no property below reaches them: the rendering and
    control panels, logging, [NeuralNetwork.backprop] and
    [MLAgent.learn_from_experience], which the simulation never calls, and
    [Colony.get_colony_stats]. *)

From Stdlib Require Import ZArith QArith Qround Qabs Lia Lqa.
From stdpp Require Import base option list gmap strings.

Open Scope Q_scope.

(** ** Numeric and random primitives *)

Class NumPy := {
  np_sqrt : Q → Q;
  np_cos : Q → Q;
  np_sin : Q → Q;
  np_exp : Q → Q;
  np_pi : Q
}.

(** [np.random]: [rand_random] is one draw of [np.random.random()],
    [rand_normal mu sigma] one draw of [np.random.normal(mu, sigma)],
    [rand_uniform lo hi] one draw of [np.random.uniform(lo, hi)] and
    [rand_choice n k] is [np.random.choice(n, k, replace=False)]. *)
Class Random := {
  G : Type;
  rand_random : G → Q * G;
  rand_normal : Q → Q → G → Q * G;
  rand_uniform : Q → Q → G → Q * G;
  rand_choice : nat → nat → G → list nat * G
}.

(** Comparisons on floats, as booleans. *)
Definition Qltb (x y : Q) : bool := negb (Qle_bool y x).
Definition Qleb (x y : Q) : bool := Qle_bool x y.
Definition Qeqb (x y : Q) : bool := Qeq_bool x y.

(** ** config.py *)

Module config.

Record t := {
  WORLD_WIDTH : Z;
  WORLD_HEIGHT : Z;
  WRAP_WORLD : bool;
  NEST_RADIUS : Z;
  INITIAL_ENERGY : Z;
  MAX_COLONY_SIZE : nat;
  ANT_SIZE : Z;
  ANT_VISION_RANGE : Z;
  ANT_SPEED : Z;
  ANT_ENERGY_CONSUMPTION : Q;
  ANT_ENERGY_FROM_FOOD : Z;
  ANT_LIFESPAN : Z;
  FOOD_SIZE : Z;
  FOOD_ENERGY : Z;
  PHEROMONE_DEPOSIT : Z;
  PHEROMONE_EVAPORATION_RATE : Q;
  PHEROMONE_DIFFUSION : Q;
  NEURAL_NETWORK_LAYERS : list nat;
  MUTATION_RATE : Q;
  CROSSOVER_RATE : Q
}.

(** The values of config.py. *)
Definition default : t := {|
  WORLD_WIDTH := 1200;
  WORLD_HEIGHT := 800;
  WRAP_WORLD := true;
  NEST_RADIUS := 50;
  INITIAL_ENERGY := 500;
  MAX_COLONY_SIZE := 500;
  ANT_SIZE := 8;
  ANT_VISION_RANGE := 50;
  ANT_SPEED := 3;
  ANT_ENERGY_CONSUMPTION := 5 # 100;
  ANT_ENERGY_FROM_FOOD := 100;
  ANT_LIFESPAN := 3000;
  FOOD_SIZE := 5;
  FOOD_ENERGY := 50;
  PHEROMONE_DEPOSIT := 10;
  PHEROMONE_EVAPORATION_RATE := 995 # 1000;
  PHEROMONE_DIFFUSION := 5 # 100;
  NEURAL_NETWORK_LAYERS := [16; 32; 16]%nat;
  MUTATION_RATE := 1 # 10;
  CROSSOVER_RATE := 7 # 10
|}.

End config.

(** ** utils/vector.py *)

Module Vector2D.

Record t := { x : Q; y : Q }.

Definition add (a b : t) : t := {| x := x a + x b; y := y a + y b |}.
Definition sub (a b : t) : t := {| x := x a - x b; y := y a - y b |}.
Definition mul (a : t) (scalar : Q) : t :=
  {| x := x a * scalar; y := y a * scalar |}.
Definition truediv (a : t) (scalar : Q) : t :=
  if Qeqb scalar 0 then {| x := 0; y := 0 |}
  else {| x := x a / scalar; y := y a / scalar |}.
Definition magnitude_squared (a : t) : Q := x a * x a + y a * y a.
Definition dot (a b : t) : Q := x a * x b + y a * y b.
Definition perp (a : t) : t := {| x := - y a; y := x a |}.

Section WithNumPy.
Context `{!NumPy}.

Definition magnitude (a : t) : Q := np_sqrt (x a * x a + y a * y a).

Definition normalized (a : t) : t :=
  let mag := magnitude a in
  if Qeqb mag 0 then {| x := 0; y := 0 |}
  else {| x := x a / mag; y := y a / mag |}.

Definition distance_to (a other : t) : Q := magnitude (sub other a).

Definition rotate (a : t) (angle : Q) : t :=
  let cos_theta := np_cos angle in
  let sin_theta := np_sin angle in
  {| x := x a * cos_theta - y a * sin_theta;
     y := x a * sin_theta + y a * cos_theta |}.

Definition random_unit_vector `{!Random} (g : G) : t * G :=
  let '(angle, g) := rand_uniform 0 (2 * np_pi) g in
  ({| x := np_cos angle; y := np_sin angle |}, g).
End WithNumPy.

End Vector2D.

(** ** core/nest.py *)

Module Nest.

Record chamber := { size : Z; capacity : Z }.

Record t := {
  position : Vector2D.t;
  radius : Z;
  food_stored : Z;
  structure_level : Z;
  chambers : gmap string chamber
}.

Definition init (x y : Q) (radius : Z) : t := {|
  position := {| Vector2D.x := x; Vector2D.y := y |};
  radius := radius;
  food_stored := 0;
  structure_level := 1;
  chambers :=
    <["food" := {| size := 1; capacity := 100 |}]>
      (<["nursery" := {| size := 1; capacity := 20 |}]>
        (<["queen" := {| size := 1; capacity := 1 |}]> ∅))
|}.

(** The body of the loop over [self.chambers.values()]. *)
Definition upgrade_chamber (c : chamber) : chamber :=
  let size' := (size c + 1)%Z in
  {| size := size'; capacity := (size' * capacity c)%Z |}.

Definition _check_upgrades (n : t) : t :=
  if (structure_level n * 100 <=? food_stored n)%Z then
    {| position := position n;
       radius := (radius n + 5)%Z;
       food_stored := (food_stored n - structure_level n * 100)%Z;
       structure_level := (structure_level n + 1)%Z;
       chambers := upgrade_chamber <$> chambers n |}
  else n.

Definition add_food (n : t) (amount : Z) : t :=
  _check_upgrades
    {| position := position n;
       radius := radius n;
       food_stored := (food_stored n + amount)%Z;
       structure_level := structure_level n;
       chambers := chambers n |}.

(** The upgrade threshold no longer holds. *)
Definition below_threshold (n : t) : Prop :=
  (food_stored n < structure_level n * 100)%Z.

End Nest.

(** ** Exceptions and the random generator

    [M A] is a computation that may raise (result [None]) and that threads
    the state of the random generator. *)

Definition M `{!Random} (A : Type) : Type := G → option (A * G).

#[global] Instance M_ret `{!Random} : MRet M := λ A a g, Some (a, g).

#[global] Instance M_bind `{!Random} : MBind M := λ A B f m g,
  match m g with
  | Some (a, g') => f a g'
  | None => None
  end.

Definition raise `{!Random} {A : Type} : M A := λ _, None.

(** A step that can raise but draws nothing. *)
Definition lift `{!Random} {A : Type} (o : option A) : M A :=
  λ g, match o with Some a => Some (a, g) | None => None end.

(** A draw from the generator. *)
Definition draw `{!Random} {A : Type} (f : G → A * G) : M A :=
  λ g, Some (f g).

(** [n] successive runs of [m], results in order. *)
Fixpoint repeatM `{!Random} {A : Type} (n : nat) (m : M A) : M (list A) :=
  match n with
  | O => mret []
  | S n' => a ← m; l ← repeatM n' m; mret (a :: l)
  end.

(** A loop [for x in l: c = body(c, x)] in [M]. *)
Fixpoint foldM `{!Random} {A C : Type} (body : C → A → M C) (c : C)
    (l : list A) : M C :=
  match l with
  | [] => mret c
  | a :: l' => c' ← body c a; foldM body c' l'
  end.

(** The same loop for code that draws nothing. *)
Fixpoint fold_option {A C : Type} (body : C → A → option C) (c : C)
    (l : list A) : option C :=
  match l with
  | [] => Some c
  | a :: l' => c' ← body c a; fold_option body c' l'
  end.

(** [m] raises nothing, whatever the state of the generator, and its
    result satisfies [P]. *)
Definition returns `{!Random} {A : Type} (m : M A) (P : A → Prop) : Prop :=
  ∀ g, ∃ a g', m g = Some (a, g') ∧ P a.

(** Python's [range(lo, hi)] for [0 <= lo]. *)
Definition range (lo hi : Z) : list nat :=
  seq (Z.to_nat lo) (Z.to_nat (hi - lo)).

(** numpy indexing along an axis of length [n]: a negative index counts
    from the end, an index outside [-n, n) raises IndexError. *)
Definition np_index (n : nat) (i : Z) : option nat :=
  if ((0 <=? i) && (i <? Z.of_nat n))%Z then Some (Z.to_nat i)
  else if ((- Z.of_nat n <=? i) && (i <? 0))%Z then Some (Z.to_nat (Z.of_nat n + i))
  else None.

(** The spec's grid dimension, [ceil(a / b)] for integers. *)
Definition spec_ceil_div (a b : Z) : Z := (- ((- a) / b))%Z.

(** [x // r] for a float [x] and an int [r], then [int(...)]. *)
Definition floor_div (x : Q) (r : Z) : Z := Qfloor (x / inject_Z r).

(** ** core/pheromone.py *)

Module PheromoneSystem.

Record t := {
  width : Z;
  height : Z;
  resolution : Z;
  grid_width : Z;
  grid_height : Z;
  grids : gmap string (list (list Q))
}.

Definition set_grids (ps : t) (gs : gmap string (list (list Q))) : t :=
  {| width := width ps; height := height ps; resolution := resolution ps;
     grid_width := grid_width ps; grid_height := grid_height ps;
     grids := gs |}.

(** [np.zeros((n, m))]; a negative dimension raises ValueError. *)
Definition np_zeros (n m : Z) : option (list (list Q)) :=
  if ((n <? 0) || (m <? 0))%Z then None
  else Some (replicate (Z.to_nat n) (replicate (Z.to_nat m) 0)).

(** [__init__]; [//] raises ZeroDivisionError for a zero resolution. *)
Definition init (width height resolution : Z) : option t :=
  if (resolution =? 0)%Z then None
  else
    let grid_width := (width / resolution + 1)%Z in
    let grid_height := (height / resolution + 1)%Z in
    food ← np_zeros grid_width grid_height;
    home ← np_zeros grid_width grid_height;
    Some {| width := width; height := height; resolution := resolution;
            grid_width := grid_width; grid_height := grid_height;
            grids := <["food" := food]> (<["home" := home]> ∅) |}.

(** [grid[gx, gy]] *)
Definition grid_get (g : list (list Q)) (gx gy : Z) : option Q :=
  i ← np_index (length g) gx;
  row ← g !! i;
  j ← np_index (length row) gy;
  row !! j.

(** [grid[gx, gy] += amount] *)
Definition grid_add (g : list (list Q)) (gx gy : Z) (amount : Q)
    : option (list (list Q)) :=
  i ← np_index (length g) gx;
  row ← g !! i;
  j ← np_index (length row) gy;
  v ← row !! j;
  Some (<[i := <[j := v + amount]> row]> g).

Definition add_pheromone (ps : t) (position : Vector2D.t)
    (pheromone_type : string) (amount : Q) : option t :=
  match grids ps !! pheromone_type with
  | None => Some ps
  | Some g =>
      if (resolution ps =? 0)%Z then None
      else
        let grid_x := Z.min (floor_div (Vector2D.x position) (resolution ps))
                            (grid_width ps - 1) in
        let grid_y := Z.min (floor_div (Vector2D.y position) (resolution ps))
                            (grid_height ps - 1) in
        g' ← grid_add g grid_x grid_y amount;
        Some (set_grids ps (<[pheromone_type := g']> (grids ps)))
  end.

Record intensities := { ahead : Q; left : Q; right : Q }.

Definition get_intensity (ps : t) (position : Vector2D.t)
    (pheromone_type : string) (radius : Z) : option intensities :=
  match grids ps !! pheromone_type with
  | None => Some {| ahead := 0; left := 0; right := 0 |}
  | Some g =>
      if (resolution ps =? 0)%Z then None
      else
        let grid_x := Z.min (floor_div (Vector2D.x position) (resolution ps))
                            (grid_width ps - 1) in
        let grid_y := Z.min (floor_div (Vector2D.y position) (resolution ps))
                            (grid_height ps - 1) in
        let grid_radius := Z.max 1 (radius / resolution ps) in
        let get_grid_value (dx dy : Z) : option Q :=
          if ((grid_width ps =? 0) || (grid_height ps =? 0))%Z then None
          else
            let gx := ((grid_x + dx) mod grid_width ps)%Z in
            let gy := ((grid_y + dy) mod grid_height ps)%Z in
            grid_get g gx gy in
        a ← get_grid_value 0%Z (- grid_radius)%Z;
        l ← get_grid_value (- grid_radius)%Z 0%Z;
        r ← get_grid_value grid_radius 0%Z;
        Some {| ahead := a; left := l; right := r |}
  end.

(** The value of cell [(i, j)]; the loops of [update] only read cells that
    exist. *)
Definition cell (g : list (list Q)) (i j : nat) : Q :=
  default 0 (g !! i ≫= (.!! j)).

(** The cell [(i, j)] exists in the grid. *)
Definition has_cell (g : list (list Q)) (i j : nat) : Prop :=
  is_Some (g !! i ≫= (.!! j)).

(** A cell is interior when the diffusion loops visit it: the loops run
    over [range(1, grid_width - 1)] and [range(1, grid_height - 1)]. *)
Definition interior (gw gh : Z) (i j : nat) : Prop :=
  (1 ≤ Z.of_nat i < gw - 1)%Z ∧ (1 ≤ Z.of_nat j < gh - 1)%Z.

(** [diffused[i, j] = v] *)
Definition set_cell (g : list (list Q)) (i j : nat) (v : Q) : list (list Q) :=
  alter <[j := v]> i g.

(** [np.mean] of a list of four values. *)
Definition np_mean4 (a b c d : Q) : Q := (a + b + c + d) / 4.

(** [grid *= rate] *)
Definition evaporate (rate : Q) (g : list (list Q)) : list (list Q) :=
  map (map (λ v, v * rate)) g.

(** The right-hand side of the assignment in the diffusion loop. *)
Definition diffused_value (d : Q) (g : list (list Q)) (i j : nat) : Q :=
  (1 - d) * cell g i j +
  d * np_mean4 (cell g (i - 1) j) (cell g (i + 1) j)
               (cell g i (j - 1)) (cell g i (j + 1)).

(** The two nested loops over the interior cells, writing into the copy
    [diffused] while reading the evaporated grid [g]. *)
Definition diffuse (d : Q) (gw gh : Z) (g : list (list Q)) : list (list Q) :=
  foldl (λ diffused i,
           foldl (λ diffused j, set_cell diffused i j (diffused_value d g i j))
                 diffused (range 1 (gh - 1)))
        g (range 1 (gw - 1)).

(** The body of the loop over the pheromone types. *)
Definition update_grid (cfg : config.t) (gw gh : Z) (g : list (list Q))
    : list (list Q) :=
  let g := evaporate (config.PHEROMONE_EVAPORATION_RATE cfg) g in
  if Qltb 0 (config.PHEROMONE_DIFFUSION cfg)
  then diffuse (config.PHEROMONE_DIFFUSION cfg) gw gh g
  else g.

Definition update (cfg : config.t) (ps : t) : t :=
  set_grids ps (update_grid cfg (grid_width ps) (grid_height ps) <$> grids ps).

(** The class invariant set up by [__init__]: every grid has
    [grid_width] rows of [grid_height] cells. *)
Definition wf (ps : t) : Prop :=
  ∀ ch g, grids ps !! ch = Some g →
    Z.of_nat (length g) = grid_width ps ∧
    Forall (λ row, Z.of_nat (length row) = grid_height ps) g.

(** Every cell of every channel is non-negative. *)
Definition nonnegative (ps : t) : Prop :=
  ∀ ch g i j, grids ps !! ch = Some g → 0 <= cell g i j.

(** The property of the spec: in every channel, no cell of [after] is
    larger than the same cell of [before]. *)
Definition non_increasing (before after : t) : Prop :=
  ∀ ch g g' i j,
    grids before !! ch = Some g → grids after !! ch = Some g' →
    cell g' i j <= cell g i j.

(** A 20 by 20 world (3 by 3 cells) after one deposit of 10 units of food
    pheromone at position (5, 15), which is cell (0, 1). *)
Definition deposit_example : option t :=
  ps ← init 20 20 10;
  add_pheromone ps {| Vector2D.x := 5; Vector2D.y := 15 |} "food" 10.

(** The state that [deposit_example] builds. *)
Definition deposit_grid : list (list Q) := [[0; 10; 0]; [0; 0; 0]; [0; 0; 0]].
Definition empty_grid : list (list Q) := [[0; 0; 0]; [0; 0; 0]; [0; 0; 0]].
Definition deposit_state : t :=
  {| width := 20; height := 20; resolution := 10;
     grid_width := 3; grid_height := 3;
     grids := <["food" := deposit_grid]> (<["home" := empty_grid]> ∅) |}.

End PheromoneSystem.

(** ** ml/neural_network.py *)

Module NeuralNetwork.

(** A weight array, as [np.random.normal(..., (n, m))] and [np.array] of a
    list of lists of floats build it: a matrix with [ncols] columns or, for
    [np.array([])], the empty array of shape [(0,)].  Bias arrays are 1-D and
    are plain lists. *)
Inductive ndarray :=
  | Empty1D
  | Matrix (ncols : nat) (rows : list (list Q)).

Definition shape (a : ndarray) : list nat :=
  match a with
  | Empty1D => [0%nat]
  | Matrix ncols rows => [length rows; ncols]
  end.

(** Element [(r, k)] of a weight array. *)
Definition entry (a : ndarray) (r k : nat) : option Q :=
  match a with
  | Empty1D => None
  | Matrix _ rows => rows !! r ≫= (.!! k)
  end.

Record t := {
  input_size : nat;
  hidden_sizes : list nat;
  output_size : nat;
  weights : list ndarray;
  biases : list (list Q);
  activations : list (list Q)
}.

Definition layer_sizes (nn : t) : list nat :=
  input_size nn :: hidden_sizes nn ++ [output_size nn].

(** The loop of [__init__] over consecutive layer sizes; [2.0 / 0] raises
    ZeroDivisionError. *)
Fixpoint init_layers `{!NumPy, !Random} (sizes : list nat)
    : M (list ndarray * list (list Q)) :=
  match sizes with
  | n :: rest =>
      match rest with
      | m :: _ =>
          if (n + m =? 0)%nat then raise
          else
            let scale := np_sqrt (2 / inject_Z (Z.of_nat (n + m))) in
            rows ← repeatM n (repeatM m (draw (rand_normal 0 scale)));
            '(ws, bs) ← init_layers rest;
            mret (Matrix m rows :: ws, replicate m 0 :: bs)
      | [] => mret ([], [])
      end
  | [] => mret ([], [])
  end.

Definition init `{!NumPy, !Random} (input_size : nat) (hidden_sizes : list nat)
    (output_size : nat) : M t :=
  '(ws, bs) ← init_layers (input_size :: hidden_sizes ++ [output_size]);
  mret {| input_size := input_size; hidden_sizes := hidden_sizes;
          output_size := output_size; weights := ws; biases := bs;
          activations := [] |}.

(** [np.dot] of two 1-D arrays of equal length. *)
Definition inner (x w : list Q) : Q :=
  foldl (λ acc p, acc + p.1 * p.2) 0 (zip x w).

Definition column (j : nat) (rows : list (list Q)) : list Q :=
  map (λ r, default 0 (r !! j)) rows.

(** [np.dot(x, W)] for a 1-D [x] gives a 1-D array for a matrix and a scalar
    for a 1-D [W]; misaligned shapes raise ValueError. *)
Inductive dot_result :=
  | Scalar (s : Q)
  | Vector (v : list Q).

Definition np_dot (x : list Q) (W : ndarray) : option dot_result :=
  match W with
  | Empty1D => if (length x =? 0)%nat then Some (Scalar 0) else None
  | Matrix ncols rows =>
      if (length x =? length rows)%nat
      then Some (Vector (map (λ j, inner x (column j rows)) (seq 0 ncols)))
      else None
  end.

(** [z + b] with numpy broadcasting: a scalar or an array of length 1 is
    spread over the other operand. *)
Definition np_add (z : dot_result) (b : list Q) : option (list Q) :=
  match z with
  | Scalar s => Some (map (λ bi, s + bi) b)
  | Vector v =>
      if (length v =? length b)%nat then Some (zip_with Qplus v b)
      else if (length v =? 1)%nat then Some (map (λ bi, default 0 (head v) + bi) b)
      else if (length b =? 1)%nat then Some (map (λ vi, vi + default 0 (head b)) v)
      else None
  end.

(** [np.maximum(0, z)] *)
Definition relu (z : list Q) : list Q :=
  map (λ zi, if Qltb 0 zi then zi else 0) z.

(** The loop of [forward] over the layers; [acts] is [self.activations]. *)
Fixpoint forward_layers (ws : list ndarray) (bs : list (list Q)) (x : list Q)
    (acts : list (list Q)) : option (list Q * list (list Q)) :=
  match ws with
  | [] => Some (x, acts)
  | W :: ws' =>
      match bs with
      | [] => None
      | b :: bs' =>
          d ← np_dot x W;
          z ← np_add d b;
          let x' := match ws' with [] => z | _ => relu z end in
          forward_layers ws' bs' x' (acts ++ [x'])
      end
  end.

(** [forward] returns the output and caches the activations in the network. *)
Definition forward (nn : t) (inputs : list Q) : option (list Q * t) :=
  '(x, acts) ← forward_layers (weights nn) (biases nn) inputs [inputs];
  Some (x, {| input_size := input_size nn; hidden_sizes := hidden_sizes nn;
              output_size := output_size nn; weights := weights nn;
              biases := biases nn; activations := acts |}).

(** One array of draws of the shape of [a]. *)
Definition random_like `{!Random} (a : ndarray) (m : M Q) : M (list (list Q)) :=
  match a with
  | Empty1D => mret []
  | Matrix ncols rows => repeatM (length rows) (repeatM ncols m)
  end.

(** [w + mask * mutation] for one element. *)
Definition mutate_entry (rate w mask mutation : Q) : Q :=
  w + (if Qltb mask rate then mutation else 0).

Definition mutate_vector `{!Random} (rate : Q) (b : list Q) : M (list Q) :=
  mask ← repeatM (length b) (draw rand_random);
  mutations ← repeatM (length b) (draw (rand_normal 0 (1 # 10)));
  mret (zip_with (λ w mm, mutate_entry rate w mm.1 mm.2) b (zip mask mutations)).

Definition mutate_array `{!Random} (rate : Q) (a : ndarray) : M ndarray :=
  mask ← random_like a (draw rand_random);
  mutations ← random_like a (draw (rand_normal 0 (1 # 10)));
  mret match a with
       | Empty1D => Empty1D
       | Matrix ncols rows =>
           Matrix ncols
             (zip_with (λ row mm,
                zip_with (λ w e, mutate_entry rate w e.1 e.2) row (zip mm.1 mm.2))
                rows (zip mask mutations))
       end.

(** The loop of [mutate] over [range(len(self.weights))]. *)
Fixpoint mutate_layers `{!Random} (rate : Q) (ws : list ndarray)
    (bs : list (list Q)) : M (list ndarray * list (list Q)) :=
  match ws with
  | [] => mret ([], bs)
  | w :: ws' =>
      w' ← mutate_array rate w;
      match bs with
      | [] => raise
      | b :: bs' =>
          b' ← mutate_vector rate b;
          '(ws'', bs'') ← mutate_layers rate ws' bs';
          mret (w' :: ws'', b' :: bs'')
      end
  end.

Definition mutate `{!Random} (nn : t) (mutation_rate : Q) : M t :=
  '(ws, bs) ← mutate_layers mutation_rate (weights nn) (biases nn);
  mret {| input_size := input_size nn; hidden_sizes := hidden_sizes nn;
          output_size := output_size nn; weights := ws; biases := bs;
          activations := activations nn |}.

(** [np.where(mask < rate, a, b)].  The mask has the shape of [a].  numpy
    broadcasts the operands: two dimensions go together when they are equal
    or when one of them is 1, which is then repeated along the other; any
    other pair of dimensions raises ValueError. *)
Definition where_row (rate : Q) (mask a b : list Q) : list Q :=
  zip_with (λ m ab, if Qltb m rate then ab.1 else ab.2) mask (zip a b).

Definition broadcast_dim (n m : nat) : option nat :=
  if (n =? m)%nat then Some n
  else if (n =? 1)%nat then Some m
  else if (m =? 1)%nat then Some n
  else None.

(** The index in a dimension of size [n] that position [i] of the result
    reads. *)
Definition broadcast_index (n i : nat) : nat :=
  if (n =? 1)%nat then 0%nat else i.

(** 1-D operands.  Equal lengths: element by element. *)
Definition np_where1 (rate : Q) (mask a b : list Q) : option (list Q) :=
  if (length a =? length b)%nat then Some (where_row rate mask a b)
  else
    n ← broadcast_dim (length a) (length b);
    Some (map (λ i,
            let ia := broadcast_index (length a) i in
            let ib := broadcast_index (length b) i in
            if Qltb (default 0 (mask !! ia)) rate
            then default 0 (a !! ia) else default 0 (b !! ib))
          (seq 0 n)).

(** The two dimensions of a weight array when numpy aligns it with a 2-D
    array: the shape [(0,)] counts as [(1, 0)]. *)
Definition dims (a : ndarray) : nat * nat :=
  match a with
  | Empty1D => (1%nat, 0%nat)
  | Matrix ncols rows => (length rows, ncols)
  end.

Definition where_broadcast (rate : Q) (mask : list (list Q)) (a b : ndarray)
    : option ndarray :=
  let '(ra, ca) := dims a in
  let '(rb, cb) := dims b in
  r ← broadcast_dim ra rb;
  c ← broadcast_dim ca cb;
  Some (Matrix c
    (map (λ i,
       map (λ j,
         let ia := broadcast_index ra i in
         let ja := broadcast_index ca j in
         if Qltb (default 0 (mask !! ia ≫= (.!! ja))) rate
         then default 0 (entry a ia ja)
         else default 0 (entry b (broadcast_index rb i) (broadcast_index cb j)))
       (seq 0 c))
     (seq 0 r))).

(** Weight arrays.  Equal shapes: element by element. *)
Definition np_where (rate : Q) (mask : list (list Q)) (a b : ndarray)
    : option ndarray :=
  match a, b with
  | Empty1D, Empty1D => Some Empty1D
  | Matrix ca rows_a, Matrix cb rows_b =>
      if ((ca =? cb) && (length rows_a =? length rows_b))%nat
      then Some (Matrix ca
             (zip_with (λ m ab, where_row rate m ab.1 ab.2) mask (zip rows_a rows_b)))
      else where_broadcast rate mask a b
  | _, _ => where_broadcast rate mask a b
  end.

(** The loop of [crossover] over [range(len(self.weights))]: [sw], [sb] are
    the arrays of [self], [ow], [ob] those of [other] and [cw], [cb] those of
    the child, which are overwritten; a missing index raises IndexError. *)
Fixpoint crossover_layers `{!Random} (rate : Q) (sw ow cw : list ndarray)
    (sb ob cb : list (list Q)) : M (list ndarray * list (list Q)) :=
  match sw with
  | [] => mret (cw, cb)
  | w :: sw' =>
      mask ← random_like w (draw rand_random);
      match ow, cw with
      | o :: ow', _ :: cw' =>
          w' ← lift (np_where rate mask w o);
          match sb with
          | b :: sb' =>
              bmask ← repeatM (length b) (draw rand_random);
              match ob, cb with
              | p :: ob', _ :: cb' =>
                  b' ← lift (np_where1 rate bmask b p);
                  '(ws, bs) ← crossover_layers rate sw' ow' cw' sb' ob' cb';
                  mret (w' :: ws, b' :: bs)
              | _, _ => raise
              end
          | [] => raise
          end
      | _, _ => raise
      end
  end.

Definition crossover `{!NumPy, !Random} (self other : t) (crossover_rate : Q)
    : M t :=
  child ← init (input_size self) (hidden_sizes self) (output_size self);
  '(ws, bs) ← crossover_layers crossover_rate
                (weights self) (weights other) (weights child)
                (biases self) (biases other) (biases child);
  mret {| input_size := input_size child; hidden_sizes := hidden_sizes child;
          output_size := output_size child; weights := ws; biases := bs;
          activations := activations child |}.

(** The dictionary of [get_weights], which [save] pickles. *)
Record weights_dict := {
  wd_weights : list (list (list Q));
  wd_biases : list (list Q)
}.

(** [w.tolist()] *)
Definition tolist (a : ndarray) : list (list Q) :=
  match a with
  | Empty1D => []
  | Matrix _ rows => rows
  end.

(** [np.array(w)] for a list of lists of floats; rows of unequal lengths
    raise ValueError. *)
Definition np_array (w : list (list Q)) : option ndarray :=
  match w with
  | [] => Some Empty1D
  | row :: rest =>
      if forallb (λ r, (length r =? length row)%nat) rest
      then Some (Matrix (length row) w)
      else None
  end.

Definition get_weights (nn : t) : weights_dict :=
  {| wd_weights := tolist <$> weights nn; wd_biases := biases nn |}.

Definition set_weights (nn : t) (d : weights_dict) : option t :=
  ws ← mapM np_array (wd_weights d);
  Some {| input_size := input_size nn; hidden_sizes := hidden_sizes nn;
          output_size := output_size nn; weights := ws; biases := wd_biases d;
          activations := activations nn |}.



(** The arrays have the shapes that [__init__] gives them for the layer
    sizes [sizes]. *)
Fixpoint conforms_layers (sizes : list nat) (ws : list ndarray)
    (bs : list (list Q)) : Prop :=
  match sizes with
  | n :: rest =>
      match rest with
      | m :: _ =>
          match ws, bs with
          | Matrix ncols rows :: ws', b :: bs' =>
              (n + m ≠ 0)%nat ∧ ncols = m ∧ length rows = n ∧
              Forall (λ r, length r = m) rows ∧ length b = m ∧
              conforms_layers rest ws' bs'
          | _, _ => False
          end
      | [] => ws = [] ∧ bs = []
      end
  | [] => ws = [] ∧ bs = []
  end.

(** The layer sizes that [__init__] accepts: no two consecutive layers are
    both empty. *)
Fixpoint valid_sizes (sizes : list nat) : Prop :=
  match sizes with
  | n :: rest =>
      match rest with
      | m :: _ => (n + m ≠ 0)%nat ∧ valid_sizes rest
      | [] => True
      end
  | [] => True
  end.

(** The class invariant: the network is one that [__init__] can build for
    its topology, up to the values in the arrays. *)
Definition conforms (nn : t) : Prop :=
  conforms_layers (layer_sizes nn) (weights nn) (biases nn).

(** Same input size, hidden layer sizes and output size. *)
Definition same_topology (a b : t) : Prop :=
  input_size a = input_size b ∧ hidden_sizes a = hidden_sizes b ∧
  output_size a = output_size b.

(** Every element of [child] is the element of [a] or the element of [b]
    at the same place, and the three arrays have one shape. *)
Definition array_from (child a b : ndarray) : Prop :=
  shape child = shape a ∧ shape child = shape b ∧
  ∀ r k x, entry child r k = Some x →
           entry a r k = Some x ∨ entry b r k = Some x.

Definition vector_from (child a b : list Q) : Prop :=
  length child = length a ∧ length child = length b ∧
  ∀ k x, child !! k = Some x → a !! k = Some x ∨ b !! k = Some x.

End NeuralNetwork.

(** ** Stand-ins for numpy

    Concrete instances of [NumPy] and [Random], used only to run the
    definitions on concrete inputs: no theorem depends on the values they
    return.  The generator counts its draws. *)

Definition numpy_stub : NumPy :=
  {| np_sqrt := λ x, x; np_cos := λ _, 1; np_sin := λ _, 0;
     np_exp := λ _, 1; np_pi := 3 |}.

Definition random_stub : Random :=
  {| G := nat;
     rand_random := λ g, (1 # 2, S g);
     rand_normal := λ mu _ g, (mu, S g);
     rand_uniform := λ lo _ g, (lo, S g);
     rand_choice := λ _ k g, (seq 0 k, S g) |}.

(** Two networks with one input and one output. *)
Definition network_one : NeuralNetwork.t :=
  {| NeuralNetwork.input_size := 1; NeuralNetwork.hidden_sizes := [];
     NeuralNetwork.output_size := 1;
     NeuralNetwork.weights := [NeuralNetwork.Matrix 1 [[1]]];
     NeuralNetwork.biases := [[0]]; NeuralNetwork.activations := [] |}.

Definition network_two : NeuralNetwork.t :=
  {| NeuralNetwork.input_size := 1; NeuralNetwork.hidden_sizes := [];
     NeuralNetwork.output_size := 1;
     NeuralNetwork.weights := [NeuralNetwork.Matrix 1 [[2]]];
     NeuralNetwork.biases := [[3]]; NeuralNetwork.activations := [] |}.

(** ** ml/neural_network.py: networks as objects

    Whether [crossover] builds a new network and leaves its parents alone is
    a question about objects, which the records above cannot ask.  Here a
    network object holds the addresses of its arrays, the arrays live in a
    store, and [crossover] is the same code run on the store.  The lists
    [self.weights] and [self.biases] belong to their network: [__init__]
    creates them and no method hands them out. *)

Module NetworkStore.

Record object := {
  input_size : nat;
  hidden_sizes : list nat;
  output_size : nat;
  weights : list nat;
  biases : list nat;
  activations : list (list Q)
}.

(** The network objects, the weight arrays and the 1-D bias arrays. *)
Record t := {
  networks : gmap nat object;
  arrays : gmap nat NeuralNetwork.ndarray;
  vectors : gmap nat (list Q)
}.

(** A new array object: its address is one that the store does not use. *)
Definition new_array (a : NeuralNetwork.ndarray) (s : t) : nat * t :=
  let r := fresh (dom (arrays s)) in
  (r, {| networks := networks s; arrays := <[r := a]> (arrays s);
         vectors := vectors s |}).

Definition new_vector (b : list Q) (s : t) : nat * t :=
  let r := fresh (dom (vectors s)) in
  (r, {| networks := networks s; arrays := arrays s;
         vectors := <[r := b]> (vectors s) |}).

Definition new_object (o : object) (s : t) : nat * t :=
  let n := fresh (dom (networks s)) in
  (n, {| networks := <[n := o]> (networks s); arrays := arrays s;
         vectors := vectors s |}).

Fixpoint new_arrays (l : list NeuralNetwork.ndarray) (s : t) : list nat * t :=
  match l with
  | [] => ([], s)
  | a :: l' =>
      let '(r, s) := new_array a s in
      let '(rs, s) := new_arrays l' s in
      (r :: rs, s)
  end.

Fixpoint new_vectors (l : list (list Q)) (s : t) : list nat * t :=
  match l with
  | [] => ([], s)
  | b :: l' =>
      let '(r, s) := new_vector b s in
      let '(rs, s) := new_vectors l' s in
      (r :: rs, s)
  end.

(** [NeuralNetwork(input_size, hidden_sizes, output_size)]: the arrays that
    [__init__] draws, each a new object, and the network that holds them. *)
Definition init `{!NumPy, !Random} (input_size : nat) (hidden_sizes : list nat)
    (output_size : nat) (s : t) : M (nat * t) :=
  '(ws, bs) ← NeuralNetwork.init_layers
                (input_size :: hidden_sizes ++ [output_size]);
  let '(wr, s) := new_arrays ws s in
  let '(br, s) := new_vectors bs s in
  mret (new_object {| input_size := input_size; hidden_sizes := hidden_sizes;
                      output_size := output_size; weights := wr; biases := br;
                      activations := [] |} s).

(** The loop of [crossover]: [sw], [sb] are the lists of [self], [ow], [ob]
    those of [other] and [cw], [cb] those of the child, whose entries are
    replaced by the new arrays that [np.where] returns.  The arrays of the
    parents are read from the store and not written. *)
Fixpoint crossover_layers `{!Random} (rate : Q) (sw ow cw sb ob cb : list nat)
    (s : t) : M (list nat * list nat * t) :=
  match sw with
  | [] => mret (cw, cb, s)
  | w :: sw' =>
      wa ← lift (arrays s !! w);
      mask ← NeuralNetwork.random_like wa (draw rand_random);
      match ow, cw with
      | o :: ow', _ :: cw' =>
          wb ← lift (arrays s !! o);
          w' ← lift (NeuralNetwork.np_where rate mask wa wb);
          let '(r, s) := new_array w' s in
          match sb with
          | b :: sb' =>
              ba ← lift (vectors s !! b);
              bmask ← repeatM (length ba) (draw rand_random);
              match ob, cb with
              | p :: ob', _ :: cb' =>
                  bb ← lift (vectors s !! p);
                  b' ← lift (NeuralNetwork.np_where1 rate bmask ba bb);
                  let '(r', s) := new_vector b' s in
                  '(ws, bs, s) ← crossover_layers rate sw' ow' cw' sb' ob' cb' s;
                  mret (r :: ws, r' :: bs, s)
              | _, _ => raise
              end
          | [] => raise
          end
      | _, _ => raise
      end
  end.

(** [self.crossover(other, crossover_rate)] for the networks at the
    addresses [self] and [other]: the address of the child and the store. *)
Definition crossover `{!NumPy, !Random} (self other : nat) (crossover_rate : Q)
    (s : t) : M (nat * t) :=
  so ← lift (networks s !! self);
  '(child, s) ← init (input_size so) (hidden_sizes so) (output_size so) s;
  oo ← lift (networks s !! other);
  co ← lift (networks s !! child);
  '(ws, bs, s) ← crossover_layers crossover_rate
                   (weights so) (weights oo) (weights co)
                   (biases so) (biases oo) (biases co) s;
  mret (child,
        {| networks := <[child := {| input_size := input_size co;
                                     hidden_sizes := hidden_sizes co;
                                     output_size := output_size co;
                                     weights := ws; biases := bs;
                                     activations := activations co |}]>
                         (networks s);
           arrays := arrays s; vectors := vectors s |}).

(** The network at an address, with its arrays read from the store. *)
Definition network_at (s : t) (n : nat) : option NeuralNetwork.t :=
  o ← networks s !! n;
  ws ← mapM (arrays s !!.) (weights o);
  bs ← mapM (vectors s !!.) (biases o);
  Some {| NeuralNetwork.input_size := input_size o;
          NeuralNetwork.hidden_sizes := hidden_sizes o;
          NeuralNetwork.output_size := output_size o;
          NeuralNetwork.weights := ws; NeuralNetwork.biases := bs;
          NeuralNetwork.activations := activations o |}.

(** Every object of [s] is in [s'], as it was. *)
Definition unchanged (s s' : t) : Prop :=
  networks s ⊆ networks s' ∧ arrays s ⊆ arrays s' ∧ vectors s ⊆ vectors s'.

End NetworkStore.

(** ** ml/agent.py *)

Module MLAgent.

Record t := {
  network : NeuralNetwork.t;
  learning_rate : Q;
  discount_factor : Q;
  last_state : option (list Q);
  last_action : option (list Q)
}.

Definition set_network (a : t) (nn : NeuralNetwork.t) : t :=
  {| network := nn; learning_rate := learning_rate a;
     discount_factor := discount_factor a; last_state := last_state a;
     last_action := last_action a |}.

Definition init `{!NumPy, !Random} (cfg : config.t)
    (network : option NeuralNetwork.t) : M t :=
  let input_size := 15%nat in
  let output_size := 4%nat in
  nn ← match network with
       | None => NeuralNetwork.init input_size
                   (config.NEURAL_NETWORK_LAYERS cfg) output_size
       | Some nn => mret nn
       end;
  mret {| network := nn; learning_rate := 1 # 100; discount_factor := 95 # 100;
          last_state := None; last_action := None |}.

(** Sigmoid on every output.  Over the rationals its values lie strictly
    between 0 and 1; the floats of the program round them, and reach 0.0
    and 1.0. *)
Definition _activate_outputs `{!NumPy} (outputs : list Q) : list Q :=
  map (λ o, 1 / (1 + np_exp (- o))) outputs.

(** The adjustment of the input length at the start of [process]:
    [np.pad(inputs, (0, pad_size), 'constant')] or [inputs[:input_size]]. *)
Definition adjust_inputs (input_size : nat) (inputs : list Q) : list Q :=
  if (length inputs =? input_size)%nat then inputs
  else if (length inputs <? input_size)%nat
       then inputs ++ replicate (input_size - length inputs) 0
       else take input_size inputs.

Definition process `{!NumPy} (a : t) (inputs : list Q) : option (list Q * t) :=
  let last_state := Some inputs in
  let inputs := adjust_inputs (NeuralNetwork.input_size (network a)) inputs in
  '(outputs, nn) ← NeuralNetwork.forward (network a) inputs;
  let processed_outputs := _activate_outputs outputs in
  Some (processed_outputs,
        {| network := nn; learning_rate := learning_rate a;
           discount_factor := discount_factor a; last_state := last_state;
           last_action := Some processed_outputs |}).

Definition mutate `{!Random} (a : t) (mutation_rate : Q) : M t :=
  nn ← NeuralNetwork.mutate (network a) mutation_rate;
  mret (set_network a nn).

Definition crossover `{!NumPy, !Random} (cfg : config.t) (a other_agent : t)
    (crossover_rate : Q) : M t :=
  new_network ← NeuralNetwork.crossover (network a) (network other_agent)
                  crossover_rate;
  init cfg (Some new_network).

Definition get_weights (a : t) : NeuralNetwork.weights_dict :=
  NeuralNetwork.get_weights (network a).

Definition set_weights (a : t) (weights : NeuralNetwork.weights_dict) : option t :=
  nn ← NeuralNetwork.set_weights (network a) weights;
  Some (set_network a nn).

End MLAgent.

(** ** core/food.py *)

Module Food.

Record t := {
  position : Vector2D.t;
  energy : Z;
  size : Z
}.

Definition init (cfg : config.t) (x y : Q) (energy : Z) : t :=
  {| position := {| Vector2D.x := x; Vector2D.y := y |};
     energy := energy; size := config.FOOD_SIZE cfg |}.

End Food.

(** ** core/environment.py

    [food_heap] is the part of the Python heap that holds the [Food]
    objects; [food_sources] is the list of references to them.  Membership
    and removal compare references, since [Food] defines no [__eq__]. *)

Module Environment.

Record t := {
  width : Z;
  height : Z;
  food_heap : gmap nat Food.t;
  food_sources : list nat;
  pheromone_system : PheromoneSystem.t;
  elapsed_steps : Z
}.

Definition set_food_sources (env : t) (l : list nat) : t :=
  {| width := width env; height := height env; food_heap := food_heap env;
     food_sources := l; pheromone_system := pheromone_system env;
     elapsed_steps := elapsed_steps env |}.

Definition set_pheromone_system (env : t) (ps : PheromoneSystem.t) : t :=
  {| width := width env; height := height env; food_heap := food_heap env;
     food_sources := food_sources env; pheromone_system := ps;
     elapsed_steps := elapsed_steps env |}.

Definition init (width height : Z) : option t :=
  ps ← PheromoneSystem.init width height 10;
  Some {| width := width; height := height; food_heap := ∅;
          food_sources := []; pheromone_system := ps; elapsed_steps := 0 |}.

(** [list.remove(x)]: drops the first occurrence. *)
Fixpoint list_remove_first (x : nat) (l : list nat) : list nat :=
  match l with
  | [] => []
  | y :: l' => if decide (x = y) then l' else y :: list_remove_first x l'
  end.

(** [remove_food]; the argument is an ant's [food_item], which may be
    [None]. *)
Definition remove_food (env : t) (food : option nat) : t :=
  match food with
  | Some f =>
      if decide (f ∈ food_sources env)
      then set_food_sources env (list_remove_first f (food_sources env))
      else env
  | None => env
  end.

Definition add_pheromone (env : t) (position : Vector2D.t)
    (pheromone_type : string) (amount : Q) : option t :=
  ps ← PheromoneSystem.add_pheromone (pheromone_system env) position
         pheromone_type amount;
  Some (set_pheromone_system env ps).

Definition get_pheromone_intensity (env : t) (position : Vector2D.t)
    (pheromone_type : string) (radius : Z) : option PheromoneSystem.intensities :=
  PheromoneSystem.get_intensity (pheromone_system env) position
    pheromone_type radius.

Definition wrap_vector (env : t) (vector : Vector2D.t) : Vector2D.t :=
  let x := Vector2D.x vector in
  let x :=
    if Qltb (inject_Z (width env) / 2) (Qabs x)
    then (if Qltb 0 x then x - inject_Z (width env) else x + inject_Z (width env))
    else x in
  let y := Vector2D.y vector in
  let y :=
    if Qltb (inject_Z (height env) / 2) (Qabs y)
    then (if Qltb 0 y then y - inject_Z (height env) else y + inject_Z (height env))
    else y in
  {| Vector2D.x := x; Vector2D.y := y |}.

End Environment.

(** ** core/ant.py and core/colony.py: the objects

    An ant and its colony refer to each other.  The attributes of both
    classes are declared first ([AntObject], [ColonyObject]); the modules
    [Ant] and [Colony] include them and add the methods.  The list
    [ants] holds the ant objects themselves: an ant is updated in place by
    writing it back at its index. *)

Module AntObject.

(** [last_food_distance] and [last_nest_distance] start at [float('inf')],
    which is [None]. *)
Record t := {
  position : Vector2D.t;
  velocity : Vector2D.t;
  direction : Vector2D.t;
  speed : Q;
  age : Z;
  energy : Q;
  carrying_food : bool;
  food_item : option nat;
  alive : bool;
  brain : MLAgent.t;
  last_food_distance : option Q;
  last_nest_distance : option Q;
  memory : list (list Q * list Q * Q);
  was_carrying_food : bool
}.

Definition set_brain (a : t) (b : MLAgent.t) : t :=
  {| position := position a; velocity := velocity a; direction := direction a;
     speed := speed a; age := age a; energy := energy a;
     carrying_food := carrying_food a; food_item := food_item a;
     alive := alive a; brain := b;
     last_food_distance := last_food_distance a;
     last_nest_distance := last_nest_distance a; memory := memory a;
     was_carrying_food := was_carrying_food a |}.

End AntObject.

Module ColonyObject.

Record t := {
  environment : Environment.t;
  nest : Nest.t;
  food_collected : Z;
  food_delivered : Z;
  total_steps : Z;
  generation : Z;
  ants_born : Z;
  ants_died : Z;
  ants : list AntObject.t
}.

Definition set_environment (c : t) (env : Environment.t) : t :=
  {| environment := env; nest := nest c; food_collected := food_collected c;
     food_delivered := food_delivered c; total_steps := total_steps c;
     generation := generation c; ants_born := ants_born c;
     ants_died := ants_died c; ants := ants c |}.

Definition set_ants (c : t) (l : list AntObject.t) : t :=
  {| environment := environment c; nest := nest c;
     food_collected := food_collected c; food_delivered := food_delivered c;
     total_steps := total_steps c; generation := generation c;
     ants_born := ants_born c; ants_died := ants_died c; ants := l |}.

Definition add_food (c : t) (amount : Z) : t :=
  {| environment := environment c; nest := nest c;
     food_collected := (food_collected c + amount)%Z;
     food_delivered := (food_delivered c + 1)%Z;
     total_steps := total_steps c; generation := generation c;
     ants_born := ants_born c; ants_died := ants_died c; ants := ants c |}.

Definition set_generation (c : t) (gen : Z) : t :=
  {| environment := environment c; nest := nest c;
     food_collected := food_collected c; food_delivered := food_delivered c;
     total_steps := total_steps c; generation := gen;
     ants_born := ants_born c; ants_died := ants_died c; ants := ants c |}.

End ColonyObject.

(** [x % w] for a float [x] and an int [w]; a zero [w] raises
    ZeroDivisionError.  For a positive [w] the exact remainder lies in
    [0, w); the float of the program is rounded and can be [w] itself. *)
Definition py_mod (x : Q) (w : Z) : option Q :=
  if (w =? 0)%Z then None
  else Some (x - inject_Z w * inject_Z (Qfloor (x / inject_Z w))).

(** [x < bound] where [bound] may be [float('inf')]. *)
Definition lt_inf (x : Q) (bound : option Q) : bool :=
  match bound with
  | None => true
  | Some b => Qltb x b
  end.

(** ** core/ant.py: the methods *)

Module Ant.

Include AntObject.

Section Methods.
Context `{!NumPy} (cfg : config.t).

Definition init `{!Random} (c : ColonyObject.t) (position : option Vector2D.t)
    (brain : option MLAgent.t) : M t :=
  let position :=
    match position with
    | None => Nest.position (ColonyObject.nest c)
    | Some p => p
    end in
  direction ← draw Vector2D.random_unit_vector;
  brain ← match brain with
          | Some b => mret b
          | None => MLAgent.init cfg None
          end;
  mret {| position := position;
          velocity := {| Vector2D.x := 0; Vector2D.y := 0 |};
          direction := direction;
          speed := inject_Z (config.ANT_SPEED cfg);
          age := 0;
          energy := inject_Z (config.INITIAL_ENERGY cfg);
          carrying_food := false;
          food_item := None;
          alive := true;
          brain := brain;
          last_food_distance := None;
          last_nest_distance := None;
          memory := [];
          was_carrying_food := false |}.

(** The body of the loop over the food sources in [sense_environment];
    the state is [(nearest_food, nearest_food_distance, direction_to_food)]. *)
Definition sense_food (a : t) (env : Environment.t)
    (st : option nat * option Q * Vector2D.t) (f : nat)
    : option (option nat * option Q * Vector2D.t) :=
  let '(nearest_food, nearest_food_distance, direction_to_food) := st in
  food ← Environment.food_heap env !! f;
  let food_vector := Vector2D.sub (Food.position food) (position a) in
  let food_vector :=
    if config.WRAP_WORLD cfg then Environment.wrap_vector env food_vector
    else food_vector in
  let food_distance := Vector2D.magnitude food_vector in
  if lt_inf food_distance nearest_food_distance &&
     Qltb food_distance (inject_Z (config.ANT_VISION_RANGE cfg))
  then Some (Some f, Some food_distance, Vector2D.normalized food_vector)
  else Some st.

(** [sense_environment].  The divisions by [WORLD_WIDTH],
    [ANT_VISION_RANGE] and [PHEROMONE_DEPOSIT] are numpy divisions, which
    give inf or nan for a zero constant where [Q] gives 0: the definition
    follows the program for constants that are not zero.  The division of
    the energy is a Python division, which raises ZeroDivisionError. *)
Definition sense_environment (a : t) (c : ColonyObject.t) : option (list Q) :=
  let env := ColonyObject.environment c in
  let nest_vector :=
    Vector2D.sub (Nest.position (ColonyObject.nest c)) (position a) in
  let nest_vector :=
    if config.WRAP_WORLD cfg then Environment.wrap_vector env nest_vector
    else nest_vector in
  let distance_to_nest := Vector2D.magnitude nest_vector in
  let direction_to_nest := Vector2D.normalized nest_vector in
  '(nearest_food, nearest_food_distance, direction_to_food) ←
    fold_option (sense_food a env)
      (None, None, {| Vector2D.x := 0; Vector2D.y := 0 |})
      (Environment.food_sources env);
  food_pheromone ← Environment.get_pheromone_intensity env (position a) "food"
                     (config.ANT_VISION_RANGE cfg);
  home_pheromone ← Environment.get_pheromone_intensity env (position a) "home"
                     (config.ANT_VISION_RANGE cfg);
  if (config.INITIAL_ENERGY cfg =? 0)%Z then None
  else
    let deposit := inject_Z (config.PHEROMONE_DEPOSIT cfg) in
    Some [
      distance_to_nest / inject_Z (config.WORLD_WIDTH cfg);
      Vector2D.x direction_to_nest;
      Vector2D.y direction_to_nest;
      match nearest_food with Some _ => 1 | None => 0 end;
      match nearest_food, nearest_food_distance with
      | Some _, Some d => d / inject_Z (config.ANT_VISION_RANGE cfg)
      | _, _ => 1
      end;
      Vector2D.x direction_to_food;
      Vector2D.y direction_to_food;
      PheromoneSystem.ahead food_pheromone / deposit;
      PheromoneSystem.left food_pheromone / deposit;
      PheromoneSystem.right food_pheromone / deposit;
      PheromoneSystem.ahead home_pheromone / deposit;
      PheromoneSystem.left home_pheromone / deposit;
      PheromoneSystem.right home_pheromone / deposit;
      if carrying_food a then 1 else 0;
      energy a / inject_Z (config.INITIAL_ENERGY cfg)
    ].

Definition think (a : t) (inputs : list Q) : option (list Q * t) :=
  '(outputs, b) ← MLAgent.process (brain a) inputs;
  Some (outputs, set_brain a b).

(** The pickup loop of [apply_action]: the first food source within pickup
    distance, in the order of [food_sources]. *)
Fixpoint find_food (env : Environment.t) (pos : Vector2D.t) (l : list nat)
    : option (option nat) :=
  match l with
  | [] => Some None
  | f :: l' =>
      food ← Environment.food_heap env !! f;
      let distance := Vector2D.magnitude (Vector2D.sub pos (Food.position food)) in
      if Qltb distance (inject_Z (config.ANT_SIZE cfg + config.FOOD_SIZE cfg))
      then Some (Some f)
      else find_food env pos l'
  end.

(** The world boundaries applied to the new position. *)
Definition apply_boundaries (p : Vector2D.t) : option Vector2D.t :=
  if config.WRAP_WORLD cfg then
    x ← py_mod (Vector2D.x p) (config.WORLD_WIDTH cfg);
    y ← py_mod (Vector2D.y p) (config.WORLD_HEIGHT cfg);
    Some {| Vector2D.x := x; Vector2D.y := y |}
  else
    let clamp (v : Q) (hi : Z) : Q :=
      let m := if Qltb (inject_Z hi) v then inject_Z hi else v in
      if Qltb 0 m then m else 0 in
    Some {| Vector2D.x := clamp (Vector2D.x p) (config.WORLD_WIDTH cfg);
            Vector2D.y := clamp (Vector2D.y p) (config.WORLD_HEIGHT cfg) |}.

(** The food pickup and drop part of [apply_action], for an ant that has
    moved to [pos]: the new carrying flag, the new food item and the
    colony. *)
Definition handle_food (a : t) (c : ColonyObject.t) (pos : Vector2D.t)
    (pickup_food : bool) : option (bool * option nat * ColonyObject.t) :=
  if carrying_food a then
    let distance_to_nest :=
      Vector2D.magnitude (Vector2D.sub pos (Nest.position (ColonyObject.nest c))) in
    if Qltb distance_to_nest (inject_Z (config.NEST_RADIUS cfg)) then
      let c := ColonyObject.add_food c (config.FOOD_ENERGY cfg) in
      let c := ColonyObject.set_environment c
                 (Environment.remove_food (ColonyObject.environment c) (food_item a)) in
      Some (false, None, c)
    else Some (true, food_item a, c)
  else if pickup_food && negb (carrying_food a) then
    found ← find_food (ColonyObject.environment c) pos
               (Environment.food_sources (ColonyObject.environment c));
    match found with
    | Some f => Some (true, Some f, c)
    | None => Some (false, food_item a, c)
    end
  else Some (false, food_item a, c).

Definition apply_action (a : t) (c : ColonyObject.t) (action_outputs : list Q)
    : option (t * ColonyObject.t) :=
  o0 ← action_outputs !! 0%nat;
  o1 ← action_outputs !! 1%nat;
  o2 ← action_outputs !! 2%nat;
  o3 ← action_outputs !! 3%nat;
  let turn_amount := o0 * 2 - 1 in
  let speed_factor := o1 in
  let drop_pheromone := Qltb (1 # 2) o2 in
  let pickup_food := Qltb (1 # 2) o3 in
  let direction := Vector2D.rotate (direction a) (turn_amount * np_pi / 4) in
  let velocity := Vector2D.mul (Vector2D.mul direction (speed a)) speed_factor in
  new_position ← apply_boundaries (Vector2D.add (position a) velocity);
  env ← (if drop_pheromone then
           let pheromone_type := if carrying_food a then "home" else "food" in
           Environment.add_pheromone (ColonyObject.environment c) new_position
             pheromone_type (inject_Z (config.PHEROMONE_DEPOSIT cfg))
         else Some (ColonyObject.environment c));
  let c := ColonyObject.set_environment c env in
  '(carrying, item, c) ← handle_food a c new_position pickup_food;
  let energy := energy a - config.ANT_ENERGY_CONSUMPTION cfg in
  let alive := if Qleb energy 0 then false else alive a in
  let age := (age a + 1)%Z in
  let alive := if (config.ANT_LIFESPAN cfg <? age)%Z then false else alive in
  Some ({| position := new_position; velocity := velocity;
           direction := direction; speed := speed a; age := age;
           energy := energy; carrying_food := carrying; food_item := item;
           alive := alive; brain := brain a;
           last_food_distance := last_food_distance a;
           last_nest_distance := last_nest_distance a; memory := memory a;
           was_carrying_food := was_carrying_food a |}, c).

Definition update_memory (a : t) (inputs outputs : list Q) : option t :=
  let reward := 0 in
  '(reward, last_food) ←
    (if negb (carrying_food a) then
       i4 ← inputs !! 4%nat;
       let food_distance := i4 * inject_Z (config.ANT_VISION_RANGE cfg) in
       Some (if lt_inf food_distance (last_food_distance a)
             then reward + (1 # 10) else reward,
             Some food_distance)
     else Some (reward, last_food_distance a));
  '(reward, last_nest) ←
    (if carrying_food a then
       i0 ← inputs !! 0%nat;
       let nest_distance := i0 * inject_Z (config.WORLD_WIDTH cfg) in
       Some (if lt_inf nest_distance (last_nest_distance a)
             then reward + (1 # 10) else reward,
             Some nest_distance)
     else Some (reward, last_nest_distance a));
  let reward :=
    if carrying_food a && bool_decide (food_item a ≠ None)
    then reward + 1 else reward in
  let reward :=
    if negb (carrying_food a) && bool_decide (food_item a = None)
       && was_carrying_food a
    then reward + 10 else reward in
  let memory := memory a ++ [(inputs, outputs, reward)] in
  let memory := if (1000 <? length memory)%nat then drop 1 memory else memory in
  Some {| position := position a; velocity := velocity a;
          direction := direction a; speed := speed a; age := age a;
          energy := energy a; carrying_food := carrying_food a;
          food_item := food_item a; alive := alive a; brain := brain a;
          last_food_distance := last_food;
          last_nest_distance := last_nest; memory := memory;
          was_carrying_food := carrying_food a |}.

Definition update (a : t) (c : ColonyObject.t) : option (t * ColonyObject.t) :=
  if negb (alive a) then Some (a, c)
  else
    inputs ← sense_environment a c;
    '(outputs, a) ← think a inputs;
    '(a, c) ← apply_action a c outputs;
    a ← update_memory a inputs outputs;
    Some (a, c).

Definition get_fitness (a : t) (c : ColonyObject.t) : Z :=
  ColonyObject.food_delivered c.

End Methods.

End Ant.

(** ** core/colony.py: the methods *)

Module Colony.

Include ColonyObject.

Section Methods.
Context `{!NumPy, !Random} (cfg : config.t).

Definition init (environment : Environment.t) (initial_ants : Z) : M t :=
  dx ← draw (rand_uniform (-100) 100);
  let center_x := inject_Z (config.WORLD_WIDTH cfg) / 2 + dx in
  dy ← draw (rand_uniform (-100) 100);
  let center_y := inject_Z (config.WORLD_HEIGHT cfg) / 2 + dy in
  let c := {| environment := environment;
              nest := Nest.init center_x center_y (config.NEST_RADIUS cfg);
              food_collected := 0; food_delivered := 0; total_steps := 0;
              generation := 0; ants_born := initial_ants; ants_died := 0;
              ants := [] |} in
  l ← repeatM (Z.to_nat initial_ants) (Ant.init cfg c None None);
  mret (set_ants c l).

(** The body of the loop [for ant in active_ants: ant.update()]; the ant is
    the object at index [i] of [self.ants]. *)
Definition update_ant (c : t) (i : nat) : option t :=
  a ← ants c !! i;
  '(a, c) ← Ant.update cfg a c;
  Some (set_ants c (<[i := a]> (ants c))).

(** The indices of the ants that are alive. *)
Definition active_ants (c : t) : list nat :=
  filter (λ i, (Ant.alive <$> ants c !! i) = Some true) (seq 0 (length (ants c))).

Definition process_dead_ants (c : t) : t :=
  let initial_count := length (ants c) in
  let l := filter (λ a, Ant.alive a = true) (ants c) in
  let newly_dead := (Z.of_nat initial_count - Z.of_nat (length l))%Z in
  {| environment := environment c; nest := nest c;
     food_collected := food_collected c; food_delivered := food_delivered c;
     total_steps := total_steps c; generation := generation c;
     ants_born := ants_born c; ants_died := (ants_died c + newly_dead)%Z;
     ants := l |}.

Definition spawn_new_ants (c : t) : M t :=
  if (config.ANT_ENERGY_FROM_FOOD cfg <? food_collected c)%Z &&
     (length (ants c) <? config.MAX_COLONY_SIZE cfg)%nat
  then
    let c := {| environment := environment c; nest := nest c;
                food_collected :=
                  (food_collected c - config.ANT_ENERGY_FROM_FOOD cfg)%Z;
                food_delivered := food_delivered c;
                total_steps := total_steps c; generation := generation c;
                ants_born := ants_born c; ants_died := ants_died c;
                ants := ants c |} in
    new_ant ← Ant.init cfg c None None;
    mret {| environment := environment c; nest := nest c;
            food_collected := food_collected c;
            food_delivered := food_delivered c;
            total_steps := total_steps c; generation := generation c;
            ants_born := (ants_born c + 1)%Z; ants_died := ants_died c;
            ants := ants c ++ [new_ant] |}
  else mret c.

Definition update (c : t) : M t :=
  c ← lift (fold_option update_ant c (active_ants c));
  let c := process_dead_ants c in
  c ← spawn_new_ants c;
  mret {| environment := environment c; nest := nest c;
          food_collected := food_collected c;
          food_delivered := food_delivered c;
          total_steps := (total_steps c + 1)%Z; generation := generation c;
          ants_born := ants_born c; ants_died := ants_died c;
          ants := ants c |}.

Definition get_population_size (c : t) : nat :=
  length (filter (λ a, Ant.alive a = true) (ants c)).

End Methods.

End Colony.

(** ** ml/evolution.py *)

Module EvolutionManager.

Record history_record := {
  h_generation : Z;
  max_fitness : Z;
  avg_fitness : Q;
  population_size : nat
}.

(** The manager; its colony is passed next to it. *)
Record t := {
  generation : Z;
  best_fitness : Z;
  best_agent : option MLAgent.t;
  fitness_history : list history_record
}.

Definition init : t :=
  {| generation := 0; best_fitness := 0; best_agent := None;
     fitness_history := [] |}.

(** [np.argmax]: the index of the first largest element; the empty list
    raises ValueError. *)
Fixpoint argmax_from (best_i : nat) (best : Z) (i : nat) (l : list Z) : nat :=
  match l with
  | [] => best_i
  | v :: l' =>
      if (best <? v)%Z then argmax_from i v (S i) l'
      else argmax_from best_i best (S i) l'
  end.

Definition np_argmax (l : list Z) : option nat :=
  match l with
  | [] => None
  | v :: l' => Some (argmax_from 0 v 1 l')
  end.

(** [np.argsort]: the indices in ascending order of their values.  numpy
    leaves the order of equal values open; the model keeps them in index
    order. *)
Fixpoint insert_by (key : nat → Z) (i : nat) (l : list nat) : list nat :=
  match l with
  | [] => [i]
  | j :: l' => if (key i <=? key j)%Z then i :: l else j :: insert_by key i l'
  end.

Definition np_argsort (l : list Z) : list nat :=
  foldr (insert_by (λ i, default 0%Z (l !! i))) [] (seq 0 (length l)).

(** [np.mean] of a list of ints. *)
Definition np_mean (l : list Z) : Q :=
  inject_Z (foldr Z.add 0%Z l) / inject_Z (Z.of_nat (length l)).

(** [int(n * 0.1)] for a list length [n]: the float product is never below
    [n / 10] and never reaches the next integer, so this is [n // 10] for
    every length a list can have. *)
Definition tenth (n : nat) : nat := (n / 10)%nat.

Definition tournament_size {A : Type} (population : list A) : nat :=
  2 `max` tenth (length population).

(** A result of [np.random.choice(n, k, replace=False)]: [k] distinct
    indices below [n]. *)
Definition valid_sample (n k : nat) (sample : list nat) : Prop :=
  length sample = k ∧ NoDup sample ∧ Forall (λ i, (i < n)%nat) sample.

(** The part of [select_one] after the draw: the index of the winner of the
    tournament among [tournament_indices]. *)
Definition winner_index (fitnesses : list Z) (tournament_indices : list nat)
    : option nat :=
  tournament_fitnesses ← mapM (λ i, fitnesses !! i) tournament_indices;
  k ← np_argmax tournament_fitnesses;
  tournament_indices !! k.

(** [winner] is a contestant of the tournament [sample] whose fitness is
    maximal within the sample, so that no contestant with a fitter rival in
    the sample is the winner. *)
Definition tournament_winner {A : Type} (population : list A)
    (fitnesses : list Z) (sample : list nat) (winner : A) : Prop :=
  ∃ w fw,
    w ∈ sample ∧ population !! w = Some winner ∧ fitnesses !! w = Some fw ∧
    (∀ i fi, i ∈ sample → fitnesses !! i = Some fi → (fi ≤ fw)%Z) ∧
    (∀ i j fi fj, i ∈ sample → j ∈ sample →
       fitnesses !! i = Some fi → fitnesses !! j = Some fj →
       (fi < fj)%Z → w ≠ i).

Section Methods.
Context `{!NumPy, !Random} (cfg : config.t).

Definition evaluate_fitness (ant : Ant.t) (c : Colony.t) : Z :=
  Ant.get_fitness ant c.

(** [np.random.choice] raises ValueError for a sample larger than the
    population. *)
Definition select_one (population : list Ant.t) (fitnesses : list Z) : M Ant.t :=
  let k := tournament_size population in
  if (length population <? k)%nat then raise
  else
    tournament_indices ← draw (rand_choice (length population) k);
    winner_idx ← lift (winner_index fitnesses tournament_indices);
    lift (population !! winner_idx).

Definition select_parents (population : list Ant.t) (fitnesses : list Z)
    : M (Ant.t * Ant.t) :=
  parent1 ← select_one population fitnesses;
  parent2 ← select_one population fitnesses;
  mret (parent1, parent2).

Definition create_offspring (c : Colony.t) (parent1 parent2 : Ant.t) : M Ant.t :=
  offspring_brain ← MLAgent.crossover cfg (Ant.brain parent1) (Ant.brain parent2)
                      (config.CROSSOVER_RATE cfg);
  offspring_brain ← MLAgent.mutate offspring_brain (config.MUTATION_RATE cfg);
  Ant.init cfg c None (Some offspring_brain).

(** The loop [while len(new_population) < len(population)], which runs
    [n = len(population) - len(new_population)] times. *)
Fixpoint fill_population (c : Colony.t) (population : list Ant.t)
    (fitnesses : list Z) (n : nat) (new_population : list Ant.t)
    : M (list Ant.t) :=
  match n with
  | O => mret new_population
  | S n' =>
      '(parent1, parent2) ← select_parents population fitnesses;
      offspring ← create_offspring c parent1 parent2;
      fill_population c population fitnesses n' (new_population ++ [offspring])
  end.

(** [evolve_generation].  [best_agent] is a reference to the brain of a
    living ant; the embedding keeps the value that brain has at this point,
    whose weights nothing overwrites afterwards. *)
Definition evolve_generation (e : t) (c : Colony.t) : M (t * Colony.t) :=
  if (length (Colony.ants c) <? 10)%nat then mret (e, c)
  else
    let population := Colony.ants c in
    let fitnesses := map (λ ant, evaluate_fitness ant c) population in
    max_fitness_idx ← lift (np_argmax fitnesses);
    current_best_fitness ← lift (fitnesses !! max_fitness_idx);
    best ← lift (population !! max_fitness_idx);
    let '(best_fitness, best_agent) :=
      if (best_fitness e <? current_best_fitness)%Z
      then (current_best_fitness, Some (Ant.brain best))
      else (best_fitness e, best_agent e) in
    let fitness_history :=
      fitness_history e ++
        [{| h_generation := generation e; max_fitness := current_best_fitness;
            avg_fitness := np_mean fitnesses;
            population_size := length population |}] in
    let elitism_count := 1 `max` tenth (length population) in
    let sorted := np_argsort fitnesses in
    let elite_indices := drop (length sorted - elitism_count) sorted in
    new_population ← lift (mapM (λ idx, population !! idx) elite_indices);
    new_population ← fill_population c population fitnesses
                       (length population - length new_population) new_population;
    let generation := (generation e + 1)%Z in
    mret ({| generation := generation; best_fitness := best_fitness;
             best_agent := best_agent; fitness_history := fitness_history |},
          Colony.set_generation (Colony.set_ants c new_population) generation).

(** The pickled dictionary of [save_model]. *)
Record model_data := {
  md_weights : NeuralNetwork.weights_dict;
  md_generation : option Z;
  md_fitness : option Z;
  md_history : option (list history_record)
}.

(** [save_model]: the content of the file, or [None] when there is no best
    agent yet and no file is written. *)
Definition save_model (e : t) : option model_data :=
  match best_agent e with
  | None => None
  | Some agent =>
      Some {| md_weights := MLAgent.get_weights agent;
              md_generation := Some (generation e);
              md_fitness := Some (best_fitness e);
              md_history := Some (fitness_history e) |}
  end.

(** [load_model]; a missing or unreadable file is [None]. *)
Definition load_model (e : t) (c : Colony.t) (file : option model_data)
    : M (t * Colony.t) :=
  model_data ← lift file;
  agent ← MLAgent.init cfg None;
  agent ← lift (MLAgent.set_weights agent (md_weights model_data));
  let e := {| generation := default 0%Z (md_generation model_data);
              best_fitness := default 0%Z (md_fitness model_data);
              best_agent := Some agent;
              fitness_history := default [] (md_history model_data) |} in
  ants ← lift (mapM (λ ant, b ← MLAgent.set_weights (Ant.brain ant)
                                  (md_weights model_data);
                            Some (Ant.set_brain ant b))
                    (Colony.ants c));
  mret (e, Colony.set_ants c ants).

End Methods.

End EvolutionManager.

(** ** Example objects *)

(** An ant at the origin with the one-input network as its brain. *)
Definition example_brain : MLAgent.t :=
  {| MLAgent.network := network_one; MLAgent.learning_rate := 1 # 100;
     MLAgent.discount_factor := 95 # 100; MLAgent.last_state := None;
     MLAgent.last_action := None |}.

Definition example_ant : Ant.t :=
  {| Ant.position := {| Vector2D.x := 0; Vector2D.y := 0 |};
     Ant.velocity := {| Vector2D.x := 0; Vector2D.y := 0 |};
     Ant.direction := {| Vector2D.x := 1; Vector2D.y := 0 |};
     Ant.speed := 3; Ant.age := 0; Ant.energy := 500;
     Ant.carrying_food := false; Ant.food_item := None; Ant.alive := true;
     Ant.brain := example_brain;
     Ant.last_food_distance := None; Ant.last_nest_distance := None;
     Ant.memory := []; Ant.was_carrying_food := false |}.

(** Scenario C of the spec: four ants with fitnesses 1, 5, 9 and 2. *)
Definition scenario_population : list Ant.t := replicate 4 example_ant.
Definition scenario_fitnesses : list Z := [1; 5; 9; 2]%Z.

(** A colony in the default world with its nest at the centre, one food
    source (address 0) at the origin and two ants standing on it. *)
Definition example_food : Food.t := Food.init config.default 0 0 50.

Definition example_colony : option Colony.t :=
  env ← Environment.init 1200 800;
  Some {| Colony.environment :=
            {| Environment.width := Environment.width env;
               Environment.height := Environment.height env;
               Environment.food_heap := {[ 0%nat := example_food ]};
               Environment.food_sources := [0%nat];
               Environment.pheromone_system := Environment.pheromone_system env;
               Environment.elapsed_steps := 0 |};
          Colony.nest := Nest.init 600 400 50;
          Colony.food_collected := 0; Colony.food_delivered := 0;
          Colony.total_steps := 0; Colony.generation := 0;
          Colony.ants_born := 2; Colony.ants_died := 0;
          Colony.ants := [example_ant; example_ant] |}.

(** Outputs of the controller that ask for no turn, no movement, no
    pheromone and a pickup. *)
Definition pickup_outputs : list Q := [1 # 2; 0; 0; 1].

(** The colony that [Colony.__init__] builds in the default world with [n]
    ants, run with the stand-ins for numpy. *)
Definition default_colony (n : Z) : option Colony.t :=
  env ← Environment.init 1200 800;
  fst <$> @Colony.init numpy_stub random_stub config.default env n 0%nat.

(** The same colony after two deliveries of [FOOD_ENERGY] = 50 units. *)
Definition colony_after_two_deliveries : option Colony.t :=
  c ← default_colony 2;
  Some (Colony.add_food (Colony.add_food c 50) 50).

(** A model file whose single layer is a 2 by 3 matrix, which fits no
    network of 15 inputs and 4 outputs. *)
Definition mismatched_model : EvolutionManager.model_data :=
  {| EvolutionManager.md_weights :=
       {| NeuralNetwork.wd_weights := [[[1; 2; 3]; [4; 5; 6]]];
          NeuralNetwork.wd_biases := [[0; 0; 0]] |};
     EvolutionManager.md_generation := Some 7%Z;
     EvolutionManager.md_fitness := Some 3%Z;
     EvolutionManager.md_history := Some [] |}.

(** A colony with a single ant, the example ant. *)
Definition single_ant_colony : Colony.t :=
  {| Colony.environment :=
       {| Environment.width := 20; Environment.height := 20;
          Environment.food_heap := ∅; Environment.food_sources := [];
          Environment.pheromone_system := PheromoneSystem.deposit_state;
          Environment.elapsed_steps := 0 |};
     Colony.nest := Nest.init 10 10 50;
     Colony.food_collected := 0; Colony.food_delivered := 0;
     Colony.total_steps := 0; Colony.generation := 0;
     Colony.ants_born := 1; Colony.ants_died := 0;
     Colony.ants := [example_ant] |}.

(** An ant as [Ant(colony)] makes it: alive, empty-handed, at the nest, with
    a fresh controller of the configured topology. *)
Definition default_brained (cfg : config.t) (c : Colony.t) (a : Ant.t) : Prop :=
  let nn := MLAgent.network (Ant.brain a) in
  Ant.alive a = true ∧ Ant.carrying_food a = false ∧ Ant.food_item a = None ∧
  Ant.position a = Nest.position (Colony.nest c) ∧
  NeuralNetwork.input_size nn = 15%nat ∧
  NeuralNetwork.hidden_sizes nn = config.NEURAL_NETWORK_LAYERS cfg ∧
  NeuralNetwork.output_size nn = 4%nat ∧
  NeuralNetwork.conforms nn.

(** The two-ant default colony after three deliveries of 50 units. *)
Definition colony_after_three_deliveries : option Colony.t :=
  c ← colony_after_two_deliveries;
  Some (Colony.add_food c 50).

(** One generation of the ten-ant default colony: the sizes of the old and
    the new population and the two generation counters. *)
Definition evolve_example : option (nat * nat * Z * Z) :=
  c ← default_colony 10;
  '(e', c', _) ← @EvolutionManager.evolve_generation numpy_stub random_stub
                   config.default EvolutionManager.init c 0%nat;
  Some (length (Colony.ants c), length (Colony.ants c'),
        EvolutionManager.generation e', Colony.generation c').

(** ** Well-formed populations and generators *)

(** The controller has the given topology and arrays of its shapes. *)
Definition brain_of_topology (input : nat) (hidden : list nat) (output : nat)
    (b : MLAgent.t) : Prop :=
  let nn := MLAgent.network b in
  NeuralNetwork.input_size nn = input ∧
  NeuralNetwork.hidden_sizes nn = hidden ∧
  NeuralNetwork.output_size nn = output ∧
  NeuralNetwork.conforms nn.

(** [np.random.choice(n, k, replace=False)] returns [k] distinct indices
    below [n] whenever [k <= n]. *)
Definition choice_is_valid `{!Random} : Prop :=
  ∀ (n k : nat) (g : G), (k ≤ n)%nat →
    EvolutionManager.valid_sample n k (rand_choice n k g).1.

(** The environment is as [Environment.__init__] builds it and as the steps
    keep it: pheromone grids of the recorded, positive dimensions and a
    positive resolution, and every listed food source on the heap. *)
Definition environment_wf (env : Environment.t) : Prop :=
  let ps := Environment.pheromone_system env in
  PheromoneSystem.wf ps ∧
  (0 < PheromoneSystem.resolution ps)%Z ∧
  (0 < PheromoneSystem.grid_width ps)%Z ∧
  (0 < PheromoneSystem.grid_height ps)%Z ∧
  Forall (λ f, is_Some (Environment.food_heap env !! f))
         (Environment.food_sources env).

(** The controller can drive an ant: its arrays have the shapes of its
    topology and it has at least the four outputs that [apply_action]
    reads. *)
Definition brain_wf (b : MLAgent.t) : Prop :=
  NeuralNetwork.conforms (MLAgent.network b) ∧
  (4 ≤ NeuralNetwork.output_size (MLAgent.network b))%nat.

(** The configuration lets an ant step: a wrapping world has positive
    dimensions and the initial energy is not zero. *)
Definition config_wf (cfg : config.t) : Prop :=
  (config.WRAP_WORLD cfg = true →
     (0 < config.WORLD_WIDTH cfg)%Z ∧ (0 < config.WORLD_HEIGHT cfg)%Z) ∧
  config.INITIAL_ENERGY cfg ≠ 0%Z.

Definition colony_wf (c : Colony.t) : Prop :=
  environment_wf (Colony.environment c) ∧
  Forall (λ a, brain_wf (Ant.brain a)) (Colony.ants c).

(** ** Invariants and further example objects *)

(** The state of a nest that was built with radius [r], has received
    [total] units of food in all and has been upgraded [u] times: the level,
    the radius and the chambers record the upgrades, and the store holds
    what the upgrades did not consume. *)
Definition nest_upgraded (r : Z) (u : nat) (total : Z) (n : Nest.t) : Prop :=
  let grown (capacity : Z) : Nest.chamber :=
    {| Nest.size := 1 + Z.of_nat u;
       Nest.capacity := (capacity * Z.of_nat (fact (S u)))%Z |} in
  Nest.structure_level n = (1 + Z.of_nat u)%Z ∧
  Nest.radius n = (r + 5 * Z.of_nat u)%Z ∧
  (Nest.food_stored n + 50 * Z.of_nat u * (Z.of_nat u + 1) = total)%Z ∧
  Nest.chambers n =
    <["food" := grown 100%Z]>
      (<["nursery" := grown 20%Z]> (<["queen" := grown 1%Z]> ∅)).

(** The default configuration with diffusion switched off. *)
Definition config_without_diffusion : config.t := {|
  config.WORLD_WIDTH := 1200;
  config.WORLD_HEIGHT := 800;
  config.WRAP_WORLD := true;
  config.NEST_RADIUS := 50;
  config.INITIAL_ENERGY := 500;
  config.MAX_COLONY_SIZE := 500;
  config.ANT_SIZE := 8;
  config.ANT_VISION_RANGE := 50;
  config.ANT_SPEED := 3;
  config.ANT_ENERGY_CONSUMPTION := 5 # 100;
  config.ANT_ENERGY_FROM_FOOD := 100;
  config.ANT_LIFESPAN := 3000;
  config.FOOD_SIZE := 5;
  config.FOOD_ENERGY := 50;
  config.PHEROMONE_DEPOSIT := 10;
  config.PHEROMONE_EVAPORATION_RATE := 995 # 1000;
  config.PHEROMONE_DIFFUSION := 0;
  config.NEURAL_NETWORK_LAYERS := [16; 32; 16]%nat;
  config.MUTATION_RATE := 1 # 10;
  config.CROSSOVER_RATE := 7 # 10
|}.

(** A network with one input and the four outputs that steer an ant, all
    weights and biases zero, and an ant that it drives. *)
Definition network_four : NeuralNetwork.t :=
  {| NeuralNetwork.input_size := 1; NeuralNetwork.hidden_sizes := [];
     NeuralNetwork.output_size := 4;
     NeuralNetwork.weights := [NeuralNetwork.Matrix 4 [[0; 0; 0; 0]]];
     NeuralNetwork.biases := [[0; 0; 0; 0]]; NeuralNetwork.activations := [] |}.

Definition steering_brain : MLAgent.t :=
  {| MLAgent.network := network_four; MLAgent.learning_rate := 1 # 100;
     MLAgent.discount_factor := 95 # 100; MLAgent.last_state := None;
     MLAgent.last_action := None |}.

Definition steering_ant : Ant.t :=
  {| Ant.position := {| Vector2D.x := 0; Vector2D.y := 0 |};
     Ant.velocity := {| Vector2D.x := 0; Vector2D.y := 0 |};
     Ant.direction := {| Vector2D.x := 1; Vector2D.y := 0 |};
     Ant.speed := 3; Ant.age := 0; Ant.energy := 500;
     Ant.carrying_food := false; Ant.food_item := None; Ant.alive := true;
     Ant.brain := steering_brain;
     Ant.last_food_distance := None; Ant.last_nest_distance := None;
     Ant.memory := []; Ant.was_carrying_food := false |}.

(** An ant that stands on the nest of [example_colony] and carries the food
    source at address 0. *)
Definition carrying_ant : Ant.t :=
  {| Ant.position := {| Vector2D.x := 600; Vector2D.y := 400 |};
     Ant.velocity := {| Vector2D.x := 0; Vector2D.y := 0 |};
     Ant.direction := {| Vector2D.x := 1; Vector2D.y := 0 |};
     Ant.speed := 3; Ant.age := 0; Ant.energy := 500;
     Ant.carrying_food := true; Ant.food_item := Some 0%nat; Ant.alive := true;
     Ant.brain := example_brain;
     Ant.last_food_distance := None; Ant.last_nest_distance := None;
     Ant.memory := []; Ant.was_carrying_food := true |}.

(** A colony of one steering ant in the small world of [single_ant_colony]. *)
Definition steering_colony : Colony.t :=
  Colony.set_ants single_ant_colony [steering_ant].

(** An ant holds a food item exactly when its carrying flag is set. *)
Definition carrying_consistent (a : Ant.t) : Prop :=
  Ant.carrying_food a = true ↔ is_Some (Ant.food_item a).

(** What the steps of the ants of a colony may change in the books of the
    colony: nothing but the food counters, which move together, every
    delivery adding [FOOD_ENERGY] to the collected food. *)
Definition colony_ledger (cfg : config.t) (c c' : Colony.t) : Prop :=
  Colony.nest c' = Colony.nest c ∧
  Colony.ants_born c' = Colony.ants_born c ∧
  Colony.ants_died c' = Colony.ants_died c ∧
  Colony.total_steps c' = Colony.total_steps c ∧
  Colony.generation c' = Colony.generation c ∧
  length (Colony.ants c') = length (Colony.ants c) ∧
  (Colony.food_delivered c ≤ Colony.food_delivered c')%Z ∧
  (Colony.food_collected c' - Colony.food_collected c =
   config.FOOD_ENERGY cfg * (Colony.food_delivered c' - Colony.food_delivered c))%Z.

(** An ant as [create_offspring] hands it to the next generation: just
    built, at the nest of the colony. *)
Definition newborn (cfg : config.t) (c : Colony.t) (a : Ant.t) : Prop :=
  Ant.alive a = true ∧ Ant.age a = 0%Z ∧
  Ant.energy a = inject_Z (config.INITIAL_ENERGY cfg) ∧
  Ant.carrying_food a = false ∧ Ant.food_item a = None ∧ Ant.memory a = [] ∧
  Ant.position a = Nest.position (Colony.nest c).

(** A manager whose best agent is the steering controller. *)
Definition trained_manager : EvolutionManager.t :=
  {| EvolutionManager.generation := 4; EvolutionManager.best_fitness := 7;
     EvolutionManager.best_agent := Some steering_brain;
     EvolutionManager.fitness_history := [] |}.

(** The constants that [sense_environment] divides numpy floats by are not
    zero.  numpy gives inf or nan for such a division, which the rationals
    of the embedding do not have; the steps of an ant are followed for
    configurations whose features are numbers. *)
Definition feature_scales_nonzero (cfg : config.t) : Prop :=
  config.WORLD_WIDTH cfg ≠ 0%Z ∧ config.ANT_VISION_RANGE cfg ≠ 0%Z ∧
  config.PHEROMONE_DEPOSIT cfg ≠ 0%Z.

(** The food source at address [f] lies within pickup distance of [pos]:
    its distance, as [apply_action] measures it, is below
    [ANT_SIZE + FOOD_SIZE]. *)
Definition in_reach `{!NumPy} (cfg : config.t) (env : Environment.t)
    (pos : Vector2D.t) (f : nat) : Prop :=
  ∃ food, Environment.food_heap env !! f = Some food ∧
    Vector2D.magnitude (Vector2D.sub pos (Food.position food))
      < inject_Z (config.ANT_SIZE cfg + config.FOOD_SIZE cfg).

(** [f] is the first food source of the environment within pickup distance
    of [pos], in the order of [food_sources]. *)
Definition first_in_reach `{!NumPy} (cfg : config.t) (env : Environment.t)
    (pos : Vector2D.t) (f : nat) : Prop :=
  ∃ before after,
    Environment.food_sources env = before ++ f :: after ∧
    in_reach cfg env pos f ∧
    Forall (λ f0, ¬ in_reach cfg env pos f0) before.

(** A store with the two example networks, at the addresses 0 and 1. *)
Definition example_store : NetworkStore.t :=
  {| NetworkStore.networks :=
       {[ 0%nat := {| NetworkStore.input_size := 1;
                      NetworkStore.hidden_sizes := [];
                      NetworkStore.output_size := 1;
                      NetworkStore.weights := [0%nat];
                      NetworkStore.biases := [0%nat];
                      NetworkStore.activations := [] |};
          1%nat := {| NetworkStore.input_size := 1;
                      NetworkStore.hidden_sizes := [];
                      NetworkStore.output_size := 1;
                      NetworkStore.weights := [1%nat];
                      NetworkStore.biases := [1%nat];
                      NetworkStore.activations := [] |} ]};
     NetworkStore.arrays :=
       {[ 0%nat := NeuralNetwork.Matrix 1 [[1]];
          1%nat := NeuralNetwork.Matrix 1 [[2]] ]};
     NetworkStore.vectors := {[ 0%nat := [0]; 1%nat := [3] ]} |}.

(** A dictionary of weights with one 1 by 3 matrix, and the network that
    [set_weights] makes of the first example network with it: its topology
    still says one input and one output. *)
Definition wide_weights : NeuralNetwork.weights_dict :=
  {| NeuralNetwork.wd_weights := [[[4; 5; 6]]];
     NeuralNetwork.wd_biases := [[0]] |}.

Definition network_wide : option NeuralNetwork.t :=
  NeuralNetwork.set_weights network_one wide_weights.

(** The single-ant colony with one food source, at the origin, where its
    ant stands. *)
Definition pickup_colony : Colony.t :=
  Colony.set_environment single_ant_colony
    {| Environment.width := 20; Environment.height := 20;
       Environment.food_heap := {[ 0%nat := example_food ]};
       Environment.food_sources := [0%nat];
       Environment.pheromone_system := PheromoneSystem.deposit_state;
       Environment.elapsed_steps := 0 |}.

(** ** core/environment.py: food generation and the step of the environment

    Two methods of [Environment] draw from the generator and allocate food
    objects.  [np.random.choice(a)] on a sequence of [n] objects is one more
    primitive of the generator, [rand_pick n]: the index of the object it
    draws. *)

Class RandomPick `{!Random} := {
  rand_pick : nat → G → nat * G
}.

(** [np.random.choice] draws an element of the sequence it is given. *)
Definition pick_is_valid `{!Random, !RandomPick} : Prop :=
  ∀ (n : nat) (g : G), (0 < n)%nat → ((rand_pick n g).1 < n)%nat.

Definition random_pick_stub : @RandomPick random_stub :=
  @Build_RandomPick random_stub (λ (_ : nat) (g : nat), (0%nat, S g)).

(** The constants of config.py that the step of the environment and the
    headless run read. *)
Module schedule.

Record t := {
  FOOD_SPAWN_RATE : Q;
  GENERATION_LENGTH : Z;
  TRAINING_GENERATIONS : Z
}.

Definition default : t :=
  {| FOOD_SPAWN_RATE := 2 # 100; GENERATION_LENGTH := 5000;
     TRAINING_GENERATIONS := 100 |}.

End schedule.

Module EnvironmentSteps.

Section Methods.
Context `{!NumPy, !Random, !RandomPick} (cfg : config.t).

(** The loop [while True] of [generate_food], which draws positions until
    one lies more than 150 away from the centre of the world.  [fuel] bounds
    the number of attempts: the model gives up, with [None], where the
    program would still be drawing. *)
Fixpoint far_position (fuel : nat) (width height : Z) : M Vector2D.t :=
  match fuel with
  | O => raise
  | S fuel' =>
      x ← draw (rand_uniform 0 (inject_Z width));
      y ← draw (rand_uniform 0 (inject_Z height));
      let position := {| Vector2D.x := x; Vector2D.y := y |} in
      let center := {| Vector2D.x := inject_Z width / 2;
                       Vector2D.y := inject_Z height / 2 |} in
      if Qltb 150 (Vector2D.magnitude (Vector2D.sub position center))
      then mret position
      else far_position fuel' width height
  end.

(** [food = Food(...)] and [self.food_sources.append(food)]: the new
    object gets an address that the heap does not use yet. *)
Definition append_food (env : Environment.t) (food : Food.t) : Environment.t :=
  let f := fresh (dom (Environment.food_heap env)) in
  {| Environment.width := Environment.width env;
     Environment.height := Environment.height env;
     Environment.food_heap := <[f := food]> (Environment.food_heap env);
     Environment.food_sources := Environment.food_sources env ++ [f];
     Environment.pheromone_system := Environment.pheromone_system env;
     Environment.elapsed_steps := Environment.elapsed_steps env |}.

(** The body of the loop of [generate_food].  The generator is asked
    whether to cluster only when there is a food source already. *)
Definition generate_one (fuel : nat) (env : Environment.t) : M Environment.t :=
  let sources := Environment.food_sources env in
  clustered ← (if (0 <? length sources)%nat
               then r ← draw rand_random; mret (Qltb r (7 # 10))
               else mret false);
  position ←
    (if clustered : bool then
       i ← draw (rand_pick (length sources));
       parent_food ← lift (sources !! i ≫= (Environment.food_heap env !!.));
       dx ← draw (rand_normal 0 50);
       dy ← draw (rand_normal 0 50);
       mret (Vector2D.add (Food.position parent_food)
               {| Vector2D.x := dx; Vector2D.y := dy |})
     else far_position fuel (Environment.width env) (Environment.height env));
  mret (append_food env
          (Food.init cfg (Vector2D.x position) (Vector2D.y position)
             (config.FOOD_ENERGY cfg))).

(** [generate_food(count)]: the loop body, [count] times, none for a
    negative count. *)
Definition generate_food (fuel : nat) (env : Environment.t) (count : Z)
    : M Environment.t :=
  foldM (λ env _, generate_one fuel env) env (seq 0 (Z.to_nat count)).

(** [update]: the pheromones evaporate and diffuse, a food source appears
    with probability [FOOD_SPAWN_RATE], and the step counter grows. *)
Definition update (sch : schedule.t) (fuel : nat) (env : Environment.t)
    : M Environment.t :=
  let env := Environment.set_pheromone_system env
               (PheromoneSystem.update cfg (Environment.pheromone_system env)) in
  r ← draw rand_random;
  env ← (if Qltb r (schedule.FOOD_SPAWN_RATE sch)
         then generate_food fuel env 1 else mret env);
  mret {| Environment.width := Environment.width env;
          Environment.height := Environment.height env;
          Environment.food_heap := Environment.food_heap env;
          Environment.food_sources := Environment.food_sources env;
          Environment.pheromone_system := Environment.pheromone_system env;
          Environment.elapsed_steps := (Environment.elapsed_steps env + 1)%Z |}.

End Methods.

End EnvironmentSteps.

(** ** ml/evolution.py and main.py: the headless run *)

Module HeadlessRun.

Section Methods.
Context `{!NumPy, !Random, !RandomPick} (cfg : config.t) (sch : schedule.t).

(** The inner loop of [run_headless]: [self.colony.update()] and then
    [self.colony.environment.update()], on the environment object that the
    colony refers to. *)
Fixpoint simulate (fuel : nat) (steps : nat) (c : Colony.t) : M Colony.t :=
  match steps with
  | O => mret c
  | S steps' =>
      c ← Colony.update cfg c;
      env ← EnvironmentSteps.update cfg sch fuel (Colony.environment c);
      simulate fuel steps' (Colony.set_environment c env)
  end.

(** The outer loop of [run_headless] over [range(generations)]. *)
Fixpoint generations_loop (fuel : nat) (n : nat) (e : EvolutionManager.t)
    (c : Colony.t) : M (EvolutionManager.t * Colony.t) :=
  match n with
  | O => mret (e, c)
  | S n' =>
      c ← simulate fuel (Z.to_nat (schedule.GENERATION_LENGTH sch)) c;
      '(e, c) ← EvolutionManager.evolve_generation cfg e c;
      generations_loop fuel n' e c
  end.

Definition run_headless (fuel : nat) (e : EvolutionManager.t) (c : Colony.t)
    (generations : Z) : M (EvolutionManager.t * Colony.t) :=
  generations_loop fuel (Z.to_nat generations) e c.

(** [main] with [--headless] and no model to load: the environment, the
    colony, the first food, the manager, the run, and the model that
    [save_model] writes, if any. *)
Definition main (fuel : nat) (ants food : Z)
    : M (EvolutionManager.t * Colony.t * option EvolutionManager.model_data) :=
  environment ← lift (Environment.init (config.WORLD_WIDTH cfg)
                        (config.WORLD_HEIGHT cfg));
  colony ← Colony.init cfg environment ants;
  environment ← EnvironmentSteps.generate_food cfg fuel environment food;
  let colony := Colony.set_environment colony environment in
  let evolution_manager := EvolutionManager.init in
  '(evolution_manager, colony) ←
    run_headless fuel evolution_manager colony
      (schedule.TRAINING_GENERATIONS sch);
  mret (evolution_manager, colony, EvolutionManager.save_model evolution_manager).

End Methods.

End HeadlessRun.

(** [env'] is [env] with the food objects at the addresses [new] added:
    the new references follow the old ones, they are distinct addresses that
    the heap of [env] did not use, each holds a food object of the
    configured energy and size, and every object of [env] is still there,
    as it was. *)
Definition food_added (cfg : config.t) (env env' : Environment.t)
    (new : list nat) : Prop :=
  Environment.food_sources env' = Environment.food_sources env ++ new ∧
  NoDup new ∧
  Forall (λ f, Environment.food_heap env !! f = None ∧
               ∃ food, Environment.food_heap env' !! f = Some food ∧
                       Food.energy food = config.FOOD_ENERGY cfg ∧
                       Food.size food = config.FOOD_SIZE cfg) new ∧
  (∀ f food, Environment.food_heap env !! f = Some food →
             Environment.food_heap env' !! f = Some food) ∧
  Environment.width env' = Environment.width env ∧
  Environment.height env' = Environment.height env.

(** The invariant of the headless run: a well-formed colony within the
    population bound, all of whose controllers have the topology that
    [MLAgent] builds, in a world of the given size. *)
Definition run_invariant (cfg : config.t) (width height : Z) (c : Colony.t)
    : Prop :=
  environment_wf (Colony.environment c) ∧
  Environment.width (Colony.environment c) = width ∧
  Environment.height (Colony.environment c) = height ∧
  (length (Colony.ants c) ≤ config.MAX_COLONY_SIZE cfg)%nat ∧
  Forall (λ a, brain_of_topology 15 (config.NEURAL_NETWORK_LAYERS cfg) 4
                 (Ant.brain a)) (Colony.ants c).

(** The size and the clock of the world, which no ant touches. *)
Definition same_world (env env' : Environment.t) : Prop :=
  Environment.width env' = Environment.width env ∧
  Environment.height env' = Environment.height env ∧
  Environment.elapsed_steps env' = Environment.elapsed_steps env.

(** ** The search for a food position, seen from the generator

    One attempt of the search draws two uniform numbers.
    [drawn_position width height g] is the position that an attempt draws
    from the generator state [g], with the state it leaves, and
    [after_attempts k width height g] is the state after [k] attempts. *)
Definition drawn_position `{!Random} (width height : Z) (g : G)
    : Vector2D.t * G :=
  let '(x, g) := rand_uniform 0 (inject_Z width) g in
  let '(y, g) := rand_uniform 0 (inject_Z height) g in
  ({| Vector2D.x := x; Vector2D.y := y |}, g).

Fixpoint after_attempts `{!Random} (k : nat) (width height : Z) (g : G) : G :=
  match k with
  | O => g
  | S k' => after_attempts k' width height (drawn_position width height g).2
  end.

(** A position more than 150 away from the centre of the world. *)
Definition is_far `{!NumPy} (width height : Z) (p : Vector2D.t) : Prop :=
  150 < Vector2D.magnitude
          (Vector2D.sub p {| Vector2D.x := inject_Z width / 2;
                             Vector2D.y := inject_Z height / 2 |}).

(** An assumption on the generator: whatever its state, one of its next
    [attempts] draws of a position lies more than 150 away from the centre
    of the world. *)
Definition draws_reach_far `{!NumPy, !Random} (attempts : nat)
    (width height : Z) : Prop :=
  ∀ g, ∃ k, (k < attempts)%nat ∧
    is_far width height
      (drawn_position width height (after_attempts k width height g)).1.

(** [np.random.uniform(lo, hi)] lies between its bounds. *)
Definition uniform_in_range `{!Random} : Prop :=
  ∀ (lo hi : Q) (g : G), lo <= hi →
    lo <= (rand_uniform lo hi g).1 ∧ (rand_uniform lo hi g).1 <= hi.

(** The square root of a number that is at most 150 squared is at most
    150. *)
Definition sqrt_below_150 `{!NumPy} : Prop :=
  ∀ x : Q, x <= 22500 → np_sqrt x <= 150.

(** A stand-in for numpy whose square root is rounded up to the next
    integer, so that it lies on the side of every integer where the real
    root lies. *)
Definition numpy_rounding : NumPy :=
  {| np_sqrt := λ x, inject_Z (Z.sqrt_up (Qceiling x)); np_cos := λ _, 1;
     np_sin := λ _, 0; np_exp := λ _, 1; np_pi := 3 |}.

(** A world of 20 by 20 without food, every point of which is within 150
    of the centre. *)
Definition small_world : Environment.t :=
  {| Environment.width := 20; Environment.height := 20;
     Environment.food_heap := ∅; Environment.food_sources := [];
     Environment.pheromone_system := PheromoneSystem.deposit_state;
     Environment.elapsed_steps := 0 |}.
(** * Theorems *)

(** ** Float comparisons *)

Lemma Qltb_lt x y : Qltb x y = true ↔ x < y.
Proof.
  unfold Qltb. rewrite negb_true_iff. split.
  - intros H. apply Qnot_le_lt. intros Hle. apply Qle_bool_iff in Hle. congruence.
  - intros H. destruct (Qle_bool y x) eqn:E; [|done].
    apply Qle_bool_iff in E. lra.
Qed.

Lemma Qltb_ge x y : Qltb x y = false ↔ y <= x.
Proof.
  unfold Qltb. rewrite negb_false_iff. apply Qle_bool_iff.
Qed.


(** ** Nest: the upgrade rule *)

Lemma Nest_check_upgrades_below (n : Nest.t) :
  (Nest.food_stored n < Nest.structure_level n * 100)%Z →
  Nest._check_upgrades n = n.
Proof.
  intros H. unfold Nest._check_upgrades.
  destruct (Z.leb_spec (Nest.structure_level n * 100) (Nest.food_stored n)); [lia|done].
Qed.

Lemma Nest_check_upgrades_reached (n : Nest.t) :
  (Nest.structure_level n * 100 ≤ Nest.food_stored n)%Z →
  Nest._check_upgrades n =
    {| Nest.position := Nest.position n;
       Nest.radius := (Nest.radius n + 5)%Z;
       Nest.food_stored := (Nest.food_stored n - Nest.structure_level n * 100)%Z;
       Nest.structure_level := (Nest.structure_level n + 1)%Z;
       Nest.chambers := Nest.upgrade_chamber <$> Nest.chambers n |}.
Proof.
  intros H. unfold Nest._check_upgrades.
  destruct (Z.leb_spec (Nest.structure_level n * 100) (Nest.food_stored n)); [done|lia].
Qed.

(** C5, as stated, fails: a fresh nest (level 1) that receives 1000 units of
    food in one delivery is upgraded once only, to level 2 with 900 units
    left, and 900 is not below the new threshold 200. *)
Lemma Nest_add_food_threshold_still_met :
  ¬ Nest.below_threshold (Nest.add_food (Nest.init 0 0 50) 1000).
Proof.
  unfold Nest.below_threshold. vm_compute. discriminate.
Qed.

(** C5, amended: one [add_food] call applies the upgrade rule at most once.
    With [total] the stored food after the addition: below the threshold
    nothing but the store changes; at or above it the threshold is
    subtracted once, the level grows by one, the radius by 5 and every
    chamber is upgraded once.  The post-state is below its threshold exactly
    when [total < (2 * level + 1) * 100]. *)
Theorem Nest_add_food_upgrades_once (n : Nest.t) (amount : Z) :
  (1 ≤ Nest.structure_level n)%Z →
  let level := Nest.structure_level n in
  let total := (Nest.food_stored n + amount)%Z in
  let n' := Nest.add_food n amount in
  ((total < level * 100)%Z →
     Nest.food_stored n' = total ∧
     Nest.structure_level n' = level ∧
     Nest.radius n' = Nest.radius n ∧
     Nest.chambers n' = Nest.chambers n) ∧
  ((level * 100 ≤ total)%Z →
     Nest.food_stored n' = (total - level * 100)%Z ∧
     Nest.structure_level n' = (level + 1)%Z ∧
     Nest.radius n' = (Nest.radius n + 5)%Z ∧
     Nest.chambers n' = Nest.upgrade_chamber <$> Nest.chambers n) ∧
  Nest.position n' = Nest.position n ∧
  (Nest.below_threshold n' ↔ (total < (2 * level + 1) * 100)%Z).
Proof.
  intros Hlevel level total n'. subst n'. unfold Nest.add_food.
  set (n1 := {| Nest.position := Nest.position n; Nest.radius := Nest.radius n;
                Nest.food_stored := (Nest.food_stored n + amount)%Z;
                Nest.structure_level := Nest.structure_level n;
                Nest.chambers := Nest.chambers n |}).
  destruct (Z.lt_ge_cases total (level * 100)) as [Hlt|Hge].
  - rewrite (Nest_check_upgrades_below n1) by exact Hlt.
    unfold Nest.below_threshold. subst n1 level total. cbn in *.
    split; [done|]. split; [lia|]. split; [done|]. lia.
  - rewrite (Nest_check_upgrades_reached n1) by exact Hge.
    unfold Nest.below_threshold. subst n1 level total. cbn in *.
    split; [lia|]. split; [done|]. split; [done|]. lia.
Qed.

Lemma Nest_add_food_upgrades_once_witness :
  (1 ≤ Nest.structure_level (Nest.init 0 0 50))%Z ∧
  Nest.food_stored (Nest.add_food (Nest.init 0 0 50) 150) = 50%Z.
Proof.
  split; [cbn; lia|].
  pose proof (Nest_add_food_upgrades_once (Nest.init 0 0 50) 150) as H.
  cbn -[Nest.add_food] in H.
  destruct H as (_ & H & _); [lia|]. destruct H as (-> & _); [lia|]. reflexivity.
Defined.

(** ** PheromoneSystem: grid dimensions *)

Lemma np_zeros_dims (n m : Z) :
  (0 ≤ n)%Z → (0 ≤ m)%Z →
  ∃ g, PheromoneSystem.np_zeros n m = Some g ∧
       Z.of_nat (length g) = n ∧
       Forall (λ row, Z.of_nat (length row) = m) g.
Proof.
  intros Hn Hm. unfold PheromoneSystem.np_zeros.
  destruct (Z.ltb_spec n 0); [lia|]. destruct (Z.ltb_spec m 0); [lia|].
  cbn. eexists. split; [done|]. split.
  - rewrite length_replicate. lia.
  - apply Forall_replicate. rewrite length_replicate. lia.
Qed.

Lemma floor_plus_one_vs_ceil (a b : Z) :
  (0 < b)%Z →
  (a / b + 1 = spec_ceil_div a b + (if (a mod b =? 0)%Z then 1 else 0))%Z.
Proof.
  intros Hb. unfold spec_ceil_div.
  destruct (Z.eqb_spec (a mod b) 0) as [E|E].
  - rewrite Z.div_opp_l_z by lia. lia.
  - rewrite Z.div_opp_l_nz by lia. lia.
Qed.

(** C7, as stated, fails: the default world (1200 by 800, resolution 10)
    gets a grid of 121 by 81 cells, while [ceil(1200/10)] is 120 and
    [ceil(800/10)] is 80. *)
Lemma PheromoneSystem_init_not_ceil :
  ¬ ∃ ps, PheromoneSystem.init 1200 800 10 = Some ps ∧
          PheromoneSystem.grid_width ps = spec_ceil_div 1200 10 ∧
          PheromoneSystem.grid_height ps = spec_ceil_div 800 10.
Proof.
  intros (ps & Hinit & Hw & _).
  unfold PheromoneSystem.init in Hinit. cbn [Z.eqb] in Hinit.
  destruct (PheromoneSystem.np_zeros _ _) as [food|]; [|done].
  cbn in Hinit. injection Hinit as <-. cbn in Hw. vm_compute in Hw. discriminate.
Qed.

(** C7, amended: for a positive resolution the grid has
    [width // resolution + 1] by [height // resolution + 1] cells, in both
    channels; this is [ceil(size / resolution)] when the resolution does not
    divide the size and one more when it does. *)
Theorem PheromoneSystem_init_dimensions (width height resolution : Z) :
  (0 < resolution)%Z → (0 ≤ width)%Z → (0 ≤ height)%Z →
  ∃ ps, PheromoneSystem.init width height resolution = Some ps ∧
    PheromoneSystem.grid_width ps = (width / resolution + 1)%Z ∧
    PheromoneSystem.grid_height ps = (height / resolution + 1)%Z ∧
    PheromoneSystem.wf ps ∧
    is_Some (PheromoneSystem.grids ps !! "food") ∧
    is_Some (PheromoneSystem.grids ps !! "home") ∧
    PheromoneSystem.grid_width ps =
      (spec_ceil_div width resolution +
       (if (width mod resolution =? 0)%Z then 1 else 0))%Z ∧
    PheromoneSystem.grid_height ps =
      (spec_ceil_div height resolution +
       (if (height mod resolution =? 0)%Z then 1 else 0))%Z.
Proof.
  intros Hr Hw Hh. unfold PheromoneSystem.init.
  destruct (Z.eqb_spec resolution 0); [lia|].
  assert (0 ≤ width / resolution + 1)%Z as Hgw
    by (pose proof (Z.div_pos width resolution); lia).
  assert (0 ≤ height / resolution + 1)%Z as Hgh
    by (pose proof (Z.div_pos height resolution); lia).
  destruct (np_zeros_dims _ _ Hgw Hgh) as (g & -> & Hlen & Hrows).
  cbn. eexists. split; [done|]. cbn.
  split; [done|]. split; [done|]. split.
  { intros ch g' Hch. cbn in Hch.
    apply lookup_insert_Some in Hch as [[_ <-]|[_ Hch]]; [done|].
    apply lookup_insert_Some in Hch as [[_ <-]|[_ Hch]]; [done|].
    by rewrite lookup_empty in Hch. }
  split; [by rewrite lookup_insert_eq|].
  split; [by rewrite lookup_insert_ne, lookup_insert_eq|].
  split; by apply floor_plus_one_vs_ceil.
Qed.

Lemma PheromoneSystem_init_dimensions_witness :
  (0 < 10)%Z ∧ (0 ≤ 1200)%Z ∧ (0 ≤ 800)%Z ∧
  ∃ ps, PheromoneSystem.init 1200 800 10 = Some ps ∧
        PheromoneSystem.grid_width ps = 121%Z ∧
        PheromoneSystem.grid_height ps = 81%Z.
Proof.
  split; [lia|]. split; [lia|]. split; [lia|].
  destruct (PheromoneSystem_init_dimensions 1200 800 10)
    as (ps & H & Hw & Hh & _); [lia..|].
  exists ps. split; [exact H|]. split; [exact Hw|exact Hh].
Defined.

(** ** PheromoneSystem: evaporation and diffusion *)

Section PheromoneUpdate.
Import PheromoneSystem.

Lemma has_cell_set_cell g i j v i' j' :
  has_cell (set_cell g i j v) i' j' ↔ has_cell g i' j'.
Proof.
  unfold has_cell, set_cell. destruct (decide (i = i')) as [->|Hi].
  - rewrite list_lookup_alter_eq. destruct (g !! i') as [row|]; cbn; [|done].
    rewrite !lookup_lt_is_Some, length_insert. done.
  - by rewrite list_lookup_alter_ne.
Qed.

Lemma cell_set_cell_ne g i j v i' j' :
  i ≠ i' ∨ j ≠ j' → cell (set_cell g i j v) i' j' = cell g i' j'.
Proof.
  intros Hne. unfold cell, set_cell. destruct (decide (i = i')) as [->|Hi].
  - rewrite list_lookup_alter_eq. destruct (g !! i') as [row|]; cbn; [|done].
    rewrite list_lookup_insert_ne; [done|]. destruct Hne; congruence.
  - by rewrite list_lookup_alter_ne.
Qed.

Lemma cell_set_cell_eq g i j v :
  has_cell g i j → cell (set_cell g i j v) i j = v.
Proof.
  unfold has_cell, cell, set_cell. rewrite list_lookup_alter_eq.
  destruct (g !! i) as [row|]; cbn; [|by intros []].
  intros Hj. apply lookup_lt_is_Some in Hj.
  by rewrite list_lookup_insert_eq.
Qed.

(** The inner loop writes exactly the cells of row [i] it visits. *)
Lemma row_loop_has_cell (f : nat → Q) i js g i' j' :
  has_cell (foldl (λ D j, set_cell D i j (f j)) g js) i' j' ↔ has_cell g i' j'.
Proof.
  revert g. induction js as [|j js IH]; intros g; cbn; [done|].
  by rewrite IH, has_cell_set_cell.
Qed.

Lemma row_loop_miss (f : nat → Q) i js g i' j' :
  i ≠ i' ∨ j' ∉ js →
  cell (foldl (λ D j, set_cell D i j (f j)) g js) i' j' = cell g i' j'.
Proof.
  revert g. induction js as [|j js IH]; intros g Hmiss; cbn; [done|].
  rewrite IH.
  - apply cell_set_cell_ne. destruct Hmiss as [?|Hj]; [by left|].
    right. intros ->. apply Hj. by left.
  - destruct Hmiss as [?|Hj]; [by left|]. right. intros ?. apply Hj. by right.
Qed.

Lemma row_loop_hit (f : nat → Q) i js g j' :
  j' ∈ js → has_cell g i j' →
  cell (foldl (λ D j, set_cell D i j (f j)) g js) i j' = f j'.
Proof.
  revert g. induction js as [|j js IH]; intros g Hin Hcell; cbn.
  - by apply elem_of_nil in Hin.
  - destruct (decide (j' ∈ js)) as [Hjs|Hjs].
    + apply IH; [done|]. by apply has_cell_set_cell.
    + apply elem_of_cons in Hin as [->|?]; [|done].
      rewrite row_loop_miss by (by right). by apply cell_set_cell_eq.
Qed.

(** The nested loops write exactly the cells of the index rectangle. *)
Lemma loops_has_cell (f : nat → nat → Q) rows js g i' j' :
  has_cell (foldl (λ D i, foldl (λ D j, set_cell D i j (f i j)) D js) g rows)
           i' j' ↔ has_cell g i' j'.
Proof.
  revert g. induction rows as [|i rows IH]; intros g; cbn; [done|].
  by rewrite IH, row_loop_has_cell.
Qed.

Lemma loops_miss (f : nat → nat → Q) rows js g i' j' :
  i' ∉ rows ∨ j' ∉ js →
  cell (foldl (λ D i, foldl (λ D j, set_cell D i j (f i j)) D js) g rows)
       i' j' = cell g i' j'.
Proof.
  revert g. induction rows as [|i rows IH]; intros g Hmiss; cbn; [done|].
  rewrite IH.
  - apply row_loop_miss. destruct Hmiss as [Hi|?]; [|by right].
    left. intros ->. apply Hi. by left.
  - destruct Hmiss as [Hi|?]; [|by right]. left. intros ?. apply Hi. by right.
Qed.

Lemma loops_hit (f : nat → nat → Q) rows js g i' j' :
  i' ∈ rows → j' ∈ js → has_cell g i' j' →
  cell (foldl (λ D i, foldl (λ D j, set_cell D i j (f i j)) D js) g rows)
       i' j' = f i' j'.
Proof.
  revert g. induction rows as [|i rows IH]; intros g Hi Hj Hcell; cbn.
  - by apply elem_of_nil in Hi.
  - destruct (decide (i' ∈ rows)) as [Hrows|Hrows].
    + apply IH; [done..|]. by apply row_loop_has_cell.
    + apply elem_of_cons in Hi as [->|?]; [|done].
      rewrite loops_miss by (by left). by apply (row_loop_hit (f i)).
Qed.

Lemma elem_of_range (lo hi : Z) (i : nat) :
  (0 ≤ lo)%Z → i ∈ range lo hi ↔ (lo ≤ Z.of_nat i < hi)%Z.
Proof.
  intros Hlo. unfold range. rewrite elem_of_seq. lia.
Qed.

Lemma wf_has_cell (gw gh : Z) g i j :
  Z.of_nat (length g) = gw →
  Forall (λ row, Z.of_nat (length row) = gh) g →
  (Z.of_nat i < gw)%Z → (Z.of_nat j < gh)%Z → has_cell g i j.
Proof.
  intros Hlen Hrows Hi Hj. unfold has_cell.
  destruct (lookup_lt_is_Some_2 g i) as [row Hrow]; [lia|].
  rewrite Hrow. cbn. apply lookup_lt_is_Some.
  rewrite Forall_lookup in Hrows. specialize (Hrows _ _ Hrow). cbn in Hrows. lia.
Qed.

Lemma cell_diffuse_interior d gw gh g i j :
  Z.of_nat (length g) = gw →
  Forall (λ row, Z.of_nat (length row) = gh) g →
  interior gw gh i j →
  cell (diffuse d gw gh g) i j = diffused_value d g i j.
Proof.
  intros Hlen Hrows [Hi Hj]. unfold diffuse.
  apply (loops_hit (diffused_value d g)).
  - apply elem_of_range; lia.
  - apply elem_of_range; lia.
  - apply (wf_has_cell gw gh); [done..|lia|lia].
Qed.

Lemma cell_diffuse_border d gw gh g i j :
  ¬ interior gw gh i j →
  cell (diffuse d gw gh g) i j = cell g i j.
Proof.
  intros Hb. unfold diffuse. apply (loops_miss (diffused_value d g)).
  rewrite !elem_of_range by lia. unfold interior in Hb. lia.
Qed.

Lemma cell_evaporate rate g i j :
  cell (evaporate rate g) i j == cell g i j * rate.
Proof.
  unfold cell, evaporate. rewrite list_lookup_fmap.
  destruct (g !! i) as [row|]; cbn; [|lra].
  rewrite list_lookup_fmap. destruct (row !! j); cbn; lra.
Qed.

Lemma evaporate_dims (gw gh : Z) rate g :
  Z.of_nat (length g) = gw →
  Forall (λ row, Z.of_nat (length row) = gh) g →
  Z.of_nat (length (evaporate rate g)) = gw ∧
  Forall (λ row, Z.of_nat (length row) = gh) (evaporate rate g).
Proof.
  intros Hlen Hrows. unfold evaporate. split.
  - by rewrite length_map.
  - apply Forall_fmap. eapply Forall_impl; [exact Hrows|].
    intros row Hrow. cbn. by rewrite length_map.
Qed.

Lemma evaporation_bound (rate v : Q) :
  0 <= rate <= 1 → 0 <= v → 0 <= v * rate <= v.
Proof. intros [? ?] ?. split; nra. Qed.

Lemma diffusion_bound (d s a b c e M : Q) :
  0 <= d <= 1 →
  s <= M → a <= M → b <= M → c <= M → e <= M →
  (1 - d) * s + d * np_mean4 a b c e <= M.
Proof.
  intros [? ?] ? ? ? ? ?. unfold np_mean4.
  assert ((a + b + c + e) / 4 <= M) as Hmean.
  { apply Qle_shift_div_r; lra. }
  set (m := (a + b + c + e) / 4) in *. clearbody m. nra.
Qed.

Lemma diffusion_nonneg (d s a b c e : Q) :
  0 <= d <= 1 →
  0 <= s → 0 <= a → 0 <= b → 0 <= c → 0 <= e →
  0 <= (1 - d) * s + d * np_mean4 a b c e.
Proof.
  intros [? ?] ? ? ? ? ?. unfold np_mean4.
  assert (0 <= (a + b + c + e) / 4) as Hmean.
  { apply Qle_shift_div_l; lra. }
  set (m := (a + b + c + e) / 4) in *. clearbody m. nra.
Qed.

Lemma set_cell_dims (gw gh : Z) g i j v :
  Z.of_nat (length g) = gw →
  Forall (λ row, Z.of_nat (length row) = gh) g →
  Z.of_nat (length (set_cell g i j v)) = gw ∧
  Forall (λ row, Z.of_nat (length row) = gh) (set_cell g i j v).
Proof.
  intros Hlen Hrows. unfold set_cell. split.
  - by rewrite length_alter.
  - apply Forall_alter; [done|]. intros row _ Hrow. by rewrite length_insert.
Qed.

Lemma row_loop_dims (gw gh : Z) (f : nat → Q) i js g :
  Z.of_nat (length g) = gw →
  Forall (λ row, Z.of_nat (length row) = gh) g →
  Z.of_nat (length (foldl (λ D j, set_cell D i j (f j)) g js)) = gw ∧
  Forall (λ row, Z.of_nat (length row) = gh)
         (foldl (λ D j, set_cell D i j (f j)) g js).
Proof.
  revert g. induction js as [|j js IH]; intros g Hlen Hrows; cbn; [done|].
  destruct (set_cell_dims gw gh g i j (f j)) as [? ?]; [done..|].
  by apply IH.
Qed.

Lemma diffuse_dims (gw gh : Z) d gw' gh' g :
  Z.of_nat (length g) = gw →
  Forall (λ row, Z.of_nat (length row) = gh) g →
  Z.of_nat (length (diffuse d gw' gh' g)) = gw ∧
  Forall (λ row, Z.of_nat (length row) = gh) (diffuse d gw' gh' g).
Proof.
  unfold diffuse. generalize (diffused_value d g) as f.
  generalize (range 1 (gh' - 1)) as js. generalize (range 1 (gw' - 1)) as rows.
  intros rows js f. revert g.
  induction rows as [|i rows IH]; intros g Hlen Hrows; cbn; [done|].
  destruct (row_loop_dims gw gh (f i) i js g) as [? ?]; [done..|].
  by apply IH.
Qed.

Lemma update_grid_dims cfg (gw gh : Z) g :
  Z.of_nat (length g) = gw →
  Forall (λ row, Z.of_nat (length row) = gh) g →
  Z.of_nat (length (update_grid cfg gw gh g)) = gw ∧
  Forall (λ row, Z.of_nat (length row) = gh) (update_grid cfg gw gh g).
Proof.
  intros Hlen Hrows. unfold update_grid.
  destruct (evaporate_dims gw gh (config.PHEROMONE_EVAPORATION_RATE cfg) g)
    as [Hlen' Hrows']; [done..|].
  destruct (Qltb _ _); [|done]. by apply diffuse_dims.
Qed.

(** One call of [update_grid], cell by cell. *)
Lemma update_grid_cell cfg (gw gh : Z) g i j :
  let rate := config.PHEROMONE_EVAPORATION_RATE cfg in
  let d := config.PHEROMONE_DIFFUSION cfg in
  Z.of_nat (length g) = gw →
  Forall (λ row, Z.of_nat (length row) = gh) g →
  (∀ i j, 0 <= cell g i j) →
  0 <= rate <= 1 → d <= 1 →
  let v' := cell (update_grid cfg gw gh g) i j in
  0 <= v' ∧
  (d <= 0 ∨ ¬ interior gw gh i j → v' <= cell g i j) ∧
  (∀ M, cell g i j <= M →
        cell g (i - 1) j <= M → cell g (i + 1) j <= M →
        cell g i (j - 1) <= M → cell g i (j + 1) <= M → v' <= M).
Proof.
  intros rate d Hlen Hrows Hpos Hrate Hd v'. subst v'. unfold update_grid.
  fold rate. fold d.
  destruct (evaporate_dims gw gh rate g) as [Hlen' Hrows']; [done..|].
  assert (∀ i j, 0 <= cell (evaporate rate g) i j <= cell g i j) as Hev.
  { intros i' j'. rewrite cell_evaporate. by apply evaporation_bound. }
  destruct (Qltb 0 d) eqn:Hdpos.
  - apply Qltb_lt in Hdpos.
    destruct (decide (interior gw gh i j)) as [Hint|Hbord].
    + rewrite cell_diffuse_interior by done. unfold diffused_value.
      pose proof (Hev i j). pose proof (Hev (i - 1)%nat j).
      pose proof (Hev (i + 1)%nat j). pose proof (Hev i (j - 1)%nat).
      pose proof (Hev i (j + 1)%nat).
      split; [apply diffusion_nonneg; lra|].
      split; [intros [?|?]; [lra|done]|].
      intros M ? ? ? ? ?. apply diffusion_bound; lra.
    + rewrite cell_diffuse_border by done. pose proof (Hev i j).
      split; [lra|]. split; [intros _; lra|]. intros M ? _ _ _ _. lra.
  - pose proof (Hev i j).
    split; [lra|]. split; [intros _; lra|]. intros M ? _ _ _ _. lra.
Qed.

End PheromoneUpdate.

Lemma deposit_state_wf : PheromoneSystem.wf PheromoneSystem.deposit_state.
Proof.
  intros ch g Hch. cbn in Hch.
  apply lookup_insert_Some in Hch as [[_ <-]|[_ Hch]];
    [split; [done|repeat constructor]|].
  apply lookup_insert_Some in Hch as [[_ <-]|[_ Hch]];
    [split; [done|repeat constructor]|].
  by rewrite lookup_empty in Hch.
Qed.

Lemma deposit_state_nonnegative :
  PheromoneSystem.nonnegative PheromoneSystem.deposit_state.
Proof.
  intros ch g i j Hch. cbn in Hch.
  assert (∀ g0 : list (list Q),
    Forall (Forall (λ v, 0 <= v)) g0 → 0 <= PheromoneSystem.cell g0 i j) as Hall.
  { intros g0 Hg0. unfold PheromoneSystem.cell.
    destruct (g0 !! i) as [row|] eqn:Hrow; cbn; [|lra].
    rewrite Forall_lookup in Hg0. specialize (Hg0 _ _ Hrow).
    destruct (row !! j) as [v|] eqn:Hv; cbn; [|lra].
    rewrite Forall_lookup in Hg0. exact (Hg0 _ _ Hv). }
  apply lookup_insert_Some in Hch as [[_ <-]|[_ Hch]];
    [apply Hall; repeat constructor; vm_compute; discriminate|].
  apply lookup_insert_Some in Hch as [[_ <-]|[_ Hch]];
    [apply Hall; repeat constructor; vm_compute; discriminate|].
  by rewrite lookup_empty in Hch.
Qed.

(** C3, as stated, fails: after a deposit of 10 units at cell (0, 1) of an
    otherwise empty 3 by 3 grid, one [update] with the default configuration
    (diffusion 0.05) raises the interior cell (1, 1) from 0 to
    0.05 * (9.95 / 4). *)
Lemma PheromoneSystem_update_cell_increases :
  PheromoneSystem.deposit_example = Some PheromoneSystem.deposit_state ∧
  PheromoneSystem.wf PheromoneSystem.deposit_state ∧
  PheromoneSystem.nonnegative PheromoneSystem.deposit_state ∧
  ¬ PheromoneSystem.non_increasing PheromoneSystem.deposit_state
      (PheromoneSystem.update config.default PheromoneSystem.deposit_state).
Proof.
  split; [vm_compute; reflexivity|].
  split; [apply deposit_state_wf|]. split; [apply deposit_state_nonnegative|].
  intros Hclaim.
  specialize (Hclaim "food" PheromoneSystem.deposit_grid
    (PheromoneSystem.update_grid config.default 3 3 PheromoneSystem.deposit_grid)
    1%nat 1%nat).
  specialize (Hclaim ltac:(vm_compute; reflexivity) ltac:(vm_compute; reflexivity)).
  vm_compute in Hclaim. by apply Hclaim.
Qed.

(** C3, amended: for a well-formed state with non-negative cells, an
    evaporation rate in [0, 1] and a diffusion coefficient of at most 1, one
    call to [update] without deposits keeps the state well-formed and
    non-negative; every border cell, and every cell when the diffusion
    coefficient is not positive, is at most its previous value; and every
    cell is at most any bound on the previous values of itself and its four
    neighbours (so an interior cell can grow, but never beyond its
    neighbourhood's previous maximum). *)
Theorem PheromoneSystem_update_bounded (cfg : config.t) (ps : PheromoneSystem.t) :
  let rate := config.PHEROMONE_EVAPORATION_RATE cfg in
  let d := config.PHEROMONE_DIFFUSION cfg in
  let gw := PheromoneSystem.grid_width ps in
  let gh := PheromoneSystem.grid_height ps in
  PheromoneSystem.wf ps → PheromoneSystem.nonnegative ps →
  0 <= rate <= 1 → d <= 1 →
  PheromoneSystem.wf (PheromoneSystem.update cfg ps) ∧
  PheromoneSystem.nonnegative (PheromoneSystem.update cfg ps) ∧
  ∀ ch g, PheromoneSystem.grids ps !! ch = Some g →
    ∃ g', PheromoneSystem.grids (PheromoneSystem.update cfg ps) !! ch = Some g' ∧
      ∀ i j : nat,
        let border := ¬ ((1 ≤ Z.of_nat i < gw - 1)%Z ∧ (1 ≤ Z.of_nat j < gh - 1)%Z) in
        (d <= 0 ∨ border →
           PheromoneSystem.cell g' i j <= PheromoneSystem.cell g i j) ∧
        (∀ M, PheromoneSystem.cell g i j <= M →
              PheromoneSystem.cell g (i - 1) j <= M →
              PheromoneSystem.cell g (i + 1) j <= M →
              PheromoneSystem.cell g i (j - 1) <= M →
              PheromoneSystem.cell g i (j + 1) <= M →
              PheromoneSystem.cell g' i j <= M).
Proof.
  intros rate d gw gh Hwf Hpos Hrate Hd.
  assert (∀ ch g', PheromoneSystem.grids (PheromoneSystem.update cfg ps) !! ch = Some g' →
    ∃ g, PheromoneSystem.grids ps !! ch = Some g ∧
         g' = PheromoneSystem.update_grid cfg gw gh g) as Hinv.
  { intros ch g' Hch. unfold PheromoneSystem.update in Hch. cbn in Hch.
    rewrite lookup_fmap in Hch.
    destruct (PheromoneSystem.grids ps !! ch) as [g|]; [|done].
    cbn in Hch. injection Hch as <-. by exists g. }
  split; [|split].
  - intros ch g' Hch. destruct (Hinv _ _ Hch) as (g & Hg & ->).
    destruct (Hwf _ _ Hg) as [Hlen Hrows].
    by apply update_grid_dims.
  - intros ch g' i j Hch. destruct (Hinv _ _ Hch) as (g & Hg & ->).
    destruct (Hwf _ _ Hg) as [Hlen Hrows].
    apply (update_grid_cell cfg gw gh g i j); try done.
    intros i' j'. by apply (Hpos ch).
  - intros ch g Hg. destruct (Hwf _ _ Hg) as [Hlen Hrows].
    exists (PheromoneSystem.update_grid cfg gw gh g). split.
    { unfold PheromoneSystem.update. cbn. by rewrite lookup_fmap, Hg. }
    intros i j border.
    destruct (update_grid_cell cfg gw gh g i j) as (_ & Hle & Hmax); try done.
    intros i' j'. by apply (Hpos ch).
Qed.


Lemma PheromoneSystem_update_bounded_witness :
  PheromoneSystem.wf PheromoneSystem.deposit_state ∧
  PheromoneSystem.nonnegative PheromoneSystem.deposit_state ∧
  0 <= config.PHEROMONE_EVAPORATION_RATE config.default <= 1 ∧
  config.PHEROMONE_DIFFUSION config.default <= 1 ∧
  PheromoneSystem.nonnegative
    (PheromoneSystem.update config.default PheromoneSystem.deposit_state).
Proof.
  assert (0 <= config.PHEROMONE_EVAPORATION_RATE config.default <= 1) as Hrate
    by (split; vm_compute; discriminate).
  assert (config.PHEROMONE_DIFFUSION config.default <= 1) as Hd
    by (vm_compute; discriminate).
  split; [apply deposit_state_wf|]. split; [apply deposit_state_nonnegative|].
  split; [exact Hrate|]. split; [exact Hd|].
  exact (proj1 (proj2 (PheromoneSystem_update_bounded config.default
    PheromoneSystem.deposit_state deposit_state_wf deposit_state_nonnegative
    Hrate Hd))).
Defined.

(** ** Computations in [M] *)

Section MonadFacts.
Context `{!Random}.

Lemma returns_ret {A} (a : A) (P : A → Prop) : P a → returns (mret a) P.
Proof. intros HP g. by exists a, g. Qed.

Lemma returns_bind {A B} (m : M A) (f : A → M B) (P : A → Prop) (Q : B → Prop) :
  returns m P → (∀ a, P a → returns (f a) Q) → returns (m ≫= f) Q.
Proof.
  intros Hm Hf g. destruct (Hm g) as (a & g1 & Hrun & HP).
  destruct (Hf a HP g1) as (b & g2 & Hrun' & HQ).
  exists b, g2. split; [|done].
  unfold mbind, M_bind. by rewrite Hrun.
Qed.

Lemma returns_draw {A} (f : G → A * G) : returns (draw f) (λ _, True).
Proof.
  intros g. exists (f g).1, (f g).2. split; [|done].
  unfold draw. by destruct (f g).
Qed.

Lemma returns_lift {A} (o : option A) (a : A) (P : A → Prop) :
  o = Some a → P a → returns (lift o) P.
Proof. intros -> HP g. by exists a, g. Qed.

Lemma returns_weaken {A} (m : M A) (P Q : A → Prop) :
  returns m P → (∀ a, P a → Q a) → returns m Q.
Proof.
  intros Hm HPQ g. destruct (Hm g) as (a & g' & ? & ?).
  exists a, g'. split; [done|]. by apply HPQ.
Qed.

Lemma returns_repeatM {A} (n : nat) (m : M A) (P : A → Prop) :
  returns m P → returns (repeatM n m) (λ l, length l = n ∧ Forall P l).
Proof.
  intros Hm. induction n as [|n IH]; cbn.
  - by apply returns_ret.
  - eapply returns_bind; [exact Hm|]. intros a Ha.
    eapply returns_bind; [exact IH|]. intros l [Hlen Hl].
    apply returns_ret. cbn. split; [by rewrite Hlen|by constructor].
Qed.

(** The result of a computation that returns is the one it is known to
    return. *)
Lemma returns_run {A} (m : M A) (P : A → Prop) g a g' :
  returns m P → m g = Some (a, g') → P a.
Proof.
  intros Hm Hrun. destruct (Hm g) as (a' & g'' & Hrun' & HP). congruence.
Qed.

(** A matrix of draws has the dimensions asked for. *)
Lemma returns_draw_matrix {A} (n m : nat) (f : G → A * G) :
  returns (repeatM n (repeatM m (draw f)))
          (λ rows, length rows = n ∧ Forall (λ r, length r = m) rows).
Proof.
  eapply returns_weaken.
  - apply returns_repeatM. apply returns_repeatM. apply returns_draw.
  - intros rows [Hlen Hrows]. split; [done|].
    eapply Forall_impl; [exact Hrows|]. by intros r [? _].
Qed.

(** Inversion of a run that returned. *)
Lemma bind_Some {A B} (m : M A) (f : A → M B) g b g2 :
  (m ≫= f) g = Some (b, g2) →
  ∃ a g1, m g = Some (a, g1) ∧ f a g1 = Some (b, g2).
Proof.
  unfold mbind, M_bind. destruct (m g) as [[a g1]|]; [|done].
  intros Hf. by exists a, g1.
Qed.

Lemma ret_Some {A} (a b : A) g g' :
  (mret a : M A) g = Some (b, g') → b = a ∧ g' = g.
Proof. unfold mret, M_ret. by intros [= <- <-]. Qed.

Lemma lift_Some {A} (o : option A) (b : A) g g' :
  lift o g = Some (b, g') → o = Some b ∧ g' = g.
Proof. unfold lift. destruct o; [|done]. by intros [= <- <-]. Qed.

(** A run step by step. *)
Lemma bind_run {A B} (m : M A) (f : A → M B) g a g1 :
  m g = Some (a, g1) → (m ≫= f) g = f a g1.
Proof. intros Hrun. unfold mbind, M_bind. by rewrite Hrun. Qed.

Lemma bind_None {A B} (m : M A) (f : A → M B) g :
  m g = None → (m ≫= f) g = None.
Proof. intros Hrun. unfold mbind, M_bind. by rewrite Hrun. Qed.

Lemma lift_run {A} (o : option A) (a : A) g :
  o = Some a → lift o g = Some (a, g).
Proof. by intros ->. Qed.

End MonadFacts.

(** ** NeuralNetwork: construction and crossover *)

Section NeuralNetworkFacts.
Context `{!NumPy, !Random}.
Import NeuralNetwork.

(** [__init__] succeeds on every topology that some network conforms to,
    and builds arrays of the shapes of that topology. *)
Lemma init_layers_conforms (sizes : list nat) ws0 bs0 :
  conforms_layers sizes ws0 bs0 →
  returns (init_layers sizes) (λ r, conforms_layers sizes r.1 r.2).
Proof.
  revert ws0 bs0. induction sizes as [|n rest IH]; intros ws0 bs0 Hc.
  - by apply returns_ret.
  - destruct rest as [|m rest'].
    + by apply returns_ret.
    + cbn [init_layers]. cbn in Hc.
      destruct ws0 as [|[|c rows] ws0]; [done..|]. destruct bs0 as [|b bs0]; [done|].
      destruct Hc as (Hnm & _ & _ & _ & _ & Hrest).
      destruct (Nat.eqb_spec (n + m) 0) as [?|_]; [done|].
      eapply returns_bind; [apply returns_draw_matrix|]. intros rows' [Hlen Hrows].
      eapply returns_bind; [exact (IH _ _ Hrest)|]. intros [ws bs] Hr.
      apply returns_ret. cbn. cbn in Hr.
      repeat split; try done. by rewrite length_replicate.
Qed.

Lemma where_row_length rate mask a b (c : nat) :
  length mask = c → length a = c → length b = c →
  length (where_row rate mask a b) = c.
Proof.
  intros Hm Ha Hb. unfold where_row.
  rewrite length_zip_with, length_zip. lia.
Qed.

Lemma where_row_lookup rate mask a b k x :
  where_row rate mask a b !! k = Some x → a !! k = Some x ∨ b !! k = Some x.
Proof.
  unfold where_row. intros Hx.
  apply lookup_zip_with_Some in Hx as (m & [xa xb] & -> & _ & Hab).
  apply lookup_zip_with_Some in Hab as (? & ? & [= <- <-] & Ha & Hb).
  cbn. destruct (Qltb m rate); [by left|by right].
Qed.

Lemma np_where_matrix rate mask (n c : nat) rows_a rows_b :
  length mask = n → Forall (λ r, length r = c) mask →
  length rows_a = n → Forall (λ r, length r = c) rows_a →
  length rows_b = n → Forall (λ r, length r = c) rows_b →
  ∃ rows, np_where rate mask (Matrix c rows_a) (Matrix c rows_b) = Some (Matrix c rows) ∧
          length rows = n ∧ Forall (λ r, length r = c) rows ∧
          array_from (Matrix c rows) (Matrix c rows_a) (Matrix c rows_b).
Proof.
  intros Hm Hmask Ha Hrows_a Hb Hrows_b. unfold np_where.
  rewrite Nat.eqb_refl, Ha, Hb, Nat.eqb_refl. cbn.
  set (rows := zip_with _ mask _). exists rows.
  assert (length rows = n) as Hlen.
  { unfold rows. rewrite length_zip_with, length_zip. lia. }
  assert (∀ r row, rows !! r = Some row →
            ∃ mr ra rb, mask !! r = Some mr ∧ rows_a !! r = Some ra ∧
                        rows_b !! r = Some rb ∧ row = where_row rate mr ra rb) as Hrow.
  { intros r row Hr. unfold rows in Hr.
    apply lookup_zip_with_Some in Hr as (mr & [ra rb] & -> & Hmr & Hab).
    apply lookup_zip_with_Some in Hab as (? & ? & [= <- <-] & Hra & Hrb).
    by exists mr, ra, rb. }
  split; [done|]. split; [done|]. split.
  - apply Forall_lookup. intros r row Hr.
    destruct (Hrow _ _ Hr) as (mr & ra & rb & Hmr & Hra & Hrb & ->).
    apply where_row_length.
    + exact (proj1 (Forall_lookup _ _) Hmask _ _ Hmr).
    + exact (proj1 (Forall_lookup _ _) Hrows_a _ _ Hra).
    + exact (proj1 (Forall_lookup _ _) Hrows_b _ _ Hrb).
  - split; [cbn; congruence|]. split; [cbn; congruence|].
    intros r k x. cbn. intros Hx.
    destruct (rows !! r) as [row|] eqn:Hr; [|done]. cbn in Hx.
    destruct (Hrow _ _ Hr) as (mr & ra & rb & _ & -> & -> & ->). cbn.
    by apply where_row_lookup in Hx.
Qed.

Lemma np_where1_vector rate mask a b (c : nat) :
  length mask = c → length a = c → length b = c →
  ∃ v, np_where1 rate mask a b = Some v ∧ length v = c ∧ vector_from v a b.
Proof.
  intros Hm Ha Hb. unfold np_where1. rewrite Ha, Hb, Nat.eqb_refl.
  eexists. split; [done|].
  assert (length (where_row rate mask a b) = c) as Hlen by by apply where_row_length.
  split; [done|]. split; [congruence|]. split; [congruence|].
  intros k x. apply where_row_lookup.
Qed.

(** The crossover loop on arrays that conform to one list of layer sizes. *)
Lemma crossover_layers_conforms rate (sizes : list nat) sw ow cw sb ob cb :
  conforms_layers sizes sw sb → conforms_layers sizes ow ob →
  conforms_layers sizes cw cb →
  returns (crossover_layers rate sw ow cw sb ob cb)
    (λ r, conforms_layers sizes r.1 r.2 ∧
          Forall3 array_from r.1 sw ow ∧ Forall3 vector_from r.2 sb ob).
Proof.
  revert sw ow cw sb ob cb.
  induction sizes as [|n rest IH]; intros sw ow cw sb ob cb Hs Ho Hc.
  - destruct Hs as [-> ->], Ho as [-> ->], Hc as [-> ->].
    apply returns_ret. cbn. repeat split; constructor.
  - destruct rest as [|m rest'].
    + destruct Hs as [-> ->], Ho as [-> ->], Hc as [-> ->].
      apply returns_ret. cbn. repeat split; constructor.
    + cbn in Hs, Ho, Hc.
      destruct sw as [|[|c rows_s] sw]; [done..|]. destruct sb as [|b sb]; [done|].
      destruct ow as [|[|c' rows_o] ow]; [done..|]. destruct ob as [|p ob]; [done|].
      destruct cw as [|[|c'' rows_c] cw]; [done..|]. destruct cb as [|q cb]; [done|].
      destruct Hs as (Hnm & -> & Hls & Hrs & Hbs & Hs).
      destruct Ho as (_ & -> & Hlo & Hro & Hbo & Ho).
      destruct Hc as (_ & -> & Hlc & Hrc & Hbc & Hc).
      cbn [crossover_layers random_like].
      eapply returns_bind; [apply returns_draw_matrix|]. intros mask [Hml Hmask].
      destruct (np_where_matrix rate mask n m rows_s rows_o)
        as (rows & Hwhere & Hlr & Hrr & Hfrom); [congruence|done..|].
      eapply returns_bind;
        [exact (returns_lift _ _ (λ w, w = Matrix m rows) Hwhere eq_refl)|].
      intros w' ->.
      eapply returns_bind; [apply returns_repeatM, returns_draw|].
      intros bmask [Hbm _].
      destruct (np_where1_vector rate bmask b p m) as (v & Hv & Hlv & Hvfrom);
        [congruence|done..|].
      eapply returns_bind;
        [exact (returns_lift _ _ (λ w, w = v) Hv eq_refl)|].
      intros b' ->.
      eapply returns_bind; [exact (IH _ _ _ _ _ _ Hs Ho Hc)|].
      intros [ws bs] (Hconf & Hws & Hbs'). cbn in Hconf, Hws, Hbs'.
      apply returns_ret. cbn.
      split; [done|]. split; by constructor.
Qed.

End NeuralNetworkFacts.

(** For two networks that conform to one topology, [crossover] returns a
    child of that topology whose arrays have the shapes of the arrays of
    both parents, element by element taken from one parent or the other. *)
Lemma crossover_child `{!NumPy, !Random}
    (a b : NeuralNetwork.t) (crossover_rate : Q) :
  NeuralNetwork.conforms a → NeuralNetwork.conforms b →
  NeuralNetwork.same_topology a b →
  returns (NeuralNetwork.crossover a b crossover_rate)
    (λ child,
       NeuralNetwork.same_topology child a ∧ NeuralNetwork.conforms child ∧
       Forall3 NeuralNetwork.array_from (NeuralNetwork.weights child)
               (NeuralNetwork.weights a) (NeuralNetwork.weights b) ∧
       Forall3 NeuralNetwork.vector_from (NeuralNetwork.biases child)
               (NeuralNetwork.biases a) (NeuralNetwork.biases b)).
Proof.
  intros Ha Hb (Hin & Hhid & Hout).
  unfold NeuralNetwork.conforms, NeuralNetwork.layer_sizes in Ha, Hb.
  rewrite <-Hin, <-Hhid, <-Hout in Hb.
  unfold NeuralNetwork.crossover, NeuralNetwork.init.
  eapply returns_bind.
  { eapply returns_bind; [exact (init_layers_conforms _ _ _ Ha)|].
    intros [ws bs] Hc. apply returns_ret.
    instantiate (1 := λ child, NeuralNetwork.same_topology child a ∧
                               NeuralNetwork.conforms child).
    cbn. split; [done|]. exact Hc. }
  intros child ((Hcin & Hchid & Hcout) & Hchild).
  unfold NeuralNetwork.conforms, NeuralNetwork.layer_sizes in Hchild.
  rewrite Hcin, Hchid, Hcout in Hchild.
  eapply returns_bind;
    [exact (crossover_layers_conforms crossover_rate _ _ _ _ _ _ _ Ha Hb Hchild)|].
  intros [ws bs] (Hconf & Hws & Hbs). apply returns_ret. cbn in *.
  split; [done|]. split; [|done].
  unfold NeuralNetwork.conforms, NeuralNetwork.layer_sizes. cbn.
  by rewrite Hcin, Hchid, Hcout.
Qed.

Lemma network_one_conforms : NeuralNetwork.conforms network_one.
Proof.
  unfold NeuralNetwork.conforms. cbn. repeat split; try done. by repeat constructor.
Qed.

Lemma network_two_conforms : NeuralNetwork.conforms network_two.
Proof.
  unfold NeuralNetwork.conforms. cbn. repeat split; try done. by repeat constructor.
Qed.

(** ** Crossover on the store *)

Section NetworkStoreFacts.
Context `{!NumPy, !Random}.
Import NetworkStore.

Lemma unchanged_refl (s : t) : unchanged s s.
Proof. by repeat split. Qed.

Lemma unchanged_trans (s1 s2 s3 : t) :
  unchanged s1 s2 → unchanged s2 s3 → unchanged s1 s3.
Proof.
  intros (? & ? & ?) (? & ? & ?). repeat split; by etrans.
Qed.

Lemma new_array_spec (a : NeuralNetwork.ndarray) (s : t) :
  let r := (new_array a s).1 in
  let s' := (new_array a s).2 in
  arrays s !! r = None ∧ arrays s' !! r = Some a ∧ unchanged s s' ∧
  networks s' = networks s ∧ vectors s' = vectors s.
Proof.
  cbn. assert (arrays s !! fresh (dom (arrays s)) = None) as Hfresh.
  { apply not_elem_of_dom, is_fresh. }
  split; [done|]. split; [apply lookup_insert_eq|]. split; [|done].
  split; [done|]. split; [|done]. cbn. by apply insert_subseteq.
Qed.

Lemma new_vector_spec (b : list Q) (s : t) :
  let r := (new_vector b s).1 in
  let s' := (new_vector b s).2 in
  vectors s !! r = None ∧ vectors s' !! r = Some b ∧ unchanged s s' ∧
  networks s' = networks s ∧ arrays s' = arrays s.
Proof.
  cbn. assert (vectors s !! fresh (dom (vectors s)) = None) as Hfresh.
  { apply not_elem_of_dom, is_fresh. }
  split; [done|]. split; [apply lookup_insert_eq|]. split; [|done].
  split; [done|]. split; [done|]. cbn. by apply insert_subseteq.
Qed.

Lemma new_arrays_spec (l : list NeuralNetwork.ndarray) (s : t) rs s' :
  new_arrays l s = (rs, s') →
  unchanged s s' ∧ networks s' = networks s ∧ vectors s' = vectors s ∧
  Forall2 (λ r a, arrays s' !! r = Some a) rs l ∧
  Forall (λ r, arrays s !! r = None) rs.
Proof.
  revert s rs s'. induction l as [|a l IH]; intros s rs s' Hrun.
  - injection Hrun as <- <-. split; [apply unchanged_refl|]. by repeat split.
  - destruct (new_array_spec a s) as (Hfresh & Hnew & Hun & Hnet & Hvec).
    cbn [new_arrays] in Hrun.
    change (new_array a s) with ((new_array a s).1, (new_array a s).2) in Hrun.
    set (s1 := (new_array a s).2) in *. set (r := (new_array a s).1) in *.
    cbv beta iota in Hrun.
    destruct (new_arrays l s1) as [rs1 s2] eqn:Hrest. injection Hrun as <- <-.
    destruct (IH _ _ _ Hrest) as (Hun2 & Hnet2 & Hvec2 & Hall & Hnone).
    split; [by eapply unchanged_trans|]. split; [congruence|].
    split; [congruence|]. split.
    + constructor; [|done]. eapply lookup_weaken; [exact Hnew|apply Hun2].
    + constructor; [done|]. eapply Forall_impl; [exact Hnone|].
      intros r0 Hr. eapply lookup_weaken_None; [exact Hr|apply Hun].
Qed.

Lemma new_vectors_spec (l : list (list Q)) (s : t) rs s' :
  new_vectors l s = (rs, s') →
  unchanged s s' ∧ networks s' = networks s ∧ arrays s' = arrays s ∧
  Forall2 (λ r b, vectors s' !! r = Some b) rs l ∧
  Forall (λ r, vectors s !! r = None) rs.
Proof.
  revert s rs s'. induction l as [|b l IH]; intros s rs s' Hrun.
  - injection Hrun as <- <-. split; [apply unchanged_refl|]. by repeat split.
  - destruct (new_vector_spec b s) as (Hfresh & Hnew & Hun & Hnet & Harr).
    cbn [new_vectors] in Hrun.
    change (new_vector b s) with ((new_vector b s).1, (new_vector b s).2) in Hrun.
    set (s1 := (new_vector b s).2) in *. set (r := (new_vector b s).1) in *.
    cbv beta iota in Hrun.
    destruct (new_vectors l s1) as [rs1 s2] eqn:Hrest. injection Hrun as <- <-.
    destruct (IH _ _ _ Hrest) as (Hun2 & Hnet2 & Harr2 & Hall & Hnone).
    split; [by eapply unchanged_trans|]. split; [congruence|].
    split; [congruence|]. split.
    + constructor; [|done]. eapply lookup_weaken; [exact Hnew|apply Hun2].
    + constructor; [done|]. eapply Forall_impl; [exact Hnone|].
      intros r0 Hr. eapply lookup_weaken_None; [exact Hr|apply Hun].
Qed.

(** Lists of references that resolve in a store resolve to the same arrays
    in every store that leaves its objects unchanged. *)
Lemma arrays_unchanged (s s' : t) rs (vs : list NeuralNetwork.ndarray) :
  unchanged s s' →
  Forall2 (λ r v, arrays s !! r = Some v) rs vs →
  Forall2 (λ r v, arrays s' !! r = Some v) rs vs.
Proof.
  intros (_ & Harr & _) Hall. eapply Forall2_impl; [exact Hall|].
  intros r v Hr. exact (lookup_weaken _ _ _ _ Hr Harr).
Qed.

Lemma vectors_unchanged (s s' : t) rs (vs : list (list Q)) :
  unchanged s s' →
  Forall2 (λ r v, vectors s !! r = Some v) rs vs →
  Forall2 (λ r v, vectors s' !! r = Some v) rs vs.
Proof.
  intros (_ & _ & Hvec) Hall. eapply Forall2_impl; [exact Hall|].
  intros r v Hr. exact (lookup_weaken _ _ _ _ Hr Hvec).
Qed.

Lemma network_at_Some (s : t) (n : nat) (a : NeuralNetwork.t) :
  network_at s n = Some a ↔
  ∃ o, networks s !! n = Some o ∧
    Forall2 (λ r v, arrays s !! r = Some v) (weights o) (NeuralNetwork.weights a) ∧
    Forall2 (λ r v, vectors s !! r = Some v) (biases o) (NeuralNetwork.biases a) ∧
    NeuralNetwork.input_size a = input_size o ∧
    NeuralNetwork.hidden_sizes a = hidden_sizes o ∧
    NeuralNetwork.output_size a = output_size o ∧
    NeuralNetwork.activations a = activations o.
Proof.
  unfold network_at. split.
  - destruct (networks s !! n) as [o|]; [|done]. cbn.
    destruct (mapM _ (weights o)) as [ws|] eqn:Hws; [|done]. cbn.
    destruct (mapM _ (biases o)) as [bs|] eqn:Hbs; [|done]. cbn.
    intros [= <-]. exists o. cbn.
    apply mapM_Some in Hws. apply mapM_Some in Hbs. by repeat split.
  - intros (o & -> & Hws & Hbs & Hin & Hhid & Hout & Hact). cbn.
    apply mapM_Some in Hws. apply mapM_Some in Hbs. rewrite Hws, Hbs. cbn.
    destruct a. cbn in *. by subst.
Qed.

(** The parents of a store that is left unchanged are what they were. *)
Lemma network_at_unchanged (s s' : t) (n : nat) (a : NeuralNetwork.t) :
  unchanged s s' → network_at s n = Some a → network_at s' n = Some a.
Proof.
  intros Hun (o & Ho & Hws & Hbs & Hrest)%network_at_Some.
  apply network_at_Some. exists o.
  split; [eapply lookup_weaken; [exact Ho|apply Hun]|].
  split; [by eapply arrays_unchanged|]. split; [by eapply vectors_unchanged|done].
Qed.

(** The constructor on the store builds the network that the constructor
    on values builds, out of new objects. *)
Lemma init_refines (i : nat) (h : list nat) (o : nat) (s : t) g nn g' :
  NeuralNetwork.init i h o g = Some (nn, g') →
  ∃ child s' ob,
    init i h o s g = Some ((child, s'), g') ∧
    networks s !! child = None ∧ unchanged s s' ∧
    networks s' !! child = Some ob ∧
    input_size ob = i ∧ hidden_sizes ob = h ∧ output_size ob = o ∧
    activations ob = [] ∧
    NeuralNetwork.input_size nn = i ∧ NeuralNetwork.hidden_sizes nn = h ∧
    NeuralNetwork.output_size nn = o ∧ NeuralNetwork.activations nn = [] ∧
    Forall2 (λ r v, arrays s' !! r = Some v) (weights ob) (NeuralNetwork.weights nn) ∧
    Forall2 (λ r v, vectors s' !! r = Some v) (biases ob) (NeuralNetwork.biases nn) ∧
    Forall (λ r, arrays s !! r = None) (weights ob) ∧
    Forall (λ r, vectors s !! r = None) (biases ob).
Proof.
  unfold NeuralNetwork.init, init. intros Hrun.
  apply bind_Some in Hrun as ([ws bs] & g1 & Hlayers & Hret).
  apply ret_Some in Hret as [-> ->].
  rewrite (bind_run _ _ _ _ _ Hlayers).
  destruct (new_arrays ws s) as [wr s1] eqn:Hwr.
  destruct (new_arrays_spec _ _ _ _ Hwr) as (Hun1 & Hnet1 & Hvec1 & Hws & Hwfresh).
  destruct (new_vectors bs s1) as [br s2] eqn:Hbr.
  destruct (new_vectors_spec _ _ _ _ Hbr) as (Hun2 & Hnet2 & Harr2 & Hbs & Hbfresh).
  assert (networks s2 !! fresh (dom (networks s2)) = None) as Hfresh.
  { apply not_elem_of_dom, is_fresh. }
  eexists _, _, _. split; [reflexivity|]. cbn.
  split; [by rewrite <-Hnet1, <-Hnet2|]. split.
  { eapply unchanged_trans; [exact Hun1|]. eapply unchanged_trans; [exact Hun2|].
    split; [by apply insert_subseteq|done]. }
  split; [apply lookup_insert_eq|]. do 8 (split; [done|]).
  split; [by rewrite Harr2|]. split; [done|]. split; [done|].
  by rewrite <-Hvec1.
Qed.

(** The loop on the store computes the arrays that the loop on values
    computes, allocates them and writes nothing else. *)
Lemma crossover_layers_refines (rate : Q) (s0 : t) sw ow cw sb ob cb
    swv owv cwv sbv obv cbv (s : t) g wsv bsv g' :
  unchanged s0 s →
  Forall2 (λ r v, arrays s !! r = Some v) sw swv →
  Forall2 (λ r v, arrays s !! r = Some v) ow owv →
  Forall2 (λ r v, arrays s !! r = Some v) cw cwv →
  Forall2 (λ r v, vectors s !! r = Some v) sb sbv →
  Forall2 (λ r v, vectors s !! r = Some v) ob obv →
  Forall2 (λ r v, vectors s !! r = Some v) cb cbv →
  Forall (λ r, arrays s0 !! r = None) cw →
  Forall (λ r, vectors s0 !! r = None) cb →
  NeuralNetwork.crossover_layers rate swv owv cwv sbv obv cbv g
    = Some ((wsv, bsv), g') →
  ∃ ws bs s',
    crossover_layers rate sw ow cw sb ob cb s g = Some ((ws, bs, s'), g') ∧
    unchanged s s' ∧ networks s' = networks s ∧
    Forall2 (λ r v, arrays s' !! r = Some v) ws wsv ∧
    Forall2 (λ r v, vectors s' !! r = Some v) bs bsv ∧
    Forall (λ r, arrays s0 !! r = None) ws ∧
    Forall (λ r, vectors s0 !! r = None) bs.
Proof.
  revert sw ow cw sb ob cb owv cwv sbv obv cbv s g wsv bsv.
  induction swv as [|wa swv IH];
    intros sw ow cw sb ob cb owv cwv sbv obv cbv s g wsv bsv Hun0 Hsw
           How Hcw Hsb Hob Hcb Hcwf Hcbf Hrun.
  - apply Forall2_nil_inv_r in Hsw as ->. cbn in Hrun.
    apply ret_Some in Hrun as [[= <- <-] ->].
    exists cw, cb, s. split; [done|]. split; [apply unchanged_refl|]. done.
  - apply Forall2_cons_inv_r in Hsw as (w & sw' & Hw & Hsw & ->).
    cbn [NeuralNetwork.crossover_layers] in Hrun.
    apply bind_Some in Hrun as (mask & g1 & Hmask & Hrun).
    destruct How as [|o wb ow' owv' Ho How]; [done|].
    destruct Hcw as [|c0 wc cw' cwv' Hc0 Hcw]; [done|].
    apply bind_Some in Hrun as (w' & g2 & [Hwhere ->]%lift_Some & Hrun).
    destruct Hsb as [|b ba sb' sbv' Hb Hsb]; [done|].
    apply bind_Some in Hrun as (bmask & g3 & Hbmask & Hrun).
    destruct Hob as [|p bb ob' obv' Hp Hob]; [done|].
    destruct Hcb as [|q0 bc cb' cbv' Hq0 Hcb]; [done|].
    apply bind_Some in Hrun as (b' & g4 & [Hwhere1 ->]%lift_Some & Hrun).
    apply bind_Some in Hrun as ([wsv' bsv'] & g5 & Hrest & Hret).
    apply ret_Some in Hret as [[= -> ->] ->].
    apply Forall_cons in Hcwf as [_ Hcwf]. apply Forall_cons in Hcbf as [_ Hcbf].
    cbn [crossover_layers].
    rewrite (bind_run _ _ _ _ _ (lift_run _ _ g Hw)).
    rewrite (bind_run _ _ _ _ _ Hmask).
    rewrite (bind_run _ _ _ _ _ (lift_run _ _ g1 Ho)).
    rewrite (bind_run _ _ _ _ _ (lift_run _ _ g1 Hwhere)).
    destruct (new_array_spec w' s) as (Hfresh1 & Hnew1 & Hun1 & Hnet1 & Hvec1).
    change (new_array w' s) with ((new_array w' s).1, (new_array w' s).2).
    set (s1 := (new_array w' s).2) in *. set (r := (new_array w' s).1) in *.
    cbv beta iota.
    assert (vectors s1 !! b = Some ba) as Hb1 by by rewrite Hvec1.
    rewrite (bind_run _ _ _ _ _ (lift_run _ _ g1 Hb1)).
    rewrite (bind_run _ _ _ _ _ Hbmask).
    assert (vectors s1 !! p = Some bb) as Hp1 by by rewrite Hvec1.
    rewrite (bind_run _ _ _ _ _ (lift_run _ _ g3 Hp1)).
    rewrite (bind_run _ _ _ _ _ (lift_run _ _ g3 Hwhere1)).
    destruct (new_vector_spec b' s1) as (Hfresh2 & Hnew2 & Hun2 & Hnet2 & Harr2).
    change (new_vector b' s1) with ((new_vector b' s1).1, (new_vector b' s1).2).
    set (s2 := (new_vector b' s1).2) in *. set (r' := (new_vector b' s1).1) in *.
    cbv beta iota.
    assert (unchanged s s2) as Hun12 by by eapply unchanged_trans.
    destruct (IH sw' ow' cw' sb' ob' cb' owv' cwv' sbv' obv' cbv' s2 g3 wsv' bsv'
                (unchanged_trans _ _ _ Hun0 Hun12)
                (arrays_unchanged _ _ _ _ Hun12 Hsw)
                (arrays_unchanged _ _ _ _ Hun12 How)
                (arrays_unchanged _ _ _ _ Hun12 Hcw)
                (vectors_unchanged _ _ _ _ Hun12 Hsb)
                (vectors_unchanged _ _ _ _ Hun12 Hob)
                (vectors_unchanged _ _ _ _ Hun12 Hcb) Hcwf Hcbf Hrest)
      as (ws & bs & s3 & Hloop & Hun3 & Hnet3 & Hws & Hbs & Hwsf & Hbsf).
    rewrite (bind_run _ _ _ _ _ Hloop).
    exists (r :: ws), (r' :: bs), s3. split; [done|].
    split; [by eapply unchanged_trans|]. split; [congruence|].
    split.
    { constructor; [|done]. eapply lookup_weaken; [exact Hnew1|].
      apply (unchanged_trans s1 s2 s3 Hun2 Hun3). }
    split.
    { constructor; [|done]. eapply lookup_weaken; [exact Hnew2|apply Hun3]. }
    split.
    + constructor; [|done]. eapply lookup_weaken_None; [exact Hfresh1|apply Hun0].
    + constructor; [|done]. eapply lookup_weaken_None; [exact Hfresh2|].
      apply (unchanged_trans s0 s s1 Hun0 Hun1).
Qed.

(** [crossover] on the store computes the child that [crossover] on values
    computes, as a new network of new arrays, and leaves every object of
    the store as it was. *)
Lemma crossover_refines (s : t) (self other : nat) (a b : NeuralNetwork.t)
    (rate : Q) g c g' :
  network_at s self = Some a → network_at s other = Some b →
  NeuralNetwork.crossover a b rate g = Some (c, g') →
  ∃ child s' o,
    crossover self other rate s g = Some ((child, s'), g') ∧
    networks s !! child = None ∧ unchanged s s' ∧
    networks s' !! child = Some o ∧
    Forall (λ r, arrays s !! r = None) (weights o) ∧
    Forall (λ r, vectors s !! r = None) (biases o) ∧
    network_at s' child = Some c.
Proof.
  intros (so & Hso & Hsw & Hsb & Hin & Hhid & Hout & _)%network_at_Some
         (oo & Hoo & How & Hob & _)%network_at_Some Hrun.
  unfold NeuralNetwork.crossover in Hrun. unfold crossover.
  apply bind_Some in Hrun as (nn & g1 & Hinit & Hrun).
  apply bind_Some in Hrun as ([wsv bsv] & g2 & Hloop & Hret).
  apply ret_Some in Hret as [-> ->].
  rewrite (bind_run _ _ _ _ _ (lift_run _ _ g Hso)).
  rewrite Hin, Hhid, Hout in Hinit.
  destruct (init_refines _ _ _ s _ _ _ Hinit)
    as (child & s1 & co & Hinit' & Hfresh & Hun1 & Hco & Hcin & Hchid & Hcout &
        Hcact & Hnin & Hnhid & Hnout & Hnact & Hcw & Hcb & Hcwf & Hcbf).
  rewrite (bind_run _ _ _ _ _ Hinit').
  assert (networks s1 !! other = Some oo) as Hoo1.
  { eapply lookup_weaken; [exact Hoo|apply Hun1]. }
  rewrite (bind_run _ _ _ _ _ (lift_run _ _ g1 Hoo1)).
  rewrite (bind_run _ _ _ _ _ (lift_run _ _ g1 Hco)).
  destruct (crossover_layers_refines rate s _ _ _ _ _ _ _ _ _ _ _ _ s1 g1 wsv bsv _
              Hun1 (arrays_unchanged _ _ _ _ Hun1 Hsw)
              (arrays_unchanged _ _ _ _ Hun1 How) Hcw
              (vectors_unchanged _ _ _ _ Hun1 Hsb)
              (vectors_unchanged _ _ _ _ Hun1 Hob) Hcb Hcwf Hcbf Hloop)
    as (ws & bs & s2 & Hloop' & Hun2 & Hnet2 & Hws & Hbs & Hwsf & Hbsf).
  rewrite (bind_run _ _ _ _ _ Hloop').
  eexists _, _, _. split; [reflexivity|]. cbn.
  split; [done|]. split.
  { destruct (unchanged_trans _ _ _ Hun1 Hun2) as (Hn & Ha & Hv).
    split; [|done]. cbn. by apply insert_subseteq_r. }
  split; [apply lookup_insert_eq|]. cbn. split; [done|]. split; [done|].
  apply network_at_Some. eexists. split; [apply lookup_insert_eq|]. cbn.
  split; [done|]. split; [done|]. repeat split; congruence.
Qed.

End NetworkStoreFacts.

(** C2, as stated, fails: [set_weights] checks no shapes, so two networks
    of one topology need not have arrays of one shape.  The first example
    network and the network that [set_weights] makes of it with a 1 by 3
    matrix both say one input and one output; [np.where] broadcasts the
    1 by 1 matrix of the first against the 1 by 3 matrix of the second, and
    [crossover] raises nothing and returns a child whose matrix is 1 by 3,
    the shape of one parent and not of the other. *)
Theorem NeuralNetwork_crossover_broadcasts :
  ∃ wide child g,
    network_wide = Some wide ∧
    NeuralNetwork.same_topology network_one wide ∧
    @NeuralNetwork.crossover numpy_stub random_stub network_one wide
      (7 # 10) 0%nat = Some (child, g) ∧
    NeuralNetwork.shape <$> NeuralNetwork.weights network_one = [[1; 1]%nat] ∧
    NeuralNetwork.shape <$> NeuralNetwork.weights wide = [[1; 3]%nat] ∧
    NeuralNetwork.shape <$> NeuralNetwork.weights child = [[1; 3]%nat].
Proof.
  destruct network_wide as [wide|] eqn:Hwide; [|by vm_compute in Hwide].
  vm_compute in Hwide. injection Hwide as <-.
  eexists _, _, _. split; [reflexivity|]. split; [done|].
  split; [vm_compute; reflexivity|]. done.
Qed.

(** C2, amended: for two networks of a store that have one topology and
    arrays of the shapes of that topology, [crossover] raises nothing,
    whatever the random draws.  It returns a new network: an address that
    the store did not use, holding arrays at addresses that the store did
    not use.  Every object of the store is left as it was, so that both
    parents are the networks they were.  The child has the topology of the
    parents, and its weight matrices and bias vectors have the shapes of the
    corresponding arrays of both parents, element by element taken from one
    parent or the other. *)
Theorem NeuralNetwork_crossover_shape `{!NumPy, !Random}
    (s : NetworkStore.t) (self other : nat) (a b : NeuralNetwork.t)
    (crossover_rate : Q) :
  NetworkStore.network_at s self = Some a →
  NetworkStore.network_at s other = Some b →
  NeuralNetwork.conforms a → NeuralNetwork.conforms b →
  NeuralNetwork.same_topology a b →
  returns (NetworkStore.crossover self other crossover_rate s)
    (λ r,
       let child := r.1 in
       let s' := r.2 in
       NetworkStore.networks s !! child = None ∧
       NetworkStore.unchanged s s' ∧
       NetworkStore.network_at s' self = Some a ∧
       NetworkStore.network_at s' other = Some b ∧
       ∃ o c,
         NetworkStore.networks s' !! child = Some o ∧
         Forall (λ r, NetworkStore.arrays s !! r = None) (NetworkStore.weights o) ∧
         Forall (λ r, NetworkStore.vectors s !! r = None) (NetworkStore.biases o) ∧
         NetworkStore.network_at s' child = Some c ∧
         NeuralNetwork.same_topology c a ∧ NeuralNetwork.conforms c ∧
         Forall3 NeuralNetwork.array_from (NeuralNetwork.weights c)
                 (NeuralNetwork.weights a) (NeuralNetwork.weights b) ∧
         Forall3 NeuralNetwork.vector_from (NeuralNetwork.biases c)
                 (NeuralNetwork.biases a) (NeuralNetwork.biases b)).
Proof.
  intros Hself Hother Ha Hb Htop g.
  destruct (crossover_child a b crossover_rate Ha Hb Htop g)
    as (c & g' & Hrun & Hctop & Hconf & Hws & Hbs).
  destruct (crossover_refines s self other a b crossover_rate g c g'
              Hself Hother Hrun)
    as (child & s' & o & Hrun' & Hfresh & Hun & Ho & Hwf & Hbf & Hc).
  exists (child, s'), g'. split; [exact Hrun'|]. cbn.
  split; [exact Hfresh|]. split; [exact Hun|].
  split; [by eapply network_at_unchanged|].
  split; [by eapply network_at_unchanged|].
  exists o, c. do 4 (split; [done|]). split; [exact Hctop|].
  split; [exact Hconf|]. by split.
Qed.

Lemma example_store_networks :
  NetworkStore.network_at example_store 0 = Some network_one ∧
  NetworkStore.network_at example_store 1 = Some network_two.
Proof. split; reflexivity. Qed.

Lemma NeuralNetwork_crossover_shape_witness :
  ∃ child s' g,
    @NetworkStore.crossover numpy_stub random_stub 0 1 (7 # 10) example_store
      0%nat = Some ((child, s'), g) ∧
    child ≠ 0%nat ∧ child ≠ 1%nat ∧
    NetworkStore.network_at s' 0 = Some network_one ∧
    NetworkStore.network_at s' 1 = Some network_two.
Proof.
  destruct example_store_networks as [Hone Htwo].
  destruct (@NeuralNetwork_crossover_shape numpy_stub random_stub
              example_store 0 1 network_one network_two (7 # 10) Hone Htwo
              network_one_conforms network_two_conforms) with (g := 0%nat)
    as ([child s'] & g & Hrun & Hfresh & _ & Hone' & Htwo' & _); [done|].
  exists child, s', g. cbn in *. split; [exact Hrun|].
  split; [by intros ->|]. split; [by intros ->|]. by split.
Defined.

(** ** Fresh controllers and fresh ants *)

Section Fresh.
Context `{!NumPy, !Random} (cfg : config.t).

Lemma valid_sizes_conforms (sizes : list nat) :
  NeuralNetwork.valid_sizes sizes →
  ∃ ws bs, NeuralNetwork.conforms_layers sizes ws bs.
Proof.
  induction sizes as [|n rest IH]; intros Hvalid.
  - by exists [], [].
  - destruct rest as [|m rest'].
    + by exists [], [].
    + destruct Hvalid as [Hnm Hrest]. destruct (IH Hrest) as (ws & bs & Hc).
      exists (NeuralNetwork.Matrix m (replicate n (replicate m 0)) :: ws),
             (replicate m 0 :: bs).
      cbn. split; [done|]. split; [done|].
      split; [by rewrite length_replicate|].
      split; [apply Forall_replicate; by rewrite length_replicate|].
      split; [by rewrite length_replicate|done].
Qed.

(** [MLAgent()] returns for every configuration of valid layer sizes, with
    a network of the configured topology. *)
Lemma MLAgent_init_returns :
  NeuralNetwork.valid_sizes (15%nat :: config.NEURAL_NETWORK_LAYERS cfg ++ [4%nat]) →
  returns (MLAgent.init cfg None)
    (λ b, let nn := MLAgent.network b in
          NeuralNetwork.input_size nn = 15%nat ∧
          NeuralNetwork.hidden_sizes nn = config.NEURAL_NETWORK_LAYERS cfg ∧
          NeuralNetwork.output_size nn = 4%nat ∧
          NeuralNetwork.conforms nn).
Proof.
  intros Hvalid. destruct (valid_sizes_conforms _ Hvalid) as (ws & bs & Hc).
  unfold MLAgent.init, NeuralNetwork.init.
  eapply returns_bind.
  - eapply returns_bind; [exact (init_layers_conforms _ _ _ Hc)|].
    intros [ws' bs'] Hc'. apply returns_ret.
    instantiate (1 := λ nn, NeuralNetwork.input_size nn = 15%nat ∧
      NeuralNetwork.hidden_sizes nn = config.NEURAL_NETWORK_LAYERS cfg ∧
      NeuralNetwork.output_size nn = 4%nat ∧ NeuralNetwork.conforms nn).
    cbn. split; [done|]. split; [done|]. split; [done|]. exact Hc'.
  - intros nn Hnn. by apply returns_ret.
Qed.

(** [Ant(colony)] returns a default-brained ant. *)
Lemma Ant_init_returns (c : Colony.t) :
  NeuralNetwork.valid_sizes (15%nat :: config.NEURAL_NETWORK_LAYERS cfg ++ [4%nat]) →
  returns (Ant.init cfg c None None)
    (λ a, Ant.alive a = true ∧ Ant.carrying_food a = false ∧
          Ant.food_item a = None ∧
          Ant.position a = Nest.position (Colony.nest c) ∧
          NeuralNetwork.input_size (MLAgent.network (Ant.brain a)) = 15%nat ∧
          NeuralNetwork.hidden_sizes (MLAgent.network (Ant.brain a))
            = config.NEURAL_NETWORK_LAYERS cfg ∧
          NeuralNetwork.output_size (MLAgent.network (Ant.brain a)) = 4%nat ∧
          NeuralNetwork.conforms (MLAgent.network (Ant.brain a))).
Proof.
  intros Hvalid. unfold Ant.init.
  eapply returns_bind; [apply returns_draw|]. intros direction _.
  eapply returns_bind; [exact (MLAgent_init_returns Hvalid)|].
  intros b Hb. apply returns_ret. cbn. by repeat (split; [done|]).
Qed.

End Fresh.

(** ** NeuralNetwork: the weights through [get_weights] and [set_weights] *)

Section RoundTrip.
Import NeuralNetwork.

Lemma np_array_rows (c : nat) rows :
  rows ≠ [] → Forall (λ r, length r = c) rows →
  np_array rows = Some (Matrix c rows).
Proof.
  intros Hne Hrows. destruct rows as [|row rest]; [done|]. cbn.
  apply Forall_cons in Hrows as [Hrow Hrest].
  assert (forallb (λ r, (length r =? length row)%nat) rest = true) as ->.
  { apply forallb_forall. intros r Hr%list_elem_of_In.
    rewrite Forall_forall in Hrest. apply Nat.eqb_eq.
    rewrite (Hrest r Hr). done. }
  by rewrite Hrow.
Qed.

(** A matrix without rows comes back as the empty 1-D array; on the bias of
    its layer both give the same sum. *)
Lemma empty_layer_step (m : nat) (x b : list Q) :
  length b = m →
  np_dot x (Matrix m []) ≫= (λ d, np_add d b) =
  np_dot x Empty1D ≫= (λ d, np_add d b).
Proof.
  intros <-. cbn. destruct x as [|x0 x]; cbn; [|done].
  rewrite length_map, length_seq, Nat.eqb_refl. f_equal.
  generalize 0%nat as j.
  induction b as [|b0 b IH]; intros j; cbn; [done|]. by rewrite IH.
Qed.

Lemma round_trip_layers (sizes : list nat) ws bs :
  conforms_layers sizes ws bs →
  ∃ ws', mapM np_array (tolist <$> ws) = Some ws' ∧
         ∀ x acts, forward_layers ws' bs x acts = forward_layers ws bs x acts.
Proof.
  revert ws bs. induction sizes as [|n rest IH]; intros ws bs Hc.
  - destruct Hc as [-> ->]. by exists [].
  - destruct rest as [|m rest'].
    + destruct Hc as [-> ->]. by exists [].
    + cbn in Hc. destruct ws as [|[|c rows] ws]; [done..|].
      destruct bs as [|b bs]; [done|].
      destruct Hc as (_ & -> & Hlen & Hrows & Hb & Hrest).
      destruct (IH _ _ Hrest) as (ws' & Hmap & Hfwd).
      assert (ws' = [] ↔ ws = []) as Hnil.
      { apply length_mapM in Hmap. rewrite length_fmap in Hmap.
        destruct ws, ws'; cbn in Hmap; done. }
      destruct rows as [|row rows].
      * exists (Empty1D :: ws'). split.
        { cbn. cbn in Hmap. by rewrite Hmap. }
        intros x acts. cbn [forward_layers].
        pose proof (empty_layer_step m x b Hb) as Hstep. cbn [mbind option_bind] in Hstep.
        destruct (np_dot x (Matrix m [])) as [d|], (np_dot x Empty1D) as [d'|];
          cbn in Hstep |- *.
        -- rewrite Hstep. destruct (np_add d' b) as [z|]; cbn; [|done].
           rewrite Hfwd. destruct ws, ws'; try done; by destruct Hnil as [H1 H2];
             (discriminate (H1 eq_refl) || discriminate (H2 eq_refl)).
        -- rewrite Hstep. done.
        -- rewrite <-Hstep. done.
        -- done.
      * exists (Matrix m (row :: rows) :: ws'). split.
        { change (tolist <$> Matrix m (row :: rows) :: ws)
            with (tolist (Matrix m (row :: rows)) :: (tolist <$> ws)).
          cbn [mapM tolist]. rewrite (np_array_rows m) by done.
          cbn. cbn in Hmap. by rewrite Hmap. }
        intros x acts. cbn [forward_layers].
        destruct (np_dot x (Matrix m (row :: rows))) as [d|]; cbn; [|done].
        destruct (np_add d b) as [z|]; cbn; [|done].
        rewrite Hfwd. destruct ws, ws'; try done; by destruct Hnil as [H1 H2];
          (discriminate (H1 eq_refl) || discriminate (H2 eq_refl)).
Qed.


End RoundTrip.



(** ** EvolutionManager: tournament selection *)

Section Tournament.
Import EvolutionManager.

(** [argmax_from] scans the rest [l] of a list [full] whose first [i]
    elements have the maximum [best] at index [best_i]. *)
Lemma argmax_from_spec (full pre l : list Z) (best_i i : nat) (best : Z) :
  full = pre ++ l → length pre = i →
  pre !! best_i = Some best → (∀ v, v ∈ pre → (v ≤ best)%Z) →
  ∃ vmax, full !! argmax_from best_i best i l = Some vmax ∧
          ∀ v, v ∈ full → (v ≤ vmax)%Z.
Proof.
  revert pre best_i i best.
  induction l as [|v l IH]; intros pre best_i i best Hfull Hi Hb Hmax.
  - cbn. rewrite app_nil_r in Hfull. subst full. by exists best.
  - cbn [argmax_from].
    assert (full = (pre ++ [v]) ++ l) as Hfull' by by rewrite <-app_assoc.
    destruct (Z.ltb_spec best v) as [Hlt|Hge].
    + apply (IH (pre ++ [v]) i (S i) v); [done| | |].
      * rewrite length_app. cbn. lia.
      * rewrite lookup_app_r by lia. by rewrite Hi, Nat.sub_diag.
      * intros x [Hx|Hx%list_elem_of_singleton]%elem_of_app; [|lia].
        specialize (Hmax x Hx). lia.
    + apply (IH (pre ++ [v]) best_i (S i) best); [done| | |].
      * rewrite length_app. cbn. lia.
      * by apply lookup_app_l_Some.
      * intros x [Hx|Hx%list_elem_of_singleton]%elem_of_app; [by apply Hmax|lia].
Qed.

Lemma np_argmax_spec (l : list Z) :
  l ≠ [] →
  ∃ k vmax, np_argmax l = Some k ∧ l !! k = Some vmax ∧
            ∀ v, v ∈ l → (v ≤ vmax)%Z.
Proof.
  intros Hne. destruct l as [|v l]; [done|]. cbn.
  destruct (argmax_from_spec (v :: l) [v] l 0 1 v) as (vmax & Hlook & Hall); try done.
  - intros x Hx%list_elem_of_singleton. lia.
  - by exists (argmax_from 0 v 1 l), vmax.
Qed.

(** A valid sample is not larger than the population. *)
Lemma valid_sample_size (n k : nat) sample : valid_sample n k sample → k ≤ n.
Proof.
  intros (Hlen & Hnodup & Hlt).
  assert (sample ⊆+ seq 0 n) as Hsub.
  { apply NoDup_submseteq; [done|]. intros i Hi.
    rewrite Forall_forall in Hlt. apply elem_of_seq. specialize (Hlt i Hi). lia. }
  apply submseteq_length in Hsub. rewrite length_seq in Hsub. lia.
Qed.

(** The winner of a tournament is a contestant of maximal fitness. *)
Lemma winner_index_spec (n : nat) (fitnesses : list Z) (sample : list nat) :
  length fitnesses = n → sample ≠ [] → Forall (λ i, (i < n)%nat) sample →
  ∃ w fw, winner_index fitnesses sample = Some w ∧ w ∈ sample ∧
          fitnesses !! w = Some fw ∧
          ∀ i fi, i ∈ sample → fitnesses !! i = Some fi → (fi ≤ fw)%Z.
Proof.
  intros Hlen Hne Hlt. unfold winner_index.
  assert (is_Some (mapM (λ i, fitnesses !! i) sample)) as [tf Htf].
  { apply mapM_is_Some. eapply Forall_impl; [exact Hlt|].
    intros i Hi. cbn in *. apply lookup_lt_is_Some. lia. }
  rewrite Htf. cbn. apply mapM_Some in Htf.
  assert (tf ≠ []) as Htfne.
  { intros ->. apply Forall2_length in Htf. by destruct sample. }
  destruct (np_argmax_spec tf Htfne) as (k & vmax & -> & Hk & Hmax). cbn.
  destruct (Forall2_lookup_r _ _ _ _ _ Htf Hk) as (w & Hw & Hfw).
  exists w, vmax. rewrite Hw. split; [done|].
  split; [by eapply list_elem_of_lookup_2|]. split; [done|].
  intros i fi Hi Hfi. apply list_elem_of_lookup in Hi as [pos Hpos].
  destruct (Forall2_lookup_l _ _ _ _ _ Htf Hpos) as (fi' & Hfi' & Heq).
  rewrite Hfi in Heq. injection Heq as <-.
  apply Hmax. by eapply list_elem_of_lookup_2.
Qed.

(** One tournament, for a valid draw. *)
Lemma select_one_spec `{!Random} (population : list Ant.t) (fitnesses : list Z)
    (g : G) :
  let n := length population in
  let k := tournament_size population in
  length fitnesses = n →
  valid_sample n k (rand_choice n k g).1 →
  ∃ winner,
    select_one population fitnesses g = Some (winner, (rand_choice n k g).2) ∧
    tournament_winner population fitnesses (rand_choice n k g).1 winner.
Proof.
  intros n k Hlen Hvalid.
  pose proof (valid_sample_size _ _ _ Hvalid) as Hkn.
  destruct (rand_choice n k g) as [sample g'] eqn:Hdraw. cbn [fst snd] in *.
  destruct Hvalid as (Hsl & Hnodup & Hlt).
  assert (sample ≠ []) as Hne.
  { intros Hnil. rewrite Hnil in Hsl. cbn in Hsl.
    unfold k, tournament_size in Hsl. lia. }
  destruct (winner_index_spec n fitnesses sample Hlen Hne Hlt)
    as (w & fw & Hwin & Hw & Hfw & Hmax).
  assert (is_Some (population !! w)) as [winner Hwinner].
  { apply lookup_lt_is_Some. rewrite Forall_forall in Hlt. exact (Hlt w Hw). }
  exists winner. split.
  { unfold select_one. fold n. fold k.
    destruct (Nat.ltb_spec n k) as [?|_]; [lia|].
    unfold mbind, M_bind, draw, lift. rewrite Hdraw, Hwin. cbn. by rewrite Hwinner. }
  exists w, fw. split; [done|]. split; [done|]. split; [done|]. split; [done|].
  intros i j fi fj Hi Hj Hfi Hfj Hlt' ->.
  rewrite Hfw in Hfi. injection Hfi as ->.
  specialize (Hmax j fj Hj Hfj). lia.
Qed.

End Tournament.

(** C9: for every population with one fitness per individual, whenever
    [np.random.choice] returns valid samples (distinct indices of the
    population, as many as the tournament size), each of the two parents
    that [select_parents] returns is a contestant of its sample whose
    fitness is maximal within that sample; so a contestant is never the
    winner when its sample holds one of strictly higher fitness, the
    globally lowest individual in particular. *)
Theorem EvolutionManager_tournament_winner `{!Random}
    (population : list Ant.t) (fitnesses : list Z) (g : G) :
  let n := length population in
  let k := EvolutionManager.tournament_size population in
  let draw1 := rand_choice n k g in
  let draw2 := rand_choice n k draw1.2 in
  length fitnesses = n →
  EvolutionManager.valid_sample n k draw1.1 →
  EvolutionManager.valid_sample n k draw2.1 →
  ∃ parent1 parent2,
    EvolutionManager.select_one population fitnesses g = Some (parent1, draw1.2) ∧
    EvolutionManager.select_parents population fitnesses g
      = Some (parent1, parent2, draw2.2) ∧
    EvolutionManager.tournament_winner population fitnesses draw1.1 parent1 ∧
    EvolutionManager.tournament_winner population fitnesses draw2.1 parent2.
Proof.
  intros n k draw1 draw2 Hlen Hvalid1 Hvalid2.
  destruct (select_one_spec population fitnesses g Hlen Hvalid1)
    as (parent1 & Hrun1 & Hwin1).
  destruct (select_one_spec population fitnesses draw1.2 Hlen Hvalid2)
    as (parent2 & Hrun2 & Hwin2).
  exists parent1, parent2. split; [exact Hrun1|]. split; [|by split].
  unfold EvolutionManager.select_parents, mbind, M_bind.
  rewrite Hrun1. fold n k draw1. by rewrite Hrun2.
Qed.

Lemma EvolutionManager_tournament_winner_witness :
  length scenario_fitnesses = length scenario_population ∧
  EvolutionManager.valid_sample 4 2 [0; 1]%nat ∧
  ∃ parent1 parent2 w,
    @EvolutionManager.select_parents random_stub scenario_population
      scenario_fitnesses 0%nat = Some (parent1, parent2, 2%nat) ∧
    scenario_population !! w = Some parent1 ∧ w ≠ 0%nat.
Proof.
  assert (EvolutionManager.valid_sample 4 2 [0; 1]%nat) as Hvalid.
  { split; [done|]. split.
    - apply NoDup_cons. split; [|apply NoDup_singleton].
      intros H%list_elem_of_singleton. discriminate.
    - repeat constructor. }
  split; [done|]. split; [exact Hvalid|].
  destruct (@EvolutionManager_tournament_winner random_stub
              scenario_population scenario_fitnesses 0%nat eq_refl Hvalid Hvalid)
    as (parent1 & parent2 & _ & Hsel & Hwin & _).
  destruct Hwin as (w & fw & _ & Hwinner & _ & _ & Hlow).
  exists parent1, parent2, w. split; [exact Hsel|]. split; [exact Hwinner|].
  apply (Hlow 0%nat 1%nat 1%Z 5%Z); [by left|by right; left|done|done|lia].
Defined.

(** ** Ant: picking up and delivering food *)

Section AntFacts.
Context `{!NumPy} (cfg : config.t).

(** The pickup loop reads the heap of food objects and nothing else of the
    environment. *)
Lemma find_food_heap (env env' : Environment.t) pos l :
  Environment.food_heap env' = Environment.food_heap env →
  Ant.find_food cfg env' pos l = Ant.find_food cfg env pos l.
Proof.
  intros Hheap. induction l as [|f l IH]; cbn; [done|].
  rewrite Hheap. destruct (Environment.food_heap env !! f) as [food|]; cbn; [|done].
  by rewrite IH.
Qed.

Lemma find_food_elem_of (env : Environment.t) pos l f :
  Ant.find_food cfg env pos l = Some (Some f) → f ∈ l.
Proof.
  induction l as [|f' l IH]; cbn; [done|].
  destruct (Environment.food_heap env !! f') as [food|]; cbn; [|done].
  destruct (Qltb _ _).
  - intros [= <-]. by left.
  - intros Hrest. right. by apply IH.
Qed.

Lemma add_pheromone_food (env env' : Environment.t) pos ty amount :
  Environment.add_pheromone env pos ty amount = Some env' →
  Environment.food_heap env' = Environment.food_heap env ∧
  Environment.food_sources env' = Environment.food_sources env.
Proof.
  unfold Environment.add_pheromone.
  destruct (PheromoneSystem.add_pheromone _ _ _ _); cbn; [|done].
  by intros [= <-].
Qed.

Lemma remove_food_heap (env : Environment.t) item :
  Environment.food_heap (Environment.remove_food env item) = Environment.food_heap env.
Proof.
  unfold Environment.remove_food. destruct item as [f|]; [|done].
  by destruct (decide _).
Qed.

(** What [handle_food] does to the ant's carrying state and to the colony,
    case by case. *)
Lemma handle_food_spec (a : Ant.t) (c : Colony.t) pos (pickup_food : bool)
    carrying item c' :
  Ant.handle_food cfg a c pos pickup_food = Some (carrying, item, c') →
  let env := Colony.environment c in
  let env' := Colony.environment c' in
  Colony.ants c' = Colony.ants c ∧
  Environment.food_heap env' = Environment.food_heap env ∧
  (Ant.carrying_food a = false →
     c' = c ∧
     ∀ f, pickup_food = true →
          Ant.find_food cfg env pos (Environment.food_sources env) = Some (Some f) →
          carrying = true ∧ item = Some f) ∧
  (Environment.food_sources env' ≠ Environment.food_sources env →
     Ant.carrying_food a = true ∧ carrying = false ∧ item = None ∧
     Vector2D.magnitude (Vector2D.sub pos (Nest.position (Colony.nest c)))
       < inject_Z (config.NEST_RADIUS cfg) ∧
     env' = Environment.remove_food env (Ant.food_item a)).
Proof.
  intros Hrun env env'. subst env env'. unfold Ant.handle_food in Hrun.
  destruct (Ant.carrying_food a) eqn:Hcarry.
  - destruct (Qltb _ _) eqn:Hnest.
    + injection Hrun as <- <- <-. cbn.
      split; [done|]. split; [apply remove_food_heap|]. split; [done|].
      intros _. apply Qltb_lt in Hnest. done.
    + injection Hrun as <- <- <-. repeat split; done.
  - cbn in Hrun. destruct pickup_food; cbn in Hrun.
    + destruct (Ant.find_food _ _ _ _) as [[f|]|] eqn:Hfind; cbn in Hrun; [| |done].
      * injection Hrun as <- <- <-. repeat split; try done; congruence.
      * injection Hrun as <- <- <-. repeat split; done.
    + injection Hrun as <- <- <-. repeat split; done.
Qed.

End AntFacts.

(** The example colony, evaluated: the first ant picks up the food source
    at address 0, which stays in the environment, and the second ant picks
    up the same source in its turn. *)
Lemma Ant_two_ants_hold_one_food :
  ∃ c0 a1 c1 a2 c2,
    example_colony = Some c0 ∧
    @Ant.apply_action numpy_stub config.default example_ant c0 pickup_outputs
      = Some (a1, c1) ∧
    Ant.carrying_food a1 = true ∧ Ant.food_item a1 = Some 0%nat ∧
    Environment.food_sources (Colony.environment c1) = [0%nat] ∧
    @Ant.apply_action numpy_stub config.default example_ant c1 pickup_outputs
      = Some (a2, c2) ∧
    Ant.carrying_food a2 = true ∧ Ant.food_item a2 = Some 0%nat ∧
    Environment.food_sources (Colony.environment c2) = [0%nat].
Proof.
  destruct example_colony as [c0|] eqn:Hc0; [|by vm_compute in Hc0].
  destruct (@Ant.apply_action numpy_stub config.default example_ant c0 pickup_outputs)
    as [[a1 c1]|] eqn:H1;
    [|injection Hc0 as <-; by vm_compute in H1].
  destruct (@Ant.apply_action numpy_stub config.default example_ant c1 pickup_outputs)
    as [[a2 c2]|] eqn:H2;
    [|injection Hc0 as <-; vm_compute in H1; injection H1 as <- <-; by vm_compute in H2].
  exists c0, a1, c1, a2, c2.
  injection Hc0 as <-. vm_compute in H1. injection H1 as <- <-.
  vm_compute in H2. injection H2 as <- <-.
  repeat split; reflexivity.
Qed.

(** ** Colony: the population along a step and a generation *)

Section ColonyFacts.
Context `{!NumPy, !Random} (cfg : config.t).

Lemma handle_food_ants (a : Ant.t) (c : Colony.t) pos pickup carrying item c' :
  Ant.handle_food cfg a c pos pickup = Some (carrying, item, c') →
  Colony.ants c' = Colony.ants c.
Proof. intros Hrun. by apply handle_food_spec in Hrun as (? & _). Qed.

Lemma apply_action_ants (a a' : Ant.t) (c c' : Colony.t) outputs :
  Ant.apply_action cfg a c outputs = Some (a', c') →
  Colony.ants c' = Colony.ants c.
Proof.
  unfold Ant.apply_action. intros Hrun.
  repeat match type of Hrun with
  | (?o ≫= _) = Some _ =>
      let E := fresh "E" in destruct o eqn:E; cbn in Hrun; [|done]
  end.
  repeat match type of Hrun with
  | context [let '(_, _) := ?p in _] => destruct p
  end.
  injection Hrun as <- <-.
  match goal with E : Ant.handle_food _ _ _ _ _ = Some _ |- _ =>
    apply handle_food_ants in E; exact E end.
Qed.

Lemma Ant_update_ants (a a' : Ant.t) (c c' : Colony.t) :
  Ant.update cfg a c = Some (a', c') → Colony.ants c' = Colony.ants c.
Proof.
  unfold Ant.update. destruct (negb (Ant.alive a)); [by intros [= <- <-]|].
  intros Hrun.
  destruct (Ant.sense_environment cfg a c) as [inputs|]; cbn in Hrun; [|done].
  destruct (Ant.think a inputs) as [[outputs a1]|]; cbn in Hrun; [|done].
  destruct (Ant.apply_action cfg a1 c outputs) as [[a2 c2]|] eqn:Hact;
    cbn in Hrun; [|done].
  destruct (Ant.update_memory cfg a2 inputs outputs); cbn in Hrun; [|done].
  injection Hrun as <- <-. by eapply apply_action_ants.
Qed.

Lemma update_ant_length (c c' : Colony.t) (i : nat) :
  Colony.update_ant cfg c i = Some c' →
  length (Colony.ants c') = length (Colony.ants c).
Proof.
  unfold Colony.update_ant. intros Hrun.
  destruct (Colony.ants c !! i) as [a|]; cbn in Hrun; [|done].
  destruct (Ant.update cfg a c) as [[a' c1]|] eqn:Hup; cbn in Hrun; [|done].
  injection Hrun as <-. cbn. rewrite length_insert.
  by rewrite (Ant_update_ants _ _ _ _ Hup).
Qed.

Lemma update_ants_length (c c' : Colony.t) (l : list nat) :
  fold_option (Colony.update_ant cfg) c l = Some c' →
  length (Colony.ants c') = length (Colony.ants c).
Proof.
  revert c. induction l as [|i l IH]; intros c; cbn.
  - by intros [= <-].
  - destruct (Colony.update_ant cfg c i) as [c1|] eqn:Hone; cbn; [|done].
    intros Hrest. rewrite (IH _ Hrest). by apply (update_ant_length _ _ i).
Qed.

Lemma process_dead_ants_length (c : Colony.t) :
  length (Colony.ants (Colony.process_dead_ants c)) ≤ length (Colony.ants c).
Proof. cbn. apply length_filter. Qed.

(** [spawn_new_ants], case by case. *)
Lemma spawn_new_ants_spec (c c' : Colony.t) g g' :
  Colony.spawn_new_ants cfg c g = Some (c', g') →
  ((config.ANT_ENERGY_FROM_FOOD cfg < Colony.food_collected c)%Z ∧
   (length (Colony.ants c) < config.MAX_COLONY_SIZE cfg)%nat ∧
   ∃ new_ant, Colony.ants c' = Colony.ants c ++ [new_ant] ∧
     Colony.food_collected c' =
       (Colony.food_collected c - config.ANT_ENERGY_FROM_FOOD cfg)%Z ∧
     Colony.ants_born c' = (Colony.ants_born c + 1)%Z) ∨
  (¬ ((config.ANT_ENERGY_FROM_FOOD cfg < Colony.food_collected c)%Z ∧
      (length (Colony.ants c) < config.MAX_COLONY_SIZE cfg)%nat) ∧
   c' = c ∧ g' = g).
Proof.
  unfold Colony.spawn_new_ants.
  destruct (Z.ltb_spec (config.ANT_ENERGY_FROM_FOOD cfg) (Colony.food_collected c));
    destruct (Nat.ltb_spec (length (Colony.ants c)) (config.MAX_COLONY_SIZE cfg));
    cbn [andb].
  - intros Hrun. left. split; [done|]. split; [done|].
    apply bind_Some in Hrun as (new_ant & g1 & _ & Hret).
    apply ret_Some in Hret as [-> _]. by exists new_ant.
  - intros [-> ->]%ret_Some. right. split; [lia|done].
  - intros [-> ->]%ret_Some. right. split; [lia|done].
  - intros [-> ->]%ret_Some. right. split; [lia|done].
Qed.

Lemma insert_by_length (key : nat → Z) (i : nat) (l : list nat) :
  length (EvolutionManager.insert_by key i l) = S (length l).
Proof.
  induction l as [|j l IH]; cbn; [done|].
  destruct (Z.leb _ _); cbn; [done|]. by rewrite IH.
Qed.

Lemma np_argsort_length (l : list Z) :
  length (EvolutionManager.np_argsort l) = length l.
Proof.
  unfold EvolutionManager.np_argsort. generalize (λ i, default 0%Z (l !! i)) as key.
  intros key. transitivity (length (seq 0 (length l))); [|apply length_seq].
  induction (seq 0 (length l)) as [|i s IH]; cbn; [done|].
  by rewrite insert_by_length, IH.
Qed.

Lemma fill_population_length (c : Colony.t) population fitnesses (n : nat)
    new_population l g g' :
  EvolutionManager.fill_population cfg c population fitnesses n new_population g
    = Some (l, g') →
  length l = (length new_population + n)%nat.
Proof.
  revert new_population g. induction n as [|n IH]; intros new_population g; cbn.
  - intros [-> _]%ret_Some. lia.
  - intros Hrun. apply bind_Some in Hrun as ([p1 p2] & g1 & _ & Hrun).
    apply bind_Some in Hrun as (offspring & g2 & _ & Hrun).
    apply IH in Hrun. rewrite length_app in Hrun. cbn in Hrun. lia.
Qed.

Lemma evolve_generation_length (e e' : EvolutionManager.t) (c c' : Colony.t) g g' :
  EvolutionManager.evolve_generation cfg e c g = Some (e', c', g') →
  length (Colony.ants c') = length (Colony.ants c).
Proof.
  unfold EvolutionManager.evolve_generation.
  destruct (Nat.ltb_spec (length (Colony.ants c)) 10) as [?|Hlen].
  - by intros [[= <- <-] _]%ret_Some.
  - intros Hrun.
    apply bind_Some in Hrun as (idx & g1 & _ & Hrun).
    apply bind_Some in Hrun as (best_f & g2 & _ & Hrun).
    apply bind_Some in Hrun as (best & g3 & _ & Hrun).
    destruct (Z.ltb _ _).
    + apply bind_Some in Hrun as (elite & g4 & Helite & Hrun).
      apply bind_Some in Hrun as (l & g5 & Hfill & Hret).
      apply ret_Some in Hret as [[= -> ->] _]. cbn.
      apply fill_population_length in Hfill. rewrite Hfill.
      apply lift_Some in Helite as [Helite _]. apply length_mapM in Helite.
      rewrite length_drop, np_argsort_length, length_map in Helite. lia.
    + apply bind_Some in Hrun as (elite & g4 & Helite & Hrun).
      apply bind_Some in Hrun as (l & g5 & Hfill & Hret).
      apply ret_Some in Hret as [[= -> ->] _]. cbn.
      apply fill_population_length in Hfill. rewrite Hfill.
      apply lift_Some in Helite as [Helite _]. apply length_mapM in Helite.
      rewrite length_drop, np_argsort_length, length_map in Helite. lia.
Qed.

End ColonyFacts.

(** C1: from a colony with at most [MAX_COLONY_SIZE] ants, a [Colony.update]
    that returns leaves at most [MAX_COLONY_SIZE] ants, whatever the stored
    food, and an [evolve_generation] that returns leaves exactly as many
    ants as before. *)
Theorem Colony_population_bound `{!NumPy, !Random} (cfg : config.t)
    (c : Colony.t) (e : EvolutionManager.t) :
  length (Colony.ants c) ≤ config.MAX_COLONY_SIZE cfg →
  (∀ g c' g', Colony.update cfg c g = Some (c', g') →
     length (Colony.ants c') ≤ config.MAX_COLONY_SIZE cfg) ∧
  (∀ g e' c' g', EvolutionManager.evolve_generation cfg e c g = Some (e', c', g') →
     length (Colony.ants c') = length (Colony.ants c) ∧
     length (Colony.ants c') ≤ config.MAX_COLONY_SIZE cfg).
Proof.
  intros Hmax. split.
  - intros g c' g' Hrun. unfold Colony.update in Hrun.
    apply bind_Some in Hrun as (c1 & g1 & Hants & Hrun).
    apply lift_Some in Hants as [Hants _].
    apply update_ants_length in Hants.
    apply bind_Some in Hrun as (c2 & g2 & Hspawn & Hret).
    apply ret_Some in Hret as [-> _]. cbn.
    pose proof (process_dead_ants_length c1) as Hdead.
    apply spawn_new_ants_spec in Hspawn
      as [(_ & Hroom & new_ant & -> & _)|(_ & -> & _)].
    + rewrite length_app. cbn in *. lia.
    + cbn in *. lia.
  - intros g e' c' g' Hrun. apply evolve_generation_length in Hrun. lia.
Qed.

(** A step of the two-ant default colony, evaluated. *)
Lemma Colony_update_example :
  ∃ c c' g',
    default_colony 2 = Some c ∧ length (Colony.ants c) = 2%nat ∧
    @Colony.update numpy_stub random_stub config.default c 0%nat = Some (c', g') ∧
    Colony.total_steps c' = 1%Z.
Proof.
  destruct (default_colony 2) as [c|] eqn:Hc; [|by vm_compute in Hc].
  destruct (@Colony.update numpy_stub random_stub config.default c 0%nat)
    as [[c' g']|] eqn:Hup;
    [|injection Hc as <-; by vm_compute in Hup].
  exists c, c', g'. split; [done|].
  split; [injection Hc as <-; by vm_compute|]. split; [done|].
  injection Hc as <-. vm_compute in Hup. injection Hup as <- <-. by vm_compute.
Qed.

Lemma Colony_population_bound_witness :
  ∃ c c' g',
    default_colony 2 = Some c ∧
    (length (Colony.ants c) ≤ config.MAX_COLONY_SIZE config.default)%nat ∧
    @Colony.update numpy_stub random_stub config.default c 0%nat = Some (c', g') ∧
    (length (Colony.ants c') ≤ config.MAX_COLONY_SIZE config.default)%nat.
Proof.
  destruct Colony_update_example as (c & c' & g' & Hc & Hlen & Hup & _).
  assert (length (Colony.ants c) ≤ config.MAX_COLONY_SIZE config.default)%nat
    as Hmax by (rewrite Hlen; cbn; lia).
  exists c, c', g'. split; [exact Hc|]. split; [exact Hmax|]. split; [exact Hup|].
  exact (proj1 (@Colony_population_bound numpy_stub random_stub config.default c
                  {| EvolutionManager.generation := 0;
                     EvolutionManager.best_fitness := 0;
                     EvolutionManager.best_agent := None;
                     EvolutionManager.fitness_history := [] |} Hmax)
               0%nat c' g' Hup).
Defined.

(** ** Colony: the spawn threshold *)

(** C8, as stated, fails: after two deliveries of 50 units the store holds
    exactly the spawn cost of 100 and the colony has 2 ants of at most 500,
    yet neither [spawn_new_ants] nor a whole [update] spawns: the ants, the
    store and the birth counter are as before. *)
Lemma Colony_no_spawn_at_exact_cost :
  ∃ c c' g',
    colony_after_two_deliveries = Some c ∧
    Colony.food_collected c = config.ANT_ENERGY_FROM_FOOD config.default ∧
    (length (Colony.ants c) < config.MAX_COLONY_SIZE config.default)%nat ∧
    @Colony.spawn_new_ants numpy_stub random_stub config.default c 0%nat
      = Some (c, 0%nat) ∧
    @Colony.update numpy_stub random_stub config.default c 0%nat = Some (c', g') ∧
    length (Colony.ants c') = length (Colony.ants c) ∧
    Colony.food_collected c' = Colony.food_collected c ∧
    Colony.ants_born c' = Colony.ants_born c.
Proof.
  destruct colony_after_two_deliveries as [c|] eqn:Hc; [|by vm_compute in Hc].
  destruct (@Colony.update numpy_stub random_stub config.default c 0%nat)
    as [[c' g']|] eqn:Hup;
    [|injection Hc as <-; by vm_compute in Hup].
  exists c, c', g'. injection Hc as <-. split; [done|].
  split; [by vm_compute|]. split; [vm_compute; lia|].
  split; [by vm_compute|]. split; [done|].
  vm_compute in Hup. injection Hup as <- <-. by vm_compute.
Qed.

(** C8, amended: when the updates of the ants raise nothing,
    [Colony.update] returns; with [c1] the colony after the ants were
    updated and the dead reaped, it spawns one default-brained ant exactly
    when the store of [c1] is strictly greater than [ANT_ENERGY_FROM_FOOD]
    and [c1] has fewer than [MAX_COLONY_SIZE] ants; the spawn takes exactly
    that cost from the store and adds one to the birth counter; otherwise
    ants, store and birth counter are those of [c1]. *)
Theorem Colony_update_spawn `{!NumPy, !Random} (cfg : config.t) (c c0 : Colony.t) :
  NeuralNetwork.valid_sizes (15%nat :: config.NEURAL_NETWORK_LAYERS cfg ++ [4%nat]) →
  fold_option (Colony.update_ant cfg) c (Colony.active_ants c) = Some c0 →
  let c1 := Colony.process_dead_ants c0 in
  let cost := config.ANT_ENERGY_FROM_FOOD cfg in
  let spawning := (cost < Colony.food_collected c1)%Z ∧
                  (length (Colony.ants c1) < config.MAX_COLONY_SIZE cfg)%nat in
  returns (Colony.update cfg c)
    (λ c', Colony.total_steps c' = (Colony.total_steps c1 + 1)%Z ∧
       (spawning →
          ∃ new_ant, Colony.ants c' = Colony.ants c1 ++ [new_ant] ∧
            default_brained cfg c1 new_ant ∧
            Colony.food_collected c' = (Colony.food_collected c1 - cost)%Z ∧
            Colony.ants_born c' = (Colony.ants_born c1 + 1)%Z) ∧
       (¬ spawning →
          Colony.ants c' = Colony.ants c1 ∧
          Colony.food_collected c' = Colony.food_collected c1 ∧
          Colony.ants_born c' = Colony.ants_born c1)).
Proof.
  intros Hvalid Hants c1 cost spawning. unfold Colony.update.
  eapply returns_bind; [exact (returns_lift _ _ (λ x, x = c0) Hants eq_refl)|].
  intros ? ->. fold c1. unfold Colony.spawn_new_ants. fold cost.
  destruct (Z.ltb_spec cost (Colony.food_collected c1)) as [Hfood|Hfood];
    destruct (Nat.ltb_spec (length (Colony.ants c1)) (config.MAX_COLONY_SIZE cfg))
      as [Hroom|Hroom]; cbn [andb].
  - eapply returns_bind.
    { eapply returns_bind; [exact (Ant_init_returns cfg _ Hvalid)|].
      intros new_ant Hnew. apply returns_ret.
      instantiate (1 := λ c2, ∃ new_ant,
        Colony.ants c2 = Colony.ants c1 ++ [new_ant] ∧
        default_brained cfg c1 new_ant ∧
        Colony.food_collected c2 = (Colony.food_collected c1 - cost)%Z ∧
        Colony.ants_born c2 = (Colony.ants_born c1 + 1)%Z ∧
        Colony.total_steps c2 = Colony.total_steps c1).
      exists new_ant. cbn. by repeat (split; [done|]). }
    intros c2 (new_ant & Hl & Hb & Hf & Hborn & Hsteps). apply returns_ret. cbn.
    split; [by rewrite Hsteps|]. split.
    + intros _. by exists new_ant.
    + intros Hno. destruct Hno. by split.
  - eapply returns_bind; [by apply (returns_ret _ (λ x, x = c1))|].
    intros ? ->. apply returns_ret. cbn. split; [done|].
    split; [intros [_ ?]; lia|done].
  - eapply returns_bind; [by apply (returns_ret _ (λ x, x = c1))|].
    intros ? ->. apply returns_ret. cbn. split; [done|].
    split; [intros [? _]; lia|done].
  - eapply returns_bind; [by apply (returns_ret _ (λ x, x = c1))|].
    intros ? ->. apply returns_ret. cbn. split; [done|].
    split; [intros [? _]; lia|done].
Qed.

(** The ants' updates of the colony with 150 units in store, evaluated. *)
Lemma Colony_ants_step_example :
  ∃ c c0,
    colony_after_three_deliveries = Some c ∧
    fold_option (@Colony.update_ant numpy_stub config.default) c (Colony.active_ants c)
      = Some c0 ∧
    Colony.food_collected (Colony.process_dead_ants c0) = 150%Z ∧
    length (Colony.ants (Colony.process_dead_ants c0)) = 2%nat.
Proof.
  destruct colony_after_three_deliveries as [c|] eqn:Hc; [|by vm_compute in Hc].
  destruct (fold_option (@Colony.update_ant numpy_stub config.default) c
              (Colony.active_ants c)) as [c0|] eqn:Hfold;
    [|injection Hc as <-; by vm_compute in Hfold].
  exists c, c0. split; [done|]. split; [done|].
  injection Hc as <-. vm_compute in Hfold. injection Hfold as <-.
  split; by vm_compute.
Qed.

Lemma Colony_update_spawn_witness :
  ∃ c c0 c' g',
    colony_after_three_deliveries = Some c ∧
    NeuralNetwork.valid_sizes
      (15%nat :: config.NEURAL_NETWORK_LAYERS config.default ++ [4%nat]) ∧
    fold_option (@Colony.update_ant numpy_stub config.default) c (Colony.active_ants c)
      = Some c0 ∧
    @Colony.update numpy_stub random_stub config.default c 0%nat = Some (c', g') ∧
    length (Colony.ants c') = 3%nat ∧ Colony.food_collected c' = 50%Z.
Proof.
  destruct Colony_ants_step_example as (c & c0 & Hc & Hfold & Hfood & Hlen).
  assert (NeuralNetwork.valid_sizes
            (15%nat :: config.NEURAL_NETWORK_LAYERS config.default ++ [4%nat]))
    as Hvalid by (cbn; repeat split; lia).
  destruct (@Colony_update_spawn numpy_stub random_stub config.default
              c c0 Hvalid Hfold 0%nat)
    as (c' & g' & Hrun & _ & Hspawn & _).
  exists c, c0, c', g'. split; [exact Hc|]. split; [exact Hvalid|].
  split; [exact Hfold|]. split; [exact Hrun|].
  destruct Hspawn as (new_ant & Hants & _ & Hstore & _).
  { rewrite Hfood, Hlen. split; [cbn; lia|cbn; lia]. }
  rewrite Hants, length_app, Hlen, Hstore, Hfood. split; reflexivity.
Defined.

(** A generation of the ten-ant default colony, evaluated: the new
    population has ten ants again and the generation counters move on. *)
Lemma EvolutionManager_evolve_example :
  ∃ c e' c' g',
    default_colony 10 = Some c ∧ length (Colony.ants c) = 10%nat ∧
    @EvolutionManager.evolve_generation numpy_stub random_stub config.default
      EvolutionManager.init c 0%nat = Some (e', c', g') ∧
    length (Colony.ants c') = 10%nat ∧
    EvolutionManager.generation e' = 1%Z ∧ Colony.generation c' = 1%Z.
Proof.
  assert (evolve_example = Some (10%nat, 10%nat, 1%Z, 1%Z)) as Hrun
    by (vm_compute; reflexivity).
  unfold evolve_example in Hrun.
  destruct (default_colony 10) as [c|]; [|done]. cbn [mbind option_bind] in Hrun.
  destruct (EvolutionManager.evolve_generation _ _ _ _) as [[[e' c'] g']|] eqn:Hev;
    [|done].
  cbn in Hrun. injection Hrun as Hc He Hgen Hcgen.
  by exists c, e', c', g'.
Qed.

(** ** Loading a model: no validation of shapes *)

Section LoadModel.
Context `{!NumPy, !Random} (cfg : config.t).

(** [set_weights] on every ant of a list. *)
Lemma set_weights_ants (d : NeuralNetwork.weights_dict) ws (ants : list Ant.t) :
  mapM NeuralNetwork.np_array (NeuralNetwork.wd_weights d) = Some ws →
  ∃ ants',
    mapM (λ ant, b ← MLAgent.set_weights (Ant.brain ant) d;
                 Some (Ant.set_brain ant b)) ants = Some ants' ∧
    Forall2 (λ ant ant',
      let nn := MLAgent.network (Ant.brain ant) in
      let nn' := MLAgent.network (Ant.brain ant') in
      NeuralNetwork.weights nn' = ws ∧
      NeuralNetwork.biases nn' = NeuralNetwork.wd_biases d ∧
      NeuralNetwork.same_topology nn' nn) ants ants'.
Proof.
  intros Hws.
  assert (∀ ant : Ant.t, ∃ b,
            MLAgent.set_weights (Ant.brain ant) d = Some b ∧
            NeuralNetwork.weights (MLAgent.network b) = ws ∧
            NeuralNetwork.biases (MLAgent.network b) = NeuralNetwork.wd_biases d ∧
            NeuralNetwork.same_topology (MLAgent.network b)
              (MLAgent.network (Ant.brain ant))) as Hone.
  { intros ant. unfold MLAgent.set_weights, NeuralNetwork.set_weights.
    rewrite Hws. cbn. eexists. split; [reflexivity|]. by cbn. }
  induction ants as [|ant ants IH].
  - exists []. split; [done|constructor].
  - destruct IH as (ants' & Hmap & Hall).
    destruct (Hone ant) as (b & Hb & Hw & Hbias & Htop).
    exists (Ant.set_brain ant b :: ants'). split.
    + apply mapM_Some. apply mapM_Some in Hmap.
      constructor; [|done]. by rewrite Hb.
    + constructor; [|done]. by cbn.
Qed.

Lemma adjust_inputs_spec (n : nat) (inputs : list Q) :
  MLAgent.adjust_inputs n inputs =
    take n (inputs ++ replicate (n - length inputs) 0) ∧
  length (MLAgent.adjust_inputs n inputs) = n.
Proof.
  unfold MLAgent.adjust_inputs.
  destruct (Nat.eqb_spec (length inputs) n) as [Heq|Hne].
  - subst n. rewrite Nat.sub_diag. cbn. rewrite app_nil_r.
    by rewrite firstn_all.
  - destruct (Nat.ltb_spec (length inputs) n) as [Hlt|Hge].
    + split.
      * rewrite take_ge; [done|]. rewrite length_app, length_replicate. lia.
      * rewrite length_app, length_replicate. lia.
    + replace (n - length inputs)%nat with 0%nat by lia. cbn. rewrite app_nil_r.
      split; [done|]. rewrite length_take. lia.
Qed.

End LoadModel.

(** C6, as stated, fails: on the two-ant default colony (networks of 15
    inputs and 4 outputs) [load_model] accepts a file whose only layer is a
    2 by 3 matrix: it raises nothing and every ant's controller now holds
    that matrix; and [process] accepts an input of length 2 for such a
    network instead of raising. *)
Lemma EvolutionManager_load_model_accepts_mismatch :
  ∃ c e' c' g',
    default_colony 2 = Some c ∧
    @EvolutionManager.load_model numpy_stub random_stub config.default
      EvolutionManager.init c (Some mismatched_model) 0%nat = Some (e', c', g') ∧
    Forall (λ ant, NeuralNetwork.input_size (MLAgent.network (Ant.brain ant)) = 15%nat ∧
                   (NeuralNetwork.shape <$> NeuralNetwork.weights (MLAgent.network (Ant.brain ant)))
                     = [[15; 16]; [16; 32]; [32; 16]; [16; 4]]%nat ∧
                   is_Some (@MLAgent.process numpy_stub (Ant.brain ant) [1; 2]))
           (Colony.ants c) ∧
    Forall (λ ant, NeuralNetwork.input_size (MLAgent.network (Ant.brain ant)) = 15%nat ∧
                   NeuralNetwork.weights (MLAgent.network (Ant.brain ant))
                     = [NeuralNetwork.Matrix 3 [[1; 2; 3]; [4; 5; 6]]])
           (Colony.ants c') ∧
    Colony.ants c' ≠ Colony.ants c.
Proof.
  destruct (default_colony 2) as [c|] eqn:Hc; [|by vm_compute in Hc].
  destruct (@EvolutionManager.load_model numpy_stub random_stub config.default
              EvolutionManager.init c (Some mismatched_model) 0%nat)
    as [[[e' c'] g']|] eqn:Hload;
    [|injection Hc as <-; by vm_compute in Hload].
  exists c, e', c', g'. split; [done|]. split; [done|].
  injection Hc as <-. vm_compute in Hload. injection Hload as <- <- <-.
  split; [|split].
  - constructor; [|constructor; [|constructor]];
      (split; [by vm_compute|split; [by vm_compute|vm_compute; eexists; reflexivity]]).
  - constructor; [|constructor; [|constructor]]; (split; reflexivity).
  - vm_compute. discriminate.
Qed.

(** C6, amended: [load_model] validates no shapes.  For every configuration
    whose layer sizes [MLAgent()] accepts and every file whose weight lists
    are rectangular, it raises nothing, and afterwards the best agent and
    the controller of every ant hold exactly the loaded arrays, whatever
    their shapes, next to their unchanged topology fields; a missing or
    unreadable file raises.  An input whose length differs from the input
    size of the network is padded with zeros or truncated to that size by
    [process]. *)
Theorem EvolutionManager_load_model_unchecked `{!NumPy, !Random} (cfg : config.t)
    (e : EvolutionManager.t) (c : Colony.t)
    (model : EvolutionManager.model_data) (ws : list NeuralNetwork.ndarray) :
  let d := EvolutionManager.md_weights model in
  NeuralNetwork.valid_sizes (15%nat :: config.NEURAL_NETWORK_LAYERS cfg ++ [4%nat]) →
  mapM NeuralNetwork.np_array (NeuralNetwork.wd_weights d) = Some ws →
  returns (EvolutionManager.load_model cfg e c (Some model))
    (λ r,
       (∃ agent, EvolutionManager.best_agent r.1 = Some agent ∧
          NeuralNetwork.weights (MLAgent.network agent) = ws ∧
          NeuralNetwork.biases (MLAgent.network agent) = NeuralNetwork.wd_biases d) ∧
       Forall2 (λ ant ant',
          let nn := MLAgent.network (Ant.brain ant) in
          let nn' := MLAgent.network (Ant.brain ant') in
          NeuralNetwork.weights nn' = ws ∧
          NeuralNetwork.biases nn' = NeuralNetwork.wd_biases d ∧
          NeuralNetwork.same_topology nn' nn)
         (Colony.ants c) (Colony.ants r.2)) ∧
  (∀ g, EvolutionManager.load_model cfg e c None g = None) ∧
  ∀ (agent : MLAgent.t) (inputs : list Q),
    let n := NeuralNetwork.input_size (MLAgent.network agent) in
    MLAgent.adjust_inputs n inputs =
      take n (inputs ++ replicate (n - length inputs) 0) ∧
    length (MLAgent.adjust_inputs n inputs) = n ∧
    fst <$> MLAgent.process agent inputs =
      (MLAgent._activate_outputs ∘ fst) <$>
        NeuralNetwork.forward (MLAgent.network agent) (MLAgent.adjust_inputs n inputs).
Proof.
  intros d Hvalid Hws. split.
  - unfold EvolutionManager.load_model.
    eapply returns_bind;
      [exact (returns_lift _ _ (λ m, m = model) eq_refl eq_refl)|].
    intros m ->.
    eapply returns_bind; [exact (MLAgent_init_returns cfg Hvalid)|].
    intros agent0 _. cbn beta.
    eapply returns_bind.
    { eapply (returns_lift _ _
        (λ agent, NeuralNetwork.weights (MLAgent.network agent) = ws ∧
                  NeuralNetwork.biases (MLAgent.network agent)
                    = NeuralNetwork.wd_biases d)).
      - unfold MLAgent.set_weights, NeuralNetwork.set_weights.
        fold d. rewrite Hws. cbn. reflexivity.
      - by cbn. }
    intros agent [Hw Hb].
    destruct (set_weights_ants d ws (Colony.ants c) Hws) as (ants' & Hmap & Hall).
    eapply returns_bind.
    { exact (returns_lift _ _ (λ l, l = ants') Hmap eq_refl). }
    intros l ->. apply returns_ret. cbn. split; [|done]. by exists agent.
  - split; [done|]. intros agent inputs n.
    destruct (adjust_inputs_spec n inputs) as [Hadj Hlen].
    split; [done|]. split; [done|].
    unfold MLAgent.process. fold n.
    by destruct (NeuralNetwork.forward _ _) as [[outputs nn]|].
Qed.

Lemma EvolutionManager_load_model_unchecked_witness :
  NeuralNetwork.valid_sizes
    (15%nat :: config.NEURAL_NETWORK_LAYERS config.default ++ [4%nat]) ∧
  mapM NeuralNetwork.np_array
    (NeuralNetwork.wd_weights (EvolutionManager.md_weights mismatched_model))
    = Some [NeuralNetwork.Matrix 3 [[1; 2; 3]; [4; 5; 6]]] ∧
  ∃ e' c' g',
    @EvolutionManager.load_model numpy_stub random_stub config.default
      EvolutionManager.init single_ant_colony (Some mismatched_model) 0%nat
      = Some (e', c', g') ∧
    Forall2 (λ ant ant',
       NeuralNetwork.weights (MLAgent.network (Ant.brain ant'))
         = [NeuralNetwork.Matrix 3 [[1; 2; 3]; [4; 5; 6]]] ∧
       NeuralNetwork.biases (MLAgent.network (Ant.brain ant')) = [[0; 0; 0]] ∧
       NeuralNetwork.same_topology (MLAgent.network (Ant.brain ant'))
         (MLAgent.network (Ant.brain ant)))
      (Colony.ants single_ant_colony) (Colony.ants c').
Proof.
  assert (NeuralNetwork.valid_sizes
            (15%nat :: config.NEURAL_NETWORK_LAYERS config.default ++ [4%nat]))
    as Hvalid by (cbn; repeat split; lia).
  split; [exact Hvalid|]. split; [reflexivity|].
  destruct (proj1 (@EvolutionManager_load_model_unchecked numpy_stub random_stub
                     config.default EvolutionManager.init single_ant_colony
                     mismatched_model _ Hvalid eq_refl) 0%nat)
    as ([e' c'] & g' & Hrun & _ & Hall).
  by exists e', c', g'.
Defined.

(** ** A generation always returns

    On a population of at least ten ants whose controllers share one
    topology, [evolve_generation] raises nothing. *)

Section GenerationReturns.
Context `{!NumPy, !Random} (cfg : config.t).

Lemma mutate_vector_length (rate : Q) (b : list Q) :
  returns (NeuralNetwork.mutate_vector rate b) (λ b', length b' = length b).
Proof.
  unfold NeuralNetwork.mutate_vector.
  eapply returns_bind; [apply returns_repeatM, returns_draw|]. intros mask [Hm _].
  eapply returns_bind; [apply returns_repeatM, returns_draw|]. intros mut [Hu _].
  apply returns_ret. rewrite length_zip_with, length_zip. lia.
Qed.

Lemma mutate_array_dims (rate : Q) (n m : nat) rows :
  length rows = n → Forall (λ r, length r = m) rows →
  returns (NeuralNetwork.mutate_array rate (NeuralNetwork.Matrix m rows))
    (λ a, ∃ rows', a = NeuralNetwork.Matrix m rows' ∧ length rows' = n ∧
                   Forall (λ r, length r = m) rows').
Proof.
  intros Hlen Hrows. unfold NeuralNetwork.mutate_array, NeuralNetwork.random_like.
  eapply returns_bind; [apply returns_draw_matrix|]. intros mask [Hml Hmask].
  eapply returns_bind; [apply returns_draw_matrix|]. intros mut [Hul Hmut].
  apply returns_ret. eexists. split; [done|]. split.
  - rewrite length_zip_with, length_zip. lia.
  - apply Forall_lookup. intros i row Hrow.
    apply lookup_zip_with_Some in Hrow as (r & [mr ur] & -> & Hr & Hmu).
    apply lookup_zip_with_Some in Hmu as (? & ? & [= <- <-] & Hmr & Hur).
    rewrite length_zip_with, length_zip. cbn.
    rewrite (proj1 (Forall_lookup _ _) Hrows _ _ Hr).
    rewrite (proj1 (Forall_lookup _ _) Hmask _ _ Hmr).
    rewrite (proj1 (Forall_lookup _ _) Hmut _ _ Hur). lia.
Qed.

Lemma mutate_layers_conforms (rate : Q) (sizes : list nat) ws bs :
  NeuralNetwork.conforms_layers sizes ws bs →
  returns (NeuralNetwork.mutate_layers rate ws bs)
    (λ r, NeuralNetwork.conforms_layers sizes r.1 r.2).
Proof.
  revert ws bs. induction sizes as [|n rest IH]; intros ws bs Hc.
  - destruct Hc as [-> ->]. by apply returns_ret.
  - destruct rest as [|m rest'].
    + destruct Hc as [-> ->]. by apply returns_ret.
    + cbn in Hc. destruct ws as [|[|c rows] ws]; [done..|].
      destruct bs as [|b bs]; [done|].
      destruct Hc as (Hnm & -> & Hlen & Hrows & Hb & Hrest).
      cbn [NeuralNetwork.mutate_layers].
      eapply returns_bind; [exact (mutate_array_dims rate n m rows Hlen Hrows)|].
      intros w' (rows' & -> & Hlen' & Hrows').
      eapply returns_bind; [apply mutate_vector_length|]. intros b' Hb'.
      eapply returns_bind; [exact (IH _ _ Hrest)|]. intros [ws' bs'] Hc'.
      apply returns_ret. cbn. cbn in Hc'.
      split; [done|]. split; [done|]. split; [done|]. split; [done|].
      split; [congruence|done].
Qed.

Lemma crossover_conforms (a b : NeuralNetwork.t) (rate : Q) :
  NeuralNetwork.conforms a → NeuralNetwork.conforms b →
  NeuralNetwork.same_topology a b →
  returns (NeuralNetwork.crossover a b rate)
    (λ child, NeuralNetwork.same_topology child a ∧ NeuralNetwork.conforms child).
Proof.
  intros Ha Hb (Hin & Hhid & Hout).
  unfold NeuralNetwork.conforms, NeuralNetwork.layer_sizes in Ha, Hb.
  rewrite <-Hin, <-Hhid, <-Hout in Hb.
  unfold NeuralNetwork.crossover, NeuralNetwork.init.
  eapply (returns_bind _ _ (λ child, NeuralNetwork.same_topology child a ∧
                                     NeuralNetwork.conforms child)).
  { eapply returns_bind; [exact (init_layers_conforms _ _ _ Ha)|].
    intros [ws bs] Hc. apply returns_ret. split; [done|]. exact Hc. }
  intros child ((Hcin & Hchid & Hcout) & Hchild).
  unfold NeuralNetwork.conforms, NeuralNetwork.layer_sizes in Hchild.
  rewrite Hcin, Hchid, Hcout in Hchild.
  eapply returns_bind;
    [exact (crossover_layers_conforms rate _ _ _ _ _ _ _ Ha Hb Hchild)|].
  intros [ws bs] (Hconf & _ & _). apply returns_ret. cbn in *.
  split; [done|].
  unfold NeuralNetwork.conforms, NeuralNetwork.layer_sizes. cbn.
  by rewrite Hcin, Hchid, Hcout.
Qed.

Lemma create_offspring_returns (c : Colony.t) (parent1 parent2 : Ant.t)
    (input : nat) (hidden : list nat) (output : nat) :
  brain_of_topology input hidden output (Ant.brain parent1) →
  brain_of_topology input hidden output (Ant.brain parent2) →
  returns (EvolutionManager.create_offspring cfg c parent1 parent2)
    (λ offspring, brain_of_topology input hidden output (Ant.brain offspring)).
Proof.
  intros (Hi1 & Hh1 & Ho1 & Hc1) (Hi2 & Hh2 & Ho2 & Hc2).
  unfold EvolutionManager.create_offspring, MLAgent.crossover, MLAgent.init.
  eapply (returns_bind _ _ (brain_of_topology input hidden output)).
  { eapply returns_bind.
    - apply (crossover_conforms _ _ _ Hc1 Hc2). repeat split; congruence.
    - intros child ((Hin & Hhid & Hout) & Hchild).
      eapply returns_bind; [by apply (returns_ret _ (λ nn, nn = child))|].
      intros ? ->. apply returns_ret. unfold brain_of_topology. cbn.
      split; [congruence|]. split; [congruence|]. split; [congruence|done]. }
  intros b (Hin & Hhid & Hout & Hconf).
  eapply (returns_bind _ _ (brain_of_topology input hidden output)).
  { unfold MLAgent.mutate, NeuralNetwork.mutate.
    eapply returns_bind.
    - eapply returns_bind; [exact (mutate_layers_conforms _ _ _ _ Hconf)|].
      intros [ws bs] Hc. apply returns_ret.
      instantiate (1 := λ nn, NeuralNetwork.input_size nn = input ∧
        NeuralNetwork.hidden_sizes nn = hidden ∧
        NeuralNetwork.output_size nn = output ∧ NeuralNetwork.conforms nn).
      cbn. split; [done|]. split; [done|]. split; [done|].
      unfold NeuralNetwork.conforms, NeuralNetwork.layer_sizes. cbn.
      unfold NeuralNetwork.layer_sizes in Hc. exact Hc.
    - intros nn Hnn. by apply returns_ret. }
  intros b' Hb'. unfold Ant.init.
  eapply returns_bind; [apply returns_draw|]. intros direction _.
  eapply returns_bind; [by apply (returns_ret _ (λ x, x = b'))|].
  intros ? ->. by apply returns_ret.
Qed.

Lemma select_parents_returns (population : list Ant.t) (fitnesses : list Z) :
  choice_is_valid → length fitnesses = length population →
  (10 ≤ length population)%nat →
  returns (EvolutionManager.select_parents population fitnesses)
    (λ p, p.1 ∈ population ∧ p.2 ∈ population).
Proof.
  intros Hchoice Hlen Hten.
  assert (EvolutionManager.tournament_size population ≤ length population)%nat as Hk.
  { unfold EvolutionManager.tournament_size, EvolutionManager.tenth.
    pose proof (Nat.Div0.div_le_upper_bound (length population) 10 (length population)).
    apply Nat.max_lub; [lia|]. apply Nat.Div0.div_le_upper_bound. lia. }
  assert (returns (EvolutionManager.select_one population fitnesses)
            (λ w, w ∈ population)) as Hone.
  { intros g.
    destruct (select_one_spec population fitnesses g Hlen (Hchoice _ _ g Hk))
      as (winner & Hrun & (w & fw & _ & Hw & _)).
    eexists _, _. split; [exact Hrun|]. by eapply list_elem_of_lookup_2. }
  unfold EvolutionManager.select_parents.
  eapply returns_bind; [exact Hone|]. intros p1 Hp1.
  eapply returns_bind; [exact Hone|]. intros p2 Hp2.
  by apply returns_ret.
Qed.

Lemma fill_population_returns (c : Colony.t) (population : list Ant.t)
    (fitnesses : list Z) (input : nat) (hidden : list nat) (output : nat)
    (n : nat) (new_population : list Ant.t) :
  choice_is_valid → length fitnesses = length population →
  (10 ≤ length population)%nat →
  Forall (λ a, brain_of_topology input hidden output (Ant.brain a)) population →
  Forall (λ a, brain_of_topology input hidden output (Ant.brain a)) new_population →
  returns (EvolutionManager.fill_population cfg c population fitnesses n new_population)
    (λ l, length l = (length new_population + n)%nat ∧
          Forall (λ a, brain_of_topology input hidden output (Ant.brain a)) l).
Proof.
  intros Hchoice Hlen Hten Hpop. revert new_population.
  induction n as [|n IH]; intros new_population Hnew; cbn.
  - apply returns_ret. split; [lia|done].
  - eapply returns_bind; [by apply select_parents_returns|].
    intros [p1 p2] [Hp1 Hp2]. cbn in Hp1, Hp2.
    rewrite Forall_forall in Hpop.
    eapply returns_bind;
      [exact (create_offspring_returns c p1 p2 _ _ _ (Hpop _ Hp1) (Hpop _ Hp2))|].
    intros offspring Hoff.
    eapply returns_weaken.
    + apply IH. apply Forall_app. split; [done|]. by constructor.
    + intros l [Hl Hall]. split; [|done].
      rewrite Hl, length_app. cbn. lia.
Qed.

Lemma insert_by_Forall (P : nat → Prop) (key : nat → Z) (i : nat) (l : list nat) :
  P i → Forall P l → Forall P (EvolutionManager.insert_by key i l).
Proof.
  intros Hi. induction l as [|j l IH]; intros Hl; cbn.
  - by constructor.
  - apply Forall_cons in Hl as [Hj Hl].
    destruct (Z.leb _ _); [by repeat constructor|].
    constructor; [done|]. by apply IH.
Qed.

Lemma np_argsort_indices (l : list Z) :
  Forall (λ i, (i < length l)%nat) (EvolutionManager.np_argsort l).
Proof.
  unfold EvolutionManager.np_argsort. generalize (λ i, default 0%Z (l !! i)) as key.
  intros key.
  assert (Forall (λ i, (i < length l)%nat) (seq 0 (length l))) as Hseq.
  { apply Forall_forall. intros i Hi%elem_of_seq. lia. }
  induction (seq 0 (length l)) as [|i s IH]; cbn; [constructor|].
  apply Forall_cons in Hseq as [Hi Hs]. apply insert_by_Forall; [done|]. by apply IH.
Qed.

(** [evolve_generation] returns, with a population of the same size and the
    same topology. *)
Lemma evolve_generation_returns (e : EvolutionManager.t) (c : Colony.t)
    (input : nat) (hidden : list nat) (output : nat) :
  choice_is_valid →
  Forall (λ a, brain_of_topology input hidden output (Ant.brain a)) (Colony.ants c) →
  returns (EvolutionManager.evolve_generation cfg e c)
    (λ r, length (Colony.ants r.2) = length (Colony.ants c) ∧
          Forall (λ a, brain_of_topology input hidden output (Ant.brain a))
                 (Colony.ants r.2)).
Proof.
  intros Hchoice Hpop. unfold EvolutionManager.evolve_generation.
  destruct (Nat.ltb_spec (length (Colony.ants c)) 10) as [?|Hten].
  { by apply returns_ret. }
  set (population := Colony.ants c) in *.
  set (fitnesses := map (λ ant, EvolutionManager.evaluate_fitness ant c) population).
  assert (length fitnesses = length population) as Hlen by apply length_map.
  assert (fitnesses ≠ []) as Hne.
  { intros Hnil. rewrite Hnil in Hlen. cbn in Hlen. lia. }
  destruct (np_argmax_spec fitnesses Hne) as (k & vmax & Hk & Hvmax & _).
  eapply returns_bind; [exact (returns_lift _ _ (λ x, x = k) Hk eq_refl)|].
  intros ? ->.
  eapply returns_bind; [exact (returns_lift _ _ (λ x, x = vmax) Hvmax eq_refl)|].
  intros ? ->.
  assert (is_Some (population !! k)) as [best Hbest].
  { apply lookup_lt_is_Some. rewrite <-Hlen. by eapply lookup_lt_Some. }
  eapply returns_bind; [exact (returns_lift _ _ (λ x, x = best) Hbest eq_refl)|].
  intros ? ->.
  set (elite_indices := drop _ (EvolutionManager.np_argsort fitnesses)).
  assert (Forall (λ i, (i < length population)%nat) elite_indices) as Hidx.
  { unfold elite_indices. apply Forall_drop. rewrite <-Hlen. apply np_argsort_indices. }
  assert (is_Some (mapM (λ idx, population !! idx) elite_indices)) as [elite Helite].
  { apply mapM_is_Some. eapply Forall_impl; [exact Hidx|].
    intros i Hi. by apply lookup_lt_is_Some. }
  assert (length elite ≤ length population)%nat as Hel.
  { apply length_mapM in Helite. rewrite <-Helite. unfold elite_indices.
    rewrite length_drop, np_argsort_length. lia. }
  assert (Forall (λ a, brain_of_topology input hidden output (Ant.brain a)) elite)
    as Helite_ok.
  { apply mapM_Some in Helite. apply Forall_forall. intros a Ha.
    apply list_elem_of_lookup in Ha as [pos Hpos].
    destruct (Forall2_lookup_r _ _ _ _ _ Helite Hpos) as (i & _ & Hi).
    rewrite Forall_forall in Hpop. apply Hpop. by eapply list_elem_of_lookup_2. }
  destruct (Z.ltb _ _).
  - eapply returns_bind; [exact (returns_lift _ _ (λ x, x = elite) Helite eq_refl)|].
    intros ? ->.
    eapply returns_bind;
      [exact (fill_population_returns c population fitnesses input hidden output
                _ elite Hchoice Hlen Hten Hpop Helite_ok)|].
    intros l [Hl Hall]. apply returns_ret. cbn. split; [|done]. lia.
  - eapply returns_bind; [exact (returns_lift _ _ (λ x, x = elite) Helite eq_refl)|].
    intros ? ->.
    eapply returns_bind;
      [exact (fill_population_returns c population fitnesses input hidden output
                _ elite Hchoice Hlen Hten Hpop Helite_ok)|].
    intros l [Hl Hall]. apply returns_ret. cbn. split; [|done]. lia.
Qed.

End GenerationReturns.

(** ** A step always returns

    On a well-formed colony no update of an ant raises, so [Colony.update]
    returns, and the colony stays well-formed. *)

Section ForwardReturns.
Import NeuralNetwork.

Lemma forward_layers_returns (sizes : list nat) ws bs (x : list Q) acts :
  conforms_layers sizes ws bs → head sizes = Some (length x) →
  ∃ out acts', forward_layers ws bs x acts = Some (out, acts') ∧
               last sizes = Some (length out).
Proof.
  revert ws bs x acts. induction sizes as [|n rest IH]; intros ws bs x acts Hc Hx.
  - done.
  - destruct rest as [|m rest'].
    + destruct Hc as [-> ->]. exists x, acts. split; [done|]. cbn in *. done.
    + cbn in Hc. destruct ws as [|[|c rows] ws]; [done..|].
      destruct bs as [|b bs]; [done|].
      destruct Hc as (_ & -> & Hlen & _ & Hb & Hrest).
      cbn in Hx. injection Hx as ->.
      cbn [forward_layers np_dot]. rewrite Hlen, Nat.eqb_refl. cbn.
      rewrite length_map, length_seq, Hb, Nat.eqb_refl. cbn.
      set (z := zip_with Qplus _ b).
      assert (length z = m) as Hz.
      { unfold z. rewrite length_zip_with, length_map, length_seq. lia. }
      set (x' := match ws with [] => z | _ => relu z end).
      assert (length x' = m) as Hx'.
      { unfold x'. destruct ws; [done|]. unfold relu. by rewrite length_map. }
      destruct (IH ws bs x' (acts ++ [x']) Hrest) as (out & acts' & Hrun & Hlast).
      { cbn. by rewrite Hx'. }
      exists out, acts'. split; [done|].
      change (last (length x :: m :: rest')) with (last (m :: rest')). done.
Qed.

Lemma forward_returns (nn : t) (x : list Q) :
  conforms nn → length x = input_size nn →
  ∃ out nn', forward nn x = Some (out, nn') ∧ length out = output_size nn ∧
             weights nn' = weights nn ∧ biases nn' = biases nn ∧
             same_topology nn' nn.
Proof.
  intros Hc Hx. unfold forward.
  destruct (forward_layers_returns _ _ _ x [x] Hc) as (out & acts & -> & Hlast).
  { cbn. by rewrite Hx. }
  cbn. eexists _, _. split; [done|]. unfold layer_sizes in Hlast.
  rewrite app_comm_cons, last_snoc in Hlast. injection Hlast as <-.
  by repeat split.
Qed.

End ForwardReturns.

Section StepReturns.
Context `{!NumPy} (cfg : config.t).

Lemma process_returns (b : MLAgent.t) (inputs : list Q) :
  brain_wf b →
  ∃ outputs b', MLAgent.process b inputs = Some (outputs, b') ∧
                (4 ≤ length outputs)%nat ∧ brain_wf b'.
Proof.
  intros [Hc Hout]. unfold MLAgent.process.
  destruct (adjust_inputs_spec (NeuralNetwork.input_size (MLAgent.network b)) inputs)
    as [_ Hlen].
  destruct (forward_returns _ _ Hc Hlen)
    as (out & nn' & -> & Hol & Hw & Hb & (Hi & Hh & Ho)).
  cbn. eexists _, _. split; [done|]. split.
  - unfold MLAgent._activate_outputs. rewrite length_map. lia.
  - unfold brain_wf. cbn. split; [|lia].
    unfold NeuralNetwork.conforms, NeuralNetwork.layer_sizes in *.
    by rewrite Hi, Hh, Ho, Hw, Hb.
Qed.

Lemma np_index_in_range (n : nat) (i : Z) :
  (0 ≤ i < Z.of_nat n)%Z → np_index n i = Some (Z.to_nat i).
Proof.
  intros Hi. unfold np_index.
  destruct (Z.leb_spec 0 i); [|lia]. destruct (Z.ltb_spec i (Z.of_nat n)); [done|lia].
Qed.

Lemma grid_get_returns (g : list (list Q)) (gw gh gx gy : Z) :
  Z.of_nat (length g) = gw →
  Forall (λ row, Z.of_nat (length row) = gh) g →
  (0 ≤ gx < gw)%Z → (0 ≤ gy < gh)%Z →
  is_Some (PheromoneSystem.grid_get g gx gy).
Proof.
  intros Hlen Hrows Hx Hy. unfold PheromoneSystem.grid_get.
  rewrite np_index_in_range by lia. cbn.
  destruct (lookup_lt_is_Some_2 g (Z.to_nat gx)) as [row Hrow]; [lia|].
  rewrite Hrow. cbn.
  pose proof (proj1 (Forall_lookup _ _) Hrows _ _ Hrow) as Hr. cbn in Hr.
  rewrite np_index_in_range by lia. cbn.
  apply lookup_lt_is_Some. lia.
Qed.

Lemma get_intensity_returns (ps : PheromoneSystem.t) pos ty (radius : Z) :
  PheromoneSystem.wf ps → (0 < PheromoneSystem.resolution ps)%Z →
  (0 < PheromoneSystem.grid_width ps)%Z → (0 < PheromoneSystem.grid_height ps)%Z →
  is_Some (PheromoneSystem.get_intensity ps pos ty radius).
Proof.
  intros Hwf Hres Hgw Hgh. unfold PheromoneSystem.get_intensity.
  destruct (PheromoneSystem.grids ps !! ty) as [g|] eqn:Hg; [|done].
  destruct (Hwf _ _ Hg) as [Hlen Hrows].
  destruct (Z.eqb_spec (PheromoneSystem.resolution ps) 0); [lia|].
  destruct (Z.eqb_spec (PheromoneSystem.grid_width ps) 0); [lia|].
  destruct (Z.eqb_spec (PheromoneSystem.grid_height ps) 0); [lia|].
  cbn [orb].
  repeat match goal with
  | |- context [PheromoneSystem.grid_get g ?gx ?gy] =>
      let Hget := fresh "Hget" in
      destruct (grid_get_returns g _ _ gx gy Hlen Hrows) as [? Hget];
        [apply Z.mod_pos_bound; lia|apply Z.mod_pos_bound; lia|];
      rewrite Hget; cbn
  end.
  done.
Qed.

Lemma floor_div_nonneg (x : Q) (r : Z) : 0 <= x → (0 < r)%Z → (0 ≤ floor_div x r)%Z.
Proof.
  intros Hx Hr. unfold floor_div.
  change 0%Z with (Qfloor 0). apply Qfloor_resp_le.
  apply Qle_shift_div_l; [|lra].
  change 0 with (inject_Z 0). rewrite <-Zlt_Qlt. done.
Qed.

Lemma add_pheromone_returns (ps : PheromoneSystem.t) pos ty (amount : Q) :
  PheromoneSystem.wf ps → (0 < PheromoneSystem.resolution ps)%Z →
  (0 < PheromoneSystem.grid_width ps)%Z → (0 < PheromoneSystem.grid_height ps)%Z →
  0 <= Vector2D.x pos → 0 <= Vector2D.y pos →
  ∃ ps', PheromoneSystem.add_pheromone ps pos ty amount = Some ps' ∧
         PheromoneSystem.wf ps' ∧
         PheromoneSystem.resolution ps' = PheromoneSystem.resolution ps ∧
         PheromoneSystem.grid_width ps' = PheromoneSystem.grid_width ps ∧
         PheromoneSystem.grid_height ps' = PheromoneSystem.grid_height ps.
Proof.
  intros Hwf Hres Hgw Hgh Hx Hy. unfold PheromoneSystem.add_pheromone.
  destruct (PheromoneSystem.grids ps !! ty) as [g|] eqn:Hg; [|by exists ps].
  destruct (Hwf _ _ Hg) as [Hlen Hrows].
  destruct (Z.eqb_spec (PheromoneSystem.resolution ps) 0); [lia|].
  pose proof (floor_div_nonneg _ _ Hx Hres) as Hfx.
  pose proof (floor_div_nonneg _ _ Hy Hres) as Hfy.
  set (gx := Z.min _ (PheromoneSystem.grid_width ps - 1)).
  set (gy := Z.min _ (PheromoneSystem.grid_height ps - 1)).
  assert (0 ≤ gx < PheromoneSystem.grid_width ps)%Z as Hgx by (unfold gx; lia).
  assert (0 ≤ gy < PheromoneSystem.grid_height ps)%Z as Hgy by (unfold gy; lia).
  unfold PheromoneSystem.grid_add. rewrite np_index_in_range by lia. cbn.
  destruct (lookup_lt_is_Some_2 g (Z.to_nat gx)) as [row Hrow]; [lia|].
  rewrite Hrow. cbn.
  pose proof (proj1 (Forall_lookup _ _) Hrows _ _ Hrow) as Hr. cbn in Hr.
  rewrite np_index_in_range by lia. cbn.
  destruct (lookup_lt_is_Some_2 row (Z.to_nat gy)) as [v Hv]; [lia|].
  rewrite Hv. cbn. eexists. split; [done|]. split; [|done].
  intros ch g' Hch. cbn in Hch.
  apply lookup_insert_Some in Hch as [[_ <-]|[_ Hch]]; [|exact (Hwf _ _ Hch)].
  split.
  - by rewrite length_insert.
  - apply Forall_insert; [done|]. by rewrite length_insert.
Qed.

Lemma sense_food_step (a : Ant.t) (env : Environment.t) st (f : nat) :
  is_Some (Environment.food_heap env !! f) →
  is_Some (Ant.sense_food cfg a env st f).
Proof.
  intros [food Hf]. unfold Ant.sense_food. destruct st as [[nearest dist] dir].
  rewrite Hf. cbn. by destruct (_ && _).
Qed.

Lemma sense_food_returns (a : Ant.t) (env : Environment.t) (l : list nat) st :
  Forall (λ f, is_Some (Environment.food_heap env !! f)) l →
  is_Some (fold_option (Ant.sense_food cfg a env) st l).
Proof.
  revert st. induction l as [|f l IH]; intros st Hl; [done|].
  apply Forall_cons in Hl as [Hf Hl].
  destruct (sense_food_step a env st f Hf) as [st' Hst].
  cbn [fold_option]. rewrite Hst. cbn. by apply IH.
Qed.

Lemma sense_environment_returns (a : Ant.t) (c : Colony.t) :
  environment_wf (Colony.environment c) → config_wf cfg →
  ∃ inputs, Ant.sense_environment cfg a c = Some inputs ∧ length inputs = 15%nat.
Proof.
  intros (Hwf & Hres & Hgw & Hgh & Hheap) [_ Henergy].
  unfold Ant.sense_environment.
  destruct (sense_food_returns a (Colony.environment c)
              (Environment.food_sources (Colony.environment c))
              (None, None, {| Vector2D.x := 0; Vector2D.y := 0 |}) Hheap)
    as [[[nearest dist] dir] ->].
  cbn. unfold Environment.get_pheromone_intensity.
  destruct (get_intensity_returns (Environment.pheromone_system (Colony.environment c))
              (Ant.position a) "food" (config.ANT_VISION_RANGE cfg) Hwf Hres Hgw Hgh)
    as [fp ->].
  destruct (get_intensity_returns (Environment.pheromone_system (Colony.environment c))
              (Ant.position a) "home" (config.ANT_VISION_RANGE cfg) Hwf Hres Hgw Hgh)
    as [hp ->].
  cbn. destruct (Z.eqb_spec (config.INITIAL_ENERGY cfg) 0); [done|].
  eexists. split; [done|]. done.
Qed.

Lemma py_mod_nonneg (x : Q) (w : Z) :
  (0 < w)%Z → ∃ r, py_mod x w = Some r ∧ 0 <= r.
Proof.
  intros Hw. unfold py_mod. destruct (Z.eqb_spec w 0); [lia|].
  eexists. split; [done|].
  assert (0 < inject_Z w) as Hwq.
  { change 0 with (inject_Z 0). by rewrite <-Zlt_Qlt. }
  pose proof (Qfloor_le (x / inject_Z w)) as Hfloor.
  assert (inject_Z w * inject_Z (Qfloor (x / inject_Z w)) <= inject_Z w * (x / inject_Z w))
    as Hle by (apply Qmult_le_l; done).
  assert (inject_Z w * (x / inject_Z w) == x) as Heq by (field; lra).
  lra.
Qed.

Lemma apply_boundaries_nonneg (p : Vector2D.t) :
  config_wf cfg →
  ∃ p', Ant.apply_boundaries cfg p = Some p' ∧
        0 <= Vector2D.x p' ∧ 0 <= Vector2D.y p'.
Proof.
  intros [Hwrap _]. unfold Ant.apply_boundaries.
  destruct (config.WRAP_WORLD cfg).
  - destruct (Hwrap eq_refl) as [Hw Hh].
    destruct (py_mod_nonneg (Vector2D.x p) _ Hw) as (x & -> & Hx).
    destruct (py_mod_nonneg (Vector2D.y p) _ Hh) as (y & -> & Hy).
    cbn. by eexists.
  - eexists. split; [done|]. cbn.
    split; match goal with |- context [Qltb 0 ?m] =>
      destruct (Qltb 0 m) eqn:E; [apply Qltb_lt in E; lra|lra] end.
Qed.

Lemma find_food_returns (env : Environment.t) pos (l : list nat) :
  Forall (λ f, is_Some (Environment.food_heap env !! f)) l →
  is_Some (Ant.find_food cfg env pos l).
Proof.
  induction l as [|f l IH]; intros Hl; cbn; [done|].
  apply Forall_cons in Hl as [[food Hf] Hl]. rewrite Hf. cbn.
  destruct (Qltb _ _); [done|]. by apply IH.
Qed.

Lemma list_remove_first_subseteq (x : nat) (l : list nat) :
  Environment.list_remove_first x l ⊆ l.
Proof.
  induction l as [|y l IH]; cbn; [done|].
  destruct (decide (x = y)).
  - by apply list_subseteq_cons.
  - intros z [->|Hz]%elem_of_cons; [by left|]. right. by apply IH.
Qed.

Lemma remove_food_wf (env : Environment.t) item :
  environment_wf env → environment_wf (Environment.remove_food env item).
Proof.
  intros (Hwf & Hres & Hgw & Hgh & Hheap). unfold Environment.remove_food.
  destruct item as [f|]; [|done]. destruct (decide _); [|done].
  split; [done|]. split; [done|]. split; [done|]. split; [done|]. cbn.
  apply Forall_forall. intros f' Hf'. rewrite Forall_forall in Hheap.
  apply Hheap. by eapply list_remove_first_subseteq.
Qed.

Lemma handle_food_returns (a : Ant.t) (c : Colony.t) pos (pickup : bool) :
  environment_wf (Colony.environment c) →
  ∃ carrying item c', Ant.handle_food cfg a c pos pickup = Some (carrying, item, c') ∧
    environment_wf (Colony.environment c') ∧ Colony.ants c' = Colony.ants c.
Proof.
  intros Hwf. unfold Ant.handle_food.
  destruct (Ant.carrying_food a); cbn.
  - destruct (Qltb _ _).
    + eexists _, _, _. split; [done|]. cbn. split; [|done]. by apply remove_food_wf.
    + by eexists _, _, _.
  - destruct pickup; cbn; [|by eexists _, _, _].
    destruct Hwf as (? & ? & ? & ? & Hheap).
    destruct (find_food_returns (Colony.environment c) pos _ Hheap) as [found ->].
    cbn. destruct found; by eexists _, _, _.
Qed.

Lemma apply_action_returns (a : Ant.t) (c : Colony.t) (outputs : list Q) :
  environment_wf (Colony.environment c) → config_wf cfg →
  (4 ≤ length outputs)%nat →
  ∃ a' c', Ant.apply_action cfg a c outputs = Some (a', c') ∧
    environment_wf (Colony.environment c') ∧ Colony.ants c' = Colony.ants c ∧
    Ant.brain a' = Ant.brain a.
Proof.
  intros Hwf Hcfg Hout. unfold Ant.apply_action.
  destruct (lookup_lt_is_Some_2 outputs 0) as [o0 ->]; [lia|].
  destruct (lookup_lt_is_Some_2 outputs 1) as [o1 ->]; [lia|].
  destruct (lookup_lt_is_Some_2 outputs 2) as [o2 ->]; [lia|].
  destruct (lookup_lt_is_Some_2 outputs 3) as [o3 ->]; [lia|].
  cbn.
  destruct (apply_boundaries_nonneg
              (Vector2D.add (Ant.position a)
                 (Vector2D.mul
                    (Vector2D.mul
                       (Vector2D.rotate (Ant.direction a) ((o0 * 2 - 1) * np_pi / 4))
                       (Ant.speed a)) o1)) Hcfg)
    as (pos & -> & Hx & Hy).
  cbn.
  assert (∃ env, (if Qltb (1 # 2) o2
                  then Environment.add_pheromone (Colony.environment c) pos
                         (if Ant.carrying_food a then "home" else "food")
                         (inject_Z (config.PHEROMONE_DEPOSIT cfg))
                  else Some (Colony.environment c)) = Some env ∧
                 environment_wf env) as (env & -> & Henv).
  { destruct (Qltb (1 # 2) o2); [|by exists (Colony.environment c)].
    destruct Hwf as (Hps & Hres & Hgw & Hgh & Hheap).
    unfold Environment.add_pheromone.
    destruct (add_pheromone_returns (Environment.pheromone_system (Colony.environment c))
                pos (if Ant.carrying_food a then "home" else "food")
                (inject_Z (config.PHEROMONE_DEPOSIT cfg)) Hps Hres Hgw Hgh Hx Hy)
      as (ps' & -> & Hps' & Hr' & Hgw' & Hgh').
    cbn. eexists. split; [done|].
    split; [done|]. cbn. rewrite Hr', Hgw', Hgh'. done. }
  cbn.
  destruct (handle_food_returns a (Colony.set_environment c env) pos (Qltb (1 # 2) o3))
    as (carrying & item & c' & -> & Hwf' & Hants); [done|].
  cbn. eexists _, _. split; [done|]. split; [exact Hwf'|]. split; [exact Hants|]. done.
Qed.

Lemma update_memory_returns (a : Ant.t) (inputs outputs : list Q) :
  length inputs = 15%nat →
  ∃ a', Ant.update_memory cfg a inputs outputs = Some a' ∧
        Ant.brain a' = Ant.brain a.
Proof.
  intros Hlen. unfold Ant.update_memory.
  destruct (lookup_lt_is_Some_2 inputs 4) as [i4 ->]; [lia|].
  destruct (lookup_lt_is_Some_2 inputs 0) as [i0 ->]; [lia|].
  destruct (Ant.carrying_food a); cbn; by eexists.
Qed.

(** One ant's step. *)
Lemma Ant_update_returns (a : Ant.t) (c : Colony.t) :
  environment_wf (Colony.environment c) → config_wf cfg → brain_wf (Ant.brain a) →
  ∃ a' c', Ant.update cfg a c = Some (a', c') ∧
    environment_wf (Colony.environment c') ∧ Colony.ants c' = Colony.ants c ∧
    brain_wf (Ant.brain a').
Proof.
  intros Hwf Hcfg Hbrain. unfold Ant.update.
  destruct (negb (Ant.alive a)); [by exists a, c|].
  destruct (sense_environment_returns a c Hwf Hcfg) as (inputs & -> & Hin). cbn.
  unfold Ant.think.
  destruct (process_returns (Ant.brain a) inputs Hbrain)
    as (outputs & b' & -> & Hout & Hb'). cbn.
  destruct (apply_action_returns (Ant.set_brain a b') c outputs Hwf Hcfg Hout)
    as (a1 & c1 & -> & Hwf1 & Hants1 & Hbrain1). cbn.
  destruct (update_memory_returns a1 inputs outputs Hin) as (a2 & -> & Hbrain2). cbn.
  exists a2, c1. split; [done|]. split; [done|]. split; [done|].
  by rewrite Hbrain2, Hbrain1.
Qed.

End StepReturns.

Section ColonyStepReturns.
Context `{!NumPy, !Random} (cfg : config.t).

Lemma update_ant_returns (c : Colony.t) (i : nat) :
  colony_wf c → config_wf cfg → (i < length (Colony.ants c))%nat →
  ∃ c', Colony.update_ant cfg c i = Some c' ∧ colony_wf c' ∧
        length (Colony.ants c') = length (Colony.ants c).
Proof.
  intros [Henv Hbrains] Hcfg Hi. unfold Colony.update_ant.
  destruct (lookup_lt_is_Some_2 _ _ Hi) as [a Ha]. rewrite Ha. cbn.
  pose proof (proj1 (Forall_lookup _ _) Hbrains _ _ Ha) as Hbrain. cbn in Hbrain.
  destruct (Ant_update_returns cfg a c Henv Hcfg Hbrain)
    as (a' & c1 & -> & Henv1 & Hants1 & Hbrain1).
  cbn. eexists. split; [done|]. split.
  - split; [done|]. cbn. rewrite Hants1. by apply Forall_insert.
  - cbn. by rewrite length_insert, Hants1.
Qed.

Lemma update_ants_returns (c : Colony.t) (l : list nat) :
  colony_wf c → config_wf cfg →
  Forall (λ i, (i < length (Colony.ants c))%nat) l →
  ∃ c', fold_option (Colony.update_ant cfg) c l = Some c' ∧ colony_wf c' ∧
        length (Colony.ants c') = length (Colony.ants c).
Proof.
  intros Hwf Hcfg. revert c Hwf. induction l as [|i l IH]; intros c Hwf Hl.
  - by exists c.
  - apply Forall_cons in Hl as [Hi Hl].
    destruct (update_ant_returns c i Hwf Hcfg Hi) as (c1 & Hone & Hwf1 & Hlen1).
    destruct (IH c1 Hwf1) as (c' & Hrest & Hwf' & Hlen').
    { by rewrite Hlen1. }
    exists c'. cbn. rewrite Hone. cbn. split; [done|]. split; [done|]. congruence.
Qed.

Lemma active_ants_indices (c : Colony.t) :
  Forall (λ i, (i < length (Colony.ants c))%nat) (Colony.active_ants c).
Proof.
  unfold Colony.active_ants. apply Forall_forall.
  intros i [_ Hi%elem_of_seq]%list_elem_of_filter. lia.
Qed.

(** [Colony.update] returns on every well-formed colony, keeps it
    well-formed and within the maximum size. *)
Lemma Colony_update_returns (c : Colony.t) :
  config_wf cfg →
  NeuralNetwork.valid_sizes (15%nat :: config.NEURAL_NETWORK_LAYERS cfg ++ [4%nat]) →
  colony_wf c →
  returns (Colony.update cfg c)
    (λ c', colony_wf c' ∧
           ((length (Colony.ants c) ≤ config.MAX_COLONY_SIZE cfg)%nat →
            (length (Colony.ants c') ≤ config.MAX_COLONY_SIZE cfg)%nat)).
Proof.
  intros Hcfg Hvalid Hwf. unfold Colony.update.
  destruct (update_ants_returns c (Colony.active_ants c) Hwf Hcfg
              (active_ants_indices c)) as (c0 & Hfold & [Henv0 Hbrains0] & Hlen0).
  eapply returns_bind; [exact (returns_lift _ _ (λ x, x = c0) Hfold eq_refl)|].
  intros ? ->.
  set (c1 := Colony.process_dead_ants c0).
  assert (colony_wf c1) as [Henv1 Hbrains1].
  { split; [done|]. cbn. apply Forall_forall.
    intros a [_ Ha]%list_elem_of_filter. rewrite Forall_forall in Hbrains0. by apply Hbrains0. }
  pose proof (process_dead_ants_length c0) as Hdead. fold c1 in Hdead.
  unfold Colony.spawn_new_ants.
  destruct (_ && _) eqn:Hspawn.
  - apply andb_true_iff in Hspawn as [_ Hroom%Nat.ltb_lt].
    eapply returns_bind.
    { eapply returns_bind; [exact (Ant_init_returns cfg _ Hvalid)|].
      intros new_ant Hnew. apply returns_ret.
      instantiate (1 := λ c2, colony_wf c2 ∧
        (length (Colony.ants c2) ≤ config.MAX_COLONY_SIZE cfg)%nat).
      cbn. split.
      - split; [done|]. cbn. apply Forall_app. split; [done|].
        constructor; [|done]. destruct Hnew as (_ & _ & _ & _ & _ & _ & Hout & Hconf).
        split; [done|]. rewrite Hout. lia.
      - rewrite length_app. subst c1. cbn in *. lia. }
    intros c2 [[Henv2 Hbrains2] Hlen2]. apply returns_ret. by split.
  - eapply returns_bind; [by apply (returns_ret _ (λ x, x = c1))|].
    intros ? ->. apply returns_ret. split; [by split|]. cbn in *. lia.
Qed.

End ColonyStepReturns.

(** The stand-in generator draws valid samples, and the default
    configuration and the default colony are well-formed. *)
Lemma random_stub_choice_is_valid : @choice_is_valid random_stub.
Proof.
  intros n k g Hk. cbn. split; [apply length_seq|]. split; [apply NoDup_seq|].
  apply Forall_forall. intros i Hi%elem_of_seq. lia.
Qed.

Lemma config_default_wf : config_wf config.default.
Proof. split; [intros _; cbn; lia|done]. Qed.

(** ** Picking up food, by distance *)

Section PickupFacts.
Context `{!NumPy} (cfg : config.t).

(** What the pickup loop returns: the first food source of the list within
    pickup distance, and none when no source of the list is within it. *)
Lemma find_food_inv (env : Environment.t) pos l r :
  Ant.find_food cfg env pos l = Some r →
  match r with
  | Some f => ∃ before after, l = before ++ f :: after ∧
                in_reach cfg env pos f ∧
                Forall (λ f0, ¬ in_reach cfg env pos f0) before
  | None => Forall (λ f0, ¬ in_reach cfg env pos f0) l
  end.
Proof.
  revert r. induction l as [|f0 l IH]; intros r; cbn.
  - intros [= <-]. constructor.
  - destruct (Environment.food_heap env !! f0) as [food0|] eqn:Hf0; cbn; [|done].
    destruct (Qltb _ _) eqn:Hq.
    + intros [= <-]. exists [], l. split; [done|]. split; [|constructor].
      exists food0. split; [done|]. by apply Qltb_lt.
    + intros Hrest. apply Qltb_ge in Hq.
      assert (¬ in_reach cfg env pos f0) as Hnot.
      { intros (food' & Hf' & Hd). rewrite Hf0 in Hf'. injection Hf' as <-. lra. }
      specialize (IH _ Hrest). destruct r as [f|].
      * destruct IH as (before & after & -> & Hin & Hbefore).
        exists (f0 :: before), after. split; [done|]. split; [done|].
        by constructor.
      * by constructor.
Qed.

(** A list has one first source within pickup distance at most. *)
Lemma first_in_reach_unique (env : Environment.t) pos f1 f2 :
  first_in_reach cfg env pos f1 → first_in_reach cfg env pos f2 → f1 = f2.
Proof.
  intros (b1 & a1 & Hl1 & Hin1 & Hb1) (b2 & a2 & Hl2 & Hin2 & Hb2).
  rewrite Hl1 in Hl2. clear Hl1. revert b2 Hl2 Hb2.
  induction Hb1 as [|x b1 Hx _ IH]; intros b2 Hl2 Hb2.
  - destruct Hb2 as [|y b2 Hy _]; cbn in Hl2; injection Hl2 as -> _; done.
  - destruct Hb2 as [|y b2 Hy Hb2]; cbn in Hl2; injection Hl2 as -> Hl2; [done|].
    by apply (IH b2).
Qed.

(** What an ant that carries nothing holds after [handle_food]. *)
Lemma handle_food_empty_handed (a : Ant.t) (c : Colony.t) pos (pickup : bool)
    carrying item c' :
  Ant.handle_food cfg a c pos pickup = Some (carrying, item, c') →
  Ant.carrying_food a = false →
  let env := Colony.environment c in
  c' = c ∧
  (pickup = true →
     ∃ r, Ant.find_food cfg env pos (Environment.food_sources env) = Some r ∧
          match r with
          | Some f => carrying = true ∧ item = Some f
          | None => carrying = false ∧ item = Ant.food_item a
          end) ∧
  (pickup = false → carrying = false ∧ item = Ant.food_item a).
Proof.
  intros Hrun Hcarry env. subst env. unfold Ant.handle_food in Hrun.
  rewrite Hcarry in Hrun. cbn in Hrun. destruct pickup; cbn in Hrun.
  - destruct (Ant.find_food _ _ _ _) as [[f|]|]; cbn in Hrun; [| |done].
    + injection Hrun as <- <- <-. split; [done|]. split; [|done].
      intros _. by exists (Some f).
    + injection Hrun as <- <- <-. split; [done|]. split; [|done].
      intros _. by exists None.
  - injection Hrun as <- <- <-. split; [done|]. split; [done|]. done.
Qed.

(** The steps of [apply_action], for a run that returned. *)
Lemma apply_action_food (a a' : Ant.t) (c c' : Colony.t) (outputs : list Q) :
  Ant.apply_action cfg a c outputs = Some (a', c') →
  ∃ o3 env1 carrying item,
    outputs !! 3%nat = Some o3 ∧
    Environment.food_heap env1 = Environment.food_heap (Colony.environment c) ∧
    Environment.food_sources env1
      = Environment.food_sources (Colony.environment c) ∧
    Ant.handle_food cfg a (Colony.set_environment c env1) (Ant.position a')
      (Qltb (1 # 2) o3) = Some (carrying, item, c') ∧
    Ant.carrying_food a' = carrying ∧ Ant.food_item a' = item.
Proof.
  intros Hrun. unfold Ant.apply_action in Hrun.
  destruct (outputs !! 0%nat) as [o0|]; cbn in Hrun; [|done].
  destruct (outputs !! 1%nat) as [o1|]; cbn in Hrun; [|done].
  destruct (outputs !! 2%nat) as [o2|]; cbn in Hrun; [|done].
  destruct (outputs !! 3%nat) as [o3|]; cbn in Hrun; [|done].
  destruct (Ant.apply_boundaries cfg _) as [pos|]; cbn in Hrun; [|done].
  set (dropped := if Qltb (1 # 2) o2 then _ else _) in Hrun.
  destruct dropped as [env1|] eqn:Hdrop; cbn in Hrun; [|done].
  assert (Environment.food_heap env1 = Environment.food_heap (Colony.environment c) ∧
          Environment.food_sources env1
            = Environment.food_sources (Colony.environment c))
    as [Hheap1 Hsrc1].
  { subst dropped. destruct (Qltb (1 # 2) o2).
    - by apply add_pheromone_food in Hdrop.
    - by injection Hdrop as <-. }
  destruct (Ant.handle_food cfg a _ pos _) as [[[carrying item] c2]|] eqn:Hfood;
    cbn in Hrun; [|done].
  injection Hrun as <- <-. cbn [Ant.position Ant.carrying_food Ant.food_item].
  by exists o3, env1, carrying, item.
Qed.

(** The step of [apply_action] that matters for food, for an ant that
    carries nothing: the environment keeps its food, and the ant picks up
    exactly when it is asked to and a source is within pickup distance of
    its new position, and then the first such source. *)
Lemma apply_action_pickup (a a' : Ant.t) (c c' : Colony.t) (outputs : list Q) :
  Ant.apply_action cfg a c outputs = Some (a', c') →
  Ant.carrying_food a = false →
  let env := Colony.environment c in
  let env' := Colony.environment c' in
  let pos := Ant.position a' in
  Environment.food_heap env' = Environment.food_heap env ∧
  Environment.food_sources env' = Environment.food_sources env ∧
  Colony.food_collected c' = Colony.food_collected c ∧
  ∀ o3, outputs !! 3%nat = Some o3 →
    (1 # 2 < o3 →
       (∀ f, f ∈ Environment.food_sources env → in_reach cfg env pos f →
             Ant.carrying_food a' = true ∧
             ∃ f', Ant.food_item a' = Some f' ∧ first_in_reach cfg env pos f') ∧
       ((∀ f, f ∈ Environment.food_sources env → ¬ in_reach cfg env pos f) →
        Ant.carrying_food a' = false ∧ Ant.food_item a' = Ant.food_item a)) ∧
    (o3 <= 1 # 2 →
       Ant.carrying_food a' = false ∧ Ant.food_item a' = Ant.food_item a).
Proof.
  intros Hrun Hcarry.
  apply apply_action_food in Hrun
    as (o3 & env1 & carrying & item & Ho3 & Hheap1 & Hsrc1 & Hfood & <- & <-).
  apply handle_food_empty_handed in Hfood; [|done]. cbn in Hfood.
  destruct Hfood as (-> & Hpick & Hnot). cbn.
  split; [done|]. split; [done|]. split; [done|].
  assert (∀ pos f, in_reach cfg env1 pos f
                   ↔ in_reach cfg (Colony.environment c) pos f) as Hreach.
  { intros pos f. unfold in_reach. by rewrite Hheap1. }
  intros o3' Ho3'. rewrite Ho3 in Ho3'. injection Ho3' as <-. split.
  - intros Ho%Qltb_lt. destruct (Hpick Ho) as (r & Hfind & Hr).
    apply find_food_inv in Hfind. rewrite Hsrc1 in Hfind. split.
    + intros f Hf Hin. destruct r as [f'|].
      * destruct Hr as [-> ->]. split; [done|]. exists f'. split; [done|].
        destruct Hfind as (before & after & Hl & Hin' & Hbefore).
        exists before, after. split; [done|]. split; [by apply Hreach|].
        eapply Forall_impl; [exact Hbefore|]. intros f0 Hf0 ?. by apply Hf0, Hreach.
      * destruct (proj1 (Forall_forall _ _) Hfind f Hf). by apply Hreach.
    + intros Hall. destruct r as [f'|]; [|done].
      destruct Hfind as (before & after & Hl & Hin' & _).
      destruct (Hall f'); [|by apply Hreach].
      rewrite Hl. apply elem_of_app. right. by left.
  - intros Ho%Qltb_ge. by apply Hnot.
Qed.

End PickupFacts.

(** C10: in one [apply_action] the heap of food objects, their energy
    included, never changes.  For an ant that carries nothing at the start
    of the step, the list of food sources and the food store of the colony
    do not change either.  With a pickup output above 0.5 and a source of
    the list within pickup distance of its new position, a distance below
    [ANT_SIZE + FOOD_SIZE], the ant ends up carrying the first such source
    of the list; with no source within that distance, or a pickup output of
    at most 0.5, it does not pick up.  The source it holds is still the
    first within reach of that position in the environment after the step:
    another ant that carries nothing, is asked to pick up and ends its move
    where that source is the first within reach holds the same source after
    its own step, which leaves the list as it is again.  The list of food
    sources changes only in a step of an ant that carried food at its start
    and is within the nest radius after its move: that ant delivers, and
    its item is removed.  On a well-formed environment and configuration,
    [apply_action] raises nothing when it is given four outputs. *)
Theorem Ant_pickup_leaves_food_in_environment `{!NumPy} (cfg : config.t)
    (a : Ant.t) (c : Colony.t) (action_outputs : list Q) :
  (∀ a' c', Ant.apply_action cfg a c action_outputs = Some (a', c') →
    let env := Colony.environment c in
    let env' := Colony.environment c' in
    let pos := Ant.position a' in
    Environment.food_heap env' = Environment.food_heap env ∧
    Colony.ants c' = Colony.ants c ∧
    (Ant.carrying_food a = false →
       Environment.food_sources env' = Environment.food_sources env ∧
       Colony.food_collected c' = Colony.food_collected c ∧
       (∀ o3, action_outputs !! 3%nat = Some o3 → 1 # 2 < o3 →
          (∀ f, f ∈ Environment.food_sources env → in_reach cfg env pos f →
             Ant.carrying_food a' = true ∧
             ∃ f', Ant.food_item a' = Some f' ∧ first_in_reach cfg env' pos f') ∧
          ((∀ f, f ∈ Environment.food_sources env → ¬ in_reach cfg env pos f) →
             Ant.carrying_food a' = false ∧ Ant.food_item a' = Ant.food_item a)) ∧
       (∀ o3, action_outputs !! 3%nat = Some o3 → o3 <= 1 # 2 →
          Ant.carrying_food a' = false ∧ Ant.food_item a' = Ant.food_item a) ∧
       (∀ (b b' : Ant.t) (c'' : Colony.t) (outputs : list Q) o3,
          Ant.carrying_food b = false →
          outputs !! 3%nat = Some o3 → 1 # 2 < o3 →
          Ant.apply_action cfg b c' outputs = Some (b', c'') →
          Environment.food_sources (Colony.environment c'')
            = Environment.food_sources env' ∧
          ∀ f, first_in_reach cfg env' (Ant.position b') f →
               Ant.carrying_food b' = true ∧ Ant.food_item b' = Some f)) ∧
    (Environment.food_sources env' ≠ Environment.food_sources env →
       Ant.carrying_food a = true ∧ Ant.carrying_food a' = false ∧
       Ant.food_item a' = None ∧
       Vector2D.magnitude
         (Vector2D.sub (Ant.position a') (Nest.position (Colony.nest c)))
         < inject_Z (config.NEST_RADIUS cfg) ∧
       Environment.food_sources env' =
         Environment.food_sources (Environment.remove_food env (Ant.food_item a)))) ∧
  (environment_wf (Colony.environment c) → config_wf cfg →
   (4 ≤ length action_outputs)%nat →
   is_Some (Ant.apply_action cfg a c action_outputs)).
Proof.
  split.
  2:{ intros Hwf Hcfg Hlen.
      destruct (apply_action_returns cfg a c action_outputs Hwf Hcfg Hlen)
        as (a' & c' & Hrun & _). by eexists. }
  intros a' c' Hrun. cbv zeta.
  destruct (apply_action_food cfg _ _ _ _ _ Hrun)
    as (o3 & env1 & carrying & item & Ho3 & Hheap1 & Hsrc1 & Hfood & <- & <-).
  pose proof (handle_food_spec cfg _ _ _ _ _ _ _ Hfood) as Hspec. cbn in Hspec.
  destruct Hspec as (Hants & Hheap & _ & Hchanged).
  assert (Environment.food_heap (Colony.environment c')
          = Environment.food_heap (Colony.environment c)) as Hheap'
    by congruence.
  split; [exact Hheap'|]. split; [exact Hants|]. split.
  - intros Hcarry.
    destruct (apply_action_pickup cfg _ _ _ _ _ Hrun Hcarry)
      as (_ & Hsrc & Hstore & Hpick).
    split; [exact Hsrc|]. split; [exact Hstore|].
    assert (∀ pos f, first_in_reach cfg (Colony.environment c) pos f →
                     first_in_reach cfg (Colony.environment c') pos f) as Hfirst.
    { intros pos f (before & after & Hl & Hin & Hbefore).
      exists before, after. rewrite Hsrc. split; [done|].
      unfold in_reach in *. rewrite Hheap'. done. }
    split; [|split].
    + intros o3' Ho3' Hask. destruct (Hpick o3' Ho3') as [Hyes _].
      destruct (Hyes Hask) as [Hfound Hnone]. split; [|exact Hnone].
      intros f Hf Hin. destruct (Hfound f Hf Hin) as (Hc & f' & Hi & Hf').
      split; [exact Hc|]. exists f'. split; [exact Hi|]. by apply Hfirst.
    + intros o3' Ho3' Hno. destruct (Hpick o3' Ho3') as [_ Hnot]. by apply Hnot.
    + intros b b' c'' outputs o3' Hb Ho3' Hask Hrunb.
      destruct (apply_action_pickup cfg _ _ _ _ _ Hrunb Hb)
        as (_ & Hsrcb & _ & Hpickb).
      split; [exact Hsrcb|]. intros f Hf.
      destruct (Hpickb o3' Ho3') as [Hyes _]. destruct (Hyes Hask) as [Hfound _].
      destruct Hf as (before & after & Hl & Hin & Hbefore).
      destruct (Hfound f) as (Hc & f' & Hi & Hf'); [|done|].
      { rewrite Hl. apply elem_of_app. right. by left. }
      split; [exact Hc|]. rewrite Hi. f_equal.
      apply (first_in_reach_unique cfg (Colony.environment c') (Ant.position b'));
        [done|]. by exists before, after.
  - intros Hne. cbn in Hchanged. rewrite <-Hsrc1 in Hne.
    destruct (Hchanged Hne) as (? & -> & -> & ? & ->).
    split; [done|]. split; [done|]. split; [done|]. split; [done|].
    unfold Environment.remove_food. destruct (Ant.food_item a) as [f|]; [|done].
    rewrite Hsrc1.
    by destruct (decide (f ∈ Environment.food_sources (Colony.environment c))).
Qed.

Lemma pickup_colony_wf : environment_wf (Colony.environment pickup_colony).
Proof.
  split; [exact deposit_state_wf|]. cbn.
  split; [lia|]. split; [lia|]. split; [lia|].
  constructor; [|constructor]. by eexists.
Qed.

Lemma Ant_pickup_leaves_food_in_environment_witness :
  ∃ a' c',
    @Ant.apply_action numpy_stub config.default example_ant pickup_colony
      pickup_outputs = Some (a', c') ∧
    Ant.carrying_food a' = true ∧
    Environment.food_sources (Colony.environment c') = [0%nat].
Proof.
  destruct (@Ant_pickup_leaves_food_in_environment numpy_stub config.default
              example_ant pickup_colony pickup_outputs) as [Hframe Hreturns].
  destruct (Hreturns pickup_colony_wf config_default_wf) as [[a' c'] Hrun];
    [cbn; lia|].
  exists a', c'. split; [exact Hrun|].
  destruct (Hframe a' c' Hrun) as (_ & _ & Hpick & _).
  destruct (Hpick eq_refl) as (Hsrc & _ & Hask & _).
  split; [|exact Hsrc].
  assert (Ant.position a' = {| Vector2D.x := 0; Vector2D.y := 0 |}) as Hpos.
  { vm_compute in Hrun. by injection Hrun as <- _. }
  destruct (Hask 1 eq_refl) as [Hyes _]; [reflexivity|].
  destruct (Hyes 0%nat) as [Hcarry _]; [by left| |exact Hcarry].
  exists example_food. split; [reflexivity|]. rewrite Hpos. reflexivity.
Defined.

(** ** Vectors *)

(** Dividing by the scalar a vector was multiplied by gives the vector
    back, component by component; [__truediv__] by zero does not raise but
    returns the zero vector. *)
Lemma Vector2D_truediv_mul (v : Vector2D.t) (s : Q) :
  let r := Vector2D.truediv (Vector2D.mul v s) s in
  (s == 0 → r = {| Vector2D.x := 0; Vector2D.y := 0 |}) ∧
  (¬ s == 0 → Vector2D.x r == Vector2D.x v ∧ Vector2D.y r == Vector2D.y v).
Proof.
  unfold Vector2D.truediv, Vector2D.mul, Qeqb. cbn. split.
  - intros Hs%Qeq_bool_iff. by rewrite Hs.
  - intros Hs. destruct (Qeq_bool s 0) eqn:Hb.
    + by apply Qeq_bool_iff in Hb.
    + cbn. split; field; exact Hs.
Qed.

(** [perp] turns a vector by a quarter turn: the result is orthogonal
    to the vector, has its squared magnitude, and two quarter turns negate
    the vector. *)
Lemma Vector2D_perp_quarter_turn (v : Vector2D.t) :
  Vector2D.dot v (Vector2D.perp v) == 0 ∧
  Vector2D.magnitude_squared (Vector2D.perp v) == Vector2D.magnitude_squared v ∧
  Vector2D.perp (Vector2D.perp v) =
    {| Vector2D.x := - Vector2D.x v; Vector2D.y := - Vector2D.y v |}.
Proof.
  unfold Vector2D.dot, Vector2D.magnitude_squared, Vector2D.perp. cbn.
  split; [ring|]. split; [ring|done].
Qed.

(** For an angle at which numpy's cosine and sine lie on the unit
    circle, [rotate] keeps dot products, hence squared magnitudes. *)
Lemma Vector2D_rotate_isometry `{!NumPy} (a b : Vector2D.t) (angle : Q) :
  np_cos angle * np_cos angle + np_sin angle * np_sin angle == 1 →
  Vector2D.dot (Vector2D.rotate a angle) (Vector2D.rotate b angle)
    == Vector2D.dot a b ∧
  Vector2D.magnitude_squared (Vector2D.rotate a angle)
    == Vector2D.magnitude_squared a.
Proof.
  intros Hunit.
  assert (Hdot : ∀ u w : Vector2D.t,
    Vector2D.dot (Vector2D.rotate u angle) (Vector2D.rotate w angle)
      == Vector2D.dot u w).
  { intros u w. unfold Vector2D.dot, Vector2D.rotate. cbn.
    transitivity
      ((Vector2D.x u * Vector2D.x w + Vector2D.y u * Vector2D.y w) *
       (np_cos angle * np_cos angle + np_sin angle * np_sin angle)); [ring|].
    rewrite Hunit. ring. }
  split; [apply Hdot|]. exact (Hdot a a).
Qed.

Lemma Vector2D_rotate_isometry_witness :
  Vector2D.magnitude_squared
    (@Vector2D.rotate numpy_stub {| Vector2D.x := 3; Vector2D.y := 4 |} (1 # 2))
    == 25.
Proof.
  destruct (@Vector2D_rotate_isometry numpy_stub
              {| Vector2D.x := 3; Vector2D.y := 4 |}
              {| Vector2D.x := 3; Vector2D.y := 4 |} (1 # 2)) as [_ Hmag].
  - reflexivity.
  - rewrite Hmag. reflexivity.
Defined.

(** ** The nest over many deliveries *)

Lemma nest_upgraded_add_food (r : Z) (u : nat) (total amount : Z) (n : Nest.t) :
  nest_upgraded r u total n →
  ∃ u', (u ≤ u' ≤ S u)%nat ∧
        nest_upgraded r u' (total + amount) (Nest.add_food n amount).
Proof.
  intros (Hlevel & Hradius & Hfood & Hchambers).
  unfold Nest.add_food, Nest._check_upgrades. cbn.
  destruct (_ <=? _)%Z eqn:Hup.
  - exists (S u). split; [lia|]. unfold nest_upgraded. cbn.
    rewrite Hlevel, Hradius, Hchambers.
    split; [lia|]. split; [lia|]. split; [lia|].
    rewrite !fmap_insert, fmap_empty. unfold Nest.upgrade_chamber. cbn.
    assert (Hfact : ∀ c : Z,
      ((1 + Z.of_nat u + 1) * (c * Z.of_nat (fact (S u))) =
       c * Z.of_nat (fact (S (S u))))%Z).
    { intros c. change (fact (S (S u))) with (S (S u) * fact (S u))%nat. lia. }
    rewrite !Hfact.
    by replace (1 + Z.of_nat u + 1)%Z with (1 + Z.of_nat (S u))%Z by lia.
  - exists u. split; [lia|]. unfold nest_upgraded. cbn.
    split; [done|]. split; [done|]. split; [lia|done].
Qed.

(** X1: a nest that has received any sequence of deliveries since it was
    built has been upgraded some number [u] of times, at most once per
    delivery; its level is [1 + u], its radius has grown by [5 * u], the
    store holds the total delivered minus the [100 * (1 + ... + u)] the
    upgrades consumed, and every chamber has size [1 + u] and its first
    capacity times [(u + 1)!]. *)
Theorem Nest_add_food_history (x y : Q) (radius : Z) (amounts : list Z) :
  ∃ u : nat,
    (u ≤ length amounts)%nat ∧
    nest_upgraded radius u (foldr Z.add 0%Z amounts)
      (foldl Nest.add_food (Nest.init x y radius) amounts).
Proof.
  assert (Hgen : ∀ l n u total,
    nest_upgraded radius u total n →
    ∃ u', (u' ≤ u + length l)%nat ∧
          nest_upgraded radius u' (total + foldr Z.add 0%Z l)
            (foldl Nest.add_food n l)).
  { induction l as [|a l IH]; intros n u total Hn; cbn.
    - exists u. split; [lia|]. by rewrite Z.add_0_r.
    - destruct (nest_upgraded_add_food _ _ _ a _ Hn) as (u1 & Hu1 & Hn1).
      destruct (IH _ _ _ Hn1) as (u2 & Hu2 & Hn2).
      exists u2. split; [lia|]. by rewrite Z.add_assoc. }
  destruct (Hgen amounts (Nest.init x y radius) 0%nat 0%Z) as (u & Hu & Hn).
  - unfold nest_upgraded. cbn. split; [done|]. split; [lia|]. done.
  - exists u. split; [lia|]. by rewrite Z.add_0_l in Hn.
Qed.

(** ** The environment *)

Lemma list_remove_first_split (x : nat) (l : list nat) :
  x ∈ l →
  ∃ before after, l = before ++ x :: after ∧ (x ∉ before) ∧
                  Environment.list_remove_first x l = before ++ after.
Proof.
  induction l as [|y l IH]; [by intros ?%elem_of_nil|].
  intros Hin. cbn. destruct (decide (x = y)) as [->|Hne].
  - exists [], l. split; [done|]. split; [apply not_elem_of_nil|done].
  - apply elem_of_cons in Hin as [?|Hin]; [done|].
    destruct (IH Hin) as (before & after & -> & Hnot & ->).
    exists (y :: before), after. split; [done|]. split; [|done].
    by intros [?|?]%elem_of_cons.
Qed.

(** X2: [remove_food] takes the first reference to the food object out of
    [food_sources] and nothing else: the references before and after it, the
    food objects themselves and the pheromone grids stay.  When the sources
    hold no duplicate the object is gone afterwards.  A [None] item and an
    object that is not listed leave the environment as it is. *)
Theorem Environment_remove_food_first_occurrence (env : Environment.t)
    (food : option nat) :
  let env' := Environment.remove_food env food in
  Environment.food_heap env' = Environment.food_heap env ∧
  Environment.pheromone_system env' = Environment.pheromone_system env ∧
  (∀ f, food = Some f → f ∈ Environment.food_sources env →
     (∃ before after,
        Environment.food_sources env = before ++ f :: after ∧ (f ∉ before) ∧
        Environment.food_sources env' = before ++ after) ∧
     (NoDup (Environment.food_sources env) → f ∉ Environment.food_sources env')) ∧
  (food = None ∨ (∃ f, food = Some f ∧ f ∉ Environment.food_sources env) →
     env' = env).
Proof.
  unfold Environment.remove_food. split; [|split; [|split]].
  - destruct food as [f|]; [|done]. by destruct (decide _).
  - destruct food as [f|]; [|done]. by destruct (decide _).
  - intros f -> Hin. destruct (decide _) as [_|?]; [|done]. cbn.
    destruct (list_remove_first_split f _ Hin) as (before & after & Hl & Hnot & Hr).
    split; [by exists before, after|].
    rewrite Hr, Hl. intros Hnodup [?|Hafter]%elem_of_app; [done|].
    apply NoDup_app in Hnodup as (_ & _ & Hnodup).
    by apply NoDup_cons in Hnodup as [? _].
  - intros [->|(f & -> & Hnot)]; [done|]. by destruct (decide _).
Qed.

Lemma wrap_coordinate (w x : Q) :
  Qabs x <= w →
  let x' := if Qltb (w / 2) (Qabs x)
            then (if Qltb 0 x then x - w else x + w) else x in
  Qabs x' <= w / 2 ∧ (x' = x ∨ x' = x - w ∨ x' = x + w).
Proof.
  intros [Hlo Hhi]%Qabs_Qle_condition. cbn.
  assert (Hhalf : w / 2 + w / 2 == w) by field.
  destruct (Qltb (w / 2) (Qabs x)) eqn:Hfar.
  - apply Qltb_lt in Hfar. destruct (Qltb 0 x) eqn:Hpos.
    + apply Qltb_lt in Hpos. rewrite (Qabs_pos x) in Hfar by lra.
      split; [|by right; left]. apply Qabs_Qle_condition. split; lra.
    + apply Qltb_ge in Hpos. rewrite (Qabs_neg x) in Hfar by lra.
      split; [|by right; right]. apply Qabs_Qle_condition. split; lra.
  - apply Qltb_ge in Hfar. split; [done|by left].
Qed.

(** X3: [wrap_vector] maps a displacement between two points of the world,
    whose components are at most the width and the height, to the shortest
    displacement on the torus: every component ends up within half the
    world size, and it is the given component or that component moved by
    one world size. *)
Theorem Environment_wrap_vector_shortest (env : Environment.t) (v : Vector2D.t) :
  Qabs (Vector2D.x v) <= inject_Z (Environment.width env) →
  Qabs (Vector2D.y v) <= inject_Z (Environment.height env) →
  let w := inject_Z (Environment.width env) in
  let h := inject_Z (Environment.height env) in
  let v' := Environment.wrap_vector env v in
  Qabs (Vector2D.x v') <= w / 2 ∧ Qabs (Vector2D.y v') <= h / 2 ∧
  (Vector2D.x v' = Vector2D.x v ∨ Vector2D.x v' = Vector2D.x v - w ∨
   Vector2D.x v' = Vector2D.x v + w) ∧
  (Vector2D.y v' = Vector2D.y v ∨ Vector2D.y v' = Vector2D.y v - h ∨
   Vector2D.y v' = Vector2D.y v + h).
Proof.
  intros Hx Hy. cbn.
  destruct (wrap_coordinate _ _ Hx) as [Hx1 Hx2].
  destruct (wrap_coordinate _ _ Hy) as [Hy1 Hy2].
  done.
Qed.

Lemma Environment_wrap_vector_shortest_witness :
  Vector2D.x (Environment.wrap_vector
                (Colony.environment single_ant_colony)
                {| Vector2D.x := 15; Vector2D.y := -3 |}) = 15 - 20.
Proof.
  destruct (Environment_wrap_vector_shortest
              (Colony.environment single_ant_colony)
              {| Vector2D.x := 15; Vector2D.y := -3 |}) as (_ & _ & _ & _).
  - vm_compute. discriminate.
  - vm_compute. discriminate.
  - reflexivity.
Defined.

(** What [Environment.__init__] builds: a well-formed environment around a
    pheromone system of resolution 10 whose grids hold zeros. *)
Lemma Environment_init_zeros (width height : Z) :
  (0 ≤ width)%Z → (0 ≤ height)%Z →
  ∃ ps,
    let env := {| Environment.width := width; Environment.height := height;
                  Environment.food_heap := ∅; Environment.food_sources := [];
                  Environment.pheromone_system := ps;
                  Environment.elapsed_steps := 0 |} in
    Environment.init width height = Some env ∧ environment_wf env ∧
    PheromoneSystem.resolution ps = 10%Z ∧
    ∀ ch g, PheromoneSystem.grids ps !! ch = Some g →
      g = replicate (Z.to_nat (width / 10 + 1))
            (replicate (Z.to_nat (height / 10 + 1)) 0).
Proof.
  intros Hw Hh. unfold Environment.init, PheromoneSystem.init. cbn [Z.eqb].
  assert (0 ≤ width / 10)%Z as Hgw by (apply Z.div_pos; lia).
  assert (0 ≤ height / 10)%Z as Hgh by (apply Z.div_pos; lia).
  unfold PheromoneSystem.np_zeros.
  destruct (_ || _)%Z eqn:Hneg;
    [apply orb_true_iff in Hneg as [?%Z.ltb_lt|?%Z.ltb_lt]; lia|].
  cbn. eexists. split; [done|]. cbn.
  set (zeros := replicate (Z.to_nat (width / 10 + 1))
                  (replicate (Z.to_nat (height / 10 + 1)) 0)).
  assert (Hgrids : ∀ ch g,
    (<["food" := zeros]> (<["home" := zeros]> ∅) : gmap string _) !! ch = Some g →
    g = zeros).
  { intros ch g Hch.
    apply lookup_insert_Some in Hch as [[_ <-]|[_ Hch]]; [done|].
    apply lookup_insert_Some in Hch as [[_ <-]|[_ Hch]]; [done|].
    by rewrite lookup_empty in Hch. }
  split; [|by split].
  split; [|split; [|split; [|split]]]; [|done|cbn; lia|cbn; lia|done].
  intros ch g ->%Hgrids. unfold zeros. rewrite length_replicate.
  cbn [PheromoneSystem.grid_width PheromoneSystem.grid_height
       Environment.pheromone_system].
  split; [lia|]. apply Forall_replicate. rewrite length_replicate. lia.
Qed.

(** X4: for a world of non-negative width and height [Environment.__init__]
    raises nothing; the new environment is well-formed, holds no food and
    its pheromone grids, of resolution 10, are zero everywhere. *)
Theorem Environment_init_wf (width height : Z) :
  (0 ≤ width)%Z → (0 ≤ height)%Z →
  ∃ env, Environment.init width height = Some env ∧
    environment_wf env ∧
    Environment.width env = width ∧ Environment.height env = height ∧
    Environment.food_sources env = [] ∧ Environment.food_heap env = ∅ ∧
    Environment.elapsed_steps env = 0%Z ∧
    PheromoneSystem.resolution (Environment.pheromone_system env) = 10%Z ∧
    ∀ ch g i j,
      PheromoneSystem.grids (Environment.pheromone_system env) !! ch = Some g →
      PheromoneSystem.cell g i j = 0.
Proof.
  intros Hw Hh.
  destruct (Environment_init_zeros width height Hw Hh)
    as (ps & Hinit & Hwf & Hres & Hgrids).
  eexists. split; [exact Hinit|]. split; [exact Hwf|]. cbn.
  do 5 (split; [done|]). split; [exact Hres|].
  intros ch g i j ->%Hgrids. unfold PheromoneSystem.cell.
  destruct (replicate _ _ !! i) as [row|] eqn:Hrow; [|done].
  apply lookup_replicate in Hrow as [-> _]. cbn.
  destruct (replicate _ _ !! j) as [v|] eqn:Hv; [|done].
  by apply lookup_replicate in Hv as [-> _].
Qed.

Lemma Environment_init_wf_witness :
  ∃ env, Environment.init 1200 800 = Some env ∧ environment_wf env.
Proof.
  destruct (Environment_init_wf 1200 800) as (env & Henv & Hwf & _); [lia..|].
  by exists env.
Defined.

(** ** Pheromone deposits, readings and evaporation *)

Section PheromoneCells.
Import PheromoneSystem.

Lemma grid_get_cell (g : list (list Q)) (gw gh gx gy : Z) :
  Z.of_nat (length g) = gw →
  Forall (λ row, Z.of_nat (length row) = gh) g →
  (0 ≤ gx < gw)%Z → (0 ≤ gy < gh)%Z →
  grid_get g gx gy = Some (cell g (Z.to_nat gx) (Z.to_nat gy)).
Proof.
  intros Hlen Hrows Hx Hy. unfold grid_get, cell.
  rewrite np_index_in_range by lia. cbn.
  destruct (lookup_lt_is_Some_2 g (Z.to_nat gx)) as [row Hrow]; [lia|].
  rewrite Hrow. cbn.
  pose proof (proj1 (Forall_lookup _ _) Hrows _ _ Hrow) as Hr. cbn in Hr.
  rewrite np_index_in_range by lia. cbn.
  destruct (lookup_lt_is_Some_2 row (Z.to_nat gy)) as [v Hv]; [lia|].
  by rewrite Hv.
Qed.

Lemma grid_add_cells (g : list (list Q)) (gw gh gx gy : Z) (amount : Q) :
  Z.of_nat (length g) = gw →
  Forall (λ row, Z.of_nat (length row) = gh) g →
  (0 ≤ gx < gw)%Z → (0 ≤ gy < gh)%Z →
  ∃ g', grid_add g gx gy amount = Some g' ∧
    cell g' (Z.to_nat gx) (Z.to_nat gy)
      = cell g (Z.to_nat gx) (Z.to_nat gy) + amount ∧
    ∀ i j, i ≠ Z.to_nat gx ∨ j ≠ Z.to_nat gy → cell g' i j = cell g i j.
Proof.
  intros Hlen Hrows Hx Hy. unfold grid_add.
  rewrite np_index_in_range by lia. cbn.
  destruct (lookup_lt_is_Some_2 g (Z.to_nat gx)) as [row Hrow]; [lia|].
  rewrite Hrow. cbn.
  pose proof (proj1 (Forall_lookup _ _) Hrows _ _ Hrow) as Hr. cbn in Hr.
  rewrite np_index_in_range by lia. cbn.
  destruct (lookup_lt_is_Some_2 row (Z.to_nat gy)) as [v Hv]; [lia|].
  rewrite Hv. cbn. eexists. split; [done|]. unfold cell. split.
  - rewrite list_lookup_insert_eq by lia. cbn.
    rewrite list_lookup_insert_eq by lia. by rewrite Hrow; cbn; rewrite Hv.
  - intros i j Hij. destruct (decide (i = Z.to_nat gx)) as [->|Hi].
    + rewrite list_lookup_insert_eq by lia. rewrite Hrow. cbn.
      destruct Hij as [?|Hj]; [done|]. by rewrite list_lookup_insert_ne.
    + by rewrite list_lookup_insert_ne.
Qed.
End PheromoneCells.

(** X5: a deposit at a position with non-negative coordinates raises
    nothing on a well-formed system.  It adds [amount] to one cell of the
    named channel, the cell of the position with the indices capped at the
    last row and column, and changes no other cell of that channel and no
    other channel; naming a channel that does not exist changes nothing. *)
Theorem PheromoneSystem_add_pheromone_one_cell (ps : PheromoneSystem.t)
    (pos : Vector2D.t) (ty : string) (amount : Q) :
  PheromoneSystem.wf ps → (0 < PheromoneSystem.resolution ps)%Z →
  (0 < PheromoneSystem.grid_width ps)%Z → (0 < PheromoneSystem.grid_height ps)%Z →
  0 <= Vector2D.x pos → 0 <= Vector2D.y pos →
  let gx := Z.to_nat (Z.min (floor_div (Vector2D.x pos) (PheromoneSystem.resolution ps))
                            (PheromoneSystem.grid_width ps - 1)) in
  let gy := Z.to_nat (Z.min (floor_div (Vector2D.y pos) (PheromoneSystem.resolution ps))
                            (PheromoneSystem.grid_height ps - 1)) in
  ∃ ps', PheromoneSystem.add_pheromone ps pos ty amount = Some ps' ∧
    (PheromoneSystem.grids ps !! ty = None → ps' = ps) ∧
    (∀ g, PheromoneSystem.grids ps !! ty = Some g →
       ∃ g', PheromoneSystem.grids ps' !! ty = Some g' ∧
         PheromoneSystem.cell g' gx gy = PheromoneSystem.cell g gx gy + amount ∧
         ∀ i j, i ≠ gx ∨ j ≠ gy →
                PheromoneSystem.cell g' i j = PheromoneSystem.cell g i j) ∧
    (∀ ch, ch ≠ ty →
       PheromoneSystem.grids ps' !! ch = PheromoneSystem.grids ps !! ch).
Proof.
  intros Hwf Hres Hgw Hgh Hx Hy. cbn. unfold PheromoneSystem.add_pheromone.
  destruct (PheromoneSystem.grids ps !! ty) as [g|] eqn:Hg.
  2:{ exists ps. split; [done|]. split; [done|]. split; [done|]. done. }
  destruct (Hwf _ _ Hg) as [Hlen Hrows].
  destruct (Z.eqb_spec (PheromoneSystem.resolution ps) 0); [lia|].
  pose proof (floor_div_nonneg _ _ Hx Hres) as Hfx.
  pose proof (floor_div_nonneg _ _ Hy Hres) as Hfy.
  destruct (grid_add_cells g _ _
              (Z.min (floor_div (Vector2D.x pos) (PheromoneSystem.resolution ps))
                     (PheromoneSystem.grid_width ps - 1))
              (Z.min (floor_div (Vector2D.y pos) (PheromoneSystem.resolution ps))
                     (PheromoneSystem.grid_height ps - 1))
              amount Hlen Hrows) as (g' & -> & Hcell & Hframe); [lia..|].
  cbn. eexists. split; [done|]. cbn. split; [done|]. split.
  - intros ? [= <-]. exists g'. by rewrite lookup_insert_eq.
  - intros ch Hch. by rewrite lookup_insert_ne.
Qed.

Lemma PheromoneSystem_add_pheromone_one_cell_witness :
  ∃ ps', PheromoneSystem.add_pheromone PheromoneSystem.deposit_state
           {| Vector2D.x := 5; Vector2D.y := 15 |} "home" 10 = Some ps' ∧
         PheromoneSystem.grids ps' !! "food"
           = PheromoneSystem.grids PheromoneSystem.deposit_state !! "food".
Proof.
  destruct (PheromoneSystem_add_pheromone_one_cell PheromoneSystem.deposit_state
              {| Vector2D.x := 5; Vector2D.y := 15 |} "home" 10)
    as (ps' & Hadd & _ & _ & Hother).
  - exact deposit_state_wf.
  - reflexivity.
  - reflexivity.
  - reflexivity.
  - vm_compute. discriminate.
  - vm_compute. discriminate.
  - exists ps'. split; [exact Hadd|]. by apply Hother.
Defined.

(** X6: reading the pheromone around a position never raises on a
    well-formed system, wherever the position lies: the three sampled cells
    are taken modulo the grid size.  For a position with non-negative
    coordinates in the cell [(gx, gy)] and the sampling distance
    [R = max(1, radius // resolution)], the reading called ahead is the cell
    [(gx, gy - R)], the one called left the cell [(gx - R, gy)] and the one
    called right the cell [(gx + R, gy)], whatever the heading of the ant; a
    channel that does not exist reads as zero. *)
Theorem PheromoneSystem_get_intensity_cells (ps : PheromoneSystem.t)
    (pos : Vector2D.t) (ty : string) (radius : Z) :
  PheromoneSystem.wf ps → (0 < PheromoneSystem.resolution ps)%Z →
  (0 < PheromoneSystem.grid_width ps)%Z → (0 < PheromoneSystem.grid_height ps)%Z →
  let gw := PheromoneSystem.grid_width ps in
  let gh := PheromoneSystem.grid_height ps in
  let gx := Z.min (floor_div (Vector2D.x pos) (PheromoneSystem.resolution ps)) (gw - 1) in
  let gy := Z.min (floor_div (Vector2D.y pos) (PheromoneSystem.resolution ps)) (gh - 1) in
  let R := Z.max 1 (radius / PheromoneSystem.resolution ps) in
  ∃ r, PheromoneSystem.get_intensity ps pos ty radius = Some r ∧
    (PheromoneSystem.grids ps !! ty = None →
       r = {| PheromoneSystem.ahead := 0; PheromoneSystem.left := 0;
              PheromoneSystem.right := 0 |}) ∧
    (∀ g, PheromoneSystem.grids ps !! ty = Some g →
       PheromoneSystem.ahead r =
         PheromoneSystem.cell g (Z.to_nat (gx mod gw)) (Z.to_nat ((gy - R) mod gh)) ∧
       PheromoneSystem.left r =
         PheromoneSystem.cell g (Z.to_nat ((gx - R) mod gw)) (Z.to_nat (gy mod gh)) ∧
       PheromoneSystem.right r =
         PheromoneSystem.cell g (Z.to_nat ((gx + R) mod gw)) (Z.to_nat (gy mod gh))) ∧
    (0 <= Vector2D.x pos → 0 <= Vector2D.y pos →
       (gx mod gw = gx)%Z ∧ (gy mod gh = gy)%Z).
Proof.
  intros Hwf Hres Hgw Hgh. cbn.
  assert (Hin : 0 <= Vector2D.x pos → 0 <= Vector2D.y pos →
    (Z.min (floor_div (Vector2D.x pos) (PheromoneSystem.resolution ps))
           (PheromoneSystem.grid_width ps - 1) mod PheromoneSystem.grid_width ps
     = Z.min (floor_div (Vector2D.x pos) (PheromoneSystem.resolution ps))
             (PheromoneSystem.grid_width ps - 1))%Z ∧
    (Z.min (floor_div (Vector2D.y pos) (PheromoneSystem.resolution ps))
           (PheromoneSystem.grid_height ps - 1) mod PheromoneSystem.grid_height ps
     = Z.min (floor_div (Vector2D.y pos) (PheromoneSystem.resolution ps))
             (PheromoneSystem.grid_height ps - 1))%Z).
  { intros Hx Hy.
    pose proof (floor_div_nonneg _ _ Hx Hres). pose proof (floor_div_nonneg _ _ Hy Hres).
    split; apply Z.mod_small; lia. }
  unfold PheromoneSystem.get_intensity.
  destruct (PheromoneSystem.grids ps !! ty) as [g|] eqn:Hg.
  2:{ eexists. split; [done|]. split; [done|]. split; [done|]. exact Hin. }
  destruct (Hwf _ _ Hg) as [Hlen Hrows].
  destruct (Z.eqb_spec (PheromoneSystem.resolution ps) 0); [lia|].
  destruct (Z.eqb_spec (PheromoneSystem.grid_width ps) 0); [lia|].
  destruct (Z.eqb_spec (PheromoneSystem.grid_height ps) 0); [lia|].
  cbn [orb].
  rewrite !(grid_get_cell g _ _ _ _ Hlen Hrows) by (apply Z.mod_pos_bound; lia).
  cbn. eexists. split; [done|]. cbn. split; [done|]. split; [|exact Hin].
  intros ? [= <-]. by rewrite !Z.add_0_r.
Qed.

Lemma PheromoneSystem_get_intensity_cells_witness :
  ∃ r, PheromoneSystem.get_intensity PheromoneSystem.deposit_state
         {| Vector2D.x := 5; Vector2D.y := 25 |} "food" 10 = Some r ∧
       PheromoneSystem.ahead r = 10.
Proof.
  destruct (PheromoneSystem_get_intensity_cells PheromoneSystem.deposit_state
              {| Vector2D.x := 5; Vector2D.y := 25 |} "food" 10)
    as (r & Hget & _ & Hcells & _).
  - exact deposit_state_wf.
  - reflexivity.
  - reflexivity.
  - reflexivity.
  - exists r. split; [exact Hget|].
    destruct (Hcells PheromoneSystem.deposit_grid) as (-> & _); reflexivity.
Defined.

(** X7: without diffusion ([PHEROMONE_DIFFUSION] at most 0) an update only
    evaporates: after [n] updates every cell of every channel is its first
    value multiplied [n] times by the evaporation rate, and no channel
    appears or disappears. *)
Theorem PheromoneSystem_update_evaporation_only (cfg : config.t)
    (ps : PheromoneSystem.t) (n : nat) :
  config.PHEROMONE_DIFFUSION cfg <= 0 →
  let rate := config.PHEROMONE_EVAPORATION_RATE cfg in
  let ps' := Nat.iter n (PheromoneSystem.update cfg) ps in
  (∀ ch, PheromoneSystem.grids ps !! ch = None →
         PheromoneSystem.grids ps' !! ch = None) ∧
  ∀ ch g, PheromoneSystem.grids ps !! ch = Some g →
    ∃ g', PheromoneSystem.grids ps' !! ch = Some g' ∧
      ∀ i j, PheromoneSystem.cell g' i j
             == Nat.iter n (λ v, v * rate) (PheromoneSystem.cell g i j).
Proof.
  intros Hd. cbn. induction n as [|n [IHnone IHsome]].
  { split; [done|]. intros ch g Hg. by exists g. }
  assert (Hgrids : ∀ ps0, PheromoneSystem.grids (PheromoneSystem.update cfg ps0)
    = PheromoneSystem.update_grid cfg (PheromoneSystem.grid_width ps0)
        (PheromoneSystem.grid_height ps0) <$> PheromoneSystem.grids ps0) by done.
  rewrite !Nat.iter_succ, Hgrids. split.
  - intros ch Hch. by rewrite lookup_fmap, (IHnone _ Hch).
  - intros ch g Hg. destruct (IHsome _ _ Hg) as (g' & Hg' & Hcells).
    rewrite lookup_fmap, Hg'. cbn. eexists. split; [done|].
    intros i j. unfold PheromoneSystem.update_grid.
    destruct (Qltb 0 (config.PHEROMONE_DIFFUSION cfg)) eqn:Hpos.
    { apply Qltb_lt in Hpos. lra. }
    by rewrite cell_evaporate, Hcells.
Qed.

Lemma PheromoneSystem_update_evaporation_only_witness :
  ∃ g', PheromoneSystem.grids
          (Nat.iter 2 (PheromoneSystem.update config_without_diffusion)
                    PheromoneSystem.deposit_state) !! "food" = Some g' ∧
        PheromoneSystem.cell g' 0 1 == 10 * (995 # 1000) * (995 # 1000).
Proof.
  destruct (PheromoneSystem_update_evaporation_only config_without_diffusion
              PheromoneSystem.deposit_state 2) as [_ Hsome].
  - vm_compute. discriminate.
  - destruct (Hsome "food" PheromoneSystem.deposit_grid) as (g' & Hg' & Hcells);
      [reflexivity|].
    exists g'. split; [exact Hg'|]. rewrite Hcells. reflexivity.
Defined.

(** ** The network: construction, forward pass, activation *)

Section NetworkShapes.
Context `{!NumPy, !Random}.
Import NeuralNetwork.

Lemma init_layers_fresh (sizes : list nat) :
  valid_sizes sizes →
  returns (init_layers sizes)
    (λ r, conforms_layers sizes r.1 r.2 ∧
          Forall (Forall (λ b, b = 0)) r.2 ∧
          length r.1 = pred (length sizes)).
Proof.
  induction sizes as [|n rest IH]; intros Hvalid.
  - by apply returns_ret.
  - destruct rest as [|m rest'].
    + by apply returns_ret.
    + cbn [init_layers]. destruct Hvalid as [Hnm Hvalid].
      destruct (Nat.eqb_spec (n + m) 0) as [?|_]; [done|].
      eapply returns_bind; [apply returns_draw_matrix|]. intros rows [Hlen Hrows].
      eapply returns_bind; [exact (IH Hvalid)|]. intros [ws bs] (Hc & Hzero & Hcount).
      apply returns_ret. cbn in *. split; [|split].
      * repeat split; try done. by rewrite length_replicate.
      * constructor; [|done]. by apply Forall_replicate.
      * by rewrite Hcount.
Qed.

Lemma init_layers_invalid (sizes : list nat) (g : G) :
  ¬ valid_sizes sizes → init_layers sizes g = None.
Proof.
  revert g. induction sizes as [|n rest IH]; intros g Hinvalid.
  - by destruct Hinvalid.
  - destruct rest as [|m rest'].
    + by destruct Hinvalid.
    + cbn [init_layers].
      destruct (Nat.eqb_spec (n + m) 0) as [?|Hnm]; [done|].
      unfold mbind, M_bind.
      destruct (repeatM n _ g) as [[rows g1]|]; [|done].
      rewrite IH; [done|]. intros Hvalid. apply Hinvalid. by split.
Qed.

Lemma forward_layers_activations (sizes : list nat) ws bs (x : list Q) acts :
  conforms_layers sizes ws bs → head sizes = Some (length x) →
  ∃ out new, forward_layers ws bs x acts = Some (out, acts ++ new) ∧
             Forall2 (λ act size, length act = size) new (tail sizes) ∧
             last (x :: new) = Some out.
Proof.
  revert ws bs x acts. induction sizes as [|n rest IH]; intros ws bs x acts Hc Hx.
  - done.
  - destruct rest as [|m rest'].
    + destruct Hc as [-> ->]. exists x, []. cbn. by rewrite app_nil_r.
    + cbn in Hc. destruct ws as [|[|c rows] ws]; [done..|].
      destruct bs as [|b bs]; [done|].
      destruct Hc as (_ & -> & Hlen & _ & Hb & Hrest).
      cbn in Hx. injection Hx as ->.
      cbn [forward_layers np_dot]. rewrite Hlen, Nat.eqb_refl. cbn.
      rewrite length_map, length_seq, Hb, Nat.eqb_refl. cbn.
      set (z := zip_with Qplus _ b).
      assert (length z = m) as Hz.
      { unfold z. rewrite length_zip_with, length_map, length_seq. lia. }
      set (x' := match ws with [] => z | _ => relu z end).
      assert (length x' = m) as Hx'.
      { unfold x'. destruct ws; [done|]. unfold relu. by rewrite length_map. }
      destruct (IH ws bs x' (acts ++ [x']) Hrest) as (out & new & Hrun & Hnew & Hlast).
      { cbn. by rewrite Hx'. }
      exists out, (x' :: new). rewrite Hrun, <-app_assoc. split; [done|].
      split; [by constructor|done].
Qed.

Lemma forward_layers_misaligned (n : nat) (sizes : list nat) ws bs
    (x : list Q) acts :
  conforms_layers (n :: sizes) ws bs → sizes ≠ [] → length x ≠ n →
  forward_layers ws bs x acts = None.
Proof.
  intros Hc Hsizes Hx. destruct sizes as [|m rest]; [done|]. cbn in Hc.
  destruct ws as [|[|c rows] ws]; [done..|]. destruct bs as [|b bs]; [done|].
  destruct Hc as (_ & _ & Hlen & _). cbn [forward_layers np_dot].
  destruct (Nat.eqb_spec (length x) (length rows)); [congruence|done].
Qed.

End NetworkShapes.

(** X8: [NeuralNetwork(input_size, hidden_sizes, output_size)] raises
    nothing exactly when no two consecutive layers are both empty.  The
    network it then builds has one weight matrix and one bias vector per
    pair of consecutive layers, of the shapes of those layers, all biases
    zero and no cached activation; otherwise it raises (a division by
    zero in the scale of the initial weights). *)
Theorem NeuralNetwork_init_shapes `{!NumPy, !Random}
    (input_size : nat) (hidden_sizes : list nat) (output_size : nat) :
  let sizes := input_size :: hidden_sizes ++ [output_size] in
  (NeuralNetwork.valid_sizes sizes →
     returns (NeuralNetwork.init input_size hidden_sizes output_size)
       (λ nn, NeuralNetwork.conforms nn ∧
              NeuralNetwork.input_size nn = input_size ∧
              NeuralNetwork.hidden_sizes nn = hidden_sizes ∧
              NeuralNetwork.output_size nn = output_size ∧
              length (NeuralNetwork.weights nn) = S (length hidden_sizes) ∧
              Forall (Forall (λ b, b = 0)) (NeuralNetwork.biases nn) ∧
              NeuralNetwork.activations nn = [])) ∧
  (¬ NeuralNetwork.valid_sizes sizes →
     ∀ g, NeuralNetwork.init input_size hidden_sizes output_size g = None).
Proof.
  intros sizes. split.
  - intros Hvalid. unfold NeuralNetwork.init.
    eapply returns_bind; [exact (init_layers_fresh _ Hvalid)|].
    intros [ws bs] (Hc & Hzero & Hcount). apply returns_ret.
    unfold sizes in Hcount. cbn in Hcount.
    rewrite length_app, Nat.add_1_r in Hcount. done.
  - intros Hinvalid g. unfold NeuralNetwork.init, mbind, M_bind.
    by rewrite init_layers_invalid.
Qed.

(** X9: on a network whose arrays have the shapes of its topology,
    [forward] raises nothing for an input of [input_size] values and raises
    for an input of any other length.  The output has [output_size] values,
    the weights and biases are untouched, and the cached activations are one
    per layer, each of the size of its layer, from the input itself to the
    output. *)
Theorem NeuralNetwork_forward_activations (nn : NeuralNetwork.t) (x : list Q) :
  NeuralNetwork.conforms nn →
  (length x = NeuralNetwork.input_size nn →
     ∃ out nn', NeuralNetwork.forward nn x = Some (out, nn') ∧
       length out = NeuralNetwork.output_size nn ∧
       NeuralNetwork.weights nn' = NeuralNetwork.weights nn ∧
       NeuralNetwork.biases nn' = NeuralNetwork.biases nn ∧
       Forall2 (λ act size, length act = size)
         (NeuralNetwork.activations nn') (NeuralNetwork.layer_sizes nn) ∧
       head (NeuralNetwork.activations nn') = Some x ∧
       last (NeuralNetwork.activations nn') = Some out) ∧
  (length x ≠ NeuralNetwork.input_size nn → NeuralNetwork.forward nn x = None).
Proof.
  intros Hc. split.
  - intros Hx. unfold NeuralNetwork.forward.
    destruct (forward_layers_activations _ _ _ x [x] Hc)
      as (out & new & -> & Hnew & Hlast).
    { cbn. by rewrite Hx. }
    cbn. eexists _, _. split; [done|]. cbn.
    assert (Hout : length out = NeuralNetwork.output_size nn).
    { assert (Hall : Forall2 (λ act size, length act = size) (x :: new)
                       (NeuralNetwork.layer_sizes nn)) by by constructor.
      unfold NeuralNetwork.layer_sizes in Hall.
      rewrite app_comm_cons in Hall.
      apply Forall2_app_inv_r in Hall as (front & back & _ & Hback & Heq).
      apply Forall2_cons_inv_r in Hback as (act & ? & Hact & ->%Forall2_nil_inv_r & ->).
      rewrite Heq, last_snoc in Hlast. by injection Hlast as <-. }
    split; [done|]. split; [done|]. split; [done|].
    split; [by constructor|]. done.
  - intros Hx. unfold NeuralNetwork.forward.
    rewrite (forward_layers_misaligned _ _ _ _ x [x] Hc); [done| |done].
    by destruct (NeuralNetwork.hidden_sizes nn).
Qed.

Lemma NeuralNetwork_forward_activations_witness :
  ∃ out nn', NeuralNetwork.forward network_one [5] = Some (out, nn') ∧
             NeuralNetwork.activations nn' = [[5]; out] ∧
             NeuralNetwork.forward network_one [5; 6] = None.
Proof.
  destruct (NeuralNetwork_forward_activations network_one [5] network_one_conforms)
    as [Hfit _].
  destruct (NeuralNetwork_forward_activations network_one [5; 6] network_one_conforms)
    as [_ Hmisfit].
  destruct (Hfit eq_refl) as (out & nn' & Hrun & _).
  exists out, nn'. split; [exact Hrun|]. split; [|by apply Hmisfit].
  vm_compute in Hrun. by injection Hrun as <- <-.
Defined.

(** X10: numpy's exponential is never negative, and then every output of
    [process] lies between 0 and 1, the bounds included: the floats of the
    program reach both, 1.0 where the exponential rounds away in the sum
    and 0.0 where it overflows.  [process] records the inputs as it was
    given them, before any padding or truncation, and its outputs, and
    leaves the weights and biases of the network as they were; a network
    whose arrays have the shapes of its topology yields [output_size]
    outputs. *)
Theorem MLAgent_process_outputs `{!NumPy} (b b' : MLAgent.t)
    (inputs outputs : list Q) :
  (∀ x, 0 <= np_exp x) →
  MLAgent.process b inputs = Some (outputs, b') →
  Forall (λ o, 0 <= o ∧ o <= 1) outputs ∧
  MLAgent.last_state b' = Some inputs ∧
  MLAgent.last_action b' = Some outputs ∧
  NeuralNetwork.weights (MLAgent.network b') = NeuralNetwork.weights (MLAgent.network b) ∧
  NeuralNetwork.biases (MLAgent.network b') = NeuralNetwork.biases (MLAgent.network b) ∧
  (NeuralNetwork.conforms (MLAgent.network b) →
     length outputs = NeuralNetwork.output_size (MLAgent.network b)).
Proof.
  intros Hexp Hrun. unfold MLAgent.process in Hrun.
  destruct (NeuralNetwork.forward _ _) as [[out nn]|] eqn:Hforward; [|done].
  cbn in Hrun. injection Hrun as <- <-.
  assert (Hlen : NeuralNetwork.conforms (MLAgent.network b) →
                 length out = NeuralNetwork.output_size (MLAgent.network b)).
  { intros Hc.
    destruct (forward_returns _
                (MLAgent.adjust_inputs (NeuralNetwork.input_size (MLAgent.network b)) inputs)
                Hc) as (out' & nn' & Hrun' & Hlen & _); [apply adjust_inputs_spec|].
    rewrite Hforward in Hrun'. by injection Hrun' as <- <-. }
  assert (Harrays :
    NeuralNetwork.weights nn = NeuralNetwork.weights (MLAgent.network b) ∧
    NeuralNetwork.biases nn = NeuralNetwork.biases (MLAgent.network b)).
  { unfold NeuralNetwork.forward in Hforward.
    destruct (NeuralNetwork.forward_layers _ _ _ _) as [[x acts]|]; [|done].
    cbn in Hforward. by injection Hforward as <- <-. }
  destruct Harrays as [Hws Hbs].
  split; [|split; [done|split; [done|split; [done|split; [done|]]]]].
  - unfold MLAgent._activate_outputs. apply Forall_fmap, Forall_true.
    intros o. cbn. pose proof (Hexp (- o)) as He.
    split.
    + apply Qle_shift_div_l; lra.
    + apply Qle_shift_div_r; lra.
  - intros Hc. unfold MLAgent._activate_outputs. rewrite length_map. auto.
Qed.

Lemma MLAgent_process_outputs_witness :
  ∃ outputs b',
    @MLAgent.process numpy_stub example_brain [5; 6] = Some (outputs, b') ∧
    Forall (λ o, 0 <= o ∧ o <= 1) outputs ∧
    MLAgent.last_state b' = Some [5; 6].
Proof.
  destruct (@MLAgent.process numpy_stub example_brain [5; 6])
    as [[outputs b']|] eqn:Hrun; [|vm_compute in Hrun; discriminate].
  exists outputs, b'. split; [reflexivity|].
  destruct (@MLAgent_process_outputs numpy_stub example_brain b' [5; 6] outputs)
    as (Hunit & Hstate & _).
  - intros x. discriminate.
  - exact Hrun.
  - split; [exact Hunit|exact Hstate].
Defined.

(** ** The network: mutation, crossover and weight transfer at the edges *)

Section NetworkEdges.
Context `{!NumPy, !Random}.
Import NeuralNetwork.

Lemma returns_draw_sat {A} (f : G → A * G) (P : A → Prop) :
  (∀ g, P (f g).1) → returns (draw f) P.
Proof.
  intros Hf g. exists (f g).1, (f g).2. split; [|apply Hf].
  unfold draw. by destruct (f g).
Qed.

Lemma returns_matrix_sat {A} (n m : nat) (mm : M A) (P : A → Prop) :
  returns mm P →
  returns (repeatM n (repeatM m mm))
    (λ rows, length rows = n ∧ Forall (λ r, length r = m ∧ Forall P r) rows).
Proof. intros Hmm. by apply returns_repeatM, returns_repeatM. Qed.

Lemma Qplus_zero (w : Q) : w + 0 = w.
Proof.
  destruct w as [n d]. unfold Qplus. cbn. f_equal; [lia|apply Pos.mul_1_r].
Qed.

Lemma mutate_row_unmasked (rate : Q) (row mask mutations : list Q) :
  Forall (λ m, rate <= m) mask → length row ≤ length mask →
  length row ≤ length mutations →
  zip_with (λ w e, mutate_entry rate w e.1 e.2) row (zip mask mutations) = row.
Proof.
  revert mask mutations. induction row as [|w row IH]; intros mask mutations Hm H1 H2.
  - done.
  - destruct mask as [|m mask]; [cbn in H1; lia|].
    destruct mutations as [|u mutations]; [cbn in H2; lia|].
    apply Forall_cons in Hm as [Hm Hmask]. cbn. f_equal.
    + unfold mutate_entry. apply Qltb_ge in Hm. rewrite Hm. apply Qplus_zero.
    + apply IH; [done|cbn in *; lia..].
Qed.

Lemma mutate_rows_unmasked (rate : Q) (c : nat) (rows mask mutations : list (list Q)) :
  Forall (λ r, length r = c) rows →
  Forall (λ r, length r = c ∧ Forall (λ m, rate <= m) r) mask →
  Forall (λ r, length r = c) mutations →
  length rows ≤ length mask → length rows ≤ length mutations →
  zip_with (λ row mm, zip_with (λ w e, mutate_entry rate w e.1 e.2) row (zip mm.1 mm.2))
    rows (zip mask mutations) = rows.
Proof.
  revert mask mutations.
  induction rows as [|row rows IH]; intros mask mutations Hr Hm Hu H1 H2.
  - done.
  - destruct mask as [|m mask]; [cbn in H1; lia|].
    destruct mutations as [|u mutations]; [cbn in H2; lia|].
    apply Forall_cons in Hr as [Hrow Hr]. apply Forall_cons in Hm as [[Hml Hmm] Hm].
    apply Forall_cons in Hu as [Hul Hu]. cbn. f_equal.
    + apply mutate_row_unmasked; [done|lia..].
    + apply IH; [done..|cbn in *; lia|cbn in *; lia].
Qed.

Lemma mutate_layers_unmasked (rate : Q) (sizes : list nat) ws bs :
  (∀ g, rate <= (rand_random g).1) →
  conforms_layers sizes ws bs →
  returns (mutate_layers rate ws bs) (λ r, r = (ws, bs)).
Proof.
  intros Hrand. revert ws bs. induction sizes as [|n rest IH]; intros ws bs Hc.
  - destruct Hc as [-> ->]. by apply returns_ret.
  - destruct rest as [|m rest'].
    + destruct Hc as [-> ->]. by apply returns_ret.
    + cbn in Hc. destruct ws as [|[|c rows] ws]; [done..|].
      destruct bs as [|b bs]; [done|].
      destruct Hc as (Hnm & -> & Hlen & Hrows & Hb & Hrest).
      cbn [mutate_layers]. unfold mutate_array, random_like.
      eapply returns_bind.
      { eapply returns_bind;
          [exact (returns_matrix_sat _ _ _ _ (returns_draw_sat _ _ Hrand))|].
        intros mask [Hml Hmask].
        eapply returns_bind; [apply returns_draw_matrix|]. intros mut [Hul Hmut].
        apply returns_ret.
        instantiate (1 := λ a, a = Matrix m rows). cbn. f_equal.
        apply (mutate_rows_unmasked rate m); [done..|lia|lia]. }
      intros ? ->. unfold mutate_vector.
      eapply returns_bind.
      { eapply returns_bind;
          [exact (returns_repeatM _ _ _ (returns_draw_sat _ _ Hrand))|].
        intros mask [Hml Hmask].
        eapply returns_bind; [apply returns_repeatM, returns_draw|].
        intros mut [Hul _]. apply returns_ret.
        instantiate (1 := λ v, v = b). cbn.
        apply mutate_row_unmasked; [done|lia..]. }
      intros ? ->.
      eapply returns_bind; [exact (IH _ _ Hrest)|]. intros ? ->.
      by apply returns_ret.
Qed.

Lemma where_row_all (rate : Q) (pick : bool) (mask a b : list Q) :
  Forall (λ m, Qltb m rate = pick) mask →
  length a = length mask → length b = length mask →
  where_row rate mask a b = if pick then a else b.
Proof.
  unfold where_row. revert a b.
  induction mask as [|m mask IH]; intros a b Hm Ha Hb.
  - destruct a, b; try done. by destruct pick.
  - destruct a as [|x a]; [done|]. destruct b as [|y b]; [done|].
    apply Forall_cons in Hm as [Hm Hmask]. cbn. rewrite Hm.
    rewrite IH by (done || cbn in *; lia). by destruct pick.
Qed.

Lemma where_rows_all (rate : Q) (pick : bool) (c : nat) (mask a b : list (list Q)) :
  Forall (λ r, length r = c ∧ Forall (λ m, Qltb m rate = pick) r) mask →
  Forall (λ r, length r = c) a → Forall (λ r, length r = c) b →
  length a = length mask → length b = length mask →
  zip_with (λ m ab, where_row rate m ab.1 ab.2) mask (zip a b)
    = if pick then a else b.
Proof.
  revert a b. induction mask as [|m mask IH]; intros a b Hm Har Hbr Ha Hb.
  - destruct a, b; try done. by destruct pick.
  - destruct a as [|x a]; [done|]. destruct b as [|y b]; [done|].
    apply Forall_cons in Hm as [[Hml Hmm] Hmask].
    apply Forall_cons in Har as [Hx Har]. apply Forall_cons in Hbr as [Hy Hbr].
    cbn. rewrite (where_row_all rate pick) by (done || congruence).
    rewrite IH by (done || cbn in *; lia). by destruct pick.
Qed.

Lemma crossover_layers_all (rate : Q) (pick : bool) (sizes : list nat)
    sw ow cw sb ob cb :
  (∀ g, Qltb (rand_random g).1 rate = pick) →
  conforms_layers sizes sw sb → conforms_layers sizes ow ob →
  conforms_layers sizes cw cb →
  returns (crossover_layers rate sw ow cw sb ob cb)
    (λ r, r = if pick then (sw, sb) else (ow, ob)).
Proof.
  intros Hrand. revert sw ow cw sb ob cb.
  induction sizes as [|n rest IH]; intros sw ow cw sb ob cb Hs Ho Hc.
  - destruct Hs as [-> ->], Ho as [-> ->], Hc as [-> ->].
    apply returns_ret. by destruct pick.
  - destruct rest as [|m rest'].
    + destruct Hs as [-> ->], Ho as [-> ->], Hc as [-> ->].
      apply returns_ret. by destruct pick.
    + cbn in Hs, Ho, Hc.
      destruct sw as [|[|c rows_s] sw]; [done..|]. destruct sb as [|b sb]; [done|].
      destruct ow as [|[|c' rows_o] ow]; [done..|]. destruct ob as [|p ob]; [done|].
      destruct cw as [|[|c'' rows_c] cw]; [done..|]. destruct cb as [|q cb]; [done|].
      destruct Hs as (Hnm & -> & Hls & Hrs & Hbs & Hs).
      destruct Ho as (_ & -> & Hlo & Hro & Hbo & Ho).
      destruct Hc as (_ & -> & Hlc & Hrc & Hbc & Hc).
      cbn [crossover_layers random_like].
      eapply returns_bind;
        [exact (returns_matrix_sat _ _ _ _ (returns_draw_sat rand_random (λ m, Qltb m rate = pick) Hrand))|].
      intros mask [Hml Hmask].
      assert (Hwhere : np_where rate mask (Matrix m rows_s) (Matrix m rows_o)
                = Some (Matrix m (if pick then rows_s else rows_o))).
      { unfold np_where. rewrite Nat.eqb_refl, Hls, Hlo, Nat.eqb_refl. cbn.
        f_equal. f_equal. apply (where_rows_all rate pick m); [done..|lia|lia]. }
      eapply returns_bind;
        [exact (returns_lift _ _
                  (λ w, w = Matrix m (if pick then rows_s else rows_o))
                  Hwhere eq_refl)|].
      intros w' ->.
      eapply returns_bind;
        [exact (returns_repeatM _ _ _ (returns_draw_sat rand_random (λ m, Qltb m rate = pick) Hrand))|].
      intros bmask [Hbm Hbmask].
      assert (Hwhere1 : np_where1 rate bmask b p = Some (if pick then b else p)).
      { unfold np_where1. rewrite Hbs, Hbo, Nat.eqb_refl. f_equal.
        apply where_row_all; [done|lia..]. }
      eapply returns_bind;
        [exact (returns_lift _ _ (λ w, w = if pick then b else p) Hwhere1 eq_refl)|].
      intros b' ->.
      eapply returns_bind; [exact (IH _ _ _ _ _ _ Hs Ho Hc)|].
      intros ? ->. destruct pick; by apply returns_ret.
Qed.

End NetworkEdges.

(** X11: [mutate] keeps the topology and the shapes of the arrays of a
    network, at any mutation rate.  When the draws of [np.random.random()]
    are not below the rate, as for every rate of 0 or less, no mask entry is
    set and the network is left exactly as it was. *)
Theorem NeuralNetwork_mutate_shape_and_zero_rate `{!Random}
    (nn : NeuralNetwork.t) (rate : Q) :
  NeuralNetwork.conforms nn →
  returns (NeuralNetwork.mutate nn rate)
    (λ nn', NeuralNetwork.conforms nn' ∧ NeuralNetwork.same_topology nn' nn ∧
            NeuralNetwork.activations nn' = NeuralNetwork.activations nn) ∧
  ((∀ g, rate <= (rand_random g).1) →
   returns (NeuralNetwork.mutate nn rate) (λ nn', nn' = nn)).
Proof.
  intros Hc. unfold NeuralNetwork.mutate. split.
  - eapply returns_bind; [exact (mutate_layers_conforms rate _ _ _ Hc)|].
    intros [ws bs] Hc'. by apply returns_ret.
  - intros Hrand.
    eapply returns_bind; [exact (mutate_layers_unmasked rate _ _ _ Hrand Hc)|].
    intros ? ->. apply returns_ret. by destruct nn.
Qed.

Lemma NeuralNetwork_mutate_shape_and_zero_rate_witness :
  ∃ g, @NeuralNetwork.mutate random_stub network_one 0 0%nat
       = Some (network_one, g).
Proof.
  destruct (@NeuralNetwork_mutate_shape_and_zero_rate random_stub network_one 0
              network_one_conforms) as [_ Hzero].
  destruct (Hzero (λ g, ltac:(discriminate)) 0%nat) as (nn' & g & Hrun & ->).
  by exists g.
Defined.

(** X12: with draws of [np.random.random()] in the half-open unit interval,
    [crossover] at a rate of 1 or more copies every weight and bias of
    [self] into the child, and at a rate of 0 or less every weight and bias
    of [other]. *)
Theorem NeuralNetwork_crossover_extreme_rates `{!NumPy, !Random}
    (a b : NeuralNetwork.t) (crossover_rate : Q) :
  NeuralNetwork.conforms a → NeuralNetwork.conforms b →
  NeuralNetwork.same_topology a b →
  (∀ g, 0 <= (rand_random g).1 ∧ (rand_random g).1 < 1) →
  (1 <= crossover_rate →
     returns (NeuralNetwork.crossover a b crossover_rate)
       (λ child, NeuralNetwork.weights child = NeuralNetwork.weights a ∧
                 NeuralNetwork.biases child = NeuralNetwork.biases a)) ∧
  (crossover_rate <= 0 →
     returns (NeuralNetwork.crossover a b crossover_rate)
       (λ child, NeuralNetwork.weights child = NeuralNetwork.weights b ∧
                 NeuralNetwork.biases child = NeuralNetwork.biases b)).
Proof.
  intros Ha Hb (Hi & Hh & Ho) Hrand.
  assert (Hb' : NeuralNetwork.conforms_layers (NeuralNetwork.layer_sizes a)
                  (NeuralNetwork.weights b) (NeuralNetwork.biases b)).
  { unfold NeuralNetwork.conforms, NeuralNetwork.layer_sizes in *.
    by rewrite Hi, Hh, Ho. }
  assert (Hall : ∀ pick, (∀ g, Qltb (rand_random g).1 crossover_rate = pick) →
    returns (NeuralNetwork.crossover a b crossover_rate)
      (λ child,
         (NeuralNetwork.weights child, NeuralNetwork.biases child) =
         if pick then (NeuralNetwork.weights a, NeuralNetwork.biases a)
         else (NeuralNetwork.weights b, NeuralNetwork.biases b))).
  { intros pick Hpick. unfold NeuralNetwork.crossover.
    eapply returns_bind.
    { unfold NeuralNetwork.init.
      eapply returns_bind; [exact (init_layers_conforms _ _ _ Ha)|].
      intros [ws bs] Hconf. apply returns_ret.
      instantiate (1 := λ child, NeuralNetwork.conforms_layers
        (NeuralNetwork.layer_sizes a) (NeuralNetwork.weights child)
        (NeuralNetwork.biases child)).
      exact Hconf. }
    intros child Hchild.
    eapply returns_bind;
      [exact (crossover_layers_all crossover_rate pick _ _ _ _ _ _ _ Hpick Ha Hb' Hchild)|].
    intros ? ->. destruct pick; by apply returns_ret. }
  split.
  - intros Hrate. eapply returns_weaken; [apply (Hall true)|].
    + intros g. apply Qltb_lt. destruct (Hrand g). lra.
    + by intros child [= -> ->].
  - intros Hrate. eapply returns_weaken; [apply (Hall false)|].
    + intros g. apply Qltb_ge. destruct (Hrand g). lra.
    + by intros child [= -> ->].
Qed.

Lemma NeuralNetwork_crossover_extreme_rates_witness :
  ∃ child g,
    @NeuralNetwork.crossover numpy_stub random_stub network_one network_two 1 0%nat
      = Some (child, g) ∧
    NeuralNetwork.weights child = NeuralNetwork.weights network_one.
Proof.
  destruct (@NeuralNetwork_crossover_extreme_rates numpy_stub random_stub
              network_one network_two 1 network_one_conforms network_two_conforms)
    as [Hone _].
  - done.
  - intros g. split; [discriminate|reflexivity].
  - destruct (Hone ltac:(discriminate) 0%nat) as (child & g & Hrun & Hw & _).
    by exists child, g.
Defined.

(** X13: [set_weights] accepts a dictionary exactly when every weight entry
    is rectangular, rows of one length; it never looks at the topology of the
    network.  What [get_weights] then returns is the dictionary that was
    set, and the topology fields of the network are those it had. *)
Theorem NeuralNetwork_set_weights_get_weights (nn : NeuralNetwork.t)
    (d : NeuralNetwork.weights_dict) :
  let rectangular (w : list (list Q)) :=
    ∀ r1 r2, r1 ∈ w → r2 ∈ w → length r1 = length r2 in
  (is_Some (NeuralNetwork.set_weights nn d) ↔
     Forall rectangular (NeuralNetwork.wd_weights d)) ∧
  ∀ nn', NeuralNetwork.set_weights nn d = Some nn' →
    NeuralNetwork.get_weights nn' = d ∧ NeuralNetwork.same_topology nn' nn ∧
    NeuralNetwork.activations nn' = NeuralNetwork.activations nn.
Proof.
  intros rectangular.
  assert (Harray : ∀ w, is_Some (NeuralNetwork.np_array w) ↔ rectangular w).
  { intros w. unfold NeuralNetwork.np_array, rectangular.
    destruct w as [|row rest]; [split; [by intros _ ? ? ?%elem_of_nil|done]|].
    assert (Hall : forallb (λ r, (length r =? length row)%nat) rest = true ↔
                   ∀ r1 r2, r1 ∈ row :: rest → r2 ∈ row :: rest →
                            length r1 = length r2).
    { rewrite forallb_forall. split.
      - intros Hrest.
        assert (∀ r, r ∈ row :: rest → length r = length row) as Hrow.
        { intros r [->|Hr%list_elem_of_In]%elem_of_cons; [done|].
          by apply Nat.eqb_eq, Hrest. }
        intros r1 r2 H1 H2. by rewrite (Hrow _ H1), (Hrow _ H2).
      - intros Hrect r Hr%list_elem_of_In. apply Nat.eqb_eq, Hrect.
        + by apply elem_of_cons; right.
        + by apply elem_of_cons; left. }
    destruct (forallb _ rest).
    - split; [intros _; by apply Hall|done].
    - split; [by intros [? ?]|]. intros Hrect%Hall. done. }
  assert (Hlist : ∀ w a, NeuralNetwork.np_array w = Some a →
                         NeuralNetwork.tolist a = w).
  { intros w a. unfold NeuralNetwork.np_array.
    destruct w as [|row rest]; [by intros [= <-]|].
    destruct (forallb _ rest); [by intros [= <-]|done]. }
  unfold NeuralNetwork.set_weights. split.
  - transitivity (Forall (is_Some ∘ NeuralNetwork.np_array)
                    (NeuralNetwork.wd_weights d)).
    + rewrite <-mapM_is_Some.
      destruct (mapM _ _); cbn;
        [split; intros _; by eexists|split; by intros [? ?]].
    + apply Forall_iff. intros w. apply Harray.
  - intros nn' Hset.
    destruct (mapM _ _) as [ws|] eqn:Hws; [|done].
    cbn in Hset. injection Hset as <-.
    split; [|done]. unfold NeuralNetwork.get_weights. cbn.
    apply mapM_Some in Hws.
    assert (NeuralNetwork.tolist <$> ws = NeuralNetwork.wd_weights d) as ->.
    { induction Hws as [|w a l k Hwa _ IH]; [done|]. cbn.
      by rewrite (Hlist _ _ Hwa), IH. }
    by destruct d.
Qed.

(** ** One ant: what a step does *)

Section AntSteps.
Context `{!NumPy} (cfg : config.t).

(** The three outcomes of the food part of [apply_action]: a delivery, a
    carrying ant away from the nest, and an empty-handed ant that picks
    something up or does not. *)
Lemma handle_food_inv (a : Ant.t) (c : Colony.t) pos (pickup : bool)
    carrying item c' :
  Ant.handle_food cfg a c pos pickup = Some (carrying, item, c') →
  let near := Qltb (Vector2D.magnitude
                      (Vector2D.sub pos (Nest.position (Colony.nest c))))
                   (inject_Z (config.NEST_RADIUS cfg)) in
  (Ant.carrying_food a = true ∧ near = true ∧ carrying = false ∧ item = None ∧
   c' = Colony.set_environment (Colony.add_food c (config.FOOD_ENERGY cfg))
          (Environment.remove_food (Colony.environment c) (Ant.food_item a))) ∨
  (Ant.carrying_food a = true ∧ near = false ∧ carrying = true ∧
   item = Ant.food_item a ∧ c' = c) ∨
  (Ant.carrying_food a = false ∧ c' = c ∧
   ((carrying = true ∧ pickup = true ∧
     ∃ f, item = Some f ∧
          Ant.find_food cfg (Colony.environment c) pos
            (Environment.food_sources (Colony.environment c)) = Some (Some f)) ∨
    (carrying = false ∧ item = Ant.food_item a))).
Proof.
  intros Hrun near. subst near. unfold Ant.handle_food in Hrun.
  destruct (Ant.carrying_food a) eqn:Hcarry.
  - destruct (Qltb _ _) eqn:Hnear.
    + injection Hrun as <- <- <-. by left.
    + injection Hrun as <- <- <-. by right; left.
  - right; right. split; [done|]. destruct pickup; cbn in Hrun.
    + destruct (Ant.find_food _ _ _ _) as [[f|]|] eqn:Hfind; cbn in Hrun; [| |done].
      * injection Hrun as <- <- <-. split; [done|]. left. by eauto.
      * injection Hrun as <- <- <-. split; [done|]. by right.
    + injection Hrun as <- <- <-. split; [done|]. by right.
Qed.

(** The steps of [apply_action], one by one. *)
Lemma apply_action_inv (a a' : Ant.t) (c c' : Colony.t) (outputs : list Q) :
  Ant.apply_action cfg a c outputs = Some (a', c') →
  ∃ o0 o1 o2 o3 pos env1 carrying item,
    outputs !! 0%nat = Some o0 ∧ outputs !! 1%nat = Some o1 ∧
    outputs !! 2%nat = Some o2 ∧ outputs !! 3%nat = Some o3 ∧
    let direction :=
      Vector2D.rotate (Ant.direction a) ((o0 * 2 - 1) * np_pi / 4) in
    let velocity := Vector2D.mul (Vector2D.mul direction (Ant.speed a)) o1 in
    let energy := Ant.energy a - config.ANT_ENERGY_CONSUMPTION cfg in
    Ant.apply_boundaries cfg (Vector2D.add (Ant.position a) velocity) = Some pos ∧
    (if Qltb (1 # 2) o2
     then Environment.add_pheromone (Colony.environment c) pos
            (if Ant.carrying_food a then "home" else "food")
            (inject_Z (config.PHEROMONE_DEPOSIT cfg))
     else Some (Colony.environment c)) = Some env1 ∧
    Ant.handle_food cfg a (Colony.set_environment c env1) pos (Qltb (1 # 2) o3)
      = Some (carrying, item, c') ∧
    a' = {| Ant.position := pos; Ant.velocity := velocity;
            Ant.direction := direction; Ant.speed := Ant.speed a;
            Ant.age := Ant.age a + 1; Ant.energy := energy;
            Ant.carrying_food := carrying; Ant.food_item := item;
            Ant.alive :=
              if (config.ANT_LIFESPAN cfg <? Ant.age a + 1)%Z then false
              else if Qleb energy 0 then false else Ant.alive a;
            Ant.brain := Ant.brain a;
            Ant.last_food_distance := Ant.last_food_distance a;
            Ant.last_nest_distance := Ant.last_nest_distance a;
            Ant.memory := Ant.memory a;
            Ant.was_carrying_food := Ant.was_carrying_food a |}.
Proof.
  intros Hrun. unfold Ant.apply_action in Hrun.
  destruct (outputs !! 0%nat) as [o0|]; cbn in Hrun; [|done].
  destruct (outputs !! 1%nat) as [o1|]; cbn in Hrun; [|done].
  destruct (outputs !! 2%nat) as [o2|]; cbn in Hrun; [|done].
  destruct (outputs !! 3%nat) as [o3|]; cbn in Hrun; [|done].
  destruct (Ant.apply_boundaries cfg _) as [pos|] eqn:Hpos; cbn in Hrun; [|done].
  set (dropped := if Qltb (1 # 2) o2 then _ else _) in Hrun.
  destruct dropped as [env1|] eqn:Hdrop; cbn in Hrun; [|done].
  destruct (Ant.handle_food cfg a _ pos _) as [[[carrying item] c2]|] eqn:Hfood;
    cbn in Hrun; [|done].
  injection Hrun as <- <-.
  exists o0, o1, o2, o3, pos, env1, carrying, item.
  do 4 (split; [done|]). split; [exact Hpos|]. split; [exact Hdrop|].
  split; [exact Hfood|reflexivity].
Qed.

(** The steps of [update] for an ant that is alive. *)
Lemma Ant_update_inv (a a' : Ant.t) (c c' : Colony.t) :
  Ant.update cfg a c = Some (a', c') → Ant.alive a = true →
  ∃ inputs outputs b a1,
    Ant.sense_environment cfg a c = Some inputs ∧
    MLAgent.process (Ant.brain a) inputs = Some (outputs, b) ∧
    Ant.apply_action cfg (Ant.set_brain a b) c outputs = Some (a1, c') ∧
    Ant.update_memory cfg a1 inputs outputs = Some a'.
Proof.
  intros Hrun Halive. unfold Ant.update in Hrun. rewrite Halive in Hrun.
  cbn [negb] in Hrun.
  destruct (Ant.sense_environment cfg a c) as [inputs|] eqn:Hsense; [|done].
  cbn [mbind option_bind] in Hrun. unfold Ant.think in Hrun.
  destruct (MLAgent.process _ _) as [[outputs b]|] eqn:Hthink; [|done].
  cbn [mbind option_bind] in Hrun.
  destruct (Ant.apply_action _ _ _ _) as [[a1 c1]|] eqn:Hact; [|done].
  cbn [mbind option_bind] in Hrun.
  destruct (Ant.update_memory _ _ _ _) as [a2|] eqn:Hmem; [|done].
  cbn [mbind option_bind] in Hrun.
  injection Hrun as <- <-. by exists inputs, outputs, b, a1.
Qed.

(** [update_memory] touches the memory and the remembered distances only. *)
Lemma update_memory_fields (a a' : Ant.t) (inputs outputs : list Q) :
  Ant.update_memory cfg a inputs outputs = Some a' →
  Ant.position a' = Ant.position a ∧ Ant.age a' = Ant.age a ∧
  Ant.energy a' = Ant.energy a ∧ Ant.alive a' = Ant.alive a ∧
  Ant.carrying_food a' = Ant.carrying_food a ∧
  Ant.food_item a' = Ant.food_item a ∧ Ant.brain a' = Ant.brain a ∧
  Ant.was_carrying_food a' = Ant.carrying_food a.
Proof.
  unfold Ant.update_memory. intros Hrun.
  destruct (if negb (Ant.carrying_food a) then _ else _) as [[r1 lf]|];
    cbn in Hrun; [|done].
  destruct (if Ant.carrying_food a then _ else _) as [[r2 ln]|];
    cbn in Hrun; [|done].
  by injection Hrun as <-.
Qed.

Lemma py_mod_bounds (x : Q) (w : Z) (r : Q) :
  (0 ≤ w)%Z → py_mod x w = Some r → 0 <= r ∧ r < inject_Z w.
Proof.
  unfold py_mod. intros Hw. destruct (Z.eqb_spec w 0); [done|].
  intros Hr. apply (inj Some) in Hr. subst r.
  assert (0 < inject_Z w) as Hpos.
  { change 0 with (inject_Z 0). rewrite <-Zlt_Qlt. lia. }
  pose proof (Qfloor_le (x / inject_Z w)) as Hlo.
  pose proof (Qlt_floor (x / inject_Z w)) as Hhi.
  rewrite inject_Z_plus in Hhi. change (inject_Z 1) with 1 in Hhi.
  set (k := inject_Z (Qfloor (x / inject_Z w))) in *.
  assert (x == x / inject_Z w * inject_Z w) as Hx by (field; lra).
  set (q := x / inject_Z w) in *.
  assert (k * inject_Z w <= q * inject_Z w) as Hlo'
    by (apply Qmult_le_r; [exact Hpos|exact Hlo]).
  assert (q * inject_Z w < (k + 1) * inject_Z w) as Hhi'
    by (apply Qmult_lt_r; [exact Hpos|exact Hhi]).
  clearbody k q. split; lra.
Qed.

Lemma apply_boundaries_in_world (p p' : Vector2D.t) :
  Ant.apply_boundaries cfg p = Some p' →
  (0 ≤ config.WORLD_WIDTH cfg)%Z → (0 ≤ config.WORLD_HEIGHT cfg)%Z →
  0 <= Vector2D.x p' ∧ Vector2D.x p' <= inject_Z (config.WORLD_WIDTH cfg) ∧
  0 <= Vector2D.y p' ∧ Vector2D.y p' <= inject_Z (config.WORLD_HEIGHT cfg) ∧
  (config.WRAP_WORLD cfg = true →
     Vector2D.x p' < inject_Z (config.WORLD_WIDTH cfg) ∧
     Vector2D.y p' < inject_Z (config.WORLD_HEIGHT cfg)).
Proof.
  unfold Ant.apply_boundaries. intros Hrun Hw Hh.
  destruct (config.WRAP_WORLD cfg).
  - destruct (py_mod (Vector2D.x p) _) as [x|] eqn:Hx; cbn in Hrun; [|done].
    destruct (py_mod (Vector2D.y p) _) as [y|] eqn:Hy; cbn in Hrun; [|done].
    injection Hrun as <-. cbn.
    apply py_mod_bounds in Hx as [? ?]; [|done].
    apply py_mod_bounds in Hy as [? ?]; [|done].
    repeat split; lra.
  - injection Hrun as <-. cbn.
    assert (Hclamp : ∀ (v : Q) (hi : Z), (0 ≤ hi)%Z →
      let m := if Qltb (inject_Z hi) v then inject_Z hi else v in
      0 <= (if Qltb 0 m then m else 0) ∧
      (if Qltb 0 m then m else 0) <= inject_Z hi).
    { intros v hi Hhi. cbn.
      assert (0 <= inject_Z hi) as Hpos.
      { change 0 with (inject_Z 0). rewrite <-Zle_Qle. lia. }
      destruct (Qltb (inject_Z hi) v) eqn:Hv.
      - destruct (Qltb 0 (inject_Z hi)); split; lra.
      - apply Qltb_ge in Hv. destruct (Qltb 0 v) eqn:Hv0.
        + apply Qltb_lt in Hv0. split; lra.
        + split; lra. }
    destruct (Hclamp (Vector2D.x p) _ Hw) as [? ?].
    destruct (Hclamp (Vector2D.y p) _ Hh) as [? ?].
    split; [done|]. split; [done|]. split; [done|]. split; [done|]. done.
Qed.

End AntSteps.

(** ** One ant: the properties of a step *)

Lemma steering_colony_wf : colony_wf steering_colony.
Proof.
  split.
  - split; [exact deposit_state_wf|]. cbn.
    split; [lia|]. split; [lia|]. split; [lia|]. constructor.
  - constructor; [|constructor]. split; cbn; [|lia].
    split; [lia|]. split; [done|]. split; [done|].
    split; [by repeat constructor|]. done.
Qed.

Lemma Ant_update_example :
  ∃ a' c', @Ant.update numpy_stub config.default steering_ant steering_colony
           = Some (a', c').
Proof.
  destruct (@Ant.update numpy_stub config.default steering_ant steering_colony)
    as [[a' c']|] eqn:Hrun; [by eauto|by vm_compute in Hrun].
Qed.

Lemma Ant_delivery_example :
  ∃ c a' c',
    example_colony = Some c ∧
    @Ant.apply_action numpy_stub config.default carrying_ant c pickup_outputs
      = Some (a', c') ∧
    @Vector2D.magnitude numpy_stub
      (Vector2D.sub (Ant.position a') (Nest.position (Colony.nest c))) = 0.
Proof.
  destruct example_colony as [c|] eqn:Hc; [|by vm_compute in Hc].
  destruct (@Ant.apply_action numpy_stub config.default carrying_ant c pickup_outputs)
    as [[a' c']|] eqn:Hrun;
    [|injection Hc as <-; by vm_compute in Hrun].
  exists c, a', c'. split; [done|]. split; [done|].
  injection Hc as <-. vm_compute in Hrun. injection Hrun as <- <-. reflexivity.
Qed.

Section AntStepFacts.
Context `{!NumPy} (cfg : config.t).

Lemma sense_food_fold_unseen (a : Ant.t) (env : Environment.t) (l : list nat)
    st st' :
  fold_option (Ant.sense_food cfg a env) st l = Some st' →
  (st.1.1 = None →
     st.1.2 = None ∧ st.2 = {| Vector2D.x := 0; Vector2D.y := 0 |}) →
  (st'.1.1 = None →
     st'.1.2 = None ∧ st'.2 = {| Vector2D.x := 0; Vector2D.y := 0 |}) ∧
  (l = [] → st' = st).
Proof.
  revert st. induction l as [|f l IH]; intros st Hrun Hst.
  - cbn in Hrun. injection Hrun as <-. by split.
  - cbn [fold_option] in Hrun.
    destruct (Ant.sense_food cfg a env st f) as [st1|] eqn:Hstep; [|done].
    cbn [mbind option_bind] in Hrun. split; [|done].
    apply (IH st1 Hrun). unfold Ant.sense_food in Hstep.
    destruct st as [[nearest dist] dir].
    destruct (Environment.food_heap env !! f) as [food|]; [|done].
    cbn [mbind option_bind] in Hstep.
    destruct (_ && _); injection Hstep as <-; [done|exact Hst].
Qed.

End AntStepFacts.

(** X14: on a well-formed environment [sense_environment] raises nothing
    and yields the 15 features that the controller of [MLAgent] is built
    for, so that [process] neither pads nor truncates them.  Feature 13 is
    the carrying flag and feature 14 the energy relative to
    [INITIAL_ENERGY]; feature 3 says whether a food source is in sight, and
    when none is, as in a world without food, the food distance reads 1 and
    the food direction is the zero vector. *)
Theorem Ant_sense_environment_features `{!NumPy} (cfg : config.t)
    (a : Ant.t) (c : Colony.t) :
  environment_wf (Colony.environment c) → config_wf cfg →
  ∃ inputs, Ant.sense_environment cfg a c = Some inputs ∧
    length inputs = 15%nat ∧
    MLAgent.adjust_inputs 15 inputs = inputs ∧
    inputs !! 13%nat = Some (if Ant.carrying_food a then 1 else 0) ∧
    inputs !! 14%nat = Some (Ant.energy a / inject_Z (config.INITIAL_ENERGY cfg)) ∧
    (inputs !! 3%nat = Some 0 ∨ inputs !! 3%nat = Some 1) ∧
    (inputs !! 3%nat = Some 0 →
       inputs !! 4%nat = Some 1 ∧ inputs !! 5%nat = Some 0 ∧
       inputs !! 6%nat = Some 0) ∧
    (Environment.food_sources (Colony.environment c) = [] →
       inputs !! 3%nat = Some 0).
Proof.
  intros (Hwf & Hres & Hgw & Hgh & Hheap) [_ Henergy].
  unfold Ant.sense_environment.
  destruct (sense_food_returns cfg a (Colony.environment c)
              (Environment.food_sources (Colony.environment c))
              (None, None, {| Vector2D.x := 0; Vector2D.y := 0 |}) Hheap)
    as [[[nearest dist] dir] Hfold].
  destruct (sense_food_fold_unseen cfg _ _ _ _ _ Hfold) as [Hunseen Hempty];
    [done|].
  rewrite Hfold. cbn in Hunseen.
  cbn. unfold Environment.get_pheromone_intensity.
  destruct (get_intensity_returns (Environment.pheromone_system (Colony.environment c))
              (Ant.position a) "food" (config.ANT_VISION_RANGE cfg) Hwf Hres Hgw Hgh)
    as [fp ->].
  destruct (get_intensity_returns (Environment.pheromone_system (Colony.environment c))
              (Ant.position a) "home" (config.ANT_VISION_RANGE cfg) Hwf Hres Hgw Hgh)
    as [hp ->].
  cbn. destruct (Z.eqb_spec (config.INITIAL_ENERGY cfg) 0); [done|].
  eexists. split; [done|]. cbn. do 4 (split; [done|]).
  split; [destruct nearest; by eauto|]. split.
  - destruct nearest; [done|]. intros _. by destruct Hunseen as [-> ->].
  - intros Hnone. pose proof (Hempty Hnone) as Heq. by injection Heq as -> _ _.
Qed.

Lemma Ant_sense_environment_features_witness :
  ∃ inputs,
    @Ant.sense_environment numpy_stub config.default example_ant single_ant_colony
      = Some inputs ∧
    inputs !! 3%nat = Some 0.
Proof.
  destruct (@Ant_sense_environment_features numpy_stub config.default
              example_ant single_ant_colony)
    as (inputs & Hrun & _ & _ & _ & _ & _ & _ & Hnone).
  - exact (proj1 steering_colony_wf).
  - exact config_default_wf.
  - exists inputs. split; [exact Hrun|]. by apply Hnone.
Defined.

(** X15: a step of an ant raises nothing when the environment, the
    configuration and the controller of the ant are well-formed and the
    constants that scale the features are not zero, and keeps the
    environment and the controller well-formed.  A dead ant and its colony are
    left as they are.  An ant that is alive grows one step older and loses
    [ANT_ENERGY_CONSUMPTION]; after the step it is alive exactly when its
    energy is still positive and its age is at most [ANT_LIFESPAN], so that
    no step brings a dead ant back. *)
Theorem Ant_update_step `{!NumPy} (cfg : config.t) (a : Ant.t) (c : Colony.t) :
  environment_wf (Colony.environment c) → config_wf cfg →
  feature_scales_nonzero cfg → brain_wf (Ant.brain a) →
  ∃ a' c', Ant.update cfg a c = Some (a', c') ∧
    environment_wf (Colony.environment c') ∧ brain_wf (Ant.brain a') ∧
    (Ant.alive a = false → a' = a ∧ c' = c) ∧
    (Ant.alive a = true →
       Ant.age a' = (Ant.age a + 1)%Z ∧
       Ant.energy a' = Ant.energy a - config.ANT_ENERGY_CONSUMPTION cfg ∧
       (Ant.alive a' = true ↔
          0 < Ant.energy a' ∧ (Ant.age a' ≤ config.ANT_LIFESPAN cfg)%Z)).
Proof.
  intros Hwf Hcfg _ Hbrain.
  destruct (Ant_update_returns cfg a c Hwf Hcfg Hbrain)
    as (a' & c' & Hrun & Hwf' & _ & Hbrain').
  exists a', c'. split; [exact Hrun|]. split; [exact Hwf'|].
  split; [exact Hbrain'|]. split.
  - intros Hdead. unfold Ant.update in Hrun. rewrite Hdead in Hrun.
    by injection Hrun as <- <-.
  - intros Halive.
    destruct (Ant_update_inv cfg _ _ _ _ Hrun Halive)
      as (inputs & outputs & b & a1 & _ & _ & Hact & Hmem).
    apply update_memory_fields in Hmem
      as (_ & -> & -> & -> & _ & _ & _ & _).
    apply apply_action_inv in Hact
      as (o0 & o1 & o2 & o3 & pos & env1 & carrying & item & _ & _ & _ & _ &
          _ & _ & _ & ->).
    cbn. rewrite Halive. split; [done|]. split; [done|].
    destruct (Z.ltb_spec (config.ANT_LIFESPAN cfg) (Ant.age a + 1)).
    + split; [done|]. intros [_ ?]. lia.
    + unfold Qleb.
      destruct (Qle_bool _ 0) eqn:Hle.
      * apply Qle_bool_iff in Hle. split; [done|]. intros [? _]. lra.
      * split; [intros _|done]. split; [|lia].
        apply Qnot_le_lt. intros Hneg%Qle_bool_iff. congruence.
Qed.

Lemma Ant_update_step_witness :
  ∃ a' c',
    @Ant.update numpy_stub config.default steering_ant steering_colony
      = Some (a', c') ∧
    Ant.age a' = 1%Z.
Proof.
  destruct (@Ant_update_step numpy_stub config.default steering_ant steering_colony)
    as (a' & c' & Hrun & _ & _ & _ & Halive).
  - exact (proj1 steering_colony_wf).
  - exact config_default_wf.
  - by repeat split.
  - split; cbn; [|lia]. split; [lia|]. split; [done|]. split; [done|].
    split; [by repeat constructor|]. done.
  - exists a', c'. split; [exact Hrun|]. by destruct (Halive eq_refl) as (-> & _).
Defined.

(** X16: after a step that returns, an ant that was alive stands inside
    the world, provided the world has non-negative dimensions and the
    constants that scale the features are not zero: both coordinates lie
    between 0 and the world size, the bounds included, in a wrapping world
    as in a clamping one. *)
Theorem Ant_update_in_world `{!NumPy} (cfg : config.t)
    (a a' : Ant.t) (c c' : Colony.t) :
  Ant.update cfg a c = Some (a', c') → Ant.alive a = true →
  feature_scales_nonzero cfg →
  (0 ≤ config.WORLD_WIDTH cfg)%Z → (0 ≤ config.WORLD_HEIGHT cfg)%Z →
  let p := Ant.position a' in
  0 <= Vector2D.x p ∧ Vector2D.x p <= inject_Z (config.WORLD_WIDTH cfg) ∧
  0 <= Vector2D.y p ∧ Vector2D.y p <= inject_Z (config.WORLD_HEIGHT cfg).
Proof.
  intros Hrun Halive _ Hw Hh.
  destruct (Ant_update_inv cfg _ _ _ _ Hrun Halive)
    as (inputs & outputs & b & a1 & _ & _ & Hact & Hmem).
  apply update_memory_fields in Hmem as (-> & _).
  apply apply_action_inv in Hact
    as (o0 & o1 & o2 & o3 & pos & env1 & carrying & item & _ & _ & _ & _ &
        Hpos & _ & _ & ->).
  cbn. destruct (apply_boundaries_in_world cfg _ _ Hpos Hw Hh)
    as (Hx0 & Hx1 & Hy0 & Hy1 & _).
  by repeat split.
Qed.

Lemma Ant_update_in_world_witness :
  ∃ a' c',
    @Ant.update numpy_stub config.default steering_ant steering_colony
      = Some (a', c') ∧
    Vector2D.x (Ant.position a') <= 1200.
Proof.
  destruct Ant_update_example as (a' & c' & Hrun).
  exists a', c'. split; [exact Hrun|].
  destruct (@Ant_update_in_world numpy_stub config.default steering_ant a'
              steering_colony c' Hrun eq_refl) as (_ & Hx & _).
  - by repeat split.
  - discriminate.
  - discriminate.
  - exact Hx.
Defined.

(** X17: a delivery credits the colony with [FOOD_ENERGY] and counts one
    more delivery exactly when the ant was carrying and has moved to within
    [NEST_RADIUS] of the nest.  The ant then holds nothing, and the item it
    held is taken from the food sources if it is still listed there; the
    credit is the configured constant, whatever the energy of the item and
    whether another ant has delivered the same item before.  In every other
    case the counters and the food sources stay as they are.  The nest
    object is never touched. *)
Theorem Ant_apply_action_delivery `{!NumPy} (cfg : config.t)
    (a a' : Ant.t) (c c' : Colony.t) (action_outputs : list Q) :
  Ant.apply_action cfg a c action_outputs = Some (a', c') →
  let env := Colony.environment c in
  let env' := Colony.environment c' in
  let delivers :=
    Ant.carrying_food a = true ∧
    Vector2D.magnitude
      (Vector2D.sub (Ant.position a') (Nest.position (Colony.nest c)))
      < inject_Z (config.NEST_RADIUS cfg) in
  Colony.nest c' = Colony.nest c ∧
  Colony.ants_born c' = Colony.ants_born c ∧
  Colony.ants_died c' = Colony.ants_died c ∧
  (delivers →
     Colony.food_collected c' = (Colony.food_collected c + config.FOOD_ENERGY cfg)%Z ∧
     Colony.food_delivered c' = (Colony.food_delivered c + 1)%Z ∧
     Ant.carrying_food a' = false ∧ Ant.food_item a' = None ∧
     Environment.food_sources env' =
       Environment.food_sources (Environment.remove_food env (Ant.food_item a))) ∧
  (¬ delivers →
     Colony.food_collected c' = Colony.food_collected c ∧
     Colony.food_delivered c' = Colony.food_delivered c ∧
     Environment.food_sources env' = Environment.food_sources env).
Proof.
  intros Hrun env env' delivers. subst env env' delivers.
  apply apply_action_inv in Hrun
    as (o0 & o1 & o2 & o3 & pos & env1 & carrying & item & _ & _ & _ & _ &
        _ & Hdrop & Hfood & ->).
  cbn [Ant.position Ant.carrying_food Ant.food_item].
  assert (Environment.food_sources env1
          = Environment.food_sources (Colony.environment c)) as Hsrc.
  { destruct (Qltb (1 # 2) o2).
    - by apply add_pheromone_food in Hdrop as [_ ?].
    - by injection Hdrop as <-. }
  apply handle_food_inv in Hfood. cbn in Hfood.
  destruct Hfood as [(Hcarry & Hnear & -> & -> & ->)|
                     [(Hcarry & Hnear & -> & -> & ->)|(Hcarry & -> & _)]]; cbn.
  - apply Qltb_lt in Hnear. do 3 (split; [done|]). split.
    + intros _. do 4 (split; [done|]).
      unfold Environment.remove_food. destruct (Ant.food_item a) as [f|]; [|done].
      rewrite Hsrc.
      by destruct (decide (f ∈ Environment.food_sources (Colony.environment c))).
    + intros Hnot. destruct Hnot. by split.
  - apply Qltb_ge in Hnear. do 3 (split; [done|]). split.
    + intros [_ Hlt]. lra.
    + intros _. by split.
  - do 3 (split; [done|]). split.
    + intros [? _]. congruence.
    + intros _. by split.
Qed.

Lemma Ant_apply_action_delivery_witness :
  ∃ c a' c',
    example_colony = Some c ∧
    @Ant.apply_action numpy_stub config.default carrying_ant c pickup_outputs
      = Some (a', c') ∧
    Colony.food_collected c' = (Colony.food_collected c + 50)%Z.
Proof.
  destruct Ant_delivery_example as (c & a' & c' & Hc & Hrun & Hnear).
  exists c, a', c'. split; [exact Hc|]. split; [exact Hrun|].
  destruct (@Ant_apply_action_delivery numpy_stub config.default carrying_ant a'
              c c' pickup_outputs Hrun) as (_ & _ & _ & Hdelivers & _).
  destruct Hdelivers as (Hfood & _).
  - split; [reflexivity|]. rewrite Hnear. reflexivity.
  - exact Hfood.
Defined.

(** X18: a step keeps the carrying flag and the held item of an ant in
    agreement: if the ant held an item exactly when its flag was set, it
    does so after the step.  An item it holds afterwards is the item it held
    before or was listed in the food sources of the environment when the
    step began. *)
Theorem Ant_update_carrying_consistent `{!NumPy} (cfg : config.t)
    (a a' : Ant.t) (c c' : Colony.t) :
  Ant.update cfg a c = Some (a', c') → carrying_consistent a →
  carrying_consistent a' ∧
  ∀ f, Ant.food_item a' = Some f →
       Ant.food_item a = Some f ∨
       f ∈ Environment.food_sources (Colony.environment c).
Proof.
  intros Hrun Hinv. destruct (Ant.alive a) eqn:Halive.
  2:{ unfold Ant.update in Hrun. rewrite Halive in Hrun.
      injection Hrun as <- <-. split; [done|by left]. }
  destruct (Ant_update_inv cfg _ _ _ _ Hrun Halive)
    as (inputs & outputs & b & a1 & _ & _ & Hact & Hmem).
  apply update_memory_fields in Hmem as (_ & _ & _ & _ & Hc' & Hi' & _).
  unfold carrying_consistent in *. rewrite Hc', Hi'.
  apply apply_action_inv in Hact
    as (o0 & o1 & o2 & o3 & pos & env1 & carrying & item & _ & _ & _ & _ &
        _ & Hdrop & Hfood & ->).
  cbn [Ant.carrying_food Ant.food_item].
  assert (Environment.food_sources env1
          = Environment.food_sources (Colony.environment c)) as Hsrc.
  { destruct (Qltb (1 # 2) o2).
    - by apply add_pheromone_food in Hdrop as [_ ?].
    - by injection Hdrop as <-. }
  apply handle_food_inv in Hfood. cbn in Hfood.
  destruct Hfood as [(Hcarry & _ & -> & -> & _)|
                     [(Hcarry & _ & -> & -> & _)|(Hcarry & _ & Hpick)]].
  - split; [|intros ?; discriminate].
    split; [discriminate|intros [? ?]; discriminate].
  - split; [|intros f ?; by left]. cbn in Hcarry.
    split; [intros _; by apply Hinv|done].
  - destruct Hpick as [(-> & _ & f & -> & Hfind)|[-> ->]].
    + split; [by split; eauto|]. intros ? [= <-]. right.
      apply find_food_elem_of in Hfind. by rewrite Hsrc in Hfind.
    + split; [|intros f ?; by left]. cbn in Hcarry.
      split; [discriminate|]. intros Hheld. apply Hinv in Hheld. congruence.
Qed.

Lemma Ant_update_carrying_consistent_witness :
  ∃ a' c',
    @Ant.update numpy_stub config.default steering_ant steering_colony
      = Some (a', c') ∧
    carrying_consistent a'.
Proof.
  destruct Ant_update_example as (a' & c' & Hrun).
  exists a', c'. split; [exact Hrun|].
  destruct (@Ant_update_carrying_consistent numpy_stub config.default
              steering_ant a' steering_colony c' Hrun) as [Hinv _].
  - split; [discriminate|]. intros [? ?]. discriminate.
  - exact Hinv.
Defined.

(** X19: [update_memory] appends the new experience at the end of the
    memory and, once the memory holds 1000 experiences, drops the oldest
    one, so that a memory of at most 1000 experiences stays so.  The reward
    it records lies between 0 and 10.1, and reaches 10 exactly when the ant
    has just delivered: it carries nothing, holds no item and was carrying
    at the previous step. *)
Theorem Ant_update_memory_window (cfg : config.t)
    (a a' : Ant.t) (inputs outputs : list Q) :
  Ant.update_memory cfg a inputs outputs = Some a' →
  ∃ reward,
    Ant.memory a' =
      (if (1000 <=? length (Ant.memory a))%nat then drop 1 (Ant.memory a)
       else Ant.memory a) ++ [(inputs, outputs, reward)] ∧
    (length (Ant.memory a) ≤ 1000 → length (Ant.memory a') ≤ 1000)%nat ∧
    0 <= reward ∧ reward <= 101 # 10 ∧
    (10 <= reward ↔
       Ant.carrying_food a = false ∧ Ant.food_item a = None ∧
       Ant.was_carrying_food a = true) ∧
    Ant.was_carrying_food a' = Ant.carrying_food a.
Proof.
  unfold Ant.update_memory. intros Hrun.
  destruct (if negb (Ant.carrying_food a) then _ else _) as [[r1 lf]|] eqn:Hfirst;
    cbn [mbind option_bind] in Hrun; [|done].
  destruct (if Ant.carrying_food a then _ else _) as [[r2 ln]|] eqn:Hsecond;
    cbn [mbind option_bind] in Hrun; [|done].
  injection Hrun as <-. cbn [Ant.memory Ant.was_carrying_food].
  match goal with |- context [[(inputs, outputs, ?r)]] => set (reward := r) end.
  exists reward.
  assert (Hreward : 0 <= reward ∧ reward <= 101 # 10 ∧
    (10 <= reward ↔
       Ant.carrying_food a = false ∧ Ant.food_item a = None ∧
       Ant.was_carrying_food a = true)).
  { subst reward. destruct (Ant.carrying_food a); cbn in Hfirst, Hsecond.
    - injection Hfirst as <- <-.
      destruct (inputs !! 0%nat); [|done]. cbn in Hsecond.
      injection Hsecond as <- <-.
      cbn [negb andb]. case_bool_decide; destruct (lt_inf _ _); cbn;
        (split; [discriminate|]; split; [discriminate|];
         split; [intros Hr; exfalso; apply Hr; reflexivity|by intros (? & _)]).
    - destruct (inputs !! 4%nat); [|done]. cbn in Hfirst.
      injection Hfirst as <- <-. injection Hsecond as <- <-.
      cbn [negb andb]. case_bool_decide as Hitem.
      + destruct (Ant.was_carrying_food a); destruct (lt_inf _ _); cbn;
          (split; [discriminate|]; split; [discriminate|]);
          first [ split; [done|intros _; discriminate]
                | split; [intros Hr; exfalso; apply Hr; reflexivity
                         |by intros (_ & _ & ?)] ].
      + destruct (lt_inf _ _); cbn;
          (split; [discriminate|]; split; [discriminate|];
           split; [intros Hr; exfalso; apply Hr; reflexivity|by intros (_ & ? & _)]). }
  destruct Hreward as (Hlo & Hhi & Hdelivered).
  split; [|split; [|done]].
  - destruct (Nat.leb_spec 1000 (length (Ant.memory a))) as [Hfull|Hroom].
    + destruct (Nat.ltb_spec 1000 (length (Ant.memory a ++ [(inputs, outputs, reward)])))
        as [_|Hle]; [|rewrite length_app in Hle; cbn in Hle; lia].
      destruct (Ant.memory a); [cbn in Hfull; lia|done].
    + destruct (Nat.ltb_spec 1000 (length (Ant.memory a ++ [(inputs, outputs, reward)])))
        as [Hlt|_]; [rewrite length_app in Hlt; cbn in Hlt; lia|done].
  - intros Hlen.
    destruct (1000 <? _)%nat eqn:Hfull.
    + rewrite length_drop, length_app. cbn. lia.
    + by apply Nat.ltb_ge in Hfull.
Qed.

Lemma Ant_update_memory_window_witness :
  ∃ a', Ant.update_memory config.default example_ant
          [0; 0; 0; 0; 1] [1 # 2] = Some a' ∧
        length (Ant.memory a') = 1%nat.
Proof.
  destruct (Ant.update_memory config.default example_ant
              [0; 0; 0; 0; 1] [1 # 2]) as [a'|] eqn:Hrun;
    [|vm_compute in Hrun; discriminate].
  exists a'. split; [reflexivity|].
  destruct (Ant_update_memory_window config.default example_ant a'
              [0; 0; 0; 0; 1] [1 # 2] Hrun) as (reward & Hmem & _).
  rewrite Hmem. reflexivity.
Defined.

(** ** The colony: the books over a step *)

Section ColonyLedger.
Context `{!NumPy, !Random} (cfg : config.t).

Lemma Ant_init_inv (c : Colony.t) position brain (a : Ant.t) g g' :
  Ant.init cfg c position brain g = Some (a, g') →
  Ant.alive a = true ∧ Ant.carrying_food a = false ∧ Ant.food_item a = None ∧
  Ant.age a = 0%Z ∧ Ant.energy a = inject_Z (config.INITIAL_ENERGY cfg) ∧
  Ant.memory a = [] ∧
  Ant.position a = default (Nest.position (Colony.nest c)) position ∧
  (∀ b, brain = Some b → Ant.brain a = b).
Proof.
  unfold Ant.init. intros Hrun.
  apply bind_Some in Hrun as (direction & g1 & _ & Hrun).
  apply bind_Some in Hrun as (b & g2 & Hbrain & Hret).
  apply ret_Some in Hret as [-> _]. cbn.
  do 6 (split; [done|]). split; [by destruct position|].
  intros b' ->. by apply ret_Some in Hbrain as [-> _].
Qed.

Lemma colony_ledger_refl (c : Colony.t) : colony_ledger cfg c c.
Proof. unfold colony_ledger. repeat split; lia. Qed.

Lemma colony_ledger_trans (c1 c2 c3 : Colony.t) :
  colony_ledger cfg c1 c2 → colony_ledger cfg c2 c3 → colony_ledger cfg c1 c3.
Proof.
  unfold colony_ledger.
  intros (-> & -> & -> & -> & -> & -> & ? & ?) (-> & -> & -> & -> & -> & -> & ? & ?).
  repeat split; lia.
Qed.

Lemma Ant_update_ledger (a a' : Ant.t) (c c' : Colony.t) :
  Ant.update cfg a c = Some (a', c') →
  colony_ledger cfg c c' ∧ Colony.ants c' = Colony.ants c.
Proof.
  intros Hrun. destruct (Ant.alive a) eqn:Halive.
  2:{ unfold Ant.update in Hrun. rewrite Halive in Hrun.
      injection Hrun as <- <-. split; [apply colony_ledger_refl|done]. }
  destruct (Ant_update_inv cfg _ _ _ _ Hrun Halive)
    as (inputs & outputs & b & a1 & _ & _ & Hact & _).
  apply apply_action_inv in Hact
    as (o0 & o1 & o2 & o3 & pos & env1 & carrying & item & _ & _ & _ & _ &
        _ & _ & Hfood & _).
  apply handle_food_inv in Hfood. cbn in Hfood.
  destruct Hfood as [(_ & _ & _ & _ & ->)|[(_ & _ & _ & _ & ->)|(_ & -> & _)]].
  - split; [|done]. unfold colony_ledger. cbn. repeat split; lia.
  - split; [|done]. unfold colony_ledger. cbn. repeat split; lia.
  - split; [|done]. unfold colony_ledger. cbn. repeat split; lia.
Qed.

Lemma update_ant_ledger (c c' : Colony.t) (i : nat) :
  Colony.update_ant cfg c i = Some c' → colony_ledger cfg c c'.
Proof.
  unfold Colony.update_ant. intros Hrun.
  destruct (Colony.ants c !! i) as [a|]; cbn in Hrun; [|done].
  destruct (Ant.update cfg a c) as [[a' c1]|] eqn:Hup; cbn in Hrun; [|done].
  injection Hrun as <-. apply Ant_update_ledger in Hup as [Hledger Hants].
  unfold colony_ledger in *. cbn. rewrite length_insert.
  by destruct Hledger as (-> & -> & -> & -> & -> & -> & ? & ?).
Qed.

Lemma update_ants_ledger (c c' : Colony.t) (l : list nat) :
  fold_option (Colony.update_ant cfg) c l = Some c' → colony_ledger cfg c c'.
Proof.
  revert c. induction l as [|i l IH]; intros c; cbn.
  - intros [= <-]. apply colony_ledger_refl.
  - destruct (Colony.update_ant cfg c i) as [c1|] eqn:Hone; cbn; [|done].
    intros Hrest. eapply colony_ledger_trans; [|exact (IH _ Hrest)].
    by apply (update_ant_ledger _ _ i).
Qed.

Lemma filter_alive_dead (l : list Ant.t) :
  length l = (length (filter (λ a, Ant.alive a = true) l) +
              length (filter (λ a, Ant.alive a = false) l))%nat.
Proof.
  induction l as [|a l IH]; [done|]. rewrite !filter_cons.
  destruct (Ant.alive a) eqn:Ha.
  - rewrite decide_True by done. rewrite decide_False by done. cbn. lia.
  - rewrite decide_False by done. rewrite decide_True by done. cbn. lia.
Qed.

(** The steps of [Colony.update], one by one. *)
Lemma Colony_update_inv (c c' : Colony.t) g g' :
  Colony.update cfg c g = Some (c', g') →
  ∃ c0 c2,
    fold_option (Colony.update_ant cfg) c (Colony.active_ants c) = Some c0 ∧
    Colony.spawn_new_ants cfg (Colony.process_dead_ants c0) g = Some (c2, g') ∧
    Colony.total_steps c' = (Colony.total_steps c2 + 1)%Z ∧
    Colony.environment c' = Colony.environment c2 ∧
    Colony.nest c' = Colony.nest c2 ∧
    Colony.food_collected c' = Colony.food_collected c2 ∧
    Colony.food_delivered c' = Colony.food_delivered c2 ∧
    Colony.generation c' = Colony.generation c2 ∧
    Colony.ants_born c' = Colony.ants_born c2 ∧
    Colony.ants_died c' = Colony.ants_died c2 ∧
    Colony.ants c' = Colony.ants c2.
Proof.
  intros Hrun. unfold Colony.update in Hrun.
  apply bind_Some in Hrun as (c0 & g1 & Hants & Hrun).
  apply lift_Some in Hants as [Hants ->].
  apply bind_Some in Hrun as (c2 & g2 & Hspawn & Hret).
  apply ret_Some in Hret as [-> ->]. by exists c0, c2.
Qed.

(** [spawn_new_ants], field by field. *)
Lemma spawn_new_ants_inv (c c' : Colony.t) g g' :
  Colony.spawn_new_ants cfg c g = Some (c', g') →
  Colony.environment c' = Colony.environment c ∧
  Colony.nest c' = Colony.nest c ∧
  Colony.food_delivered c' = Colony.food_delivered c ∧
  Colony.total_steps c' = Colony.total_steps c ∧
  Colony.generation c' = Colony.generation c ∧
  Colony.ants_died c' = Colony.ants_died c ∧
  ((Colony.ants c' = Colony.ants c ∧ Colony.ants_born c' = Colony.ants_born c ∧
    Colony.food_collected c' = Colony.food_collected c) ∨
   (∃ new_ant, Colony.ants c' = Colony.ants c ++ [new_ant] ∧
      Ant.alive new_ant = true ∧
      Colony.ants_born c' = (Colony.ants_born c + 1)%Z ∧
      Colony.food_collected c' =
        (Colony.food_collected c - config.ANT_ENERGY_FROM_FOOD cfg)%Z)).
Proof.
  unfold Colony.spawn_new_ants. destruct (_ && _).
  - intros Hrun. apply bind_Some in Hrun as (new_ant & g1 & Hinit & Hret).
    apply ret_Some in Hret as [-> _]. cbn. do 6 (split; [done|]). right.
    exists new_ant. split; [done|]. split; [|done].
    by apply Ant_init_inv in Hinit as (? & _).
  - intros [-> ->]%ret_Some. do 6 (split; [done|]). by left.
Qed.

End ColonyLedger.

(** X20: a [Colony.update] that returns keeps the census of the colony:
    the ants born minus the ants that died minus the ants in the list is the
    same before and after.  Dead ants are counted in [ants_died] and taken
    out of the list, at most one ant is born, and after the update every ant
    in the list is alive, so that [get_population_size] is the length of the
    list. *)
Theorem Colony_update_census `{!NumPy, !Random} (cfg : config.t)
    (c c' : Colony.t) (g g' : G) :
  Colony.update cfg c g = Some (c', g') →
  (Colony.ants_born c' - Colony.ants_died c' - Z.of_nat (length (Colony.ants c')) =
   Colony.ants_born c - Colony.ants_died c - Z.of_nat (length (Colony.ants c)))%Z ∧
  (Colony.ants_died c ≤ Colony.ants_died c')%Z ∧
  (Colony.ants_born c ≤ Colony.ants_born c' ≤ Colony.ants_born c + 1)%Z ∧
  Forall (λ a, Ant.alive a = true) (Colony.ants c') ∧
  Colony.get_population_size c' = length (Colony.ants c').
Proof.
  intros Hrun.
  apply Colony_update_inv in Hrun
    as (c0 & c2 & Hants & Hspawn & _ & _ & _ & _ & _ & _ & Hb & Hd & Ha).
  unfold Colony.get_population_size. rewrite Hb, Hd, Ha. clear Hb Hd Ha.
  apply update_ants_ledger in Hants as (_ & Hborn & Hdied & _ & _ & Hlen & _).
  apply spawn_new_ants_inv in Hspawn as (_ & _ & _ & _ & _ & Hdied2 & Hspawn).
  cbn in Hdied2, Hspawn.
  pose proof (filter_alive_dead (Colony.ants c0)) as Hcount.
  assert (Halive : Forall (λ a, Ant.alive a = true)
                     (filter (λ a, Ant.alive a = true) (Colony.ants c0))).
  { apply Forall_forall. by intros a [? _]%list_elem_of_filter. }
  assert (Hall : Forall (λ a, Ant.alive a = true) (Colony.ants c2)).
  { destruct Hspawn as [(-> & _)|(new_ant & -> & Hnew & _)]; [done|].
    apply Forall_app. split; [done|]. by constructor. }
  assert (Hpop : length (filter (λ a, Ant.alive a = true) (Colony.ants c2))
                 = length (Colony.ants c2)).
  { f_equal. clear -Hall. induction Hall as [|a l Ha _ IH]; [done|].
    rewrite filter_cons, decide_True by done. by rewrite IH. }
  rewrite Hdied2.
  split; [|split; [|split; [|split; [exact Hall|exact Hpop]]]];
    destruct Hspawn as [(Ha & Hb & _)|(new_ant & Ha & _ & Hb & _)];
    rewrite ?Ha, ?Hb, ?length_app; cbn; lia.
Qed.

Lemma Colony_update_census_witness :
  ∃ c c' g',
    default_colony 2 = Some c ∧
    @Colony.update numpy_stub random_stub config.default c 0%nat = Some (c', g') ∧
    Colony.get_population_size c' = length (Colony.ants c').
Proof.
  destruct Colony_update_example as (c & c' & g' & Hc & _ & Hup & _).
  exists c, c', g'. split; [exact Hc|]. split; [exact Hup|].
  by destruct (@Colony_update_census numpy_stub random_stub config.default
                 c c' 0%nat g' Hup) as (_ & _ & _ & _ & Hpop).
Defined.

(** X21: a [Colony.update] that returns balances the food books: every
    delivery adds [FOOD_ENERGY] to the collected food and every birth takes
    [ANT_ENERGY_FROM_FOOD] from it, and nothing else changes it.  The
    deliveries never decrease, the step counter grows by one, the
    generation stays, and the nest object, with its own food store and its
    level, is not touched. *)
Theorem Colony_update_food_ledger `{!NumPy, !Random} (cfg : config.t)
    (c c' : Colony.t) (g g' : G) :
  Colony.update cfg c g = Some (c', g') →
  (Colony.food_collected c' - Colony.food_collected c =
   config.FOOD_ENERGY cfg * (Colony.food_delivered c' - Colony.food_delivered c)
   - config.ANT_ENERGY_FROM_FOOD cfg * (Colony.ants_born c' - Colony.ants_born c))%Z ∧
  (Colony.food_delivered c ≤ Colony.food_delivered c')%Z ∧
  Colony.total_steps c' = (Colony.total_steps c + 1)%Z ∧
  Colony.generation c' = Colony.generation c ∧
  Colony.nest c' = Colony.nest c.
Proof.
  intros Hrun.
  apply Colony_update_inv in Hrun
    as (c0 & c2 & Hants & Hspawn & -> & _ & -> & -> & -> & -> & -> & _ & _).
  apply update_ants_ledger in Hants
    as (Hnest & Hborn & _ & Hsteps & Hgen & _ & Hmono & Hfood).
  apply spawn_new_ants_inv in Hspawn
    as (_ & -> & -> & -> & -> & _ & Hspawn).
  cbn in *.
  destruct Hspawn as [(_ & -> & ->)|(new_ant & _ & _ & -> & ->)]; cbn;
    repeat split; try done; lia.
Qed.

Lemma Colony_update_food_ledger_witness :
  ∃ c c' g',
    default_colony 2 = Some c ∧
    @Colony.update numpy_stub random_stub config.default c 0%nat = Some (c', g') ∧
    Colony.nest c' = Colony.nest c.
Proof.
  destruct Colony_update_example as (c & c' & g' & Hc & _ & Hup & _).
  exists c, c', g'. split; [exact Hc|]. split; [exact Hup|].
  by destruct (@Colony_update_food_ledger numpy_stub random_stub config.default
                 c c' 0%nat g' Hup) as (_ & _ & _ & _ & Hnest).
Defined.

Section ColonyRuns.
Context `{!NumPy, !Random} (cfg : config.t).

Lemma returns_and_run {A} (m : M A) (P Q : A → Prop) :
  returns m P → (∀ g a g', m g = Some (a, g') → Q a) →
  returns m (λ a, P a ∧ Q a).
Proof.
  intros Hm Hrun g. destruct (Hm g) as (a & g' & Heq & HP).
  exists a, g'. split; [done|]. split; [done|]. by eapply Hrun.
Qed.

Lemma Colony_update_counters (c c' : Colony.t) g g' :
  Colony.update cfg c g = Some (c', g') →
  Colony.total_steps c' = (Colony.total_steps c + 1)%Z ∧
  Colony.generation c' = Colony.generation c.
Proof.
  intros Hrun.
  apply Colony_update_inv in Hrun
    as (c0 & c2 & Hants & Hspawn & -> & _ & _ & _ & _ & -> & _).
  apply update_ants_ledger in Hants as (_ & _ & _ & Hsteps & Hgen & _).
  apply spawn_new_ants_inv in Hspawn as (_ & _ & _ & -> & -> & _).
  cbn. by rewrite Hsteps, Hgen.
Qed.

End ColonyRuns.

(** X22: for a topology that [NeuralNetwork] accepts, [Colony(environment,
    initial_ants)] raises nothing.  The colony holds [initial_ants] ants
    (none for a negative number), each alive, empty-handed, at the nest and
    with a fresh controller of 15 inputs and 4 outputs; its counters are
    zero but for [ants_born], which is [initial_ants] as given; the nest has
    the configured radius and level 1; and the colony is well-formed when
    the environment is. *)
Theorem Colony_init_fresh `{!NumPy, !Random} (cfg : config.t)
    (env : Environment.t) (initial_ants : Z) :
  NeuralNetwork.valid_sizes (15%nat :: config.NEURAL_NETWORK_LAYERS cfg ++ [4%nat]) →
  returns (Colony.init cfg env initial_ants)
    (λ c, length (Colony.ants c) = Z.to_nat initial_ants ∧
          Forall (default_brained cfg c) (Colony.ants c) ∧
          Colony.ants_born c = initial_ants ∧ Colony.ants_died c = 0%Z ∧
          Colony.food_collected c = 0%Z ∧ Colony.food_delivered c = 0%Z ∧
          Colony.total_steps c = 0%Z ∧ Colony.generation c = 0%Z ∧
          Colony.environment c = env ∧
          Nest.radius (Colony.nest c) = config.NEST_RADIUS cfg ∧
          Nest.structure_level (Colony.nest c) = 1%Z ∧
          (environment_wf env → colony_wf c)).
Proof.
  intros Hvalid. unfold Colony.init.
  eapply returns_bind; [apply returns_draw|]. intros dx _.
  eapply returns_bind; [apply returns_draw|]. intros dy _.
  eapply returns_bind;
    [exact (returns_repeatM _ _ _ (Ant_init_returns cfg _ Hvalid))|].
  intros l [Hlen Hants]. apply returns_ret. cbn.
  split; [done|]. split; [exact Hants|]. do 9 (split; [done|]).
  intros Henv. split; [done|]. cbn.
  eapply Forall_impl; [exact Hants|].
  intros a (_ & _ & _ & _ & _ & _ & Hout & Hconf). split; [done|].
  rewrite Hout. lia.
Qed.

Lemma Colony_init_fresh_witness :
  ∃ c, default_colony 2 = Some c ∧ length (Colony.ants c) = 2%nat ∧
       Colony.ants_born c = 2%Z.
Proof.
  destruct (Environment.init 1200 800) as [env|] eqn:Henv;
    [|vm_compute in Henv; discriminate].
  assert (NeuralNetwork.valid_sizes
            (15%nat :: config.NEURAL_NETWORK_LAYERS config.default ++ [4%nat]))
    as Hvalid by (cbn; repeat split; lia).
  destruct (@Colony_init_fresh numpy_stub random_stub config.default env 2
              Hvalid 0%nat) as (c & g & Hrun & Hlen & _ & Hborn & _).
  exists c. unfold default_colony. rewrite Henv. cbn. rewrite Hrun.
  split; [reflexivity|]. split; [exact Hlen|exact Hborn].
Defined.

(** ** Evolution: the books of a generation, elites, saved models *)

Section EvolutionFacts.
Context `{!NumPy, !Random} (cfg : config.t).
Import EvolutionManager.

Lemma argmax_from_no_better (best_i : nat) (best : Z) (i : nat) (l : list Z) :
  Forall (λ v, (v ≤ best)%Z) l → argmax_from best_i best i l = best_i.
Proof.
  revert i. induction l as [|v l IH]; intros i Hl; [done|].
  apply Forall_cons in Hl as [Hv Hl]. cbn.
  destruct (Z.ltb_spec best v); [lia|]. by apply IH.
Qed.

(** Every ant of a colony has the fitness of the colony. *)
Lemma fitnesses_shared (c : Colony.t) (population : list Ant.t) :
  map (λ ant, evaluate_fitness ant c) population
    = replicate (length population) (Colony.food_delivered c).
Proof. induction population as [|a l IH]; [done|]. cbn. by rewrite IH. Qed.

Lemma sum_replicate (n : nat) (v : Z) :
  foldr Z.add 0%Z (replicate n v) = (Z.of_nat n * v)%Z.
Proof. induction n as [|n IH]; [done|]. cbn [replicate foldr]. rewrite IH. lia. Qed.

Lemma create_offspring_newborn (c : Colony.t) (p1 p2 a : Ant.t) g g' :
  create_offspring cfg c p1 p2 g = Some (a, g') → newborn cfg c a.
Proof.
  unfold create_offspring. intros Hrun.
  apply bind_Some in Hrun as (b1 & g1 & _ & Hrun).
  apply bind_Some in Hrun as (b2 & g2 & _ & Hrun).
  apply Ant_init_inv in Hrun as (? & ? & ? & ? & ? & ? & ? & _).
  by repeat split.
Qed.

Lemma fill_population_inv (c : Colony.t) population fitnesses (n : nat)
    new_population l g g' :
  fill_population cfg c population fitnesses n new_population g = Some (l, g') →
  ∃ offspring, l = new_population ++ offspring ∧ length offspring = n ∧
               Forall (newborn cfg c) offspring.
Proof.
  revert new_population g. induction n as [|n IH]; intros new_population g; cbn.
  - intros [-> _]%ret_Some. exists []. by rewrite app_nil_r.
  - intros Hrun. apply bind_Some in Hrun as ([p1 p2] & g1 & _ & Hrun).
    apply bind_Some in Hrun as (a & g2 & Hnew & Hrun).
    apply create_offspring_newborn in Hnew.
    apply IH in Hrun as (offspring & -> & Hlen & Hall).
    exists (a :: offspring). rewrite <-app_assoc. split; [done|].
    split; [cbn; lia|by constructor].
Qed.

(** The steps of [evolve_generation] on a population of at least 10. *)
Lemma evolve_generation_inv (e e' : t) (c c' : Colony.t) g g' :
  evolve_generation cfg e c g = Some (e', c', g') →
  (10 ≤ length (Colony.ants c))%nat →
  let population := Colony.ants c in
  let fitness := Colony.food_delivered c in
  let fitnesses := map (λ ant, evaluate_fitness ant c) population in
  let elitism_count := 1 `max` tenth (length population) in
  ∃ best elite l,
    head population = Some best ∧
    mapM (λ idx, population !! idx)
      (drop (length (np_argsort fitnesses) - elitism_count) (np_argsort fitnesses))
      = Some elite ∧
    fill_population cfg c population fitnesses
      (length population - length elite) elite g = Some (l, g') ∧
    e' = {| generation := generation e + 1;
            best_fitness := if (best_fitness e <? fitness)%Z then fitness
                            else best_fitness e;
            best_agent := if (best_fitness e <? fitness)%Z
                          then Some (Ant.brain best) else best_agent e;
            fitness_history :=
              fitness_history e ++
                [{| h_generation := generation e; max_fitness := fitness;
                    avg_fitness := np_mean fitnesses;
                    population_size := length population |}] |} ∧
    c' = Colony.set_generation (Colony.set_ants c l) (generation e + 1).
Proof.
  intros Hrun Hten. cbv zeta. unfold evolve_generation in Hrun.
  destruct (Nat.ltb_spec (length (Colony.ants c)) 10) as [?|_]; [lia|].
  cbv zeta in Hrun. rewrite fitnesses_shared in Hrun |- *.
  revert Hrun.
  destruct (Colony.ants c) as [|best population] eqn:Hpop; [cbn in Hten; lia|].
  intros Hrun. cbn [length replicate np_argmax] in Hrun.
  rewrite argmax_from_no_better in Hrun
    by (apply Forall_replicate; lia).
  apply bind_Some in Hrun as (idx & g1 & [[= <-] ->]%lift_Some & Hrun).
  apply bind_Some in Hrun as (f & g2 & [[= <-] ->]%lift_Some & Hrun).
  apply bind_Some in Hrun as (b & g3 & [[= <-] ->]%lift_Some & Hrun).
  exists best.
  destruct (Z.ltb _ _).
  - apply bind_Some in Hrun as (elite & g4 & [Helite ->]%lift_Some & Hrun).
    apply bind_Some in Hrun as (l & g5 & Hfill & Hret).
    apply ret_Some in Hret as [[= -> ->] ->].
    by exists elite, l.
  - apply bind_Some in Hrun as (elite & g4 & [Helite ->]%lift_Some & Hrun).
    apply bind_Some in Hrun as (l & g5 & Hfill & Hret).
    apply ret_Some in Hret as [[= -> ->] ->].
    by exists elite, l.
Qed.

Lemma forward_same_arrays (nn nn' : NeuralNetwork.t) (x : list Q) :
  NeuralNetwork.biases nn' = NeuralNetwork.biases nn →
  (∀ acts, NeuralNetwork.forward_layers (NeuralNetwork.weights nn')
             (NeuralNetwork.biases nn) x acts
           = NeuralNetwork.forward_layers (NeuralNetwork.weights nn)
               (NeuralNetwork.biases nn) x acts) →
  fst <$> NeuralNetwork.forward nn' x = fst <$> NeuralNetwork.forward nn x.
Proof.
  intros Hb Hfwd. unfold NeuralNetwork.forward. rewrite Hb, Hfwd.
  by destruct (NeuralNetwork.forward_layers _ _ _ _) as [[? ?]|].
Qed.

End EvolutionFacts.

(** X23: the books of [evolve_generation].  A colony of fewer than 10 ants
    is left alone: nothing changes and nothing is drawn.  Otherwise both
    generation counters become the old generation of the manager plus one,
    and the history grows by one record of the old generation whose maximal
    and mean fitness are both the deliveries of the colony, as every ant
    has the fitness of its colony; the best fitness becomes the larger of
    its old value and the deliveries, and when it grows the best agent
    becomes the controller of the first ant of the population.  The food
    counters, the nest and the environment of the colony stay. *)
Theorem EvolutionManager_evolve_generation_books `{!NumPy, !Random}
    (cfg : config.t) (e e' : EvolutionManager.t) (c c' : Colony.t) (g g' : G) :
  EvolutionManager.evolve_generation cfg e c g = Some (e', c', g') →
  let fitness := Colony.food_delivered c in
  ((length (Colony.ants c) < 10)%nat → e' = e ∧ c' = c ∧ g' = g) ∧
  ((10 ≤ length (Colony.ants c))%nat →
     EvolutionManager.generation e' = (EvolutionManager.generation e + 1)%Z ∧
     Colony.generation c' = (EvolutionManager.generation e + 1)%Z ∧
     (∃ r, EvolutionManager.fitness_history e'
             = EvolutionManager.fitness_history e ++ [r] ∧
           EvolutionManager.h_generation r = EvolutionManager.generation e ∧
           EvolutionManager.max_fitness r = fitness ∧
           EvolutionManager.avg_fitness r == inject_Z fitness ∧
           EvolutionManager.population_size r = length (Colony.ants c)) ∧
     EvolutionManager.best_fitness e'
       = Z.max (EvolutionManager.best_fitness e) fitness ∧
     ((EvolutionManager.best_fitness e < fitness)%Z →
        EvolutionManager.best_agent e' = Ant.brain <$> head (Colony.ants c)) ∧
     ((fitness ≤ EvolutionManager.best_fitness e)%Z →
        EvolutionManager.best_agent e' = EvolutionManager.best_agent e) ∧
     length (Colony.ants c') = length (Colony.ants c) ∧
     Colony.food_collected c' = Colony.food_collected c ∧
     Colony.food_delivered c' = Colony.food_delivered c ∧
     Colony.nest c' = Colony.nest c ∧
     Colony.environment c' = Colony.environment c).
Proof.
  intros Hrun fitness. split.
  - intros Hsmall. unfold EvolutionManager.evolve_generation in Hrun.
    destruct (Nat.ltb_spec (length (Colony.ants c)) 10) as [_|?]; [|lia].
    by apply ret_Some in Hrun as [[= -> ->] ->].
  - intros Hten.
    pose proof (evolve_generation_length cfg _ _ _ _ _ _ Hrun) as Hlen.
    destruct (evolve_generation_inv cfg _ _ _ _ _ _ Hrun Hten)
      as (best & elite & l & Hbest & _ & _ & -> & ->).
    cbn. cbn in Hlen. split; [done|]. split; [done|]. split.
    { eexists. split; [done|]. cbn. split; [done|]. split; [done|]. split; [|done].
      rewrite fitnesses_shared. unfold EvolutionManager.np_mean.
      rewrite sum_replicate, length_replicate, inject_Z_mult.
      subst fitness. field. intros Hzero. unfold Qeq in Hzero. cbn in Hzero. lia. }
    fold fitness.
    destruct (Z.ltb_spec (EvolutionManager.best_fitness e) fitness).
    + split; [lia|]. split; [by rewrite Hbest|]. split; [lia|]. done.
    + split; [lia|]. split; [lia|]. done.
Qed.

Lemma EvolutionManager_evolve_generation_books_witness :
  ∃ c e' c' g',
    default_colony 10 = Some c ∧
    @EvolutionManager.evolve_generation numpy_stub random_stub config.default
      EvolutionManager.init c 0%nat = Some (e', c', g') ∧
    EvolutionManager.best_fitness e' = 0%Z.
Proof.
  destruct EvolutionManager_evolve_example
    as (c & e' & c' & g' & Hc & Hlen & Hrun & _).
  exists c, e', c', g'. split; [exact Hc|]. split; [exact Hrun|].
  destruct (@EvolutionManager_evolve_generation_books numpy_stub random_stub
              config.default _ _ _ _ _ _ Hrun) as [_ Hbig].
  destruct Hbig as (_ & _ & _ & Hbest & _); [rewrite Hlen; lia|].
  rewrite Hbest.
  unfold default_colony in Hc.
  destruct (Environment.init 1200 800) as [env|]; [|discriminate].
  cbn in Hc.
  destruct (@Colony.init numpy_stub random_stub config.default env 10 0%nat)
    as [[c0 g0]|] eqn:Hinit; [|discriminate].
  injection Hc as <-.
  unfold Colony.init in Hinit.
  apply bind_Some in Hinit as (dx & g1 & _ & Hinit).
  apply bind_Some in Hinit as (dy & g2 & _ & Hinit).
  apply bind_Some in Hinit as (l & g3 & _ & Hret).
  apply ret_Some in Hret as [-> _]. reflexivity.
Defined.

(** X24: elitism.  After [evolve_generation] on at least 10 ants, the
    first [max(1, n // 10)] ants of the new population are ants of the old
    one, carried over as they are, and all the others are newborn: alive,
    of age 0, with the initial energy, empty-handed and at the nest. *)
Theorem EvolutionManager_evolve_generation_elites `{!NumPy, !Random}
    (cfg : config.t) (e e' : EvolutionManager.t) (c c' : Colony.t) (g g' : G) :
  EvolutionManager.evolve_generation cfg e c g = Some (e', c', g') →
  (10 ≤ length (Colony.ants c))%nat →
  let elitism_count := 1 `max` EvolutionManager.tenth (length (Colony.ants c)) in
  ∃ elite offspring,
    Colony.ants c' = elite ++ offspring ∧
    length elite = elitism_count ∧
    Forall (λ a, a ∈ Colony.ants c) elite ∧
    Forall (newborn cfg c) offspring.
Proof.
  intros Hrun Hten elitism_count.
  destruct (evolve_generation_inv cfg _ _ _ _ _ _ Hrun Hten)
    as (best & elite & l & _ & Helite & Hfill & _ & ->).
  apply fill_population_inv in Hfill as (offspring & -> & _ & Hnew).
  exists elite, offspring. cbn. split; [done|]. split; [|split; [|done]].
  - apply length_mapM in Helite. rewrite <-Helite.
    rewrite length_drop, np_argsort_length, length_map.
    subst elitism_count. unfold EvolutionManager.tenth.
    pose proof (Nat.Div0.div_le_upper_bound (length (Colony.ants c)) 10
                  (length (Colony.ants c))).
    lia.
  - apply mapM_Some in Helite. apply Forall_forall. intros a Ha.
    apply list_elem_of_lookup in Ha as [pos Hpos].
    destruct (Forall2_lookup_r _ _ _ _ _ Helite Hpos) as (i & _ & Hi).
    by eapply list_elem_of_lookup_2.
Qed.

Lemma EvolutionManager_evolve_generation_elites_witness :
  ∃ c e' c' g' elite offspring,
    default_colony 10 = Some c ∧
    @EvolutionManager.evolve_generation numpy_stub random_stub config.default
      EvolutionManager.init c 0%nat = Some (e', c', g') ∧
    Colony.ants c' = elite ++ offspring ∧ length elite = 1%nat.
Proof.
  destruct EvolutionManager_evolve_example
    as (c & e' & c' & g' & Hc & Hlen & Hrun & _).
  destruct (@EvolutionManager_evolve_generation_elites numpy_stub random_stub
              config.default _ _ _ _ _ _ Hrun)
    as (elite & offspring & Hants & Hcount & _); [rewrite Hlen; lia|].
  exists c, e', c', g', elite, offspring.
  split; [exact Hc|]. split; [exact Hrun|]. split; [exact Hants|].
  rewrite Hcount, Hlen. reflexivity.
Defined.

(** X25: saving and loading a model.  Without a best agent [save_model]
    writes no file, and [load_model] of the missing file raises.  With a best
    agent whose arrays have the shapes of its topology, loading what
    [save_model] wrote raises nothing: it restores the generation, the best
    fitness and the history, and the best agent and every ant of the colony
    then compute, on every input, the output of the saved agent's network.
    The ants themselves, in number and order, stay. *)
Theorem EvolutionManager_save_load_model `{!NumPy, !Random} (cfg : config.t)
    (e e0 : EvolutionManager.t) (c : Colony.t) :
  NeuralNetwork.valid_sizes (15%nat :: config.NEURAL_NETWORK_LAYERS cfg ++ [4%nat]) →
  (EvolutionManager.best_agent e = None →
     EvolutionManager.save_model e = None ∧
     ∀ g, EvolutionManager.load_model cfg e0 c (EvolutionManager.save_model e) g
          = None) ∧
  (∀ agent, EvolutionManager.best_agent e = Some agent →
     NeuralNetwork.conforms (MLAgent.network agent) →
     returns (EvolutionManager.load_model cfg e0 c (EvolutionManager.save_model e))
       (λ r,
          let same_outputs (b : MLAgent.t) :=
            ∀ x, fst <$> NeuralNetwork.forward (MLAgent.network b) x
                 = fst <$> NeuralNetwork.forward (MLAgent.network agent) x in
          EvolutionManager.generation r.1 = EvolutionManager.generation e ∧
          EvolutionManager.best_fitness r.1 = EvolutionManager.best_fitness e ∧
          EvolutionManager.fitness_history r.1
            = EvolutionManager.fitness_history e ∧
          (∃ b, EvolutionManager.best_agent r.1 = Some b ∧ same_outputs b) ∧
          length (Colony.ants r.2) = length (Colony.ants c) ∧
          Forall (λ ant, same_outputs (Ant.brain ant)) (Colony.ants r.2))).
Proof.
  intros Hvalid. split.
  - intros Hnone. unfold EvolutionManager.save_model. by rewrite Hnone.
  - intros agent Hbest Hconf.
    unfold EvolutionManager.save_model, EvolutionManager.load_model.
    rewrite Hbest.
    destruct (round_trip_layers _ _ _ Hconf) as (ws & Hws & Hfwd).
    set (d := MLAgent.get_weights agent).
    assert (Hsame : ∀ nn',
      NeuralNetwork.weights nn' = ws →
      NeuralNetwork.biases nn' = NeuralNetwork.wd_biases d →
      ∀ x, fst <$> NeuralNetwork.forward nn' x
           = fst <$> NeuralNetwork.forward (MLAgent.network agent) x).
    { intros nn' Hw Hb x. apply forward_same_arrays; [exact Hb|].
      intros acts. rewrite Hw. apply Hfwd. }
    match goal with |- context [lift (Some ?m)] => set (model := m) end.
    eapply returns_bind;
      [exact (returns_lift _ _ (λ m, m = model) eq_refl eq_refl)|].
    intros m ->. subst model.
    cbn [EvolutionManager.md_weights EvolutionManager.md_generation
         EvolutionManager.md_fitness EvolutionManager.md_history].
    eapply returns_bind; [exact (MLAgent_init_returns cfg Hvalid)|].
    intros agent0 _. cbn beta.
    eapply returns_bind.
    { eapply (returns_lift _ _
        (λ b, NeuralNetwork.weights (MLAgent.network b) = ws ∧
              NeuralNetwork.biases (MLAgent.network b) = NeuralNetwork.wd_biases d)).
      - unfold MLAgent.set_weights, NeuralNetwork.set_weights.
        fold d. change (NeuralNetwork.wd_weights d)
          with (NeuralNetwork.tolist <$> NeuralNetwork.weights (MLAgent.network agent)).
        rewrite Hws. cbn. reflexivity.
      - by cbn. }
    intros b [Hw Hb].
    destruct (set_weights_ants d ws (Colony.ants c) Hws) as (ants' & Hmap & Hall).
    eapply returns_bind.
    { exact (returns_lift _ _ (λ l, l = ants') Hmap eq_refl). }
    intros l ->. apply returns_ret. cbn.
    do 3 (split; [done|]). split; [exists b; split; [done|by apply Hsame]|].
    split; [symmetry; by eapply Forall2_length|].
    apply Forall_forall. intros ant' Hant'.
    apply list_elem_of_lookup in Hant' as [i Hi].
    destruct (Forall2_lookup_r _ _ _ _ _ Hall Hi) as (ant & _ & Hw' & Hb' & _).
    by apply Hsame.
Qed.

Lemma EvolutionManager_save_load_model_witness :
  ∃ e' c' g',
    @EvolutionManager.load_model numpy_stub random_stub config.default
      EvolutionManager.init steering_colony
      (EvolutionManager.save_model trained_manager) 0%nat = Some (e', c', g') ∧
    EvolutionManager.generation e' = 4%Z ∧
    EvolutionManager.best_fitness e' = 7%Z.
Proof.
  destruct (@EvolutionManager_save_load_model numpy_stub random_stub
              config.default trained_manager EvolutionManager.init steering_colony)
    as [_ Hsome].
  - cbn. repeat split; lia.
  - destruct (Hsome steering_brain eq_refl) with (g := 0%nat)
      as ([e' c'] & g' & Hrun & Hgen & Hfit & _).
    + cbn. split; [lia|]. split; [done|]. split; [done|].
      split; [by repeat constructor|]. done.
    + exists e', c', g'. split; [exact Hrun|]. split; [exact Hgen|exact Hfit].
Defined.

(** X26: tournament selection needs two ants.  The tournament has at least
    two contestants, so on a population of fewer than two ants
    [select_parents] raises, as [np.random.choice] cannot draw that many
    without replacement.  On two ants or more, with a fitness for every ant
    and draws that are valid samples, it raises nothing and both parents are
    ants of the population. *)
Theorem EvolutionManager_select_parents_population `{!Random}
    (population : list Ant.t) (fitnesses : list Z) :
  (2 ≤ EvolutionManager.tournament_size population)%nat ∧
  ((length population < 2)%nat →
     ∀ g, EvolutionManager.select_parents population fitnesses g = None) ∧
  ((2 ≤ length population)%nat → choice_is_valid →
   length fitnesses = length population →
     returns (EvolutionManager.select_parents population fitnesses)
       (λ p, p.1 ∈ population ∧ p.2 ∈ population)).
Proof.
  assert (2 ≤ EvolutionManager.tournament_size population)%nat as Htwo.
  { unfold EvolutionManager.tournament_size. lia. }
  split; [exact Htwo|]. split.
  - intros Hsmall g.
    unfold EvolutionManager.select_parents, EvolutionManager.select_one.
    destruct (Nat.ltb_spec (length population)
                (EvolutionManager.tournament_size population)) as [_|?]; [|lia].
    reflexivity.
  - intros Hlarge Hchoice Hlen.
    assert (EvolutionManager.tournament_size population ≤ length population)%nat
      as Hk.
    { unfold EvolutionManager.tournament_size, EvolutionManager.tenth.
      apply Nat.max_lub; [lia|]. apply Nat.Div0.div_le_upper_bound. lia. }
    assert (returns (EvolutionManager.select_one population fitnesses)
              (λ w, w ∈ population)) as Hone.
    { intros g.
      destruct (select_one_spec population fitnesses g Hlen (Hchoice _ _ g Hk))
        as (winner & Hrun & (w & fw & _ & Hw & _)).
      eexists _, _. split; [exact Hrun|]. by eapply list_elem_of_lookup_2. }
    unfold EvolutionManager.select_parents.
    eapply returns_bind; [exact Hone|]. intros p1 Hp1.
    eapply returns_bind; [exact Hone|]. intros p2 Hp2.
    by apply returns_ret.
Qed.

(** ** The environment: new food and the step *)

Section EnvironmentStepFacts.
Context `{!NumPy, !Random, !RandomPick} (cfg : config.t).

Lemma far_position_far (fuel : nat) (width height : Z) p g g' :
  EnvironmentSteps.far_position fuel width height g = Some (p, g') →
  150 < Vector2D.magnitude
          (Vector2D.sub p {| Vector2D.x := inject_Z width / 2;
                             Vector2D.y := inject_Z height / 2 |}).
Proof.
  revert g. induction fuel as [|fuel IH]; intros g; [done|].
  cbn [EnvironmentSteps.far_position]. intros Hrun.
  apply bind_Some in Hrun as (x & g1 & _ & Hrun).
  apply bind_Some in Hrun as (y & g2 & _ & Hrun).
  destruct (Qltb 150 _) eqn:Hfar.
  - apply ret_Some in Hrun as [-> _]. by apply Qltb_lt.
  - by eapply IH.
Qed.

Lemma food_added_refl (env : Environment.t) : food_added cfg env env [].
Proof.
  unfold food_added. rewrite app_nil_r.
  split; [done|]. split; [constructor|]. split; [constructor|]. done.
Qed.

Lemma food_added_trans (env1 env2 env3 : Environment.t) (new1 new2 : list nat) :
  food_added cfg env1 env2 new1 → food_added cfg env2 env3 new2 →
  food_added cfg env1 env3 (new1 ++ new2).
Proof.
  intros (Hs1 & Hd1 & Hn1 & Hk1 & Hw1 & Hh1) (Hs2 & Hd2 & Hn2 & Hk2 & Hw2 & Hh2).
  unfold food_added. rewrite Hs2, Hs1, app_assoc.
  split; [done|]. split; [|split; [|split; [|split; congruence]]].
  - apply NoDup_app. split; [done|]. split; [|done].
    intros f Hf1 Hf2.
    rewrite Forall_forall in Hn1, Hn2.
    destruct (Hn1 _ Hf1) as (_ & food & Hfood & _).
    destruct (Hn2 _ Hf2) as (Hnone & _). congruence.
  - apply Forall_app. split.
    + eapply Forall_impl; [exact Hn1|]. intros f (Hnone & food & Hfood & He & Hz).
      split; [done|]. exists food. split; [by apply Hk2|done].
    + eapply Forall_impl; [exact Hn2|]. intros f (Hnone & food & Hfood & He & Hz).
      split; [|by exists food].
      destruct (Environment.food_heap env1 !! f) as [old|] eqn:Hold; [|done].
      apply Hk1 in Hold. congruence.
  - intros f food Hf. by apply Hk2, Hk1.
Qed.

Lemma append_food_added (env : Environment.t) (food : Food.t) :
  Food.energy food = config.FOOD_ENERGY cfg →
  Food.size food = config.FOOD_SIZE cfg →
  let env' := EnvironmentSteps.append_food env food in
  food_added cfg env env' [fresh (dom (Environment.food_heap env))] ∧
  Environment.pheromone_system env' = Environment.pheromone_system env ∧
  Environment.elapsed_steps env' = Environment.elapsed_steps env ∧
  (environment_wf env → environment_wf env').
Proof.
  intros Henergy Hsize env'. subst env'.
  set (f := fresh (dom (Environment.food_heap env))).
  assert (Environment.food_heap env !! f = None) as Hfresh.
  { apply not_elem_of_dom. apply is_fresh. }
  split; [|split; [done|split; [done|]]].
  - unfold food_added. cbn. fold f.
    split; [done|]. split; [apply NoDup_singleton|]. split.
    + constructor; [|constructor]. split; [done|].
      exists food. by rewrite lookup_insert_eq.
    + split; [|done]. intros k old Hk. rewrite lookup_insert_ne; [done|].
      intros <-. congruence.
  - intros (Hps & Hres & Hgw & Hgh & Hheap).
    split; [done|]. split; [done|]. split; [done|]. split; [done|].
    cbn. fold f. apply Forall_app. split.
    + eapply Forall_impl; [exact Hheap|]. intros k [old Hk].
      exists old. rewrite lookup_insert_ne; [done|]. intros <-. congruence.
    + constructor; [|constructor]. exists food. by rewrite lookup_insert_eq.
Qed.

Lemma generate_one_returns (fuel : nat) (env : Environment.t) :
  pick_is_valid → environment_wf env →
  returns (EnvironmentSteps.far_position fuel (Environment.width env)
             (Environment.height env)) (λ _, True) →
  returns (EnvironmentSteps.generate_one cfg fuel env)
    (λ env', ∃ f, food_added cfg env env' [f] ∧
       Environment.pheromone_system env' = Environment.pheromone_system env ∧
       Environment.elapsed_steps env' = Environment.elapsed_steps env ∧
       environment_wf env').
Proof.
  intros Hpick Hwf Hfar. unfold EnvironmentSteps.generate_one.
  eapply (returns_bind _ _ (λ clustered : bool,
            clustered = true → (0 < length (Environment.food_sources env))%nat)).
  { destruct (Nat.ltb_spec 0 (length (Environment.food_sources env))).
    - eapply returns_bind; [apply returns_draw|]. intros r _. by apply returns_ret.
    - by apply returns_ret. }
  intros clustered Hsome.
  eapply (returns_bind _ _ (λ _, True)).
  { destruct clustered; [|exact Hfar].
    eapply returns_bind.
    { exact (returns_draw_sat (rand_pick (length (Environment.food_sources env)))
               (λ i, (i < length (Environment.food_sources env))%nat)
               (λ g, Hpick _ g (Hsome eq_refl))). }
    intros i Hi. cbn beta in Hi.
    destruct (lookup_lt_is_Some_2 _ _ Hi) as [f Hf].
    destruct Hwf as (_ & _ & _ & _ & Hheap).
    destruct (proj1 (Forall_lookup _ _) Hheap _ _ Hf) as [food Hfood].
    eapply returns_bind.
    { eapply (returns_lift _ food (λ _, True)); [|done].
      rewrite Hf. cbn. exact Hfood. }
    intros parent _.
    eapply returns_bind; [apply returns_draw|]. intros dx _.
    eapply returns_bind; [apply returns_draw|]. intros dy _.
    by apply returns_ret. }
  intros position _. apply returns_ret.
  destruct (append_food_added env
              (Food.init cfg (Vector2D.x position) (Vector2D.y position)
                 (config.FOOD_ENERGY cfg))) as (Hadded & Hps & Hsteps & Hwf');
    [done..|].
  eexists. split; [exact Hadded|]. split; [done|]. split; [done|]. by apply Hwf'.
Qed.

Lemma generate_loop_returns (fuel : nat) (n : nat) (l : list nat)
    (env : Environment.t) :
  pick_is_valid → environment_wf env → length l = n →
  returns (EnvironmentSteps.far_position fuel (Environment.width env)
             (Environment.height env)) (λ _, True) →
  returns (foldM (λ env _, EnvironmentSteps.generate_one cfg fuel env) env l)
    (λ env', ∃ new, length new = n ∧ food_added cfg env env' new ∧
       Environment.pheromone_system env' = Environment.pheromone_system env ∧
       Environment.elapsed_steps env' = Environment.elapsed_steps env ∧
       environment_wf env').
Proof.
  intros Hpick. revert n env. induction l as [|k l IH]; intros n env Hwf Hlen Hfar.
  - apply returns_ret. exists []. split; [done|].
    split; [apply food_added_refl|done].
  - cbn [foldM]. destruct n as [|n]; [done|]. injection Hlen as Hlen.
    eapply returns_bind; [by apply generate_one_returns|].
    intros env1 (f & Hadd1 & Hps1 & Hsteps1 & Hwf1).
    eapply returns_weaken.
    + apply (IH n env1 Hwf1 Hlen).
      destruct Hadd1 as (_ & _ & _ & _ & -> & ->). exact Hfar.
    + intros env2 (new & Hnew & Hadd2 & Hps2 & Hsteps2 & Hwf2).
      exists (f :: new). split; [cbn; lia|].
      split; [exact (food_added_trans _ _ _ [f] new Hadd1 Hadd2)|].
      split; [congruence|]. split; [congruence|done].
Qed.

Lemma PheromoneSystem_update_wf (ps : PheromoneSystem.t) :
  PheromoneSystem.wf ps → PheromoneSystem.wf (PheromoneSystem.update cfg ps).
Proof.
  intros Hwf ch g Hch. unfold PheromoneSystem.update in Hch. cbn in Hch.
  rewrite lookup_fmap in Hch.
  destruct (PheromoneSystem.grids ps !! ch) as [g0|] eqn:Hg0; [|done].
  cbn in Hch. injection Hch as <-. destruct (Hwf _ _ Hg0) as [Hlen Hrows].
  cbn. by apply update_grid_dims.
Qed.

(** One attempt of the search: the position drawn is returned when it is
    far from the centre, and the search goes on from the state that the
    attempt leaves when it is not. *)
Lemma far_position_step (fuel : nat) (width height : Z) g :
  EnvironmentSteps.far_position (S fuel) width height g =
  let p := (drawn_position width height g).1 in
  let g' := (drawn_position width height g).2 in
  if Qltb 150 (Vector2D.magnitude
                 (Vector2D.sub p {| Vector2D.x := inject_Z width / 2;
                                    Vector2D.y := inject_Z height / 2 |}))
  then Some (p, g') else EnvironmentSteps.far_position fuel width height g'.
Proof.
  cbn [EnvironmentSteps.far_position]. unfold drawn_position, mbind, M_bind, draw.
  destruct (rand_uniform 0 (inject_Z width) g) as [x g1].
  destruct (rand_uniform 0 (inject_Z height) g1) as [y g2]. cbn.
  by destruct (Qltb 150 _).
Qed.

(** The search returns once a drawn position is far from the centre: with
    a far position among the first [fuel] draws, it returns a far position
    within [fuel] attempts. *)
Lemma far_position_search (fuel : nat) (width height : Z) (k : nat) g :
  (k < fuel)%nat →
  is_far width height
    (drawn_position width height (after_attempts k width height g)).1 →
  ∃ p g', EnvironmentSteps.far_position fuel width height g = Some (p, g') ∧
          is_far width height p.
Proof.
  revert k g. induction fuel as [|fuel IH]; intros k g Hk Hfar; [lia|].
  rewrite far_position_step. cbv zeta.
  destruct (Qltb 150 _) eqn:Hnow.
  - eexists _, _. split; [done|]. by apply Qltb_lt.
  - destruct k as [|k].
    + cbn in Hfar. apply Qltb_lt in Hfar. unfold is_far in Hnow. congruence.
    + apply (IH k); [lia|exact Hfar].
Qed.

Lemma far_position_returns (fuel : nat) (width height : Z) :
  draws_reach_far fuel width height →
  returns (EnvironmentSteps.far_position fuel width height)
    (λ p, is_far width height p).
Proof.
  intros Hdraws g. destruct (Hdraws g) as (k & Hk & Hfar).
  by apply (far_position_search fuel width height k).
Qed.

(** In a world whose corners are within 150 of the centre no draw is far,
    and the search never ends: it runs out of any number of attempts. *)
Lemma far_position_never (fuel : nat) (width height : Z) g :
  uniform_in_range → sqrt_below_150 →
  (0 ≤ width)%Z → (0 ≤ height)%Z →
  (width * width + height * height ≤ 90000)%Z →
  EnvironmentSteps.far_position fuel width height g = None.
Proof.
  intros Huniform Hsqrt Hw Hh Hsmall. revert g.
  induction fuel as [|fuel IH]; intros g; [done|].
  rewrite far_position_step. cbv zeta.
  assert (Qltb 150
            (Vector2D.magnitude
               (Vector2D.sub (drawn_position width height g).1
                  {| Vector2D.x := inject_Z width / 2;
                     Vector2D.y := inject_Z height / 2 |})) = false) as ->;
    [|apply IH].
  apply Qltb_ge. apply Hsqrt. unfold drawn_position.
  assert (0 <= inject_Z width) as HW
    by (change 0 with (inject_Z 0); rewrite <-Zle_Qle; exact Hw).
  assert (0 <= inject_Z height) as HH
    by (change 0 with (inject_Z 0); rewrite <-Zle_Qle; exact Hh).
  pose proof (Huniform 0 (inject_Z width) g HW) as [Hx0 Hx1].
  destruct (rand_uniform 0 (inject_Z width) g) as [x g1]. cbn in Hx0, Hx1.
  pose proof (Huniform 0 (inject_Z height) g1 HH) as [Hy0 Hy1].
  destruct (rand_uniform 0 (inject_Z height) g1) as [y g2]. cbn in Hy0, Hy1.
  cbn.
  assert (inject_Z width * inject_Z width + inject_Z height * inject_Z height
          <= 90000) as Hq.
  { rewrite <-!inject_Z_mult, <-inject_Z_plus.
    change 90000 with (inject_Z 90000). by rewrite <-Zle_Qle. }
  set (W := inject_Z width) in *. set (H' := inject_Z height) in *.
  clearbody W H'.
  assert (W / 2 + W / 2 == W) as HWhalf by field.
  assert (H' / 2 + H' / 2 == H') as HHhalf by field.
  set (a := W / 2) in *. set (b := H' / 2) in *. clearbody a b.
  nra.
Qed.

(** On an environment without food in such a world, [generate_food] of a
    positive count never returns. *)
Lemma generate_food_never (fuel : nat) (env : Environment.t) (count : Z) g :
  uniform_in_range → sqrt_below_150 →
  Environment.food_sources env = [] → (0 < count)%Z →
  (0 ≤ Environment.width env)%Z → (0 ≤ Environment.height env)%Z →
  (Environment.width env * Environment.width env
   + Environment.height env * Environment.height env ≤ 90000)%Z →
  EnvironmentSteps.generate_food cfg fuel env count g = None.
Proof.
  intros Huniform Hsqrt Hnone Hcount Hw Hh Hsmall.
  unfold EnvironmentSteps.generate_food.
  destruct (Z.to_nat count) as [|n] eqn:Hn; [lia|].
  cbn [seq foldM]. apply bind_None.
  unfold EnvironmentSteps.generate_one. rewrite Hnone. cbn [length Nat.ltb Nat.leb].
  unfold mbind at 1, M_bind at 1. cbn [mret M_ret].
  apply bind_None. by apply far_position_never.
Qed.

End EnvironmentStepFacts.

(** X27: [generate_food(count)] on a well-formed environment, for a
    generator whose [choice] draws an element of the sequence it is given.
    If, whatever its state, one of the next [attempts] draws of the
    generator lies more than 150 away from the centre of the world, the
    method raises nothing and every search of a position ends within
    [attempts] attempts.  It appends [count] new food sources (none for a
    negative count) after the existing ones; the new objects are distinct,
    were not on the heap before, and have the configured energy and size;
    the existing objects, the pheromones and the step counter stay as they
    are, and the environment is still well-formed.  If on the contrary the
    corners of the world are within 150 of its centre, the environment
    holds no food and the count is positive, the method never returns:
    the search finds no position, whatever the number of attempts. *)
Theorem Environment_generate_food_appends `{!NumPy, !Random, !RandomPick}
    (cfg : config.t) (env : Environment.t) (count : Z) :
  pick_is_valid → environment_wf env →
  (∀ attempts,
     draws_reach_far attempts (Environment.width env) (Environment.height env) →
     returns (EnvironmentSteps.generate_food cfg attempts env count)
       (λ env', ∃ new, length new = Z.to_nat count ∧
          food_added cfg env env' new ∧
          Environment.pheromone_system env' = Environment.pheromone_system env ∧
          Environment.elapsed_steps env' = Environment.elapsed_steps env ∧
          environment_wf env')) ∧
  (uniform_in_range → sqrt_below_150 →
   Environment.food_sources env = [] → (0 < count)%Z →
   (0 ≤ Environment.width env)%Z → (0 ≤ Environment.height env)%Z →
   (Environment.width env * Environment.width env
    + Environment.height env * Environment.height env ≤ 90000)%Z →
   ∀ attempts g,
     EnvironmentSteps.generate_food cfg attempts env count g = None).
Proof.
  intros Hpick Hwf. split.
  - intros attempts Hdraws. unfold EnvironmentSteps.generate_food.
    apply generate_loop_returns; [done|done|apply length_seq|].
    eapply returns_weaken; [by apply far_position_returns|done].
  - intros Huniform Hsqrt Hnone Hcount Hw Hh Hsmall attempts g.
    by apply generate_food_never.
Qed.

Lemma random_pick_stub_is_valid : @pick_is_valid random_stub random_pick_stub.
Proof. intros n g Hn. cbn. exact Hn. Qed.

(** The stand-in generator draws the origin, which is far from the centre
    of the default world. *)
Lemma default_world_far : @draws_reach_far numpy_rounding random_stub 1 1200 800.
Proof. intros g. exists 0%nat. split; [lia|]. by vm_compute. Qed.

Lemma random_stub_uniform_in_range : @uniform_in_range random_stub.
Proof. intros lo hi g Hle. cbn. split; [apply Qle_refl|exact Hle]. Qed.

Lemma numpy_rounding_sqrt_below_150 : @sqrt_below_150 numpy_rounding.
Proof.
  intros x Hx. cbn. change 150 with (inject_Z 150). rewrite <-Zle_Qle.
  assert (Qceiling x ≤ 22500)%Z as Hceil.
  { change 22500%Z with (Qceiling (inject_Z 22500)). by apply Qceiling_resp_le. }
  destruct (Z.le_gt_cases (Qceiling x) 0) as [Hneg|Hpos].
  - rewrite Z.sqrt_up_eqn0; [lia|exact Hneg].
  - apply Z.sqrt_up_le_square; lia.
Qed.

Lemma small_world_wf : environment_wf small_world.
Proof.
  split; [exact deposit_state_wf|]. cbn.
  split; [lia|]. split; [lia|]. split; [lia|]. constructor.
Qed.

Lemma Environment_generate_food_appends_witness :
  (∃ env, Environment.init 1200 800 = Some env ∧
     @returns random_stub _
       (@EnvironmentSteps.generate_food numpy_rounding random_stub
          random_pick_stub config.default 1 env 2)
       (λ env', length (Environment.food_sources env') = 2%nat)) ∧
  ∀ attempts g,
    @EnvironmentSteps.generate_food numpy_rounding random_stub random_pick_stub
      config.default attempts small_world 2 g = None.
Proof.
  split.
  - destruct (Environment_init_zeros 1200 800) as (ps & Hinit & Hwf & _); [lia..|].
    cbv zeta in Hinit, Hwf. eexists. split; [exact Hinit|].
    eapply returns_weaken.
    + apply (@Environment_generate_food_appends numpy_rounding random_stub
               random_pick_stub config.default _ 2 random_pick_stub_is_valid Hwf).
      exact default_world_far.
    + intros env' (new & Hlen & (Hsrc & _) & _). cbn in Hsrc. by rewrite Hsrc.
  - apply (@Environment_generate_food_appends numpy_rounding random_stub
             random_pick_stub config.default small_world 2
             random_pick_stub_is_valid small_world_wf).
    + exact random_stub_uniform_in_range.
    + exact numpy_rounding_sqrt_below_150.
    + reflexivity.
    + lia.
    + cbn. lia.
    + cbn. lia.
    + cbn. lia.
Defined.

(** X28: a step of the environment raises nothing on a well-formed
    environment, for a generator whose [choice] draws an element of the
    sequence it is given and one of whose next [attempts] draws, whatever
    its state, lies more than 150 away from the centre of the world.  It
    applies [PheromoneSystem.update] to the pheromones, counts one more
    step, adds at most one food source, a new object of the configured
    energy and size after the existing ones, and leaves the environment
    well-formed. *)
Theorem Environment_update_step `{!NumPy, !Random, !RandomPick}
    (cfg : config.t) (sch : schedule.t) (attempts : nat) (env : Environment.t) :
  pick_is_valid → environment_wf env →
  draws_reach_far attempts (Environment.width env) (Environment.height env) →
  returns (EnvironmentSteps.update cfg sch attempts env)
    (λ env', (∃ new, (length new ≤ 1)%nat ∧ food_added cfg env env' new) ∧
       Environment.pheromone_system env'
         = PheromoneSystem.update cfg (Environment.pheromone_system env) ∧
       Environment.elapsed_steps env' = (Environment.elapsed_steps env + 1)%Z ∧
       environment_wf env').
Proof.
  intros Hpick Hwf Hdraws. unfold EnvironmentSteps.update.
  set (env0 := Environment.set_pheromone_system env _).
  assert (environment_wf env0) as Hwf0.
  { destruct Hwf as (Hps & Hres & Hgw & Hgh & Hheap).
    split; [by apply PheromoneSystem_update_wf|]. done. }
  eapply returns_bind; [apply returns_draw|]. intros r _.
  eapply (returns_bind _ _
            (λ env1, ∃ new, (length new ≤ 1)%nat ∧ food_added cfg env0 env1 new ∧
               Environment.pheromone_system env1 = Environment.pheromone_system env0 ∧
               Environment.elapsed_steps env1 = Environment.elapsed_steps env0 ∧
               environment_wf env1)).
  { destruct (Qltb r _).
    - eapply returns_weaken.
      + apply (generate_loop_returns cfg attempts 1 (seq 0 1) env0); [done..|].
        eapply returns_weaken; [by apply far_position_returns|done].
      + intros env1 (new & Hlen & Hrest). exists new. split; [lia|done].
    - apply returns_ret. exists []. split; [cbn; lia|].
      split; [apply food_added_refl|done]. }
  intros env1 (new & Hlen & Hadded & Hps & Hsteps & Hwf1). apply returns_ret.
  cbn. split; [by exists new|]. split; [by rewrite Hps|].
  split; [by rewrite Hsteps|]. exact Hwf1.
Qed.

Lemma Environment_update_step_witness :
  ∃ env, Environment.init 1200 800 = Some env ∧
    @returns random_stub _
      (@EnvironmentSteps.update numpy_rounding random_stub random_pick_stub
         config.default schedule.default 1 env)
      (λ env', Environment.elapsed_steps env' = 1%Z).
Proof.
  destruct (Environment_init_zeros 1200 800) as (ps & Hinit & Hwf & _); [lia..|].
  cbv zeta in Hinit, Hwf. eexists. split; [exact Hinit|].
  eapply returns_weaken.
  - apply (@Environment_update_step numpy_rounding random_stub random_pick_stub
             config.default schedule.default 1 _ random_pick_stub_is_valid Hwf).
    exact default_world_far.
  - by intros env' (_ & _ & Hsteps & _).
Defined.

(** ** The headless run *)

Section RunFacts.
Context `{!NumPy, !Random, !RandomPick} (cfg : config.t) (sch : schedule.t).

Lemma process_topology (b b' : MLAgent.t) (inputs outputs : list Q)
    (input : nat) (hidden : list nat) (output : nat) :
  MLAgent.process b inputs = Some (outputs, b') →
  brain_of_topology input hidden output b →
  brain_of_topology input hidden output b'.
Proof.
  unfold MLAgent.process, NeuralNetwork.forward. intros Hrun Hb.
  destruct (NeuralNetwork.forward_layers _ _ _ _) as [[x acts]|]; [|done].
  cbn in Hrun. injection Hrun as <- <-. exact Hb.
Qed.

Lemma Ant_update_topology (a a' : Ant.t) (c c' : Colony.t)
    (input : nat) (hidden : list nat) (output : nat) :
  Ant.update cfg a c = Some (a', c') →
  brain_of_topology input hidden output (Ant.brain a) →
  brain_of_topology input hidden output (Ant.brain a').
Proof.
  intros Hrun Hb. destruct (Ant.alive a) eqn:Halive.
  2:{ unfold Ant.update in Hrun. rewrite Halive in Hrun.
      by injection Hrun as <- <-. }
  destruct (Ant_update_inv cfg _ _ _ _ Hrun Halive)
    as (inputs & outputs & b & a1 & _ & Hthink & Hact & Hmem).
  apply update_memory_fields in Hmem as (_ & _ & _ & _ & _ & _ & -> & _).
  apply apply_action_inv in Hact
    as (o0 & o1 & o2 & o3 & pos & env1 & carrying & item & _ & _ & _ & _ &
        _ & _ & _ & ->).
  cbn. by eapply process_topology.
Qed.

Lemma Ant_update_world (a a' : Ant.t) (c c' : Colony.t) :
  Ant.update cfg a c = Some (a', c') →
  same_world (Colony.environment c) (Colony.environment c').
Proof.
  unfold same_world.
  intros Hrun. destruct (Ant.alive a) eqn:Halive.
  2:{ unfold Ant.update in Hrun. rewrite Halive in Hrun.
      by injection Hrun as <- <-. }
  destruct (Ant_update_inv cfg _ _ _ _ Hrun Halive)
    as (inputs & outputs & b & a1 & _ & _ & Hact & _).
  apply apply_action_inv in Hact
    as (o0 & o1 & o2 & o3 & pos & env1 & carrying & item & _ & _ & _ & _ &
        _ & Hdrop & Hfood & _).
  assert (Environment.width env1 = Environment.width (Colony.environment c) ∧
          Environment.height env1 = Environment.height (Colony.environment c) ∧
          Environment.elapsed_steps env1
            = Environment.elapsed_steps (Colony.environment c))
    as (Hw & Hh & He).
  { destruct (Qltb (1 # 2) o2); [|by injection Hdrop as <-].
    unfold Environment.add_pheromone in Hdrop.
    destruct (PheromoneSystem.add_pheromone _ _ _ _); [|done].
    by injection Hdrop as <-. }
  apply handle_food_inv in Hfood. cbn in Hfood.
  destruct Hfood as [(_ & _ & _ & _ & ->)|[(_ & _ & _ & _ & ->)|(_ & -> & _)]];
    cbn; [|done..].
  unfold Environment.remove_food. destruct (Ant.food_item _); [|done].
  by destruct (decide _).
Qed.

Lemma update_ants_run (c c' : Colony.t) (l : list nat)
    (input : nat) (hidden : list nat) (output : nat) :
  fold_option (Colony.update_ant cfg) c l = Some c' →
  Forall (λ a, brain_of_topology input hidden output (Ant.brain a)) (Colony.ants c) →
  Forall (λ a, brain_of_topology input hidden output (Ant.brain a)) (Colony.ants c') ∧
  same_world (Colony.environment c) (Colony.environment c').
Proof.
  unfold same_world. revert c. induction l as [|i l IH]; intros c; cbn.
  - by intros [= <-].
  - destruct (Colony.update_ant cfg c i) as [c1|] eqn:Hone; cbn; [|done].
    intros Hrest Hall. unfold Colony.update_ant in Hone.
    destruct (Colony.ants c !! i) as [a|] eqn:Ha; cbn in Hone; [|done].
    destruct (Ant.update cfg a c) as [[a' c0]|] eqn:Hup; cbn in Hone; [|done].
    injection Hone as <-.
    pose proof (Ant_update_topology _ _ _ _ input hidden output Hup
                  (proj1 (Forall_lookup _ _) Hall _ _ Ha)) as Ha'.
    destruct (Ant_update_world _ _ _ _ Hup) as (Hw & Hh & He).
    apply Ant_update_ants in Hup.
    destruct (IH _ Hrest) as (Hall' & Hw' & Hh' & He').
    { cbn. rewrite Hup. by apply Forall_insert. }
    split; [done|]. cbn in Hw', Hh', He'. repeat split; congruence.
Qed.

Lemma Colony_update_run (c c' : Colony.t) g g' :
  NeuralNetwork.valid_sizes (15%nat :: config.NEURAL_NETWORK_LAYERS cfg ++ [4%nat]) →
  Colony.update cfg c g = Some (c', g') →
  Forall (λ a, brain_of_topology 15 (config.NEURAL_NETWORK_LAYERS cfg) 4 (Ant.brain a))
         (Colony.ants c) →
  Forall (λ a, brain_of_topology 15 (config.NEURAL_NETWORK_LAYERS cfg) 4 (Ant.brain a))
         (Colony.ants c') ∧
  same_world (Colony.environment c) (Colony.environment c').
Proof.
  intros Hvalid Hrun Hall.
  apply Colony_update_inv in Hrun
    as (c0 & c2 & Hants & Hspawn & _ & -> & _ & _ & _ & _ & _ & _ & ->).
  destruct (update_ants_run _ _ _ _ _ _ Hants Hall) as (Hall0 & Hworld).
  assert (Forall (λ a, brain_of_topology 15 (config.NEURAL_NETWORK_LAYERS cfg) 4
                         (Ant.brain a))
                 (Colony.ants (Colony.process_dead_ants c0))) as Hall1.
  { cbn. apply Forall_forall. intros a [_ Ha]%list_elem_of_filter.
    rewrite Forall_forall in Hall0. by apply Hall0. }
  unfold Colony.spawn_new_ants in Hspawn. destruct (_ && _).
  - apply bind_Some in Hspawn as (new_ant & g1 & Hinit & Hret).
    apply ret_Some in Hret as [-> _]. cbn.
    split; [|done]. apply Forall_app. split; [exact Hall1|].
    constructor; [|constructor].
    pose proof (returns_run _ _ _ _ _ (Ant_init_returns cfg _ Hvalid) Hinit)
      as (_ & _ & _ & _ & Hin & Hhid & Hout & Hconf).
    by repeat split.
  - apply ret_Some in Hspawn as [-> _]. by split.
Qed.

Lemma topology_brain_wf (cfg0 : config.t) (a : Ant.t) :
  brain_of_topology 15 (config.NEURAL_NETWORK_LAYERS cfg0) 4 (Ant.brain a) →
  brain_wf (Ant.brain a).
Proof. intros (_ & _ & Hout & Hconf). split; [done|]. rewrite Hout. lia. Qed.

Lemma Environment_update_returns (fuel : nat) (env : Environment.t) :
  pick_is_valid → environment_wf env →
  returns (EnvironmentSteps.far_position fuel (Environment.width env)
             (Environment.height env)) (λ _, True) →
  returns (EnvironmentSteps.update cfg sch fuel env)
    (λ env', environment_wf env' ∧
       Environment.width env' = Environment.width env ∧
       Environment.height env' = Environment.height env ∧
       Environment.elapsed_steps env' = (Environment.elapsed_steps env + 1)%Z).
Proof.
  intros Hpick Hwf Hfar. unfold EnvironmentSteps.update.
  set (env0 := Environment.set_pheromone_system env _).
  assert (environment_wf env0) as Hwf0.
  { destruct Hwf as (Hps & Hres & Hgw & Hgh & Hheap).
    split; [by apply PheromoneSystem_update_wf|]. done. }
  eapply returns_bind; [apply returns_draw|]. intros r _.
  eapply (returns_bind _ _
            (λ env1, environment_wf env1 ∧
               Environment.width env1 = Environment.width env ∧
               Environment.height env1 = Environment.height env ∧
               Environment.elapsed_steps env1 = Environment.elapsed_steps env)).
  { destruct (Qltb r _); [|by apply returns_ret].
    eapply returns_weaken.
    - by apply (generate_loop_returns cfg fuel 1 (seq 0 1) env0).
    - intros env1 (new & _ & (_ & _ & _ & _ & Hw & Hh) & _ & Hsteps & Hwf1).
      done. }
  intros env1 (Hwf1 & Hw & Hh & Hsteps). apply returns_ret. cbn.
  split; [exact Hwf1|]. split; [done|]. split; [done|]. by rewrite Hsteps.
Qed.

Lemma simulate_returns (fuel : nat) (width height : Z) (steps : nat)
    (c : Colony.t) :
  config_wf cfg →
  NeuralNetwork.valid_sizes (15%nat :: config.NEURAL_NETWORK_LAYERS cfg ++ [4%nat]) →
  pick_is_valid →
  returns (EnvironmentSteps.far_position fuel width height) (λ _, True) →
  run_invariant cfg width height c →
  returns (HeadlessRun.simulate cfg sch fuel steps c)
    (λ c', run_invariant cfg width height c' ∧
       Colony.total_steps c' = (Colony.total_steps c + Z.of_nat steps)%Z ∧
       Environment.elapsed_steps (Colony.environment c')
         = (Environment.elapsed_steps (Colony.environment c) + Z.of_nat steps)%Z ∧
       Colony.generation c' = Colony.generation c).
Proof.
  intros Hcfg Hvalid Hpick Hfar. revert c.
  induction steps as [|steps IH]; intros c Hinv.
  - apply returns_ret. split; [done|]. split; [lia|]. split; [lia|done].
  - cbn [HeadlessRun.simulate].
    destruct Hinv as (Hwf & Hw & Hh & Hmax & Hall).
    assert (colony_wf c) as Hcwf.
    { split; [done|]. eapply Forall_impl; [exact Hall|].
      intros a. apply topology_brain_wf. }
    eapply returns_bind.
    { apply returns_and_run;
        [exact (Colony_update_returns cfg c Hcfg Hvalid Hcwf)|].
      intros g c1 g1 Hrun.
      exact (conj (Colony_update_run _ _ _ _ Hvalid Hrun Hall)
                  (Colony_update_counters cfg _ _ _ _ Hrun)). }
    intros c1 [[[Hwf1 _] Hmax1] [(Hall1 & Hw1 & Hh1 & He1) [Hsteps1 Hgen1]]].
    cbn beta in *.
    eapply returns_bind.
    { apply (Environment_update_returns fuel _ Hpick Hwf1).
      rewrite Hw1, Hh1, Hw, Hh. exact Hfar. }
    intros env1 (Hwfe & Hwe & Hhe & Helapsed).
    eapply returns_weaken.
    + apply (IH (Colony.set_environment c1 env1)).
      split; [exact Hwfe|]. cbn. split; [congruence|]. split; [congruence|].
      split; [by apply Hmax1|exact Hall1].
    + intros c' (Hinv' & Hsteps' & Helapsed' & Hgen'). cbn in *.
      split; [done|]. split; [lia|]. split; [lia|congruence].
Qed.

(** [evolve_generation] leaves the environment and the step counter of
    the colony alone, and counts a generation or none. *)
Lemma evolve_generation_frame (e e' : EvolutionManager.t) (c c' : Colony.t)
    g g' :
  EvolutionManager.evolve_generation cfg e c g = Some (e', c', g') →
  Colony.environment c' = Colony.environment c ∧
  Colony.total_steps c' = Colony.total_steps c ∧
  (EvolutionManager.generation e' = EvolutionManager.generation e ∨
   EvolutionManager.generation e' = (EvolutionManager.generation e + 1)%Z).
Proof.
  intros Hrun. destruct (Nat.ltb_spec (length (Colony.ants c)) 10) as [Hfew|Hten].
  - unfold EvolutionManager.evolve_generation in Hrun.
    apply Nat.ltb_lt in Hfew. rewrite Hfew in Hrun.
    apply ret_Some in Hrun as [[= <- <-] _]. split; [done|]. split; [done|by left].
  - apply evolve_generation_inv in Hrun as (best & elite & l & _ & _ & _ & -> & ->);
      [|done].
    cbn. split; [done|]. split; [done|by right].
Qed.

Lemma generations_loop_returns (fuel : nat) (width height : Z) (n : nat)
    (e : EvolutionManager.t) (c : Colony.t) :
  config_wf cfg →
  NeuralNetwork.valid_sizes (15%nat :: config.NEURAL_NETWORK_LAYERS cfg ++ [4%nat]) →
  choice_is_valid → pick_is_valid →
  returns (EnvironmentSteps.far_position fuel width height) (λ _, True) →
  run_invariant cfg width height c →
  let steps := (Z.of_nat n * Z.max 0 (schedule.GENERATION_LENGTH sch))%Z in
  returns (HeadlessRun.generations_loop cfg sch fuel n e c)
    (λ r, run_invariant cfg width height r.2 ∧
       Colony.total_steps r.2 = (Colony.total_steps c + steps)%Z ∧
       Environment.elapsed_steps (Colony.environment r.2)
         = (Environment.elapsed_steps (Colony.environment c) + steps)%Z ∧
       (EvolutionManager.generation e ≤ EvolutionManager.generation r.1
          ≤ EvolutionManager.generation e + Z.of_nat n)%Z).
Proof.
  intros Hcfg Hvalid Hchoice Hpick Hfar. revert e c.
  induction n as [|n IH]; intros e c Hinv steps; subst steps.
  - apply returns_ret. cbn. split; [done|]. repeat split; lia.
  - cbn [HeadlessRun.generations_loop].
    eapply returns_bind; [by apply (simulate_returns fuel width height)|].
    intros c1 ((Hwf1 & Hw1 & Hh1 & Hmax1 & Hall1) & Hsteps1 & He1 & _).
    eapply returns_bind.
    { apply (returns_and_run _
               (λ r, length (Colony.ants r.2) = length (Colony.ants c1) ∧
                     Forall (λ a, brain_of_topology 15
                                    (config.NEURAL_NETWORK_LAYERS cfg) 4 (Ant.brain a))
                            (Colony.ants r.2))
               (λ r, Colony.environment r.2 = Colony.environment c1 ∧
                     Colony.total_steps r.2 = Colony.total_steps c1 ∧
                     (EvolutionManager.generation r.1 = EvolutionManager.generation e ∨
                      EvolutionManager.generation r.1
                        = (EvolutionManager.generation e + 1)%Z)));
        [exact (evolve_generation_returns cfg e c1 _ _ _ Hchoice Hall1)|].
      intros g [e2 c2] g2 Hrun. exact (evolve_generation_frame _ _ _ _ _ _ Hrun). }
    intros [e2 c2] [[Hlen2 Hall2] (Henv2 & Hsteps2 & Hgen2)]. cbn in *.
    eapply returns_weaken.
    + apply (IH e2 c2). rewrite <-Henv2 in Hwf1, Hw1, Hh1.
      split; [done|]. split; [done|]. split; [done|]. split; [lia|done].
    + intros [e' c'] (Hinv' & Hsteps' & He' & Hgen'). cbn in *.
      split; [done|]. rewrite Hsteps', He', Hsteps2, Henv2, Hsteps1, He1.
      repeat split; lia.
Qed.

(** A new colony of at most [MAX_COLONY_SIZE] ants in a well-formed
    environment starts the run within its invariant. *)
Lemma Colony_init_invariant (env : Environment.t) (initial_ants : Z) :
  NeuralNetwork.valid_sizes (15%nat :: config.NEURAL_NETWORK_LAYERS cfg ++ [4%nat]) →
  environment_wf env →
  (initial_ants ≤ Z.of_nat (config.MAX_COLONY_SIZE cfg))%Z →
  returns (Colony.init cfg env initial_ants)
    (λ c, run_invariant cfg (Environment.width env) (Environment.height env) c ∧
          Colony.environment c = env ∧ Colony.total_steps c = 0%Z).
Proof.
  intros Hvalid Hwf Hmax. unfold Colony.init.
  eapply returns_bind; [apply returns_draw|]. intros dx _.
  eapply returns_bind; [apply returns_draw|]. intros dy _.
  eapply returns_bind;
    [exact (returns_repeatM _ _ _ (Ant_init_returns cfg _ Hvalid))|].
  intros l [Hlen Hants]. apply returns_ret. cbn.
  split; [|done]. split; [done|]. cbn. split; [done|]. split; [done|].
  split; [lia|]. eapply Forall_impl; [exact Hants|].
  by intros a (_ & _ & _ & _ & Hin & Hhid & Hout & Hconf).
Qed.

End RunFacts.

(** X29: under a configuration that lets ants step and build controllers
    and whose feature scales are not zero, with a generator whose [choice]
    draws valid samples and one of whose next [attempts] draws of a
    position, whatever its state, lies more than 150 away from the centre
    of the world, [run_headless(generations)] raises nothing from a colony
    within the invariant of the run, and every search of a food position
    ends within [attempts] attempts.  The run ends within that invariant,
    in a world of the same size, after [generations] times
    [GENERATION_LENGTH] steps of the colony and as many of the environment
    (none for a negative number of either), and it counts at most
    [generations] generations, since [evolve_generation] skips a population
    of fewer than ten. *)
Theorem EvolutionManager_run_headless_total `{!NumPy, !Random, !RandomPick}
    (cfg : config.t) (sch : schedule.t) (attempts : nat) (width height : Z)
    (e : EvolutionManager.t) (c : Colony.t) (generations : Z) :
  config_wf cfg → feature_scales_nonzero cfg →
  NeuralNetwork.valid_sizes (15%nat :: config.NEURAL_NETWORK_LAYERS cfg ++ [4%nat]) →
  choice_is_valid → pick_is_valid →
  draws_reach_far attempts width height →
  run_invariant cfg width height c →
  returns (HeadlessRun.run_headless cfg sch attempts e c generations)
    (λ r, run_invariant cfg width height r.2 ∧
       Colony.total_steps r.2
         = (Colony.total_steps c
            + Z.max 0 generations * Z.max 0 (schedule.GENERATION_LENGTH sch))%Z ∧
       Environment.elapsed_steps (Colony.environment r.2)
         = (Environment.elapsed_steps (Colony.environment c)
            + Z.max 0 generations * Z.max 0 (schedule.GENERATION_LENGTH sch))%Z ∧
       (EvolutionManager.generation e ≤ EvolutionManager.generation r.1
          ≤ EvolutionManager.generation e + Z.max 0 generations)%Z).
Proof.
  intros Hcfg _ Hvalid Hchoice Hpick Hdraws Hinv. unfold HeadlessRun.run_headless.
  assert (returns (EnvironmentSteps.far_position attempts width height) (λ _, True))
    as Hfar by (eapply returns_weaken; [by apply far_position_returns|done]).
  eapply returns_weaken.
  - by apply (generations_loop_returns cfg sch attempts width height).
  - intros r (Hinv' & Hsteps & Helapsed & Hgen). cbv zeta in Hsteps, Helapsed.
    assert (Hmax : ∀ z, Z.of_nat (Z.to_nat z) = Z.max 0 z) by lia.
    rewrite Hmax in Hsteps, Helapsed, Hgen.
    split; [done|]. split; [done|]. split; [done|]. exact Hgen.
Qed.

Lemma config_default_scales : feature_scales_nonzero config.default.
Proof. by repeat split. Qed.

Lemma EvolutionManager_run_headless_total_witness :
  ∃ env c g,
    Environment.init 1200 800 = Some env ∧
    @Colony.init numpy_rounding random_stub config.default env 2 0%nat
      = Some (c, g) ∧
    @returns random_stub _
      (@HeadlessRun.run_headless numpy_rounding random_stub random_pick_stub
         config.default schedule.default 1 EvolutionManager.init c 3)
      (λ r, Colony.total_steps r.2 = 15000%Z).
Proof.
  assert (NeuralNetwork.valid_sizes
            (15%nat :: config.NEURAL_NETWORK_LAYERS config.default ++ [4%nat]))
    as Hvalid by (cbn; repeat split; lia).
  destruct (Environment_init_zeros 1200 800) as (ps & Hinit & Hwf & _); [lia..|].
  cbv zeta in Hinit, Hwf.
  destruct (@Colony_init_invariant numpy_rounding random_stub config.default
              _ 2 Hvalid Hwf) with (g := 0%nat)
    as (c & g & Hrun & Hinv & _ & Hsteps); [cbn; lia|].
  eexists _, c, g. split; [exact Hinit|]. split; [exact Hrun|].
  eapply returns_weaken.
  - apply (@EvolutionManager_run_headless_total numpy_rounding random_stub
             random_pick_stub config.default schedule.default 1 1200 800
             EvolutionManager.init c 3).
    + exact config_default_wf.
    + exact config_default_scales.
    + exact Hvalid.
    + exact random_stub_choice_is_valid.
    + exact random_pick_stub_is_valid.
    + exact default_world_far.
    + exact Hinv.
  - intros r (_ & Htotal & _). rewrite Htotal, Hsteps. reflexivity.
Defined.

(** X30: the headless program.  For a world of non-negative size, at most
    [MAX_COLONY_SIZE] ants asked for, and the configuration and generator
    of the theorem above, [main] builds the environment, the colony and the
    first food, runs [TRAINING_GENERATIONS] generations and raises nothing.
    It ends within the invariant of the run, in a world of the configured
    size, after [TRAINING_GENERATIONS] times [GENERATION_LENGTH] steps of
    the colony and of the environment; the generation counter of the
    manager, which starts at zero, is at most [TRAINING_GENERATIONS]; and a
    model is saved exactly when a best agent was recorded. *)
Theorem main_headless_total `{!NumPy, !Random, !RandomPick}
    (cfg : config.t) (sch : schedule.t) (attempts : nat) (ants food : Z) :
  config_wf cfg → feature_scales_nonzero cfg →
  NeuralNetwork.valid_sizes (15%nat :: config.NEURAL_NETWORK_LAYERS cfg ++ [4%nat]) →
  choice_is_valid → pick_is_valid →
  (0 ≤ config.WORLD_WIDTH cfg)%Z → (0 ≤ config.WORLD_HEIGHT cfg)%Z →
  (ants ≤ Z.of_nat (config.MAX_COLONY_SIZE cfg))%Z →
  draws_reach_far attempts (config.WORLD_WIDTH cfg) (config.WORLD_HEIGHT cfg) →
  returns (HeadlessRun.main cfg sch attempts ants food)
    (λ r, run_invariant cfg (config.WORLD_WIDTH cfg) (config.WORLD_HEIGHT cfg) r.1.2 ∧
       Colony.total_steps r.1.2
         = (Z.max 0 (schedule.TRAINING_GENERATIONS sch)
            * Z.max 0 (schedule.GENERATION_LENGTH sch))%Z ∧
       Environment.elapsed_steps (Colony.environment r.1.2)
         = (Z.max 0 (schedule.TRAINING_GENERATIONS sch)
            * Z.max 0 (schedule.GENERATION_LENGTH sch))%Z ∧
       (0 ≤ EvolutionManager.generation r.1.1
          ≤ Z.max 0 (schedule.TRAINING_GENERATIONS sch))%Z ∧
       (is_Some r.2 ↔ is_Some (EvolutionManager.best_agent r.1.1))).
Proof.
  intros Hcfg _ Hvalid Hchoice Hpick Hw Hh Hants Hdraws. unfold HeadlessRun.main.
  assert (returns (EnvironmentSteps.far_position attempts (config.WORLD_WIDTH cfg)
                     (config.WORLD_HEIGHT cfg)) (λ _, True))
    as Hfar by (eapply returns_weaken; [by apply far_position_returns|done]).
  destruct (Environment_init_zeros _ _ Hw Hh) as (ps & Hinit & Hwf & _).
  cbv zeta in Hinit, Hwf. set (env := Environment.Build_t _ _ _ _ _ _) in *.
  eapply returns_bind;
    [exact (returns_lift _ _ (λ x, x = env) Hinit eq_refl)|].
  intros ? ->.
  eapply returns_bind;
    [exact (Colony_init_invariant cfg env ants Hvalid Hwf Hants)|].
  intros colony ((_ & _ & _ & Hmax & Hall) & Henv & Hsteps).
  eapply returns_bind.
  { unfold EnvironmentSteps.generate_food.
    by apply (generate_loop_returns cfg attempts _ _ env Hpick Hwf (length_seq _ _)). }
  intros env1 (new & _ & (_ & _ & _ & _ & Hw1 & Hh1) & _ & He1 & Hwf1).
  eapply returns_bind.
  { apply (generations_loop_returns cfg sch attempts (config.WORLD_WIDTH cfg)
             (config.WORLD_HEIGHT cfg) _ EvolutionManager.init
             (Colony.set_environment colony env1) Hcfg Hvalid Hchoice Hpick Hfar).
    split; [exact Hwf1|]. split; [exact Hw1|]. split; [exact Hh1|]. by split. }
  intros [e c] (Hinv & Htotal & Helapsed & Hgen). apply returns_ret.
  cbv zeta in Htotal, Helapsed. cbn in *.
  assert (Hmax0 : ∀ z, Z.of_nat (Z.to_nat z) = Z.max 0 z) by lia.
  rewrite Hmax0 in Htotal, Helapsed, Hgen.
  split; [exact Hinv|]. split; [by rewrite Htotal, Hsteps|].
  split; [by rewrite Helapsed, He1|]. split; [exact Hgen|].
  unfold EvolutionManager.save_model.
  destruct (EvolutionManager.best_agent e) as [agent|].
  - split; intros _; by eexists.
  - split; intros [x Hx]; discriminate.
Qed.

Lemma main_headless_total_witness :
  @returns random_stub _
    (@HeadlessRun.main numpy_rounding random_stub random_pick_stub
       config.default schedule.default 1 50 20)
    (λ r, Colony.total_steps r.1.2 = 500000%Z ∧
          (EvolutionManager.generation r.1.1 ≤ 100)%Z).
Proof.
  eapply returns_weaken.
  - apply (@main_headless_total numpy_rounding random_stub random_pick_stub
             config.default schedule.default 1 50 20).
    + exact config_default_wf.
    + exact config_default_scales.
    + cbn. repeat split; lia.
    + exact random_stub_choice_is_valid.
    + exact random_pick_stub_is_valid.
    + cbn. lia.
    + cbn. lia.
    + cbn. lia.
    + exact default_world_far.
  - intros r (_ & Htotal & _ & Hgen & _). split; [exact Htotal|]. cbn in Hgen. lia.
Defined.
